(* ===== verification/_CoqProject ===== *)
-Q . S2P
Prelude.v
Errors.v
Config.v
Interfaces.v
Cacher.v
Rating.v
Scores.v
PeersHolder.v
Preferred.v
SharedSlices.v
Wire.v
TopicMessage.v
PeerShard.v
Canonical.v
Printed.v
MutexHolder.v
TopicProcessors.v
Ports.v
PeersOnChannel.v
LoadBalancer.v
SendQueue.v
Message.v
DirectSender.v
DirectSends.v
DirectReceives.v
DirectDelivery.v
MessageVerifier.v
Distances.v
Sharding.v
Watcher.v
ConnMonitor.v
Connections.v
Discovery.v
DiscoveryLoop.v
Recovery.v
Crypto.v
Debugger.v
Topics.v
Messenger.v
DirectMessages.v
SendLoop.v
PeersInfo.v
Stats.v
Node.v
Network.v
Api.v
Gossip.v
TestNetwork.v
Issue349.v
