(* ===== verification/Prelude.v ===== *)
(** * Verification library of drt-go-chain-p2p

    ** The program

    The repository is the peer-to-peer layer of a blockchain node, in Go, above
    libp2p.  A [networkMessenger] ([src/libp2p/netMessenger.go]) owns a libp2p
    host and the components around it:
    - topics and message processors: pubsub topics the node joined, and for each
      topic the processors that see its messages;
    - broadcast: callers put objects on the channels of a load balancer
      ([outgoingChannelLoadBalancer.go]); one goroutine collects them, wraps them
      into topic messages ([data/topicMessage.pb.go]) and publishes them;
    - direct messages: a direct sender ([directSender.go]) writes signed messages
      on streams and filters replays of what it receives;
    - connections: a connection monitor with a sharder
      ([connectionMonitor/], [networksharding/]) trims the peers, reconnects when
      there are too few, and drops the peers a denial evaluator names; a peer
      discoverer ([discovery/]) finds new ones;
    - knowledge about peers: ratings ([rating/]), preferred peers
      ([peersHolder/]), peers on topics ([peersOnChannel.go]), shards;
    - signatures and identities ([crypto/]), a verifier of stored messages
      ([messageCheck/]), statistics ([debug/]).

    ** How the code is modelled

    A Go value is a Rocq value of the same shape: structs are records with the
    field names of the source, maps are [gmap]s, [[]byte] is [list byte], a
    fixed-width integer is a [Z] whose wrap-around is written out ([u32], [u64],
    [i64] below).  A method is a function from the receiver's state and its
    arguments to its results and the new state.  [(T, error)] is [result T], and
    code that may panic returns an [outcome].  An argument that may be nil is an
    [option].  Iteration over a map is in an order the environment chooses
    ([Interfaces.MapRange]), so the theorems hold for every order.  A method
    that holds a mutex is one step; goroutines and channels are step relations
    ([LoadBalancer.step], [SendQueue.qstep], [SendLoop.step],
    [DirectSends.step], [DirectReceives.step], [DiscoveryLoop.OptimizedLoop.step], [ConnMonitor.cm_step],
    [Connections.step], [Recovery.step], [Stats.Printer.step]) or explicit pending tasks ([Messenger.spawned]); a
    whole node, a network of nodes and the spreading of a message are step
    relations over these ([Api.step], [Network.net_step], [Gossip.step]).  Objects shared by reference live in one place
    (the heap of [Topics], the rating handler inside the peers on topics, the
    sharder and the preferred peers inside the connection monitor).  Clock
    readings are arguments.  Code outside the repository (libp2p, pubsub, the
    caches, cryptography, display of tables) is a class with laws that state its
    documented behaviour, or a section variable; every class has an instance,
    and the witnesses run the theorems on these instances.

    ** The files

    - [Prelude]: this header, results and outcomes, bytes, machine integers, the
      functions of Go's [strings] package, list lemmas, automation.
    - [Errors]: sentinel errors with their texts, wrapping, [errors.Is].
    - [Config], [Interfaces], [Cacher]: configuration records; the interfaces
      between components; the cache interface with a map and an LRU instance, and
      with the room a cache has ([CacherRoom]).
    - [Rating] ([rating/peersRatingHandler.go]): the two tiers of ratings.
      [rating_tiers_invariant], [rating_updates_spec],
      [GetTopRatedPeersFromList_spec].
    - [Scores]: the map of scores behind the two tiers.  [ratings_refine], while the
      caches have room.
    - [PeersHolder] ([peersHolder/]): preferred peers by connection address and
      shard.  [index_ok_invariant] and [Remove_spec] for the indices that are
      right, [Remove_stale_index] for those that are not, [PutShardID_registers].
    - [Preferred]: the roster of preferred peers that the holder implements.
      [preferred_refines]; [registered_again].
    - [SharedSlices]: the arrays behind the lists of the shards.  [Get_shares]: what a
      caller of [Get] sees when peers are listed and removed.
    - [Wire], [TopicMessage], [PeerShard] ([*.pb.go]): the generated codecs over
      shared primitives.  Round trips, unknown fields are skipped, and
      [Marshal_buffers]: where the bytes go in a given buffer, and when they do not fit.
    - [Canonical]: what the codecs accept.  [Unmarshal_typed].  [Printed]: the printed
      form of the messages, which determines them ([String_determines]).
    - [MutexHolder], [TopicProcessors], [Ports], [PeersOnChannel]: the small
      components of [libp2p/]; [peersOnChannel_freshness], [getPort_spec].
    - [LoadBalancer] ([outgoingChannelLoadBalancer.go]): channels and their
      goroutines as a step relation.  [channel_fifo]; [RemoveChannel_nil_flood].
    - [SendQueue]: the queue of these goroutines at the main channel.
      [sent_objects_collected] (liveness), [bounded_waiting].
    - [Message] ([libp2p/message.go], [message/]): messages and the marshaller
      class, which the generated codec implements.
    - [DirectSender]: [processReceivedDirectMessage_spec], [no_replay],
      [Send_spec], [sequence_numbers_distinct].
    - [DirectSends]: concurrent calls of [Send] as goroutines of atomic steps over
      the mutexes of [MutexHolder].  [messages_in_order], [one_sender_per_peer] while
      the holder has room and [mutex_forgotten] when it has not, [sends_progress]
      (no deadlock), [alone_is_Send] (the steps in a row are [DirectSender.Send]).
    - [DirectReceives]: the goroutines of [directStreamHandler], one per stream, over
      the shared cache of seen messages.  [handed_once],
      [alone_is_directStreamHandler] (the steps in a row are the method).
    - [DirectDelivery]: both together.  [sent_and_handed]: what concurrent calls of
      [Send] write is handed to the messenger of the peer once, in order.
    - [MessageVerifier] ([messageCheck/]): [Deserialize_Serialize],
      [Verify_direct_message].
    - [Distances], [Sharding] ([networksharding/]): distances between peers and
      the eviction lists of the sharders.  [eviction_bounds], [eviction_order].
    - [Watcher] ([metrics/]), [ConnMonitor] ([connectionMonitor/],
      [connectionMonitorWrapper.go], [hostWithConnectionManagement.go]):
      [Connected_trims], [Connect_spec], [reconnections_are_spaced],
      [Disconnected_keeps_preferred].
    - [Connections]: the handlers of many connections, interleaved with the network,
      over an interface of the sharders.  [connections_bounded].
    - [Discovery] ([discovery/]): the discoverers and their factory.
      [tryConnectToSeeder_round_robin], [one_initialisation].
    - [DiscoveryLoop]: the loops of the two discoverers as step relations.
      [OptimizedLoop.Bootstrap_answers], [OptimizedLoop.timers_armed],
      [ContinuousLoop.DHT_calls_gated].
    - [Recovery]: the monitor and the optimized discoverer together, in time.
      [seeders_tried_again] (liveness), [losses_answered] (requests that are taken have
      all seeders tried), [refused_Bootstrap_postpones] (refused calls set the timer
      again, and for how long that keeps the seeders from being dialled).
    - [Crypto] ([crypto/]): [Sign_then_Verify].
    - [Debugger] ([debug/]): counters, [float32] division, the printed table.
      [statsToString_spec].
    - [Topics]: the topics and processors of the messenger over the pubsub class;
      [registration_refines] refines them to a map from topics to processors,
      [UnregisterAllMessageProcessors_spec].
    - [Messenger]: sending and receiving.  [message_acceptance],
      [pubsub_reception], [undecodable_peers_denied], and the end-to-end
      theorems [broadcast_delivered] and [direct_message_processed], which
      compose the messenger with the marshaller, the direct sender and [Topics].
    - [DirectMessages]: from clients to processors over all of these.
      [direct_messages_processed].
    - [SendLoop] ([createPubSub]): the goroutine that collects and publishes,
      between the clients, the throttler and the load balancer.
      [publications_in_order], [publication_rate], [throttle_limit], and
      [forwarder_left]: a goroutine that the end of the context does not stop.
    - [PeersInfo]: the views on the connected peers; [GetConnectedPeersInfo_spec].
    - [Stats]: what the node prints about itself, and the goroutine that prints
      it.  [Printer.statistics_account].
    - [Node]: construction and shutdown, also of the mock and test messengers.
      [constructNodeWithPortRetry_spec], [parseTransportOptions_spec], [Close_spec] and
      [construction_accounts]: the host, the goroutines and the error of every
      construction, and what a failed one leaves behind.
    - [Network]: honest nodes among other peers.  [authentic_delivery]: what a
      processor sees in the name of a node was sent by a client of that node.
    - [Api] ([interface.go]): the interface [Messenger] over a whole node with its
      goroutines, but the loop of the discoverer, which is in [DiscoveryLoop].
      [node_never_panics].
    - [Gossip]: one message that spreads over the nodes of a topic, each passing it
      on when its processors accept it, with seen caches that expire and a clock per
      node.  [message_spreads] for every order of arrivals over any time,
      [message_reaches_everyone] (exactly once) when nobody refuses it and it
      spreads within the life span of the caches, [processed_again] beyond it.
    - [TestNetwork] ([integrationTests/]): the networks and processors of the
      integration tests.  [RunTest_succeeds].
    - [Issue349] ([issues/pubsub_349/]): a program over raw libp2p hosts.
      [create8_links].

    ** Fuel and bounds

    [Wire.encode_loop] has ten rounds, the length of a 64-bit varint; the loops of
    [skip] and [Unmarshal] have the length of their input as fuel, as every round
    reads a byte ([TopicMessage.unmarshal_loop_fuel], [Wire.skip_loop_fuel]);
    [Discovery.tryConnectToSeeder] takes the number of dials as fuel and its
    theorem says which number is enough; [Node.portRetry] has the ten rounds of
    the source; [Gossip.deliver_all] delivers one copy per round and
    [Gossip.total] counts the copies there can be when every node sends them once
    ([Gossip.deliver_all_rests]); over any time at most twice as many arrive.  The codec theorems need a total size below 2^63 (an [int]); the
    messenger derives it from the limit on the size of a buffer.
    [DirectSends.run_alone] has eight steps, which is what a call takes, and
    [DirectReceives.run_alone] four per message; the theorems of [DirectSends] on
    peers need room for them in the mutex holder, and [mutex_forgotten] shows that one
    peer more is too many.  In [Recovery] a round of the discoverer takes at most
    [roundTime], a parameter, and time passes only when no goroutine can go on.  In
    [Gossip] the clock of a node is any function of the true time; that a node
    processes a message at most twice needs clocks that do not fall behind within
    ten minutes.  [Messenger]
    assumes clocks between 1970 and 2116, where [Unix] does not wrap.

    ** Not modelled

    Log lines, except those with the addresses and the statistics of a node and
    those of a failed dial; [GoString] (it tells nil slices from empty ones, the model
    does not) and the wrappers that call the protobuf runtime and the descriptor tables of the generated files; the mocks and stubs;
    [localSyncTimer] (the system clock); the nil receivers of [IsInterfaceNil].
    Pubsub's own protocol is not in the repository: to whom it forwards
    is a parameter of [Gossip], its seen cache is that of its documentation.
    Data races are not modelled: the steps are the sections under a mutex. *)

From Stdlib Require Import ZArith Lia Ascii String Strings.Byte Sorted.
From stdpp Require Import prelude gmap strings list sorting pretty.

(** ** Notations *)

Declare Scope go_scope.
Delimit Scope go_scope with go.

(** A Go function returning [(T, error)] is a function into [res E T]. *)
Inductive res (E A : Type) : Type :=
| Ok (a : A)
| Err (e : E).
Arguments Ok {E A} & a.
Arguments Err {E A} & e.

Notation "'let?' x ':=' m 'in' k" :=
  (match m with Ok x => k | Err err => Err err end)
  (at level 10, x pattern, m at level 100, k at level 200) : go_scope.
#[global] Open Scope go_scope.

(** The outcome of Go code that may panic (index out of range, nil
    dereference): [Panic] is the unrecovered panic. *)
Inductive outcome (A : Type) : Type :=
| Ret (a : A)
| Panic.
Arguments Ret {A} & a.
Arguments Panic {A}.

Notation "'let!' x ':=' m 'in' k" :=
  (match m with Ret x => k | Panic => Panic end)
  (at level 10, x pattern, m at level 100, k at level 200) : go_scope.

#[export] Instance res_eq_dec {E A} `{EqDecision E, EqDecision A} : EqDecision (res E A).
Proof. solve_decision. Defined.
#[export] Instance outcome_eq_dec {A} `{EqDecision A} : EqDecision (outcome A).
Proof. solve_decision. Defined.

Definition is_ok {E A} (r : res E A) : bool :=
  match r with Ok _ => true | Err _ => false end.

(** ** Bytes and byte slices

    A Go [string] is a [string] (a sequence of 8-bit characters), a Go
    [[]byte] is a [bytes]; a [[]byte] whose [nil]-ness is observed by the code
    is an [option bytes]. *)

Abbreviation bytes := (list byte).

#[export] Instance byte_eq_decision : EqDecision byte := byte_eq_dec.

Definition b2z (b : byte) : Z := Z.of_N (Byte.to_N b).

(** Conversion of an integer to [uint8]: reduction modulo 256. *)
Definition z2b (z : Z) : byte :=
  match Byte.of_N (Z.to_N (z mod 256)) with Some b => b | None => x00 end.

Lemma b2z_range b : (0 <= b2z b < 256)%Z.
Proof.
  unfold b2z. pose proof (Byte.to_N_bounded b). lia.
Qed.

Lemma b2z_z2b z : b2z (z2b z) = (z mod 256)%Z.
Proof.
  unfold b2z, z2b.
  pose proof (Z.mod_pos_bound z 256 eq_refl) as Hb.
  destruct (Byte.of_N _) as [b|] eqn:E.
  - apply Byte.to_of_N in E. rewrite E. lia.
  - apply Byte.of_N_None_iff in E. lia.
Qed.

Lemma z2b_b2z b : z2b (b2z b) = b.
Proof.
  unfold z2b, b2z. pose proof (Byte.to_N_bounded b).
  rewrite Z.mod_small by lia. rewrite N2Z.id, Byte.of_to_N. done.
Qed.

#[export] Instance b2z_inj : Inj (=) (=) b2z.
Proof. intros a b E. by rewrite <- (z2b_b2z a), <- (z2b_b2z b), E. Qed.

Lemma b2z_z2b_small z : (0 <= z < 256)%Z -> b2z (z2b z) = z.
Proof. intros. rewrite b2z_z2b. by apply Z.mod_small. Qed.

(** The conversions [string(b)] and [[]byte(s)]. *)
Definition string_of_bytes (b : bytes) : string := string_of_list_byte b.
Definition bytes_of_string (s : string) : bytes := list_byte_of_string s.

Lemma bytes_of_string_of_bytes b : bytes_of_string (string_of_bytes b) = b.
Proof. apply list_byte_of_string_of_list_byte. Qed.
Lemma string_of_bytes_of_string s : string_of_bytes (bytes_of_string s) = s.
Proof. apply string_of_list_byte_of_string. Qed.

Lemma bytes_of_string_app a b : bytes_of_string (a +:+ b) = bytes_of_string a ++ bytes_of_string b.
Proof.
  unfold bytes_of_string, list_byte_of_string. induction a as [|c a IH]; [done|].
  change (String c a +:+ b) with (String c (a +:+ b)). cbn [list_ascii_of_string map app]. f_equal. exact IH.
Qed.

#[export] Instance string_of_bytes_inj : Inj (=) (=) string_of_bytes.
Proof.
  intros a b E. by rewrite <- (bytes_of_string_of_bytes a), E, bytes_of_string_of_bytes.
Qed.
#[export] Instance bytes_of_string_inj : Inj (=) (=) bytes_of_string.
Proof.
  intros a b E. by rewrite <- (string_of_bytes_of_string a), E, string_of_bytes_of_string.
Qed.

(** ** Machine integers

    A fixed-width integer is a [Z] in its range; the wrap-around of an
    operation is written out with the function of the type. *)

Definition u8 (z : Z) : Z := (z mod 2 ^ 8)%Z.
Definition u32 (z : Z) : Z := (z mod 2 ^ 32)%Z.
Definition u64 (z : Z) : Z := (z mod 2 ^ 64)%Z.
Definition i32 (z : Z) : Z := ((z + 2 ^ 31) mod 2 ^ 32 - 2 ^ 31)%Z.
Definition i64 (z : Z) : Z := ((z + 2 ^ 63) mod 2 ^ 64 - 2 ^ 63)%Z.

Definition in_u32 (z : Z) : Prop := (0 <= z < 2 ^ 32)%Z.
Definition in_u64 (z : Z) : Prop := (0 <= z < 2 ^ 64)%Z.
Definition in_i32 (z : Z) : Prop := (- 2 ^ 31 <= z < 2 ^ 31)%Z.
Definition in_i64 (z : Z) : Prop := (- 2 ^ 63 <= z < 2 ^ 63)%Z.

Lemma u32_id z : in_u32 z -> u32 z = z.
Proof. apply Z.mod_small. Qed.
Lemma u64_id z : in_u64 z -> u64 z = z.
Proof. apply Z.mod_small. Qed.
Lemma i32_id z : in_i32 z -> i32 z = z.
Proof. unfold in_i32, i32. intros. rewrite Z.mod_small; lia. Qed.
Lemma i64_id z : in_i64 z -> i64 z = z.
Proof. unfold in_i64, i64. intros. rewrite Z.mod_small; lia. Qed.
Lemma u32_range z : in_u32 (u32 z).
Proof. by apply Z.mod_pos_bound. Qed.
Lemma u64_range z : in_u64 (u64 z).
Proof. by apply Z.mod_pos_bound. Qed.
Lemma i64_range z : in_i64 (i64 z).
Proof.
  unfold in_i64, i64. pose proof (Z.mod_pos_bound (z + 2 ^ 63) (2 ^ 64) eq_refl). lia.
Qed.

Lemma i64_u64 z : i64 (u64 z) = i64 z.
Proof. unfold i64, u64. by rewrite Zplus_mod_idemp_l. Qed.
Lemma u64_i64 z : u64 (i64 z) = u64 z.
Proof.
  unfold i64, u64. rewrite Zminus_mod_idemp_l. f_equal. lia.
Qed.
Lemma u32_u64 z : u32 (u64 z) = u32 z.
Proof.
  unfold u32, u64. apply Z.mod_mod_divide. exists (2 ^ 32)%Z. lia.
Qed.

(** ** Go strings package

    The functions of Go's [strings] package the source uses. *)

Fixpoint strings_Contains (s sub : string) : bool :=
  String.prefix sub s ||
  match s with
  | EmptyString => false
  | String _ s' => strings_Contains s' sub
  end.

Lemma prefix_cons a b p s :
  String.prefix (String a p) (String b s) = if ascii_dec a b then String.prefix p s else false.
Proof. done. Qed.

Lemma prefix_spec p s : String.prefix p s = true <-> exists t, s = (p +:+ t)%string.
Proof.
  revert s. induction p as [|a p IH]; intros s.
  - split; [intros _; by exists s | intros _; destruct s; reflexivity].
  - destruct s as [|b s].
    + split; [discriminate | intros [t [=]]].
    + rewrite prefix_cons. destruct (ascii_dec a b) as [->|Hne].
      * rewrite IH. split; intros [t Ht]; exists t; [by rewrite Ht | by injection Ht].
      * split; [done | intros [t Ht]]. by injection Ht.
Qed.

Lemma strings_Contains_cons c s sub :
  strings_Contains (String c s) sub = String.prefix sub (String c s) || strings_Contains s sub.
Proof. done. Qed.

Lemma strings_Contains_spec s sub :
  strings_Contains s sub = true <-> exists a b, s = (a +:+ sub +:+ b)%string.
Proof.
  induction s as [|c s IH].
  - change (strings_Contains "" sub) with (String.prefix sub "" || false).
    rewrite orb_false_r, prefix_spec. split.
    + intros [t Ht]. by exists ""%string, t.
    + intros ([|c a] & b & E); [by exists b | done].
  - rewrite strings_Contains_cons, orb_true_iff, prefix_spec, IH. split.
    + intros [[t Ht]|(a & b & ->)]; [by exists ""%string, t | by exists (String c a), b].
    + intros ([|c' a] & b & E); [left; by exists b | right].
      exists a, b. by injection E.
Qed.

Lemma strings_Contains_refl s : strings_Contains s s = true.
Proof.
  apply strings_Contains_spec. exists ""%string, ""%string.
  induction s as [|c s IH]; [done|]. change (String c s = String c (s +:+ "")). by f_equal.
Qed.

(** Non-overlapping occurrences of a non-empty [sub] in [s]; [skip] characters
    of the current occurrence are still to be passed over. *)
Fixpoint count_from (s sub : string) (skip : nat) : Z :=
  match s with
  | EmptyString => 0%Z
  | String _ s' =>
      match skip with
      | S k => count_from s' sub k
      | O => if String.prefix sub s
             then (1 + count_from s' sub (String.length sub - 1))%Z
             else count_from s' sub 0
      end
  end.
Definition strings_Count (s sub : string) : Z := count_from s sub 0.

(** [strings.Split(s, sep)] for a separator of one character. *)
Fixpoint strings_Split (s : string) (sep : ascii) : list string :=
  match s with
  | EmptyString => [""%string]
  | String c s' =>
      if decide (c = sep) then ""%string :: strings_Split s' sep
      else match strings_Split s' sep with
           | [] => [String c ""]
           | w :: ws => String c w :: ws
           end
  end.

(** The character [\n]. *)
Definition newline : ascii := "010"%char.

(** [strings.Join(l, sep)]. *)
Fixpoint strings_Join (l : list string) (sep : string) : string :=
  match l with
  | [] => ""
  | [w] => w
  | w :: l' => w +:+ sep +:+ strings_Join l' sep
  end.

(** ** Lists *)

Lemma Permutation_filter_split {A} (P : A -> Prop) `{!forall x, Decision (P x)} (l : list A) :
  l ≡ₚ filter P l ++ filter (fun x => ~ P x) l.
Proof.
  induction l as [|x l IH]; [done|]. rewrite !filter_cons.
  destruct (decide (P x)); destruct (decide (~ P x)); try done; simpl.
  - by apply perm_skip.
  - rewrite <- Permutation_middle. by apply perm_skip.
Qed.

Lemma filter_iff_in {A} (P1 P2 : A -> Prop) `{!forall x, Decision (P1 x)} `{!forall x, Decision (P2 x)} (l : list A) :
  (forall x, x ∈ l -> P1 x <-> P2 x) -> filter P1 l = filter P2 l.
Proof.
  induction l as [|x l IH]; intros Hl; [done|]. rewrite !filter_cons, IH by (intros y Hy; apply Hl; by right).
  pose proof (Hl x ltac:(by left)). by repeat case_decide; try tauto.
Qed.

Lemma filter_all_true {A} (P : A -> Prop) `{!forall x, Decision (P x)} (l : list A) :
  (forall x, x ∈ l -> P x) -> filter P l = l.
Proof.
  induction l as [|x l IH]; intros Hl; [done|].
  rewrite filter_cons_True by (apply Hl; set_solver). by rewrite IH by (intros; apply Hl; set_solver).
Qed.

Lemma filter_all_false {A} (P : A -> Prop) `{!forall x, Decision (P x)} (l : list A) :
  (forall x, x ∈ l -> ~ P x) -> filter P l = [].
Proof.
  induction l as [|x l IH]; intros Hl; [done|].
  rewrite filter_cons_False by (apply Hl; set_solver). apply IH. intros. apply Hl. set_solver.
Qed.

Lemma length_filter_impl {A} (P Q : A -> Prop) `{!forall x, Decision (P x)} `{!forall x, Decision (Q x)} (l : list A) :
  (forall x, x ∈ l -> P x -> Q x) -> (length (filter P l) <= length (filter Q l))%nat.
Proof.
  induction l as [|x l IH]; intros Hl; [done|]. rewrite !filter_cons.
  pose proof (Hl x ltac:(by left)). pose proof (IH (fun y Hy => Hl y ltac:(by right))).
  repeat case_decide; cbn [length]; try tauto; lia.
Qed.

(** Sorted lists: the order of two positions, parts of a list, and lists that
    correspond element by element. *)
Lemma StronglySorted_lookup {A} (R : A -> A -> Prop) (l : list A) i j x y :
  StronglySorted R l -> (i < j)%nat -> l !! i = Some x -> l !! j = Some y -> R x y.
Proof.
  intros Hs. revert i j. induction Hs as [|z l Hs IH Hall]; intros [|i] [|j] Hlt Hi Hj; try done; try lia.
  - injection Hi as ->. rewrite Forall_forall in Hall. apply Hall. by eapply list_elem_of_lookup_2.
  - apply (IH i j); [lia | done..].
Qed.

Lemma StronglySorted_sublist {A} (R : A -> A -> Prop) (l l' : list A) :
  l `sublist_of` l' -> StronglySorted R l' -> StronglySorted R l.
Proof.
  induction 1 as [|x l l' Hl IH|x l l' Hl IH]; intros Hs; [constructor|..]; apply StronglySorted_inv in Hs as [Hs Hall];
    [|by apply IH].
  constructor; [by apply IH|]. apply Forall_forall. intros y Hy. rewrite Forall_forall in Hall.
  apply Hall. by eapply elem_of_sublist.
Qed.

Lemma StronglySorted_Forall2 {A B} (R : A -> A -> Prop) (R' : B -> B -> Prop) (P : A -> B -> Prop) l k :
  (forall x x' y y', P x y -> P x' y' -> R x x' -> R' y y') -> Forall2 P l k -> StronglySorted R l -> StronglySorted R' k.
Proof.
  intros HR. induction 1 as [|x y l k Hxy Hlk IH]; intros Hs; [constructor|]. apply StronglySorted_inv in Hs as [Hs Hall].
  constructor; [by apply IH|]. apply Forall_forall. intros y' [j Hj]%list_elem_of_lookup.
  destruct (Forall2_lookup_r _ _ _ _ _ Hlk Hj) as (x' & Hj' & Hx'). rewrite Forall_forall in Hall.
  eapply HR; [exact Hxy | exact Hx' |]. apply Hall. by eapply list_elem_of_lookup_2.
Qed.

(** The part of thread [i] in a history of what several threads did. *)
Definition of_thread {A} (i : nat) (l : list (nat * A)) : list A := (filter (fun e => e.1 = i) l).*2.

Lemma elem_of_thread {A} i (l : list (nat * A)) x : x ∈ of_thread i l <-> (i, x) ∈ l.
Proof.
  unfold of_thread. rewrite list_elem_of_fmap. split.
  - intros ([j y] & -> & [E Hin]%list_elem_of_filter). cbn in E. by subst.
  - intros Hin. exists (i, x). split; [done|]. by apply list_elem_of_filter.
Qed.

(** What thread [i] does next is added to its own part. *)
Lemma of_thread_app {A} (l : list (nat * A)) i (evs : list A) j :
  of_thread j (l ++ ((i,.) <$> evs)) = of_thread j l ++ if decide (i = j) then evs else [].
Proof.
  unfold of_thread. rewrite filter_app, fmap_app. f_equal. destruct (decide (i = j)) as [->|Hne].
  - rewrite filter_all_true by (by intros ? (? & -> & _)%list_elem_of_fmap).
    rewrite <- list_fmap_compose. by rewrite list_fmap_id.
  - rewrite filter_all_false; [done|]. by intros ? (? & -> & _)%list_elem_of_fmap.
Qed.

(** ** Automation *)

Create HintDb p2p.
Create Rewrite HintDb p2p_rw.
#[export] Hint Resolve b2z_range u32_range u64_range i64_range : p2p.
#[export] Hint Rewrite @b2z_z2b @z2b_b2z bytes_of_string_of_bytes string_of_bytes_of_string : p2p_rw.

(** Case analysis on every [match] and [if] of the goal and the context. *)
Ltac go_cases :=
  repeat (case_match; simplify_eq/=; try done).

(** Reduce the map lookups of a goal about updated maps. *)
Ltac map_cases :=
  repeat match goal with
  | |- context [<[?i:=_]> _ !! ?j] => destruct (decide (i = j)); simplify_map_eq
  | H : context [<[?i:=_]> _ !! ?j] |- _ => destruct (decide (i = j)); simplify_map_eq
  | |- context [delete ?i _ !! ?j] => destruct (decide (i = j)); simplify_map_eq
  | H : context [delete ?i _ !! ?j] |- _ => destruct (decide (i = j)); simplify_map_eq
  end.
