(* ===== verification/Errors.v ===== *)
(** * Errors: the error values of the program

    The sentinel errors of [errors.go], [libp2p/crypto/errors.go],
    [libp2p/metrics/errors.go] and [libp2p/metrics/factory/errors.go] with their
    texts, wrapping by [fmt.Errorf("%w...")] (every use in the source has the
    wrapped error first), the text of an error and [errors.Is]. *)

From S2P Require Import Prelude.
From Stdlib Require Import String.
From stdpp Require Import prelude strings list.

(** The sentinel errors. *)
Inductive sentinel : Type :=
(* errors.go *)
| ErrNilContext
| ErrNilMockNet
| ErrNilTopic
| ErrChannelDoesNotExist
| ErrChannelCanNotBeDeleted
| ErrChannelCanNotBeReAdded
| ErrNilMessage
| ErrAlreadySeenMessage
| ErrMessageTooNew
| ErrMessageTooOld
| ErrNilDirectSendMessageHandler
| ErrPeerNotDirectlyConnected
| ErrNilHost
| ErrNilValidator
| ErrPeerDiscoveryProcessAlreadyStarted
| ErrMessageTooLarge
| ErrEmptyBufferToSend
| ErrNilFetchPeersOnTopicHandler
| ErrInvalidDurationProvided
| ErrTooManyGoroutines
| ErrInvalidValue
| ErrInvalidPortValue
| ErrInvalidPortsRangeString
| ErrInvalidStartingPortValue
| ErrInvalidEndingPortValue
| ErrEndPortIsSmallerThanStartPort
| ErrNoFreePortInRange
| ErrNilSharder
| ErrNilPeerShardResolver
| ErrNilMarshalizer
| ErrWrongTypeAssertion
| ErrNilReconnecter
| ErrUnwantedPeer
| ErrNilPeerDenialEvaluator
| ErrMessageUnmarshalError
| ErrUnsupportedFields
| ErrUnsupportedMessageVersion
| ErrNilSyncTimer
| ErrNilPreferredPeersHolder
| ErrInvalidSeedersReconnectionInterval
| ErrMessageProcessorAlreadyDefined
| ErrMessageProcessorDoesNotExists
| ErrWrongTypeAssertions
| ErrNilConnectionsWatcher
| ErrNilPeersRatingHandler
| ErrNilP2pPrivateKey
| ErrNilP2pSingleSigner
| ErrNilP2pKeyGenerator
| ErrNilCacher
| ErrNilP2PSigner
| ErrNilPeerTopicNotifier
| ErrInvalidTCPAddress
| ErrInvalidQUICAddress
| ErrInvalidWSAddress
| ErrInvalidWebTransportAddress
| ErrNoTransportsDefined
(* libp2p/crypto/errors.go *)
| ErrNilPrivateKey
| ErrNilPublicKey
| ErrNilSingleSigner
| ErrNilKeyGenerator
(* libp2p/metrics/errors.go *)
| ErrInvalidValueForTimeToLiveParam
(* libp2p/metrics/factory/errors.go *)
| ErrUnknownConnectionWatcherType.

#[export] Instance sentinel_eq_dec : EqDecision sentinel.
Proof. solve_decision. Defined.

(** [errors.New(...)] of each sentinel. *)
Definition errors_New (s : sentinel) : string :=
  match s with
  | ErrNilContext => "nil context"
  | ErrNilMockNet => "nil mocknet provided"
  | ErrNilTopic => "nil topic"
  | ErrChannelDoesNotExist => "channel does not exist"
  | ErrChannelCanNotBeDeleted => "channel can not be deleted"
  | ErrChannelCanNotBeReAdded => "channel can not be re added"
  | ErrNilMessage => "nil message"
  | ErrAlreadySeenMessage => "already seen this message"
  | ErrMessageTooNew => "message is too new"
  | ErrMessageTooOld => "message is too old"
  | ErrNilDirectSendMessageHandler => "nil direct sender message handler"
  | ErrPeerNotDirectlyConnected => "peer is not directly connected"
  | ErrNilHost => "nil host"
  | ErrNilValidator => "no validator has been set for this topic"
  | ErrPeerDiscoveryProcessAlreadyStarted => "peer discovery is already turned on"
  | ErrMessageTooLarge => "buffer too large"
  | ErrEmptyBufferToSend => "empty buffer to send"
  | ErrNilFetchPeersOnTopicHandler => "nil fetch peers on topic handler"
  | ErrInvalidDurationProvided => "invalid time.Duration provided"
  | ErrTooManyGoroutines => " number of goroutines exceeded"
  | ErrInvalidValue => "invalid value"
  | ErrInvalidPortValue => "invalid port value"
  | ErrInvalidPortsRangeString => "invalid ports range string"
  | ErrInvalidStartingPortValue => "invalid starting port value"
  | ErrInvalidEndingPortValue => "invalid ending port value"
  | ErrEndPortIsSmallerThanStartPort => "ending port value is smaller than the starting port value"
  | ErrNoFreePortInRange => "no free port in range"
  | ErrNilSharder => "nil sharder"
  | ErrNilPeerShardResolver => "nil PeerShardResolver"
  | ErrNilMarshalizer => "nil marshalizer"
  | ErrWrongTypeAssertion => "wrong type assertion"
  | ErrNilReconnecter => "nil reconnecter"
  | ErrUnwantedPeer => "unwanted peer: will not initiate connection as it will get disconnected"
  | ErrNilPeerDenialEvaluator => "nil peer denial evaluator"
  | ErrMessageUnmarshalError => "message unmarshal error"
  | ErrUnsupportedFields => "unsupported fields"
  | ErrUnsupportedMessageVersion => "unsupported message version"
  | ErrNilSyncTimer => "nil sync timer"
  | ErrNilPreferredPeersHolder => "nil peers holder"
  | ErrInvalidSeedersReconnectionInterval => "invalid seeders reconnection interval"
  | ErrMessageProcessorAlreadyDefined => "message processor already defined"
  | ErrMessageProcessorDoesNotExists => "message processor does not exists"
  | ErrWrongTypeAssertions => "wrong type assertion"
  | ErrNilConnectionsWatcher => "nil connections watcher"
  | ErrNilPeersRatingHandler => "nil peers rating handler"
  | ErrNilP2pPrivateKey => "nil p2p private key"
  | ErrNilP2pSingleSigner => "nil p2p single signer"
  | ErrNilP2pKeyGenerator => "nil p2p key generator"
  | ErrNilCacher => "nil cacher"
  | ErrNilP2PSigner => "nil p2p signer"
  | ErrNilPeerTopicNotifier => "nil peer topic notifier"
  | ErrInvalidTCPAddress => "invalid TCP address"
  | ErrInvalidQUICAddress => "invalid QUIC address"
  | ErrInvalidWSAddress => "invalid WebSocket address"
  | ErrInvalidWebTransportAddress => "invalid WebTransport address"
  | ErrNoTransportsDefined => "no transports defined"
  | ErrNilPrivateKey => "nil private key"
  | ErrNilPublicKey => "nil public key"
  | ErrNilSingleSigner => "nil single signer"
  | ErrNilKeyGenerator => "nil key generator"
  | ErrInvalidValueForTimeToLiveParam => "invalid value for the time-to-live parameter"
  | ErrUnknownConnectionWatcherType => "unknown connection type"
  end.

(** An error value: a sentinel, an error wrapped by [fmt.Errorf("%w" + suffix)],
    or an error made by other code of which only the text is known. *)
Inductive error : Type :=
| ErrSentinel (s : sentinel)
| ErrWrap (e : error) (suffix : string)
| ErrText (text : string).
Coercion ErrSentinel : sentinel >-> error.

#[export] Instance error_eq_dec : EqDecision error.
Proof. solve_decision. Defined.

(** The [Error()] method. *)
Fixpoint Error (e : error) : string :=
  match e with
  | ErrSentinel s => errors_New s
  | ErrWrap e' suffix => Error e' +:+ suffix
  | ErrText t => t
  end.

(** [errors.Is(e, s)]: some error of the chain of [e] is [s]. *)
Fixpoint errors_Is (e : error) (s : sentinel) : bool :=
  match e with
  | ErrSentinel s' => bool_decide (s' = s)
  | ErrWrap e' _ => errors_Is e' s
  | ErrText _ => false
  end.

Abbreviation result := (res error).

(** ** Sentinels and their texts *)

Definition all_sentinels : list sentinel :=
  [ ErrNilContext; ErrNilMockNet; ErrNilTopic; ErrChannelDoesNotExist; ErrChannelCanNotBeDeleted; ErrChannelCanNotBeReAdded; ErrNilMessage; ErrAlreadySeenMessage; ErrMessageTooNew; ErrMessageTooOld; ErrNilDirectSendMessageHandler; ErrPeerNotDirectlyConnected; ErrNilHost; ErrNilValidator; ErrPeerDiscoveryProcessAlreadyStarted; ErrMessageTooLarge; ErrEmptyBufferToSend; ErrNilFetchPeersOnTopicHandler; ErrInvalidDurationProvided; ErrTooManyGoroutines; ErrInvalidValue; ErrInvalidPortValue; ErrInvalidPortsRangeString; ErrInvalidStartingPortValue; ErrInvalidEndingPortValue; ErrEndPortIsSmallerThanStartPort; ErrNoFreePortInRange; ErrNilSharder; ErrNilPeerShardResolver; ErrNilMarshalizer; ErrWrongTypeAssertion; ErrNilReconnecter; ErrUnwantedPeer; ErrNilPeerDenialEvaluator; ErrMessageUnmarshalError; ErrUnsupportedFields; ErrUnsupportedMessageVersion; ErrNilSyncTimer; ErrNilPreferredPeersHolder; ErrInvalidSeedersReconnectionInterval; ErrMessageProcessorAlreadyDefined; ErrMessageProcessorDoesNotExists; ErrWrongTypeAssertions; ErrNilConnectionsWatcher; ErrNilPeersRatingHandler; ErrNilP2pPrivateKey; ErrNilP2pSingleSigner; ErrNilP2pKeyGenerator; ErrNilCacher; ErrNilP2PSigner; ErrNilPeerTopicNotifier; ErrInvalidTCPAddress; ErrInvalidQUICAddress; ErrInvalidWSAddress; ErrInvalidWebTransportAddress; ErrNoTransportsDefined; ErrNilPrivateKey; ErrNilPublicKey; ErrNilSingleSigner; ErrNilKeyGenerator; ErrInvalidValueForTimeToLiveParam; ErrUnknownConnectionWatcherType ].

Lemma elem_of_all_sentinels s : s ∈ all_sentinels.
Proof. destruct s; by repeat (apply list_elem_of_here || apply list_elem_of_further). Qed.

(** The pairs of sentinels that share their text. *)
Definition same_text_pairs : list (sentinel * sentinel) :=
  s1 ← all_sentinels; s2 ← all_sentinels;
  if decide (s1 ≠ s2 /\ errors_New s1 = errors_New s2) then [(s1, s2)] else [].

Lemma same_text_pairs_eq :
  same_text_pairs = [(ErrWrongTypeAssertion, ErrWrongTypeAssertions);
                     (ErrWrongTypeAssertions, ErrWrongTypeAssertion)].
Proof. vm_compute. reflexivity. Qed.

Lemma errors_New_collision s1 s2 :
  errors_New s1 = errors_New s2 -> s1 = s2 \/
  (s1 = ErrWrongTypeAssertion /\ s2 = ErrWrongTypeAssertions) \/
  (s1 = ErrWrongTypeAssertions /\ s2 = ErrWrongTypeAssertion).
Proof.
  intros E. destruct (decide (s1 = s2)) as [->|Hne]; [by left | right].
  assert ((s1, s2) ∈ same_text_pairs) as Hin.
  { unfold same_text_pairs. apply list_elem_of_bind. exists s1.
    split; [|apply elem_of_all_sentinels]. apply list_elem_of_bind. exists s2.
    split; [|apply elem_of_all_sentinels]. rewrite decide_True by done. set_solver. }
  rewrite same_text_pairs_eq, !elem_of_cons, elem_of_nil in Hin. revert Hin. clear. intros [[=]|[[=]|[]]]; subst; auto.
Qed.

Lemma Error_ErrWrap_Contains e suffix : strings_Contains (Error (ErrWrap e suffix)) (Error e) = true.
Proof. apply strings_Contains_spec. by exists ""%string, suffix. Qed.
