(* ===== verification/Config.v ===== *)
(** * Config: configuration records and constants ([config/config.go], [constants.go])

    Unsigned fields are integers in the range of their type. *)

From Stdlib Require Import ZArith String.
From stdpp Require Import prelude strings.

Local Open Scope Z_scope.

Record TCPProtocolConfig : Type := mkTCPProtocolConfig {
  ListenAddress : string;
  PreventPortReuse : bool
}.

Record TransportConfig : Type := mkTransportConfig {
  TCP : TCPProtocolConfig;
  QUICAddress : string;
  WebSocketAddress : string;
  WebTransportAddress : string
}.

Record NodeConfig : Type := mkNodeConfig {
  Port : string;
  MaximumExpectedPeerCount : Z;
  ThresholdMinConnectedPeers : Z;
  MinNumPeersToWaitForOnBootstrap : Z;
  Transports : TransportConfig
}.

Record KadDhtPeerDiscoveryConfig : Type := mkKadDhtPeerDiscoveryConfig {
  Enabled : bool;
  kad_Type : string;
  RefreshIntervalInSec : Z;
  ProtocolID : string;
  InitialPeerList : list string;
  BucketSize : Z;
  RoutingTableRefreshIntervalInSec : Z
}.

Record AdditionalConnectionsConfig : Type := mkAdditionalConnectionsConfig {
  MaxFullHistoryObservers : Z
}.

Record ShardingConfig : Type := mkShardingConfig {
  TargetPeerCount : Z;
  MaxIntraShardValidators : Z;
  MaxCrossShardValidators : Z;
  MaxIntraShardObservers : Z;
  MaxCrossShardObservers : Z;
  MaxSeeders : Z;
  sharding_Type : string;
  AdditionalConnections : AdditionalConnectionsConfig
}.

Record P2PConfig : Type := mkP2PConfig {
  Node : NodeConfig;
  KadDhtPeerDiscovery : KadDhtPeerDiscoveryConfig;
  Sharding : ShardingConfig
}.

(** A [NodeOperation] is a string. *)
Definition NormalOperation : string := "normal operation".
Definition FullArchiveMode : string := "full archive mode".

Definition ListsSharder : string := "ListsSharder".
Definition OneListSharder : string := "OneListSharder".
Definition NilListSharder : string := "NilListSharder".

Definition ConnectionWatcherTypePrint : string := "print".
Definition ConnectionWatcherTypeDisabled : string := "disabled".
Definition ConnectionWatcherTypeEmpty : string := "".

(** Durations are in nanoseconds. *)
Definition second : Z := 1000000000.
Definition WrongP2PMessageBlacklistDuration : Z := second * 7200.
