(* ===== verification/Interfaces.v ===== *)
(** * Interfaces: what the components promise to one another ([interface.go])

    The Go interfaces through which the components call each other, as classes:
    the operations of a stateful component take its state and return the new
    one.  Laws are stated where a client relies on them.  The code that is not in
    the repository (libp2p, the core packages) enters the development through
    the same classes or as section variables. *)

From S2P Require Import Prelude Errors.
From Stdlib Require Import ZArith Lia Ascii String.
From stdpp Require Import prelude gmap strings list.

Local Open Scope Z_scope.

(** [core.PeerID] and [peer.ID] are both Go strings. *)
Abbreviation PeerID := string.

(** ** Iteration over maps

    Go visits the entries of a map in an order that the language leaves open.
    Code that ranges over a map is verified for every order. *)
Class MapRange : Type := {
  go_range {K} `{Countable K} {A} : gmap K A -> list (K * A);
  go_range_perm {K} `{Countable K} {A} (m : gmap K A) : go_range m ≡ₚ map_to_list m
}.

(** The order of [map_to_list] is one of them. *)
#[export] Instance map_to_list_range : MapRange.
Proof.
  refine {| go_range := fun _ _ _ _ m => map_to_list m |}. intros. reflexivity.
Defined.

Section Ranges.
Context `{MapRange} {K A : Type} `{Countable K}.

Lemma elem_of_go_range (m : gmap K A) k v : (k, v) ∈ go_range m <-> m !! k = Some v.
Proof. by rewrite go_range_perm, elem_of_map_to_list. Qed.

Lemma NoDup_go_range_fst (m : gmap K A) : NoDup (go_range m).*1.
Proof. rewrite go_range_perm. apply NoDup_fst_map_to_list. Qed.

Lemma elem_of_go_range_fst (m : gmap K A) k : k ∈ (go_range m).*1 <-> is_Some (m !! k).
Proof.
  rewrite list_elem_of_fmap. split.
  - intros ([k' v] & -> & Hin%elem_of_go_range). by exists v.
  - intros [v Hv]. exists (k, v). by rewrite elem_of_go_range.
Qed.

End Ranges.

(** ** Peers and shards *)

(** [core.P2PPeerInfo]; a peer type or subtype without a name here is [Other]. *)
Inductive peerType : Type := UnknownPeer | ValidatorPeer | ObserverPeer | OtherPeerType.
Inductive peerSubType : Type := RegularPeer | FullHistoryObserver | OtherPeerSubType.
Record P2PPeerInfo : Type := mkP2PPeerInfo {
  PeerType : peerType;
  PeerSubType : peerSubType;
  ShardID : Z
}.

#[export] Instance peerType_eq_dec : EqDecision peerType.
Proof. solve_decision. Defined.
#[export] Instance peerSubType_eq_dec : EqDecision peerSubType.
Proof. solve_decision. Defined.
#[export] Instance P2PPeerInfo_eq_dec : EqDecision P2PPeerInfo.
Proof. solve_decision. Defined.

(** A [PeerShardResolver] is used for the answers it gives. *)
Abbreviation PeerShardResolver := (PeerID -> P2PPeerInfo).

(** [unknownPeerShardResolver] of [libp2p/unknownPeerShardResolver.go]. *)
Definition unknownPeerShardResolver_GetPeerInfo : PeerShardResolver :=
  fun _ => mkP2PPeerInfo UnknownPeer RegularPeer 0.

(** ** Component interfaces *)

Class PeersRatingHandler (H : Type) : Type := {
  prh_AddPeer : H -> PeerID -> H;
  prh_IncreaseRating : H -> PeerID -> H;
  prh_DecreaseRating : H -> PeerID -> H;
  prh_GetTopRatedPeersFromList : H -> list PeerID -> Z -> list PeerID * H
}.

Class PeerDenialEvaluator (D : Type) : Type := {
  pde_IsDenied : D -> PeerID -> bool;
  pde_UpsertPeerID : D -> PeerID -> Z -> option error * D
}.

Class PreferredPeersHolderHandler (P : Type) : Type := {
  pph_PutConnectionAddress : P -> PeerID -> string -> P;
  pph_PutShardID : P -> PeerID -> Z -> P;
  pph_Get : P -> gmap Z (list PeerID);
  pph_Contains : P -> PeerID -> bool;
  pph_Remove : P -> PeerID -> outcome P;
  pph_Clear : P -> P
}.

(** The debugger collects message counts per topic. *)
Class Debugger (G : Type) : Type := {
  dbg_AddIncomingMessage : G -> string -> Z -> bool -> G;
  dbg_AddOutgoingMessage : G -> string -> Z -> bool -> G
}.

(** [disabled.PeerDenialEvaluator]: every peer is white listed. *)
#[export] Instance disabled_PeerDenialEvaluator : PeerDenialEvaluator unit := {
  pde_IsDenied _ _ := false;
  pde_UpsertPeerID d _ _ := (None, d)
}.

(** [SignerVerifier]; the law: a signature made with the key of [pid] verifies
    for [pid]. *)
Class SignerVerifier (S : Type) : Type := {
  sv_Sign : S -> bytes -> result bytes;
  sv_Verify : S -> bytes -> PeerID -> bytes -> option error
}.

(** ** Display of identifiers *)

Section Display.

(** [pid.Pretty()] is the base58 form of an identifier. *)
Context (Pretty : PeerID -> string).

Definition displayLastPidChars : Z := 12.

Definition PeerIdToShortString (pid : PeerID) : string :=
  let prettyPid := Pretty pid in
  let lenPrettyPid := Z.of_nat (String.length prettyPid) in
  if lenPrettyPid >? displayLastPidChars then
    "..." +:+ substring (Z.to_nat (lenPrettyPid - displayLastPidChars))
                (String.length prettyPid) prettyPid
  else prettyPid.

End Display.

(** [hex.EncodeToString]. *)
Definition hex_digit (n : Z) : ascii :=
  match String.get (Z.to_nat n) "0123456789abcdef" with Some c => c | None => "0"%char end.
Fixpoint hex_EncodeToString (b : bytes) : string :=
  match b with
  | [] => ""
  | x :: b' => String (hex_digit (b2z x / 16)) (String (hex_digit (b2z x mod 16)) (hex_EncodeToString b'))
  end.
