(* ===== verification/Cacher.v ===== *)
(** * Cacher: the interface of the caches the program is given

    The rating handler and the mutex holder keep their data in a
    [types.Cacher] of the storage package, a cache that may forget entries when
    it is full.  The interface lists the calls the program makes; the laws are
    the documented behaviour of a cache.  Two implementations discharge the
    laws: a map that never forgets, and a bounded list in least-recently-used
    order.  The clients are verified against the interface only. *)

From S2P Require Import Prelude.
From Stdlib Require Import String.
From stdpp Require Import prelude gmap strings list.

(** The dynamic types the program stores in a cache ([interface{}]). *)
Inductive iface : Type :=
| IfInt32 (z : Z)
| IfMutex (addr : nat)
| IfOther.

#[export] Instance iface_eq_dec : EqDecision iface.
Proof. solve_decision. Defined.

(** The operations: [Get] and [Put] update the recency order, hence return a
    new cache; [entry] is the abstract content. *)
Class Cacher (C : Type) : Type := {
  entry : C -> string -> option iface;
  Get : C -> string -> option iface * C;
  Put : C -> string -> iface -> C;
  Has : C -> string -> bool;
  Remove : C -> string -> C
}.

Class CacherLaws (C : Type) `{Cacher C} : Prop := {
  Get_entry c k : (Get c k).1 = entry c k;
  entry_Get c k k' : entry (Get c k).2 k' = entry c k';
  entry_Put_eq c k v : entry (Put c k v) k = Some v;
  entry_Put_ne c k k' v :
    k ≠ k' -> entry (Put c k v) k' = entry c k' \/ entry (Put c k v) k' = None;
  Has_entry c k : Has c k = bool_decide (is_Some (entry c k));
  entry_Remove_eq c k : entry (Remove c k) k = None;
  entry_Remove_ne c k k' : k ≠ k' -> entry (Remove c k) k' = entry c k'
}.

(** ** A cache that never forgets *)

Module MapCache.

Record t : Type := mk { data : gmap string iface }.

#[global] Instance cacher : Cacher t := {
  entry c k := data c !! k;
  Get c k := (data c !! k, c);
  Put c k v := mk (<[k := v]> (data c));
  Has c k := bool_decide (is_Some (data c !! k));
  Remove c k := mk (delete k (data c))
}.

#[global] Instance laws : CacherLaws t.
Proof.
  constructor; intros; simpl; try done; try (left; simpl); by simplify_map_eq.
Qed.

Definition empty : t := mk ∅.

(** A cache that never forgets keeps every other entry. *)
Lemma entry_Put_ne_kept c k k' v : k ≠ k' -> entry (Put c k v) k' = entry c k'.
Proof. intros. simpl. by simplify_map_eq. Qed.

End MapCache.

(** ** A bounded cache in least-recently-used order *)

Module LruCache.

(** Most recently used entry first; at most [capacity + 1] entries. *)
Record t : Type := mk { capacity : nat; items : list (string * iface) }.

Fixpoint find (l : list (string * iface)) (k : string) : option iface :=
  match l with
  | [] => None
  | (k', v) :: l' => if decide (k' = k) then Some v else find l' k
  end.

Definition others (l : list (string * iface)) (k : string) : list (string * iface) :=
  filter (fun kv => kv.1 ≠ k) l.

Definition touch (c : t) (k : string) : t :=
  match find (items c) k with
  | Some v => mk (capacity c) ((k, v) :: others (items c) k)
  | None => c
  end.

#[global] Instance cacher : Cacher t := {
  entry c k := find (items c) k;
  Get c k := (find (items c) k, touch c k);
  Put c k v := mk (capacity c) ((k, v) :: take (capacity c) (others (items c) k));
  Has c k := bool_decide (is_Some (find (items c) k));
  Remove c k := mk (capacity c) (others (items c) k)
}.

Lemma find_others_eq l k : find (others l k) k = None.
Proof.
  induction l as [|[k' v] l IH]; [done|].
  unfold others. rewrite filter_cons. case_decide; simpl in *; [by rewrite decide_False | done].
Qed.

Lemma find_others_ne l k k' : k ≠ k' -> find (others l k) k' = find l k'.
Proof.
  intros Hne. unfold others. induction l as [|[k1 v] l IH]; [done|].
  rewrite filter_cons. simpl. case_decide as Hd; simpl in *.
  - by rewrite IH.
  - rewrite (decide_False (P := k1 = k')); [done | naive_solver].
Qed.

Lemma find_take l n k : find (take n l) k = find l k \/ find (take n l) k = None.
Proof.
  revert n. induction l as [|[k' v] l IH]; intros [|n]; simpl; auto.
  case_decide; auto.
Qed.

#[global] Instance laws : CacherLaws t.
Proof.
  constructor; intros; simpl; try done.
  - unfold touch. destruct (find (items c) k) as [v|] eqn:E; [|done]. simpl.
    case_decide; [by subst | by apply find_others_ne].
  - by rewrite decide_True.
  - rewrite decide_False by done. destruct (find_take (others (items c) k) (capacity c) k') as [->| ->]; [|by right].
    left. by apply find_others_ne.
  - apply find_others_eq.
  - by apply find_others_ne.
Qed.

Definition empty (cap : nat) : t := mk cap [].

End LruCache.

(** ** The room of a cache *)

(** [lrucache.NewCache(n)] holds [n] keys and forgets nothing before that; [stored]
    are the keys it holds. *)
Class CacherRoom (C : Type) `{Cacher C} : Type := {
  room : C -> nat;
  stored : C -> gset string;
  cache_ok : C -> Prop;
  elem_of_stored c k : k ∈ stored c <-> is_Some (entry c k);
  room_Get c k : room (Get c k).2 = room c;
  room_Put c k v : room (Put c k v) = room c;
  room_Remove c k : room (Remove c k) = room c;
  cache_ok_Get c k : cache_ok c -> cache_ok (Get c k).2;
  cache_ok_Put c k v : cache_ok c -> cache_ok (Put c k v);
  cache_ok_Remove c k : cache_ok c -> cache_ok (Remove c k);
  entry_Put_keeps c k v k' :
    cache_ok c -> k ≠ k' -> size ({[k]} ∪ stored c) <= room c -> entry (Put c k v) k' = entry c k'
}.

Module LruRoom.
Import LruCache.

Lemma find_elem l k : is_Some (find l k) <-> k ∈ l.*1.
Proof.
  induction l as [|[k' v] l IH]; cbn; [split; [by intros [? ?] | by intros ?%elem_of_nil]|].
  case_decide as E; [subst; split; [by left | by eexists]|]. rewrite IH, elem_of_cons. naive_solver.
Qed.

Lemma others_fst l k : (others l k).*1 = filter (fun k' => k' ≠ k) l.*1.
Proof.
  unfold others. induction l as [|[k' v] l IH]; [done|]. cbn [fmap list_fmap fst].
  rewrite !filter_cons. cbn [fst]. case_decide; cbn [fmap list_fmap fst]; by rewrite IH.
Qed.

Lemma NoDup_touched l k (l' : list string) : NoDup l.*1 -> l' `sublist_of` (others l k).*1 -> NoDup (k :: l').
Proof.
  intros Hnd Hl. rewrite others_fst in Hl. apply NoDup_cons. split.
  - intros Hin. eapply elem_of_sublist in Hin; [|exact Hl]. rewrite list_elem_of_filter in Hin. tauto.
  - eapply sublist_NoDup; [|exact Hl]. by apply NoDup_filter.
Qed.

(** The other keys leave a place for [k]. *)
Lemma length_others l k n :
  NoDup l.*1 -> size ({[k]} ∪ list_to_set l.*1 : gset string) <= S n -> length (others l k) <= n.
Proof.
  intros Hnd Hs. rewrite <- (length_fmap fst (others l k)), others_fst.
  rewrite <- (size_list_to_set (C := gset string)) by (by apply NoDup_filter).
  set (l' := filter _ _). apply le_S_n. etrans; [|exact Hs].
  assert (S (size (list_to_set l' : gset string)) = size ({[k]} ∪ list_to_set l' : gset string)) as ->.
  { rewrite size_union; [by rewrite size_singleton|]. intros x. unfold l'.
    rewrite elem_of_singleton, elem_of_list_to_set, list_elem_of_filter. tauto. }
  apply subseteq_size. intros x. unfold l'. rewrite !elem_of_union, !elem_of_list_to_set, list_elem_of_filter. tauto.
Qed.

#[global, refine] Instance lru_room : CacherRoom LruCache.t := {
  room c := S (capacity c);
  stored c := list_to_set (items c).*1;
  cache_ok c := NoDup (items c).*1
}.
Proof.
  - intros c k. cbn. by rewrite find_elem, elem_of_list_to_set.
  - intros c k. cbn. unfold touch. by destruct (find _ _).
  - done.
  - done.
  - intros c k Hnd. cbn. unfold touch. destruct (find _ _); [|done]. by eapply NoDup_touched.
  - intros c k v Hnd. cbn. eapply NoDup_touched; [done|]. rewrite fmap_take. apply sublist_take.
  - intros c k Hnd. cbn. rewrite others_fst. by apply NoDup_filter.
  - intros c k v k' Hnd Hne Hs. cbn. rewrite decide_False by done.
    rewrite take_ge by (by apply length_others). by apply find_others_ne.
Defined.

End LruRoom.

#[export] Hint Rewrite @entry_Get @Get_entry @entry_Put_eq @entry_Remove_eq
  using (typeclasses eauto) : p2p_rw.
