(* ===== verification/Rating.v ===== *)
(** * Rating: the peers rating handler ([rating/peersRatingHandler.go])

    Two caches hold the [int32] rating of the known peers: the top tier has the
    non-negative ratings, the bad tier the negative ones.  The handler is a pair
    of caches used through the interface of [Cacher]; every method is a
    function on that pair, run as a whole under the handler's mutex. *)

From S2P Require Import Prelude Errors Interfaces Cacher.
From Stdlib Require Import ZArith Lia String.
From stdpp Require Import prelude gmap strings list pretty.

Definition topRatedTier : string := "top rated tier".
Definition badRatedTier : string := "bad rated tier".
Definition defaultRating : Z := 0.
Definition minRating : Z := -100.
Definition maxRating : Z := 100.
Definition increaseFactor : Z := 2.
Definition decreaseFactor : Z := -1.
Definition minNumOfPeers : Z := 1.

(** [v.(int32)], with the zero value when the dynamic type differs. *)
Definition as_int32 (v : iface) : Z :=
  match v with IfInt32 z => z | _ => 0 end.

Section Handler.

Context {C D : Type} `{Cacher C} `{Cacher D}.

Record ArgPeersRatingHandler : Type := mkArgs {
  TopRatedCache : option C;
  BadRatedCache : option D
}.

Record peersRatingHandler : Type := mk {
  topRatedCache : C;
  badRatedCache : D
}.

Implicit Types (prh : peersRatingHandler) (pid : string).

Definition checkArgs (args : ArgPeersRatingHandler) : option error :=
  match TopRatedCache args, BadRatedCache args with
  | None, _ => Some (ErrWrap ErrNilCacher " for TopRatedCache")
  | Some _, None => Some (ErrWrap ErrNilCacher " for BadRatedCache")
  | Some _, Some _ => None
  end.

Definition NewPeersRatingHandler (args : ArgPeersRatingHandler) : result peersRatingHandler :=
  match checkArgs args with
  | Some err => Err err
  | None =>
      match TopRatedCache args, BadRatedCache args with
      | Some top, Some bad => Ok (mk top bad)
      | _, _ => Err ErrNilCacher
      end
  end.

(** [topRatedCache.Put(...)] and [badRatedCache.Put(...)] of the handler. *)
Definition put_top prh pid (rating : Z) : peersRatingHandler :=
  mk (Put (topRatedCache prh) pid (IfInt32 rating)) (badRatedCache prh).
Definition put_bad prh pid (rating : Z) : peersRatingHandler :=
  mk (topRatedCache prh) (Put (badRatedCache prh) pid (IfInt32 rating)).

Definition getOldRating prh pid : (Z * bool) * peersRatingHandler :=
  let '(oldRating, top) := Get (topRatedCache prh) pid in
  match oldRating with
  | Some v => ((as_int32 v, true), mk top (badRatedCache prh))
  | None =>
      let '(oldRating, bad) := Get (badRatedCache prh) pid in
      match oldRating with
      | Some v => ((as_int32 v, true), mk top bad)
      | None => ((defaultRating, false), mk top bad)
      end
  end.

Definition AddPeer prh pid : peersRatingHandler :=
  let '((_, found), prh) := getOldRating prh pid in
  if (found : bool) then prh else put_top prh pid defaultRating.

Definition computeRatingTier (peerRating : Z) : string :=
  if (peerRating >=? defaultRating)%Z then topRatedTier else badRatedTier.

Definition movePeerToNewTier prh (newRating : Z) pid : peersRatingHandler :=
  let newTier := computeRatingTier newRating in
  if decide (newTier = topRatedTier)
  then put_top (mk (topRatedCache prh) (Remove (badRatedCache prh) pid)) pid newRating
  else put_bad (mk (Remove (topRatedCache prh) pid) (badRatedCache prh)) pid newRating.

Definition updateRating prh pid (oldRating newRating : Z) : peersRatingHandler :=
  let oldTier := computeRatingTier oldRating in
  let newTier := computeRatingTier newRating in
  if decide (newTier = oldTier) then
    if decide (newTier = topRatedTier) then put_top prh pid newRating
    else put_bad prh pid newRating
  else movePeerToNewTier prh newRating pid.

(** The [int32] arithmetic of the new rating. *)
Definition clampedRating (oldRating updateFactor : Z) : Z :=
  let newRating := i32 (oldRating + updateFactor) in
  let newRating := if (newRating >? maxRating)%Z then maxRating else newRating in
  if (newRating <? minRating)%Z then minRating else newRating.

Definition updateRatingIfNeeded prh pid (updateFactor : Z) : peersRatingHandler :=
  let '((oldRating, found), prh) := getOldRating prh pid in
  if negb found then put_top prh pid defaultRating
  else
    let decreasingUnderMin := (oldRating =? minRating)%Z && (updateFactor =? decreaseFactor)%Z in
    let increasingOverMax := (oldRating =? maxRating)%Z && (updateFactor =? increaseFactor)%Z in
    let shouldSkipUpdate := decreasingUnderMin || increasingOverMax in
    if shouldSkipUpdate then prh
    else updateRating prh pid oldRating (clampedRating oldRating updateFactor).

Definition IncreaseRating prh pid : peersRatingHandler :=
  updateRatingIfNeeded prh pid increaseFactor.
Definition DecreaseRating prh pid : peersRatingHandler :=
  updateRatingIfNeeded prh pid decreaseFactor.

Fixpoint splitPeersByTiers prh (peers : list string) : list string * list string :=
  match peers with
  | [] => ([], [])
  | peer :: peers' =>
      let '(topRated, badRated) := splitPeersByTiers prh peers' in
      (if Has (topRatedCache prh) peer then peer :: topRated else topRated,
       if Has (badRatedCache prh) peer then peer :: badRated else badRated)
  end.

(** The list that [GetTopRatedPeersFromList] returns. *)
Definition topRatedPeers prh (peers : list string) (minNumOfPeersExpected : Z) : list string :=
  let isListEmpty := bool_decide (length peers = 0%nat) in
  if (minNumOfPeersExpected <? minNumOfPeers)%Z || isListEmpty then []
  else
    let '(peersTopRated, peersBadRated) := splitPeersByTiers prh peers in
    if (Z.of_nat (length peersTopRated) <? minNumOfPeersExpected)%Z
    then peersTopRated ++ peersBadRated else peersTopRated.

(** The deferred trace output: its lookups touch the caches, its lines are the
    text of the log message.  [Pretty] is the base58 form of a peer identifier. *)
Fixpoint displayLines (Pretty : string -> string) prh (peers : list string) :
    string * peersRatingHandler :=
  match peers with
  | [] => (EmptyString, prh)
  | peer :: peers' =>
      let '(rating, top) := Get (topRatedCache prh) peer in
      let '(rating, prh) :=
        match rating with
        | Some _ => (rating, mk top (badRatedCache prh))
        | None => let '(rating, bad) := Get (badRatedCache prh) peer in (rating, mk top bad)
        end in
      let line :=
        match rating with
        | Some (IfInt32 z) => String newline (" peerID: " +:+ Pretty peer +:+ ", rating: " +:+ pretty z)
        | _ => String newline (" peerID: " +:+ Pretty peer +:+ ", rating: invalid")
        end in
      let '(rest, prh) := displayLines Pretty prh peers' in
      (line +:+ rest, prh)
  end.

Definition displayPeersRating (Pretty : string -> string) (isLogTrace : bool) prh
    (peers : list string) : peersRatingHandler :=
  if negb isLogTrace then prh else (displayLines Pretty prh peers).2.

Definition GetTopRatedPeersFromList (Pretty : string -> string) (isLogTrace : bool) prh
    (peers : list string) (minNumOfPeersExpected : Z) : list string * peersRatingHandler :=
  let list := topRatedPeers prh peers minNumOfPeersExpected in
  (list, displayPeersRating Pretty isLogTrace prh list).

(** The handler behind the interface its clients use. *)
Definition peersRatingHandler_PeersRatingHandler (Pretty : string -> string) (isLogTrace : bool) :
    PeersRatingHandler peersRatingHandler := {|
  prh_AddPeer := AddPeer;
  prh_IncreaseRating := IncreaseRating;
  prh_DecreaseRating := DecreaseRating;
  prh_GetTopRatedPeersFromList := GetTopRatedPeersFromList Pretty isLogTrace
|}.

(** ** What the handler knows *)

(** The rating of a peer, as the handler's own lookup finds it. *)
Definition rating_of prh pid : option Z :=
  match entry (topRatedCache prh) pid with
  | Some v => Some (as_int32 v)
  | None => as_int32 <$> entry (badRatedCache prh) pid
  end.

(** Well-formed handler: a peer is in one tier at most, the top tier holds the
    ratings 0..100 and the bad tier the ratings -100..-1. *)
Record wf prh : Prop := {
  wf_disjoint pid :
    entry (topRatedCache prh) pid = None \/ entry (badRatedCache prh) pid = None;
  wf_top pid v : entry (topRatedCache prh) pid = Some v ->
    exists z, v = IfInt32 z /\ (0 <= z <= maxRating)%Z;
  wf_bad pid v : entry (badRatedCache prh) pid = Some v ->
    exists z, v = IfInt32 z /\ (minRating <= z < 0)%Z
}.

(** Two handlers with the same entries, whatever the recency order of their caches. *)
Definition same_entries prh1 prh2 : Prop :=
  (forall pid, entry (topRatedCache prh1) pid = entry (topRatedCache prh2) pid) /\
  (forall pid, entry (badRatedCache prh1) pid = entry (badRatedCache prh2) pid).

(** [prh'] is [prh] with the rating [r] stored for [pid]; another peer keeps its
    rating unless the cache has forgotten it. *)
Record stored prh pid (r : Z) prh' : Prop := {
  st_wf : wf prh';
  st_self : rating_of prh' pid = Some r;
  st_other pid' : pid' ≠ pid -> rating_of prh' pid' = rating_of prh pid' \/ rating_of prh' pid' = None
}.

#[export] Instance same_entries_equivalence : Equivalence same_entries.
Proof.
  split.
  - done.
  - intros a b [H1 H2]. by split; intros; symmetry.
  - intros a b c [H1 H2] [H3 H4]. split; intros; [by rewrite H1 | by rewrite H2].
Qed.

Lemma wf_same_entries prh1 prh2 : same_entries prh1 prh2 -> wf prh1 -> wf prh2.
Proof.
  intros [H1 H2] [W1 W2 W3]. split.
  - intros pid. by rewrite <- H1, <- H2.
  - intros pid v. rewrite <- H1. apply W2.
  - intros pid v. rewrite <- H2. apply W3.
Qed.

#[export] Instance wf_proper : Proper (same_entries ==> iff) wf.
Proof. intros a b E. split; apply wf_same_entries; [done | by symmetry]. Qed.

#[export] Instance rating_of_proper : Proper (same_entries ==> eq ==> eq) rating_of.
Proof. intros a b [H1 H2] pid ? <-. unfold rating_of. by rewrite H1, H2. Qed.

End Handler.

Arguments peersRatingHandler : clear implicits.
Arguments ArgPeersRatingHandler : clear implicits.

(** ** Lemmas *)

Section Lemmas.

Context {C D : Type} `{CacherLaws C, CacherLaws D}.
Implicit Types (prh : peersRatingHandler C D) (pid : string).

(** The lookup of [getOldRating] returns the rating and keeps the entries. *)
Lemma getOldRating_spec prh pid :
  same_entries prh (getOldRating prh pid).2 /\
  (getOldRating prh pid).1 =
    match rating_of prh pid with Some r => (r, true) | None => (defaultRating, false) end.
Proof.
  unfold getOldRating, rating_of.
  pose proof (Get_entry (topRatedCache prh) pid) as Et.
  pose proof (Get_entry (badRatedCache prh) pid) as Eb.
  pose proof (entry_Get (topRatedCache prh) pid) as Ft.
  pose proof (entry_Get (badRatedCache prh) pid) as Fb.
  destruct (Get (topRatedCache prh) pid) as [t top'].
  destruct (Get (badRatedCache prh) pid) as [b bad']. simpl in *. subst t b.
  destruct (entry (topRatedCache prh) pid); [done|].
  destruct (entry (badRatedCache prh) pid); done.
Qed.

Lemma put_top_stored prh pid r :
  wf prh -> entry (badRatedCache prh) pid = None -> (0 <= r <= maxRating)%Z ->
  stored prh pid r (put_top prh pid r).
Proof.
  intros [W1 W2 W3] Hb Hr. split; [split|..]; simpl.
  - intros p. destruct (decide (pid = p)) as [<-|Hne]; [by right|].
    destruct (W1 p); [|by right].
    destruct (entry_Put_ne (topRatedCache prh) pid p (IfInt32 r) Hne); left; congruence.
  - intros p v. destruct (decide (pid = p)) as [<-|Hne].
    + rewrite entry_Put_eq. intros [= <-]. by exists r.
    + destruct (entry_Put_ne (topRatedCache prh) pid p (IfInt32 r) Hne) as [->| ->]; [apply W2 | done].
  - done.
  - unfold rating_of. simpl. by rewrite entry_Put_eq.
  - intros p Hne. unfold rating_of. simpl. specialize (W1 p).
    destruct (entry_Put_ne (topRatedCache prh) pid p (IfInt32 r)) as [->| ->]; [done | by left |].
    destruct (entry (topRatedCache prh) p); [|by left].
    destruct W1 as [|Hbad]; [done|]. right. by rewrite Hbad.
Qed.

Lemma put_bad_stored prh pid r :
  wf prh -> entry (topRatedCache prh) pid = None -> (minRating <= r < 0)%Z ->
  stored prh pid r (put_bad prh pid r).
Proof.
  intros [W1 W2 W3] Ht Hr. split; [split|..]; simpl.
  - intros p. destruct (decide (pid = p)) as [<-|Hne]; [by left|].
    destruct (W1 p); [by left|].
    destruct (entry_Put_ne (badRatedCache prh) pid p (IfInt32 r) Hne); right; congruence.
  - done.
  - intros p v. destruct (decide (pid = p)) as [<-|Hne].
    + rewrite entry_Put_eq. intros [= <-]. by exists r.
    + destruct (entry_Put_ne (badRatedCache prh) pid p (IfInt32 r) Hne) as [->| ->]; [apply W3 | done].
  - unfold rating_of. simpl. by rewrite Ht, entry_Put_eq.
  - intros p Hne. unfold rating_of. simpl. destruct (entry (topRatedCache prh) p); [by left|].
    destruct (entry_Put_ne (badRatedCache prh) pid p (IfInt32 r)) as [->| ->]; [done | by left | by right].
Qed.

(** Removing a peer keeps the handler well formed and touches no other peer. *)
Lemma wf_remove_top prh pid :
  wf prh -> wf (mk (Remove (topRatedCache prh) pid) (badRatedCache prh)).
Proof.
  intros [W1 W2 W3]. split; simpl; [| |done].
  - intros p. destruct (decide (pid = p)) as [<-|Hne]; [left; apply entry_Remove_eq|].
    rewrite entry_Remove_ne by done. apply W1.
  - intros p v. destruct (decide (pid = p)) as [<-|Hne]; [by rewrite entry_Remove_eq|].
    rewrite entry_Remove_ne by done. apply W2.
Qed.

Lemma wf_remove_bad prh pid :
  wf prh -> wf (mk (topRatedCache prh) (Remove (badRatedCache prh) pid)).
Proof.
  intros [W1 W2 W3]. split; simpl; [|done|].
  - intros p. destruct (decide (pid = p)) as [<-|Hne]; [right; apply entry_Remove_eq|].
    rewrite entry_Remove_ne by done. apply W1.
  - intros p v. destruct (decide (pid = p)) as [<-|Hne]; [by rewrite entry_Remove_eq|].
    rewrite entry_Remove_ne by done. apply W3.
Qed.

Lemma stored_weaken prh prh1 pid r prh' :
  (forall p, p ≠ pid -> rating_of prh1 p = rating_of prh p) ->
  stored prh1 pid r prh' -> stored prh pid r prh'.
Proof.
  intros E [S1 S2 S3]. split; [done | done |]. intros p Hne. rewrite <- E by done. by apply S3.
Qed.

Lemma computeRatingTier_top r :
  computeRatingTier r = topRatedTier <-> (0 <= r)%Z.
Proof.
  unfold computeRatingTier, defaultRating. rewrite Z.geb_leb.
  destruct (Z.leb_spec 0 r); split; try done; lia.
Qed.

(** A rated peer's tier is the tier of its rating. *)
Lemma wf_rating_tier prh pid r :
  wf prh -> rating_of prh pid = Some r -> (minRating <= r <= maxRating)%Z /\
  if decide (computeRatingTier r = topRatedTier)
  then entry (badRatedCache prh) pid = None
  else entry (topRatedCache prh) pid = None.
Proof.
  intros [W1 W2 W3] Hr. unfold rating_of in Hr.
  destruct (entry (topRatedCache prh) pid) as [v|] eqn:Et.
  - destruct (W2 _ _ Et) as (z & -> & Hz). simplify_eq/=.
    unfold minRating, maxRating in *. split; [lia|].
    rewrite decide_True by (apply computeRatingTier_top; lia).
    destruct (W1 pid); congruence.
  - destruct (entry (badRatedCache prh) pid) as [v|] eqn:Eb; [|done].
    destruct (W3 _ _ Eb) as (z & -> & Hz). simplify_eq/=.
    unfold minRating, maxRating in *. split; [lia|].
    rewrite decide_False; [done|]. rewrite computeRatingTier_top. lia.
Qed.

Lemma movePeerToNewTier_stored prh pid r :
  wf prh -> (minRating <= r <= maxRating)%Z -> stored prh pid r (movePeerToNewTier prh r pid).
Proof.
  intros W Hr. unfold movePeerToNewTier, minRating, maxRating in *.
  case_decide as Ht; rewrite computeRatingTier_top in Ht.
  - eapply stored_weaken; [|apply put_top_stored; [by apply wf_remove_bad | apply entry_Remove_eq |]].
    + intros p Hne. unfold rating_of. simpl. by rewrite entry_Remove_ne.
    + unfold maxRating. lia.
  - eapply stored_weaken; [|apply put_bad_stored; [by apply wf_remove_top | apply entry_Remove_eq |]].
    + intros p Hne. unfold rating_of. simpl. by rewrite entry_Remove_ne.
    + unfold minRating. lia.
Qed.

Lemma updateRating_stored prh pid oldr newr :
  wf prh -> rating_of prh pid = Some oldr -> (minRating <= newr <= maxRating)%Z ->
  stored prh pid newr (updateRating prh pid oldr newr).
Proof.
  intros W Hold Hn. destruct (wf_rating_tier _ _ _ W Hold) as [_ Htier].
  unfold updateRating.
  destruct (decide (computeRatingTier newr = computeRatingTier oldr)) as [Heq|];
    [|by apply movePeerToNewTier_stored].
  rewrite <- Heq in Htier.
  destruct (decide (computeRatingTier newr = topRatedTier)) as [Ht|Ht];
    rewrite computeRatingTier_top in Ht; unfold minRating, maxRating in *.
  - apply put_top_stored; [done | done |]. unfold maxRating. lia.
  - apply put_bad_stored; [done | done |]. unfold minRating. lia.
Qed.

End Lemmas.

(** ** Correctness of the handler *)

Section Correctness.

Context {C D : Type} `{CacherLaws C, CacherLaws D}.
Implicit Types (prh : peersRatingHandler C D) (pid : string).

Lemma clampedRating_spec r f :
  (minRating <= r <= maxRating)%Z -> (-1000 <= f <= 1000)%Z ->
  clampedRating r f = Z.max minRating (Z.min maxRating (r + f)).
Proof.
  unfold clampedRating, minRating, maxRating. intros Hr Hf.
  rewrite i32_id by (unfold in_i32; lia).
  rewrite Z.gtb_ltb. destruct (Z.ltb_spec 100 (r + f)).
  - rewrite (proj2 (Z.ltb_ge 100 (-100))); lia.
  - destruct (Z.ltb_spec (r + f) (-100)); lia.
Qed.

(** The rating a peer has after an update by [f]. *)
Definition updated (old : option Z) (f : Z) : Z :=
  match old with
  | None => defaultRating
  | Some r => Z.max minRating (Z.min maxRating (r + f))
  end.

Lemma same_entries_stored prh prh1 pid r prh' :
  same_entries prh prh1 -> stored prh1 pid r prh' -> stored prh pid r prh'.
Proof. intros E. apply stored_weaken. intros p _. by rewrite E. Qed.

Lemma unknown_not_bad prh pid : rating_of prh pid = None -> entry (badRatedCache prh) pid = None.
Proof. unfold rating_of. by destruct (entry (topRatedCache prh) pid), (entry (badRatedCache prh) pid). Qed.

Lemma updateRatingIfNeeded_stored prh pid f :
  wf prh -> f = increaseFactor \/ f = decreaseFactor ->
  stored prh pid (updated (rating_of prh pid) f) (updateRatingIfNeeded prh pid f).
Proof.
  intros W Hf. unfold updateRatingIfNeeded.
  destruct (getOldRating_spec prh pid) as [E G].
  destruct (getOldRating prh pid) as [[old found] prh1]. simpl in *.
  eapply same_entries_stored; [done|]. rewrite E in W. rewrite E.
  rewrite E in G. destruct (rating_of prh1 pid) as [r|] eqn:Hr; simplify_eq/=.
  - destruct (wf_rating_tier _ _ _ W Hr) as [Hrange _].
    rewrite <- clampedRating_spec by (unfold increaseFactor, decreaseFactor in *; lia).
    case_match eqn:Hskip; [|apply updateRating_stored; [done | done |]].
    + assert (clampedRating r f = r) as ->.
      { rewrite clampedRating_spec by (unfold increaseFactor, decreaseFactor in *; lia).
        unfold minRating, maxRating, increaseFactor, decreaseFactor in *. lia. }
      split; [done | done | by left].
    + rewrite clampedRating_spec by (unfold increaseFactor, decreaseFactor in *; lia).
      unfold minRating, maxRating in *. lia.
  - apply put_top_stored; [done | by apply unknown_not_bad |]. unfold defaultRating, maxRating. lia.
Qed.

Lemma AddPeer_stored prh pid :
  wf prh -> stored prh pid (default defaultRating (rating_of prh pid)) (AddPeer prh pid).
Proof.
  intros W. unfold AddPeer. destruct (getOldRating_spec prh pid) as [E G].
  destruct (getOldRating prh pid) as [[old found] prh1]. simpl in *.
  eapply same_entries_stored; [done|]. rewrite E in W. rewrite E in G |- *.
  destruct (rating_of prh1 pid) as [r|] eqn:Hr; simplify_eq/=.
  - split; [done | done | by left].
  - apply put_top_stored; [done | by apply unknown_not_bad |]. unfold defaultRating, maxRating. lia.
Qed.

Lemma displayLines_entries Pretty prh peers : same_entries prh (displayLines Pretty prh peers).2.
Proof.
  revert prh. induction peers as [|p peers IH]; intros prh; [done|]. simpl.
  pose proof (Get_entry (topRatedCache prh) p) as Et.
  pose proof (entry_Get (topRatedCache prh) p) as Ft.
  pose proof (entry_Get (badRatedCache prh) p) as Fb.
  destruct (Get (topRatedCache prh) p) as [[v|] top]; simpl in *.
  - specialize (IH (mk top (badRatedCache prh))).
    destruct (displayLines _ _ _) as [? prh2]. simpl in *. by transitivity (mk top (badRatedCache prh)).
  - destruct (Get (badRatedCache prh) p) as [v bad]. simpl in *.
    specialize (IH (mk top bad)).
    destruct (displayLines _ _ _) as [? prh2]. simpl in *. by transitivity (mk top bad).
Qed.

Lemma displayPeersRating_entries Pretty tr prh peers :
  same_entries prh (displayPeersRating Pretty tr prh peers).
Proof. unfold displayPeersRating. destruct tr; [apply displayLines_entries | done]. Qed.

(** The calls of the handler's interface, and the handler after a call. *)
Inductive call : Type :=
| CAddPeer (pid : string)
| CIncreaseRating (pid : string)
| CDecreaseRating (pid : string)
| CGetTopRatedPeersFromList (trace : bool) (peers : list string) (minNumOfPeersExpected : Z).

Definition run (Pretty : string -> string) prh (c : call) : peersRatingHandler C D :=
  match c with
  | CAddPeer pid => AddPeer prh pid
  | CIncreaseRating pid => IncreaseRating prh pid
  | CDecreaseRating pid => DecreaseRating prh pid
  | CGetTopRatedPeersFromList tr peers n => (GetTopRatedPeersFromList Pretty tr prh peers n).2
  end.

Lemma run_wf Pretty prh c : wf prh -> wf (run Pretty prh c).
Proof.
  intros W. destruct c; simpl.
  - by eapply st_wf, AddPeer_stored.
  - by eapply st_wf, updateRatingIfNeeded_stored; [|left].
  - by eapply st_wf, updateRatingIfNeeded_stored; [|right].
  - by rewrite <- displayPeersRating_entries.
Qed.

(** [C20] Tier invariant.  Whatever sequence of calls a well-formed handler gets,
    over caches that may forget entries at any time, a peer is never in both
    tiers, the top tier holds only ratings in 0..100 and the bad tier only
    ratings in -100..-1. *)
Theorem rating_tiers_invariant Pretty prh (calls : list call) :
  wf prh -> wf (fold_left (run Pretty) calls prh).
Proof.
  revert prh. induction calls as [|c calls IH]; intros prh W; [done|]. by apply IH, run_wf.
Qed.

(** Rating updates.  [IncreaseRating] adds 2 and [DecreaseRating] subtracts
    1, saturating at 100 and -100; a peer that is not known yet gets rating 0
    instead; [AddPeer] gives 0 to an unknown peer and keeps the rating of a known
    one.  The handler stays well formed and every other peer keeps its rating
    unless its entry is forgotten by the cache. *)
Theorem rating_updates_spec prh pid :
  wf prh ->
  stored prh pid (updated (rating_of prh pid) 2) (IncreaseRating prh pid) /\
  stored prh pid (updated (rating_of prh pid) (-1)) (DecreaseRating prh pid) /\
  stored prh pid (default 0%Z (rating_of prh pid)) (AddPeer prh pid).
Proof.
  intros W. split; [|split].
  - apply updateRatingIfNeeded_stored; [done | by left].
  - apply updateRatingIfNeeded_stored; [done | by right].
  - by apply AddPeer_stored.
Qed.

Lemma splitPeersByTiers_spec prh peers :
  splitPeersByTiers prh peers =
    (filter (fun p => is_Some (entry (topRatedCache prh) p)) peers,
     filter (fun p => is_Some (entry (badRatedCache prh) p)) peers).
Proof.
  induction peers as [|p peers IH]; [done|]. simpl. rewrite IH, !filter_cons, !Has_entry.
  by repeat case_decide; repeat case_bool_decide.
Qed.

(** The rated peers of a list in a tier. *)
Definition rated_in (P : Z -> bool) prh (peers : list string) : list string :=
  filter (fun p => default false (P <$> rating_of prh p) = true) peers.

Lemma splitPeersByTiers_ratings prh peers :
  wf prh -> splitPeersByTiers prh peers =
    (rated_in (fun r => 0 <=? r)%Z prh peers, rated_in (fun r => r <? 0)%Z prh peers).
Proof.
  intros [W1 W2 W3]. rewrite splitPeersByTiers_spec. unfold rated_in, rating_of.
  f_equal; apply list_filter_iff; intros p; specialize (W1 p); specialize (W2 p); specialize (W3 p);
    destruct (entry (topRatedCache prh) p) as [v|], (entry (badRatedCache prh) p) as [w|];
    try (by destruct W1); try (destruct (W2 _ eq_refl) as (z & -> & Hz));
    try (destruct (W3 _ eq_refl) as (z & -> & Hz)); simpl; rewrite is_Some_alt; simpl;
    unfold minRating in *;
    try (rewrite (proj2 (Z.leb_le _ _)) by lia); try (rewrite (proj2 (Z.leb_gt _ _)) by lia);
    try (rewrite (proj2 (Z.ltb_lt _ _)) by lia); try (rewrite (proj2 (Z.ltb_ge _ _)) by lia); done.
Qed.

(** The answer of [GetTopRatedPeersFromList], by the ratings. *)
Lemma GetTop_answer Pretty tr prh peers n :
  wf prh ->
  (GetTopRatedPeersFromList Pretty tr prh peers n).1 =
    let top := rated_in (fun r => 0 <=? r)%Z prh peers in
    if decide (n < 1)%Z then []
    else if decide (n <= Z.of_nat (length top))%Z then top else top ++ rated_in (fun r => r <? 0)%Z prh peers.
Proof.
  intros W. cbn. unfold topRatedPeers, minNumOfPeers. destruct (Z.ltb_spec n 1); simpl.
  { by rewrite decide_True. }
  rewrite decide_False by lia. case_bool_decide as He.
  { destruct peers; [|done]. simpl. by case_decide. }
  rewrite splitPeersByTiers_ratings by done. set (top := rated_in _ _ _).
  destruct (Z.ltb_spec (Z.of_nat (length top)) n); [rewrite decide_False by lia | rewrite decide_True by lia]; done.
Qed.

(** Best peers.  On a non-empty list and a demand of at least one peer,
    [GetTopRatedPeersFromList] returns the listed peers with a non-negative
    rating, followed by those with a negative rating exactly when the former are
    too few; unknown peers are never returned; a demand below one or an empty
    list gives no peer.  The call changes no rating. *)
Theorem GetTopRatedPeersFromList_spec Pretty tr prh peers n :
  wf prh ->
  let top := rated_in (fun r => 0 <=? r)%Z prh peers in
  let bad := rated_in (fun r => r <? 0)%Z prh peers in
  let '(got, prh') := GetTopRatedPeersFromList Pretty tr prh peers n in
  same_entries prh prh' /\
  got = if decide (n < 1)%Z then []
        else if decide (n <= Z.of_nat (length top))%Z then top else top ++ bad.
Proof.
  intros W top bad. pose proof (GetTop_answer Pretty tr prh peers n W) as E.
  unfold GetTopRatedPeersFromList in *. split; [apply displayPeersRating_entries | exact E].
Qed.

End Correctness.

(** ** Witnesses *)

Module Witness.

Abbreviation handler := (peersRatingHandler MapCache.t (LruCache.t)).
Definition start : handler := mk MapCache.empty (LruCache.empty 1).

Lemma start_wf : wf start.
Proof. split; simpl; [by left | done | done]. Qed.

Definition calls : list call :=
  [CAddPeer "a"; CIncreaseRating "a"; CDecreaseRating "b"; CDecreaseRating "b";
   CGetTopRatedPeersFromList true ["a"; "b"; "c"] 2].

Lemma rating_tiers_invariant_witness :
  rating_of (fold_left (run id) calls start) "a" = Some 2%Z /\
  rating_of (fold_left (run id) calls start) "b" = Some (-1)%Z /\
  wf (fold_left (run id) calls start).
Proof.
  split; [vm_compute; reflexivity|]. split; [vm_compute; reflexivity|].
  apply (rating_tiers_invariant id start calls). exact start_wf.
Defined.

Lemma rating_updates_spec_witness :
  stored start "a" 0 (IncreaseRating start "a") /\
  stored start "a" 0 (DecreaseRating start "a") /\
  stored start "a" 0 (AddPeer start "a").
Proof. exact (rating_updates_spec start "a" start_wf). Defined.

Definition filled : handler := fold_left (run id) calls start.

Lemma filled_wf : wf filled.
Proof. unfold filled, calls. cbn [fold_left]. repeat apply run_wf. exact start_wf. Qed.

Lemma GetTopRatedPeersFromList_spec_witness :
  same_entries filled (GetTopRatedPeersFromList id false filled ["b"; "c"; "a"] 2).2 /\
  (GetTopRatedPeersFromList id false filled ["b"; "c"; "a"] 2).1 = ["a"; "b"].
Proof.
  pose proof (GetTopRatedPeersFromList_spec id false filled ["b"; "c"; "a"] 2 filled_wf) as [E G].
  split; [exact E | vm_compute; reflexivity].
Defined.

End Witness.
