(* ===== verification/Scores.v ===== *)
(** * Scores: the ratings as one map ([rating/peersRatingHandler.go])

    What the users of a rating handler count on: every peer it was told of has a
    score, which the calls raise, lower and bound, and the answers follow from the
    scores alone.  The handler keeps the scores in two caches, moves them between the
    two, and reads them in a way that changes the order of the entries.  Theorem: as
    long as each cache has room for the peers named so far, no user can tell the
    handler from the map of scores. *)

From S2P Require Import Prelude Errors Interfaces Cacher Rating.
From Stdlib Require Import ZArith Lia String.
From stdpp Require Import prelude gmap strings list.

Local Open Scope Z_scope.

(** ** The specification *)

Abbreviation scores := (gmap string Z).

Implicit Types (sc : scores) (pid : string).

(** A score rises by two and falls by one, between the bounds; who is not known yet
    starts with zero. *)
Definition scored sc (c : call) : scores :=
  match c with
  | CAddPeer pid => <[pid := default defaultRating (sc !! pid)]> sc
  | CIncreaseRating pid => <[pid := updated (sc !! pid) increaseFactor]> sc
  | CDecreaseRating pid => <[pid := updated (sc !! pid) decreaseFactor]> sc
  | CGetTopRatedPeersFromList _ _ _ => sc
  end.

(** The listed peers with a score [P] accepts. *)
Definition with_score (P : Z -> bool) sc (peers : list string) : list string :=
  filter (fun p => default false (P <$> sc !! p) = true) peers.

(** The answer to a question for [n] peers. *)
Definition best sc (peers : list string) (n : Z) : list string :=
  let top := with_score (fun r => 0 <=? r) sc peers in
  if decide (n < 1) then [] else if decide (n <= Z.of_nat (length top)) then top else top ++ with_score (fun r => r <? 0) sc peers.

(** The answers to the questions of a sequence of calls, and the scores after it. *)
Fixpoint spec_calls sc (calls : list call) : list (list string) * scores :=
  match calls with
  | [] => ([], sc)
  | c :: calls =>
      let '(answers, sc') := spec_calls (scored sc c) calls in
      (match c with CGetTopRatedPeersFromList _ peers n => best sc peers n :: answers | _ => answers end, sc')
  end.

(** The peer of a call that writes. *)
Definition named (c : call) : gset string :=
  match c with
  | CAddPeer pid | CIncreaseRating pid | CDecreaseRating pid => {[pid]}
  | CGetTopRatedPeersFromList _ _ _ => ∅
  end.

(** ** The handler *)

Section Handler.

Context {C D : Type} `{CacherLaws C, CacherLaws D}.
Context `{!CacherRoom C, !CacherRoom D}.
Implicit Types (prh : peersRatingHandler C D).

Fixpoint handler_calls (Pretty : string -> string) prh (calls : list call) :
    list (list string) * peersRatingHandler C D :=
  match calls with
  | [] => ([], prh)
  | c :: calls =>
      let '(answers, prh') := handler_calls Pretty (run Pretty prh c) calls in
      (match c with
       | CGetTopRatedPeersFromList tr peers n => (GetTopRatedPeersFromList Pretty tr prh peers n).1 :: answers
       | _ => answers
       end, prh')
  end.

(** The handler holds the scores. *)
Record holds prh sc : Prop := {
  hd_wf : wf prh;
  hd_top : cache_ok (topRatedCache prh);
  hd_bad : cache_ok (badRatedCache prh);
  hd_scores pid : rating_of prh pid = sc !! pid
}.

(** There is room in both caches for the peers of [ps]. *)
Definition fits prh (ps : gset string) : Prop :=
  (size ps <= room (topRatedCache prh))%nat /\ (size ps <= room (badRatedCache prh))%nat.

End Handler.

(** ** What a call keeps *)

Section Caches.

Context {C : Type} `{CacherLaws C} `{!CacherRoom C}.
Implicit Types (c : C).

(** From [c] to [c'] nobody but [pid] loses or changes an entry, when [pid] has a place. *)
Record cache_keeps pid c c' : Prop := {
  ck_ok : cache_ok c -> cache_ok c';
  ck_room : room c' = room c;
  ck_entries : cache_ok c -> (size ({[pid]} ∪ Cacher.stored c) <= room c)%nat ->
    forall p, p ≠ pid -> entry c' p = entry c p
}.

#[export] Instance cache_keeps_preorder pid : PreOrder (cache_keeps pid).
Proof.
  split; [by split|]. intros a b c [A1 A2 A3] [B1 B2 B3]. split; [auto | by rewrite B2|].
  intros Hok Hs p Hp. rewrite B3; [auto | auto | | done].
  assert ({[pid]} ∪ Cacher.stored b = {[pid]} ∪ Cacher.stored a) as ->; [|by rewrite A2].
  apply set_eq. intros k. rewrite !elem_of_union, elem_of_singleton, !elem_of_stored.
  destruct (decide (k = pid)); [tauto|]. by rewrite A3.
Qed.

Lemma cache_Get_keeps pid c k : cache_keeps pid c (Get c k).2.
Proof. split; [apply cache_ok_Get | apply room_Get | intros; apply entry_Get]. Qed.

Lemma cache_Put_keeps pid c v : cache_keeps pid c (Put c pid v).
Proof. split; [apply cache_ok_Put | apply room_Put | intros; by apply entry_Put_keeps]. Qed.

Lemma cache_Remove_keeps pid c : cache_keeps pid c (Remove c pid).
Proof. split; [apply cache_ok_Remove | apply room_Remove | intros; by apply entry_Remove_ne]. Qed.

End Caches.

Section Calls.

Context {C D : Type} `{CacherLaws C, CacherLaws D}.
Context `{!CacherRoom C, !CacherRoom D}.
Implicit Types (prh : peersRatingHandler C D).

Definition keeps pid prh prh' : Prop :=
  cache_keeps pid (topRatedCache prh) (topRatedCache prh') /\ cache_keeps pid (badRatedCache prh) (badRatedCache prh').

#[export] Instance keeps_preorder pid : PreOrder (keeps pid).
Proof. split; [by split|]. intros a b c [] []. split; by etrans. Qed.

Lemma put_top_keeps pid prh r : keeps pid prh (put_top prh pid r).
Proof. split; [apply cache_Put_keeps | done]. Qed.
Lemma put_bad_keeps pid prh r : keeps pid prh (put_bad prh pid r).
Proof. split; [done | apply cache_Put_keeps]. Qed.

Lemma getOldRating_keeps pid prh k : keeps pid prh (getOldRating prh k).2.
Proof.
  unfold getOldRating. pose proof (cache_Get_keeps pid (topRatedCache prh) k) as Ht.
  pose proof (cache_Get_keeps pid (badRatedCache prh) k) as Hb.
  destruct (Get (topRatedCache prh) k) as [[v|] top]; [by split|].
  by destruct (Get (badRatedCache prh) k) as [[w|] bad].
Qed.

Lemma movePeerToNewTier_keeps pid prh r : keeps pid prh (movePeerToNewTier prh r pid).
Proof.
  unfold movePeerToNewTier. case_decide.
  - etrans; [|apply put_top_keeps]. split; [done | apply cache_Remove_keeps].
  - etrans; [|apply put_bad_keeps]. split; [apply cache_Remove_keeps | done].
Qed.

Lemma updateRating_keeps pid prh r r' : keeps pid prh (updateRating prh pid r r').
Proof.
  unfold updateRating. repeat case_decide;
    [apply put_top_keeps | apply put_bad_keeps | apply movePeerToNewTier_keeps].
Qed.

Lemma updateRatingIfNeeded_keeps pid prh f : keeps pid prh (updateRatingIfNeeded prh pid f).
Proof.
  unfold updateRatingIfNeeded. etrans; [apply (getOldRating_keeps pid prh pid)|].
  destruct (getOldRating prh pid) as [[old [|]] prh1]; cbn; [|apply put_top_keeps].
  case_match; [done | apply updateRating_keeps].
Qed.

Lemma AddPeer_keeps pid prh : keeps pid prh (AddPeer prh pid).
Proof.
  unfold AddPeer. etrans; [apply (getOldRating_keeps pid prh pid)|].
  destruct (getOldRating prh pid) as [[old [|]] prh1]; cbn; [done | apply put_top_keeps].
Qed.

Lemma displayLines_keeps Pretty pid prh peers : keeps pid prh (displayLines Pretty prh peers).2.
Proof.
  revert prh. induction peers as [|p peers IH]; intros prh; [done|]. cbn [displayLines].
  pose proof (cache_Get_keeps pid (topRatedCache prh) p) as Ht.
  pose proof (cache_Get_keeps pid (badRatedCache prh) p) as Hb.
  destruct (Get (topRatedCache prh) p) as [[v|] top];
    [|destruct (Get (badRatedCache prh) p) as [w bad]];
    match goal with |- context [displayLines Pretty ?h peers] => specialize (IH h) end;
    destruct (displayLines Pretty _ peers) as [rest prh2]; (etrans; [|exact IH]); by split.
Qed.

(** The cached peers are scored. *)
Lemma stored_scored prh sc pid :
  holds prh sc -> {[pid]} ∪ Cacher.stored (topRatedCache prh) ⊆ {[pid]} ∪ dom sc /\
  {[pid]} ∪ Cacher.stored (badRatedCache prh) ⊆ {[pid]} ∪ dom sc.
Proof.
  intros Hh. split; apply union_mono_l; intros k [v Hv]%elem_of_stored; apply elem_of_dom;
    rewrite <- (hd_scores _ _ Hh); unfold rating_of; [by rewrite Hv|].
  destruct (entry (topRatedCache prh) k); [done | by rewrite Hv].
Qed.

(** A call that stores a rating for one peer and keeps the others changes one score. *)
Lemma holds_stored prh sc pid r prh' :
  holds prh sc -> fits prh ({[pid]} ∪ dom sc) ->
  Rating.stored prh pid r prh' -> keeps pid prh prh' -> holds prh' (<[pid := r]> sc).
Proof.
  intros Hh [Ft Fb] Hs [Kt Kb]. destruct (stored_scored prh sc pid Hh) as [St Sb].
  apply subseteq_size in St, Sb.
  split; [apply Hs | apply Kt, Hh | apply Kb, Hh|]. intros p. destruct (decide (p = pid)) as [->|Hp].
  - rewrite lookup_insert_eq. apply Hs.
  - rewrite lookup_insert_ne, <- (hd_scores _ _ Hh) by done. unfold rating_of.
    rewrite (ck_entries _ _ _ Kt), (ck_entries _ _ _ Kb) by (first [apply Hh | done | lia]). done.
Qed.

Lemma holds_run Pretty prh sc c :
  holds prh sc -> fits prh (named c ∪ dom sc) ->
  holds (run Pretty prh c) (scored sc c) /\ room (topRatedCache (run Pretty prh c)) = room (topRatedCache prh) /\
  room (badRatedCache (run Pretty prh c)) = room (badRatedCache prh).
Proof.
  intros Hh Hf.
  destruct c as [pid|pid|pid|tr peers n]; cbn [run scored named] in *.
  1-3: rewrite <- (hd_scores _ _ Hh).
  1: assert (keeps pid prh (AddPeer prh pid)) as K by apply AddPeer_keeps.
  2: assert (keeps pid prh (IncreaseRating prh pid)) as K by apply updateRatingIfNeeded_keeps.
  3: assert (keeps pid prh (DecreaseRating prh pid)) as K by apply updateRatingIfNeeded_keeps.
  1-3: split; [apply (holds_stored prh); [done | done | | exact K] | split; apply K].
  - apply AddPeer_stored, Hh.
  - apply updateRatingIfNeeded_stored; [apply Hh | by left].
  - apply updateRatingIfNeeded_stored; [apply Hh | by right].
  - unfold GetTopRatedPeersFromList, displayPeersRating. cbn [snd]. destruct tr; [|done]. cbn [negb].
    pose proof (displayLines_entries Pretty prh (topRatedPeers prh peers n)) as E.
    assert (forall pid, keeps pid prh (displayLines Pretty prh (topRatedPeers prh peers n)).2) as K
      by (intros; apply displayLines_keeps).
    split; [|split; apply (K EmptyString)].
    split; [rewrite <- E; apply Hh | apply (K EmptyString), Hh | apply (K EmptyString), Hh|].
    intros pid. rewrite <- E. apply Hh.
Qed.

(** The answer of the handler is that of the scores. *)
Lemma holds_answer Pretty tr prh sc peers n :
  holds prh sc -> (GetTopRatedPeersFromList Pretty tr prh peers n).1 = best sc peers n.
Proof.
  intros Hh. pose proof (GetTop_answer Pretty tr prh peers n (hd_wf _ _ Hh)) as ->.
  assert (forall P, rated_in P prh peers = with_score P sc peers) as E.
  { intros P. apply list_filter_iff. intros p. by rewrite (hd_scores _ _ Hh). }
  unfold best. by rewrite !E.
Qed.

(** [C19] Refinement to a map of scores.  A handler that holds the scores, with caches
    that have room for the peers known and the peers named by the calls, gives to every
    sequence of calls the answers of the specification, and holds the scores of the
    specification afterwards: the two tiers, the moves between them and the lookups of
    the trace output cannot be seen. *)
Theorem ratings_refine Pretty prh sc (calls : list call) :
  holds prh sc -> fits prh (⋃ (named <$> calls) ∪ dom sc) ->
  (handler_calls Pretty prh calls).1 = (spec_calls sc calls).1 /\
  holds (handler_calls Pretty prh calls).2 (spec_calls sc calls).2.
Proof.
  revert prh sc. induction calls as [|c calls IH]; intros prh sc Hh [Ft Fb]; [done|].
  cbn [fmap list_fmap union_list] in Ft, Fb.
  assert (dom (scored sc c) = named c ∪ dom sc) as Ed.
  { destruct c; cbn; rewrite ?dom_insert_L; set_solver. }
  assert (forall n : nat, (size (named c ∪ ⋃ (named <$> calls) ∪ dom sc) <= n)%nat ->
    (size (named c ∪ dom sc) <= n)%nat /\ (size (⋃ (named <$> calls) ∪ dom (scored sc c)) <= n)%nat) as Hle.
  { intros n Hn. rewrite Ed. split; (etrans; [apply subseteq_size|exact Hn]); set_solver. }
  destruct (Hle _ Ft) as [Ft1 Ft2], (Hle _ Fb) as [Fb1 Fb2].
  destruct (holds_run Pretty prh sc c Hh) as (Hh' & Rt & Rb); [done|].
  destruct (IH _ _ Hh') as [Ea Hh'']; [split; by rewrite ?Rt, ?Rb|].
  cbn [handler_calls spec_calls].
  destruct (handler_calls Pretty _ calls) as [as1 prh1], (spec_calls _ calls) as [as2 sc1]. cbn in *.
  split; [|done]. subst as2. destruct c as [| | |tr peers n]; [done..|]. f_equal. by apply (holds_answer Pretty tr).
Qed.

End Calls.

(** ** Witnesses *)

Module Witness.

Abbreviation handler := (peersRatingHandler LruCache.t LruCache.t).

(** Two caches for two peers each. *)
Definition start : handler := Rating.mk (LruCache.empty 1) (LruCache.empty 1).

Lemma start_holds : holds start ∅.
Proof. split; [split | constructor | constructor |]; try done. by left. Qed.

(** Both peers change tiers; a third is only asked about. *)
Definition calls : list call :=
  [CAddPeer "a"; CDecreaseRating "b"; CDecreaseRating "b"; CDecreaseRating "a";
   CGetTopRatedPeersFromList true ["c"; "b"; "a"] 1; CIncreaseRating "b";
   CGetTopRatedPeersFromList false ["c"; "a"; "b"] 2].

Lemma ratings_refine_witness :
  (handler_calls id start calls).1 = [["b"; "a"]; ["b"; "a"]] /\
  holds (handler_calls id start calls).2 (<["a" := -1]> (<["b" := 1]> ∅)).
Proof.
  assert (fits start (⋃ (named <$> calls) ∪ dom (∅ : gmap string Z))) as F by (split; apply Nat.leb_le; vm_compute; reflexivity).
  destruct (ratings_refine id start ∅ calls start_holds F) as [E Hh]. rewrite E. split; [vm_compute; reflexivity|].
  replace (<["a" := -1]> (<["b" := 1]> ∅)) with (spec_calls ∅ calls).2 by (vm_compute; reflexivity). exact Hh.
Defined.

End Witness.
