(* ===== verification/PeersHolder.v ===== *)
(** * PeersHolder: the preferred peers ([peersHolder/peersHolder.go])

    The holder maps the preferred connection addresses to the peers seen on
    them, keeps the peers whose shard is not known yet, and the peers per shard.
    A nil slice is the empty list (the code never stores an empty non-nil one),
    a [*peerInfo] is reachable from one slice only and so is a value in it.
    Slicing out of range is a [Panic]. *)

From S2P Require Import Prelude Errors.
From Stdlib Require Import ZArith Lia String.
From stdpp Require Import prelude gmap strings list.

(** ** The connection string validator
    ([peersHolder/connectionStringValidator/connectionStringValidator.go])

    [net_ParseIP] says whether [net.ParseIP] accepts a string, [core_NewPeerID]
    is the peer identifier decoder of the core package. *)

Section Validator.

Context (net_ParseIP : string -> bool) (core_NewPeerID : string -> result string).

Definition isValidIP (connStr : string) : bool := net_ParseIP connStr.
Definition isValidPeerID (connStr : string) : bool := is_ok (core_NewPeerID connStr).
Definition IsValid (connStr : string) : bool := isValidIP connStr || isValidPeerID connStr.

End Validator.

(** ** State *)

Record peerInfo : Type := mkPeerInfo { pid : string; info_shardID : Z }.

Record peerIDData : Type := mkPeerIDData {
  connectionAddress : string;
  shardID : Z;
  index : nat
}.

Record peersHolder : Type := mk {
  preferredConnAddresses : list string;
  connAddrToPeersInfo : gmap string (list peerInfo);
  tempPeerIDsWaitingForShard : gmap string string;
  peerIDsPerShard : gmap Z (list string);
  peerIDs : gmap string peerIDData
}.

Definition set_connAddrToPeersInfo m ph :=
  mk (preferredConnAddresses ph) m (tempPeerIDsWaitingForShard ph) (peerIDsPerShard ph) (peerIDs ph).
Definition set_temp m ph :=
  mk (preferredConnAddresses ph) (connAddrToPeersInfo ph) m (peerIDsPerShard ph) (peerIDs ph).
Definition set_peerIDsPerShard m ph :=
  mk (preferredConnAddresses ph) (connAddrToPeersInfo ph) (tempPeerIDsWaitingForShard ph) m (peerIDs ph).
Definition set_peerIDs m ph :=
  mk (preferredConnAddresses ph) (connAddrToPeersInfo ph) (tempPeerIDsWaitingForShard ph)
    (peerIDsPerShard ph) m.

(** [m[k]] of a map of slices: nil when the key is absent. *)
Abbreviation slice_at m k := (default [] (m !! k)).

(** ** Operations *)

Section Operations.

(** The shard placeholder [core.AllShardId] of the core package. *)
Context (AllShardId : Z).

Implicit Types (ph : peersHolder) (peerID addr : string).

(** The loop of the constructor over the addresses. *)
Fixpoint collectAddresses (isValid : string -> bool) (addrs : list string)
    (preferred : list string) (m : gmap string (list peerInfo)) :
    result (list string * gmap string (list peerInfo)) :=
  match addrs with
  | [] => Ok (preferred, m)
  | connAddr :: addrs' =>
      if negb (isValid connAddr)
      then Err (ErrWrap ErrInvalidValue (" for preferred connection address " +:+ connAddr))
      else collectAddresses isValid addrs' (preferred ++ [connAddr]) (<[connAddr := []]> m)
  end.

Definition NewPeersHolder (isValid : string -> bool) (addrs : list string) : result peersHolder :=
  let? (preferred, m) := collectAddresses isValid addrs [] ∅ in
  Ok (mk preferred m ∅ ∅ ∅).

Definition getKnownConnection ph (connectionAddressStr : string) : string :=
  default "" (head (filter (fun a => strings_Contains connectionAddressStr a = true)
                       (preferredConnAddresses ph))).

Definition addNewPeerInfoToMaps ph peerID (knownConnection : string) : peersHolder :=
  let ph := set_temp (<[peerID := knownConnection]> (tempPeerIDsWaitingForShard ph)) ph in
  let newPeerInfo := mkPeerInfo peerID AllShardId in
  set_connAddrToPeersInfo
    (<[knownConnection := slice_at (connAddrToPeersInfo ph) knownConnection ++ [newPeerInfo]]>
       (connAddrToPeersInfo ph)) ph.

(** Position and value of the peer's entry in a slice. *)
Fixpoint getPeerInfoForPeerID peerID (peersInfo : list peerInfo) : option (nat * peerInfo) :=
  match peersInfo with
  | [] => None
  | pInfo :: l =>
      if decide (peerID = pid pInfo) then Some (0, pInfo)
      else prod_map S id <$> getPeerInfoForPeerID peerID l
  end.

Definition PutConnectionAddress ph peerID (connectionAddress : string) : peersHolder :=
  let knownConnection := getKnownConnection ph connectionAddress in
  if decide (String.length knownConnection = 0) then ph
  else
    match slice_at (connAddrToPeersInfo ph) knownConnection with
    | [] => addNewPeerInfoToMaps ph peerID knownConnection
    | peersInfo =>
        match getPeerInfoForPeerID peerID peersInfo with
        | None => addNewPeerInfoToMaps ph peerID knownConnection
        | Some _ => ph
        end
    end.

Definition PutShardID ph peerID (shard : Z) : peersHolder :=
  match tempPeerIDsWaitingForShard ph !! peerID with
  | None => ph
  | Some knownConnection =>
      match connAddrToPeersInfo ph !! knownConnection with
      | None | Some [] => ph
      | Some peersInfo =>
          match getPeerInfoForPeerID peerID peersInfo with
          | None => ph
          | Some (i, pInfo) =>
              let ph := set_connAddrToPeersInfo
                (<[knownConnection := <[i := mkPeerInfo (pid pInfo) shard]> peersInfo]>
                   (connAddrToPeersInfo ph)) ph in
              let ph := set_peerIDsPerShard
                (<[shard := slice_at (peerIDsPerShard ph) shard ++ [peerID]]> (peerIDsPerShard ph)) ph in
              let ph := set_peerIDs
                (<[peerID := mkPeerIDData knownConnection shard
                               (length (slice_at (peerIDsPerShard ph) shard) - 1)]> (peerIDs ph)) ph in
              set_temp (delete peerID (tempPeerIDsWaitingForShard ph)) ph
          end
      end
  end.

Definition Get ph : gmap Z (list string) := peerIDsPerShard ph.

Definition Contains ph peerID : bool := bool_decide (is_Some (peerIDs ph !! peerID)).

(** [append(s[:index], s[index+1:]...)]: the second slice expression panics when
    [index+1] exceeds the length. *)
Definition slice_remove {A} (s : list A) (i : nat) : outcome (list A) :=
  if decide (i + 1 <= length s) then Ret (take i s ++ drop (i + 1) s) else Panic.

Definition removePeerFromMapAtIndex ph (shard : Z) (i : nat) : outcome peersHolder :=
  match slice_remove (slice_at (peerIDsPerShard ph) shard) i with
  | Panic => Panic
  | Ret s =>
      let ph := set_peerIDsPerShard (<[shard := s]> (peerIDsPerShard ph)) ph in
      Ret (if decide (length s = 0)
           then set_peerIDsPerShard (delete shard (peerIDsPerShard ph)) ph else ph)
  end.

Definition getShardAndIndexForPeer ph peerID : Z * nat * bool :=
  match peerIDs ph !! peerID with
  | None => (0%Z, 0, false)
  | Some pidData => (shardID pidData, index pidData, true)
  end.

Definition removePeerFromPeersInfoAtIndex ph (peersInfo : list peerInfo) (i : nat) addr :
    peersHolder :=
  set_connAddrToPeersInfo
    (<[addr := take i peersInfo ++ drop (i + 1) peersInfo]> (connAddrToPeersInfo ph)) ph.

Definition removePeerInfoAtConnectionAddress ph peerID addr : peersHolder :=
  let peersInfo := slice_at (connAddrToPeersInfo ph) addr in
  match getPeerInfoForPeerID peerID peersInfo with
  | None => ph
  | Some (i, _) => removePeerFromPeersInfoAtIndex ph peersInfo i addr
  end.

Definition Remove ph peerID : outcome peersHolder :=
  match peerIDs ph !! peerID with
  | None => Ret ph
  | Some pidData =>
      let '(shard, i, _) := getShardAndIndexForPeer ph peerID in
      match removePeerFromMapAtIndex ph shard i with
      | Panic => Panic
      | Ret ph =>
          let connAddress := connectionAddress pidData in
          let ph := set_peerIDs (delete peerID (peerIDs ph)) ph in
          let ph := removePeerInfoAtConnectionAddress ph peerID connAddress in
          Ret (match tempPeerIDsWaitingForShard ph !! peerID with
               | Some _ => set_temp (delete peerID (tempPeerIDsWaitingForShard ph)) ph
               | None => ph
               end)
      end
  end.

Definition Clear ph : peersHolder := mk (preferredConnAddresses ph) ∅ ∅ ∅ ∅.

(** ** Well-formedness *)

(** A peer that waits for its shard is listed at its (non-empty) address. *)
Definition waiting_listed ph : Prop :=
  forall p c, tempPeerIDsWaitingForShard ph !! p = Some c ->
    exists l, connAddrToPeersInfo ph !! c = Some l /\ is_Some (getPeerInfoForPeerID p l).

(** The stored index of a peer is its position in the slice of its shard. *)
Definition index_ok ph : Prop :=
  forall p d, peerIDs ph !! p = Some d -> slice_at (peerIDsPerShard ph) (shardID d) !! index d = Some p.

End Operations.

(** ** Lemmas *)

Section Lemmas.

Context (AllShardId : Z).
Implicit Types (ph : peersHolder) (p addr : string).

Lemma getPeerInfo_Some p l i x :
  getPeerInfoForPeerID p l = Some (i, x) -> l !! i = Some x /\ pid x = p.
Proof.
  revert i. induction l as [|y l IH]; intros i; simpl; [done|].
  case_decide as Hp; [by intros [= <- <-]|].
  destruct (getPeerInfoForPeerID p l) as [[j z]|] eqn:E; simpl; intros; simplify_eq/=. by apply IH.
Qed.

(** The search depends on the peer identifiers of the slice only. *)
Lemma getPeerInfo_is_Some p l : is_Some (getPeerInfoForPeerID p l) <-> p ∈ pid <$> l.
Proof.
  induction l as [|y l IH]; simpl.
  - split; [by intros [? [=]] | set_solver].
  - rewrite elem_of_cons, <- IH. case_decide as Hp.
    + split; [by left | by eexists].
    + rewrite fmap_is_Some. split; [by right | by intros [?|?]].
Qed.

Lemma pid_insert_same (l : list peerInfo) i x s :
  l !! i = Some x -> pid <$> <[i := mkPeerInfo (pid x) s]> l = pid <$> l.
Proof.
  intros Hx. rewrite list_fmap_insert. simpl. apply list_insert_id.
  by rewrite list_lookup_fmap, Hx.
Qed.

Lemma pid_remove_at (l : list peerInfo) i x p :
  l !! i = Some x -> p ∈ pid <$> l -> p ≠ pid x -> p ∈ pid <$> (take i l ++ drop (i + 1) l).
Proof.
  intros Hx. rewrite <- (take_drop_middle l i x Hx) at 1.
  rewrite Nat.add_1_r, !fmap_app, fmap_cons. set_solver.
Qed.

Lemma PutConnectionAddress_cases ph p addr :
  PutConnectionAddress AllShardId ph p addr = ph \/
  PutConnectionAddress AllShardId ph p addr =
    addNewPeerInfoToMaps AllShardId ph p (getKnownConnection ph addr).
Proof.
  unfold PutConnectionAddress. case_decide; [by left|].
  destruct (slice_at _ _); [by right|]. case_match; auto.
Qed.

Lemma waiting_listed_put ph p addr :
  waiting_listed ph -> waiting_listed (PutConnectionAddress AllShardId ph p addr).
Proof.
  intros W. destruct (PutConnectionAddress_cases ph p addr) as [->| ->]; [done|].
  set (c := getKnownConnection ph addr). intros q d. simpl.
  rewrite lookup_insert. case_decide as Hq.
  - intros [= <-]. eexists. rewrite lookup_insert_eq. split; [done|].
    apply getPeerInfo_is_Some. rewrite fmap_app. set_solver.
  - intros (l & Hl & Hp)%W. rewrite lookup_insert. case_decide as Hc; [|by eauto].
    subst. rewrite Hl. eexists. split; [done|]. simpl.
    apply getPeerInfo_is_Some. rewrite fmap_app. apply getPeerInfo_is_Some in Hp. set_solver.
Qed.

(** Registering the shard of a waiting peer. *)
Lemma PutShardID_waiting ph p s c :
  waiting_listed ph -> tempPeerIDsWaitingForShard ph !! p = Some c ->
  exists l i x, connAddrToPeersInfo ph !! c = Some l /\ l !! i = Some x /\ pid x = p /\
    PutShardID ph p s =
      mk (preferredConnAddresses ph)
         (<[c := <[i := mkPeerInfo p s]> l]> (connAddrToPeersInfo ph))
         (delete p (tempPeerIDsWaitingForShard ph))
         (<[s := slice_at (peerIDsPerShard ph) s ++ [p]]> (peerIDsPerShard ph))
         (<[p := mkPeerIDData c s (length (slice_at (peerIDsPerShard ph) s))]> (peerIDs ph)).
Proof.
  intros W Hc. destruct (W _ _ Hc) as (l & Hl & [[i x] Hi]).
  destruct (getPeerInfo_Some _ _ _ _ Hi) as [Hx Hpx].
  exists l, i, x. split_and!; try done. unfold PutShardID. rewrite Hc, Hl.
  destruct l as [|y l]; [done|]. rewrite Hi, Hpx. simpl.
  unfold set_temp, set_peerIDs, set_peerIDsPerShard, set_connAddrToPeersInfo. simpl.
  do 3 f_equal. rewrite lookup_insert_eq. simpl. rewrite length_app. simpl. lia.
Qed.

Lemma PutShardID_not_waiting ph p s :
  tempPeerIDsWaitingForShard ph !! p = None -> PutShardID ph p s = ph.
Proof. unfold PutShardID. by intros ->. Qed.

Lemma waiting_listed_shard ph p s : waiting_listed ph -> waiting_listed (PutShardID ph p s).
Proof.
  intros W. destruct (tempPeerIDsWaitingForShard ph !! p) as [c|] eqn:Hc.
  2: by rewrite PutShardID_not_waiting.
  destruct (PutShardID_waiting _ _ s _ W Hc) as (l & i & x & Hl & Hx & Hp & ->).
  intros q d. simpl. rewrite lookup_delete_Some. intros [Hne (l' & Hl' & Hq)%W].
  rewrite lookup_insert. case_decide as Hcd; [|by eauto]. simplify_eq.
  eexists. split; [done|]. rewrite getPeerInfo_is_Some in Hq |- *. by rewrite pid_insert_same.
Qed.

Lemma waiting_listed_clear ph : waiting_listed (Clear ph).
Proof. intros q d. simpl. by rewrite lookup_empty. Qed.

(** The fields of the holder after a successful [Remove] of a held peer. *)
Lemma Remove_held ph p d :
  peerIDs ph !! p = Some d ->
  let s := slice_at (peerIDsPerShard ph) (shardID d) in
  let s' := take (index d) s ++ drop (index d + 1) s in
  let infos := slice_at (connAddrToPeersInfo ph) (connectionAddress d) in
  Remove ph p =
    if decide (index d + 1 <= length s) then
      Ret (mk (preferredConnAddresses ph)
        (match getPeerInfoForPeerID p infos with
         | Some (i, _) => <[connectionAddress d := take i infos ++ drop (i + 1) infos]> (connAddrToPeersInfo ph)
         | None => connAddrToPeersInfo ph
         end)
        (delete p (tempPeerIDsWaitingForShard ph))
        (if decide (length s' = 0) then delete (shardID d) (peerIDsPerShard ph)
         else <[shardID d := s']> (peerIDsPerShard ph))
        (delete p (peerIDs ph)))
    else Panic.
Proof.
  intros Hd s s' infos. unfold Remove, getShardAndIndexForPeer. rewrite Hd.
  unfold removePeerFromMapAtIndex, slice_remove. fold s.
  case_decide; [|done]. fold s'. f_equal.
  unfold removePeerInfoAtConnectionAddress, removePeerFromPeersInfoAtIndex,
    set_peerIDs, set_peerIDsPerShard, set_connAddrToPeersInfo, set_temp.
  case_decide; simpl; fold infos; destruct (getPeerInfoForPeerID p infos) as [[i x]|]; simpl;
    destruct (tempPeerIDsWaitingForShard ph !! p) eqn:Ht; simpl;
    rewrite ?delete_insert_eq, ?(delete_id (tempPeerIDsWaitingForShard ph)) by done; done.
Qed.

Lemma Remove_not_held ph p : peerIDs ph !! p = None -> Remove ph p = Ret ph.
Proof. unfold Remove. by intros ->. Qed.

Lemma waiting_listed_remove ph p ph' : waiting_listed ph -> Remove ph p = Ret ph' -> waiting_listed ph'.
Proof.
  intros W Hr. destruct (peerIDs ph !! p) as [d|] eqn:Hd.
  2: { rewrite Remove_not_held in Hr by done. by simplify_eq. }
  rewrite (Remove_held _ _ _ Hd) in Hr. case_decide; [|done]. simplify_eq.
  intros q c. simpl. rewrite lookup_delete_Some. intros [Hne (l & Hl & Hq)%W].
  destruct (getPeerInfoForPeerID p _) as [[i x]|] eqn:Hi; [|by eauto].
  rewrite lookup_insert. case_decide as Hc; [|by eauto]. subst c.
  eexists. split; [done|]. rewrite Hl in *. simpl in *.
  apply getPeerInfo_Some in Hi as [Hx Hpx]. rewrite getPeerInfo_is_Some in Hq |- *.
  eapply pid_remove_at; [done | done | by rewrite Hpx].
Qed.

Lemma index_ok_put ph p addr : index_ok ph -> index_ok (PutConnectionAddress AllShardId ph p addr).
Proof. intros I. by destruct (PutConnectionAddress_cases ph p addr) as [->| ->]. Qed.

Lemma index_ok_clear ph : index_ok (Clear ph).
Proof. intros q d. simpl. by rewrite lookup_empty. Qed.

Lemma index_ok_shard ph p s : waiting_listed ph -> index_ok ph -> index_ok (PutShardID ph p s).
Proof.
  intros W I. destruct (tempPeerIDsWaitingForShard ph !! p) as [c|] eqn:Hc.
  2: by rewrite PutShardID_not_waiting.
  destruct (PutShardID_waiting _ _ s _ W Hc) as (l & i & x & Hl & Hx & Hp & ->).
  intros q d. simpl. rewrite !lookup_insert. case_decide as Hq.
  - intros [= <-]. simpl. rewrite decide_True by done. simpl. rewrite lookup_app_r by done.
    by rewrite Nat.sub_diag, Hq.
  - intros Hd%I. case_decide as Hs; [|done]. subst s. simpl. by apply lookup_app_l_Some.
Qed.

(** Removing the last peer of a shard keeps the other indexes right. *)
Lemma index_ok_remove_last ph p d ph' :
  index_ok ph -> peerIDs ph !! p = Some d ->
  index d + 1 = length (slice_at (peerIDsPerShard ph) (shardID d)) ->
  Remove ph p = Ret ph' -> index_ok ph'.
Proof.
  intros I Hd Hlast Hr. rewrite (Remove_held _ _ _ Hd) in Hr.
  rewrite Hlast, drop_all, app_nil_r in Hr. rewrite decide_True in Hr by lia. simplify_eq.
  intros q e. simpl. rewrite lookup_delete_Some. intros [Hne He].
  pose proof (I _ _ He) as Hi.
  destruct (decide (shardID e = shardID d)) as [Hs|Hs].
  - rewrite Hs in Hi |- *.
    assert (index e < index d) as Hlt.
    { pose proof (lookup_lt_Some _ _ _ Hi). assert (index e ≠ index d); [|lia].
      intros E. rewrite E, (I _ _ Hd) in Hi. congruence. }
    assert (take (index d) (slice_at (peerIDsPerShard ph) (shardID d)) !! index e = Some q) as Ht
      by (rewrite lookup_take_lt; done).
    case_decide as Hz; [|by rewrite lookup_insert_eq].
    apply nil_length_inv in Hz. by rewrite Hz in Ht.
  - case_decide; [rewrite lookup_delete_ne by done | rewrite lookup_insert_ne by done]; done.
Qed.

End Lemmas.

(** ** Correctness of the holder *)

Section Correctness.

Context (AllShardId : Z).
Implicit Types (ph : peersHolder) (p addr : string).

(** The holders a sequence of calls can produce. *)
Inductive reachable : peersHolder -> Prop :=
| reach_new isValid addrs ph : NewPeersHolder isValid addrs = Ok ph -> reachable ph
| reach_put ph p addr : reachable ph -> reachable (PutConnectionAddress AllShardId ph p addr)
| reach_shard ph p s : reachable ph -> reachable (PutShardID ph p s)
| reach_remove ph p ph' : reachable ph -> Remove ph p = Ret ph' -> reachable ph'
| reach_clear ph : reachable ph -> reachable (Clear ph).

Lemma NewPeersHolder_fields isValid addrs ph :
  NewPeersHolder isValid addrs = Ok ph ->
  tempPeerIDsWaitingForShard ph = ∅ /\ peerIDsPerShard ph = ∅ /\ peerIDs ph = ∅.
Proof. unfold NewPeersHolder. destruct (collectAddresses _ _ _ _) as [[? ?]|?]; intros; by simplify_eq. Qed.

Lemma reachable_waiting_listed ph : reachable ph -> waiting_listed ph.
Proof.
  induction 1 as [isValid addrs ph Hn| | | |].
  - intros p c. apply NewPeersHolder_fields in Hn as (-> & _). by rewrite lookup_empty.
  - by apply waiting_listed_put.
  - by apply waiting_listed_shard.
  - by eapply waiting_listed_remove.
  - by apply waiting_listed_clear.
Qed.

(** Registration.  In every reachable holder, giving a shard to a peer that
    waits for one registers it: the peer becomes a preferred peer of that shard,
    at the end of the shard's list, with its address and position recorded, and
    stops waiting.  A peer that does not wait changes nothing. *)
Theorem PutShardID_registers ph p s :
  reachable ph ->
  match tempPeerIDsWaitingForShard ph !! p with
  | Some c =>
      let ph' := PutShardID ph p s in
      Contains ph' p = true /\
      Get ph' = <[s := slice_at (Get ph) s ++ [p]]> (Get ph) /\
      peerIDs ph' = <[p := mkPeerIDData c s (length (slice_at (Get ph) s))]> (peerIDs ph) /\
      tempPeerIDsWaitingForShard ph' = delete p (tempPeerIDsWaitingForShard ph)
  | None => PutShardID ph p s = ph
  end.
Proof.
  intros W%reachable_waiting_listed. destruct (tempPeerIDsWaitingForShard ph !! p) as [c|] eqn:Hc.
  2: by apply PutShardID_not_waiting.
  destruct (PutShardID_waiting _ _ s _ W Hc) as (l & i & x & _ & _ & _ & ->). simpl.
  split_and!; try done. unfold Contains. simpl. by rewrite lookup_insert_eq.
Qed.

Lemma getKnownConnection_spec ph addr c :
  getKnownConnection ph addr = c -> c ≠ "" ->
  c ∈ preferredConnAddresses ph /\ strings_Contains addr c = true.
Proof.
  unfold getKnownConnection. intros <- Hc.
  destruct (head _) as [a|] eqn:E; [|done]. simpl in *.
  apply head_Some_elem_of in E. by apply list_elem_of_filter in E as [? ?].
Qed.

Lemma getKnownConnection_none ph addr :
  (forall c, c ∈ preferredConnAddresses ph -> strings_Contains addr c = false) ->
  getKnownConnection ph addr = "".
Proof.
  intros Hn. unfold getKnownConnection.
  destruct (head _) as [a|] eqn:E; [|done].
  apply head_Some_elem_of, list_elem_of_filter in E as [Hc Hin].
  specialize (Hn _ Hin). congruence.
Qed.

(** Connection addresses.  A new peer is put on the waiting list exactly
    when its connection string contains a preferred address (the first such) and
    it is not listed there yet; it is then listed at that address.  In every
    other case the holder does not change. *)
Theorem PutConnectionAddress_spec ph p addr :
  let c := getKnownConnection ph addr in
  let ph' := PutConnectionAddress AllShardId ph p addr in
  (ph' = ph /\ (c = "" \/ p ∈ (pid <$> slice_at (connAddrToPeersInfo ph) c))) \/
  (c ∈ preferredConnAddresses ph /\ strings_Contains addr c = true /\
   ~ (p ∈ (pid <$> slice_at (connAddrToPeersInfo ph) c)) /\
   tempPeerIDsWaitingForShard ph' = <[p := c]> (tempPeerIDsWaitingForShard ph) /\
   connAddrToPeersInfo ph' =
     <[c := slice_at (connAddrToPeersInfo ph) c ++ [mkPeerInfo p AllShardId]]> (connAddrToPeersInfo ph) /\
   Get ph' = Get ph /\ peerIDs ph' = peerIDs ph).
Proof.
  intros c ph'. unfold ph', PutConnectionAddress. fold c.
  assert (String.length c = 0 <-> c = "") as Hlen by (destruct c; split; intros [=]; done).
  rewrite <- getPeerInfo_is_Some. case_decide as Hl; [left; by rewrite Hlen in Hl; auto|].
  assert (c ≠ "") as Hne by naive_solver.
  destruct (getKnownConnection_spec ph addr c eq_refl Hne) as [Hin Hct].
  destruct (slice_at (connAddrToPeersInfo ph) c) as [|x l] eqn:Es.
  - right. split_and!; simpl; rewrite ?Es; try done; intros [? [=]]; congruence.
  - destruct (getPeerInfoForPeerID p (x :: l)) as [y|] eqn:Ep; [by left; eauto|].
    right. split_and!; simpl; rewrite ?Es; try done; intros [? [=]]; congruence.
Qed.

(** Call sequences in which [Remove] is applied only to the last peer of a shard. *)
Inductive reachable_lifo : peersHolder -> Prop :=
| lifo_new isValid addrs ph : NewPeersHolder isValid addrs = Ok ph -> reachable_lifo ph
| lifo_put ph p addr : reachable_lifo ph -> reachable_lifo (PutConnectionAddress AllShardId ph p addr)
| lifo_shard ph p s : reachable_lifo ph -> reachable_lifo (PutShardID ph p s)
| lifo_remove ph p ph' :
    reachable_lifo ph ->
    (forall d, peerIDs ph !! p = Some d ->
       index d + 1 = length (slice_at (peerIDsPerShard ph) (shardID d))) ->
    Remove ph p = Ret ph' -> reachable_lifo ph'
| lifo_clear ph : reachable_lifo ph -> reachable_lifo (Clear ph).

Lemma reachable_lifo_reachable ph : reachable_lifo ph -> reachable ph.
Proof. induction 1; eauto using reachable. Qed.

(** Position invariant.  As long as [Remove] is called only on the last peer
    of its shard, the position recorded for a preferred peer is its position in
    the list of its shard, so every preferred peer is listed. *)
Theorem index_ok_invariant ph : reachable_lifo ph -> index_ok ph.
Proof.
  induction 1 as [isValid addrs ph Hn| | | ph p ph' Hr IH Hlast Hrem|].
  - intros p d. apply NewPeersHolder_fields in Hn as (_ & _ & ->). by rewrite lookup_empty.
  - by apply index_ok_put.
  - by apply index_ok_shard; [apply reachable_waiting_listed, reachable_lifo_reachable|].
  - destruct (peerIDs ph !! p) as [d|] eqn:Hd.
    + by eapply index_ok_remove_last; [| |apply Hlast|].
    + rewrite Remove_not_held in Hrem by done. by simplify_eq.
  - apply index_ok_clear.
Qed.

(** Removal.  When the recorded positions are right, [Remove] does not panic:
    it forgets the peer, cuts exactly that peer out of the list of its shard
    (dropping the shard when its list becomes empty), stops it waiting, and keeps
    every other preferred peer and every other shard. *)
Theorem Remove_spec ph p d :
  index_ok ph -> peerIDs ph !! p = Some d ->
  exists ph' a b,
    Remove ph p = Ret ph' /\
    Contains ph' p = false /\ tempPeerIDsWaitingForShard ph' !! p = None /\
    (forall q, q ≠ p -> peerIDs ph' !! q = peerIDs ph !! q) /\
    slice_at (Get ph) (shardID d) = a ++ p :: b /\ length a = index d /\
    slice_at (Get ph') (shardID d) = a ++ b /\
    (Get ph' !! shardID d = None <-> a ++ b = []) /\
    (forall s, s ≠ shardID d -> Get ph' !! s = Get ph !! s).
Proof.
  intros I Hd. pose proof (I _ _ Hd) as Hi. pose proof (lookup_lt_Some _ _ _ Hi) as Hlt.
  rewrite (Remove_held _ _ _ Hd), decide_True by lia.
  eexists _, (take (index d) (slice_at (Get ph) (shardID d))),
    (drop (index d + 1) (slice_at (Get ph) (shardID d))).
  split; [done|]. unfold Contains, Get. cbn [peerIDs peerIDsPerShard tempPeerIDsWaitingForShard].
  rewrite !lookup_delete_eq. split_and!; try done.
  - intros q Hne. by rewrite lookup_delete_ne.
  - rewrite Nat.add_1_r. symmetry. by apply take_drop_middle.
  - rewrite length_take. lia.
  - case_decide as Hz; [|by rewrite lookup_insert_eq].
    rewrite lookup_delete_eq. apply nil_length_inv in Hz. by rewrite Hz.
  - case_decide as Hz.
    + rewrite lookup_delete_eq. apply nil_length_inv in Hz. by rewrite Hz.
    + rewrite lookup_insert_eq. split; [done|]. intros E. exfalso. apply Hz. by rewrite E.
  - intros s Hs. case_decide; [by rewrite lookup_delete_ne | by rewrite lookup_insert_ne].
Qed.

(** Stale positions.  After [Remove] of a peer that is not the last of its
    shard, the positions of the peers behind it are out of date: removing then
    the last peer [q] of that shard panics, and removing any other later peer [q]
    leaves [q] in the list of the shard, cuts out the peer behind it, which stays
    in [peerIDs], although [q] itself is no longer a preferred peer. *)
Theorem Remove_stale_index ph p q dp dq ph1 :
  index_ok ph -> NoDup (slice_at (Get ph) (shardID dp)) ->
  peerIDs ph !! p = Some dp -> peerIDs ph !! q = Some dq ->
  shardID dq = shardID dp -> index dp < index dq ->
  Remove ph p = Ret ph1 ->
  if decide (index dq + 1 = length (slice_at (Get ph) (shardID dp)))
  then Remove ph1 q = Panic
  else exists ph2 r,
    Remove ph1 q = Ret ph2 /\ Contains ph2 q = false /\
    q ∈ slice_at (Get ph2) (shardID dp) /\
    slice_at (Get ph) (shardID dp) !! (index dq + 1) = Some r /\
    r ∉ slice_at (Get ph2) (shardID dp).
Proof.
  intros I Hnd Hp Hq Hs Hlt H1.
  destruct (Remove_spec _ _ _ I Hp) as (ph1' & a & b & E1 & _ & _ & Hother & Hl & Ha & Hl1 & _).
  assert (ph1' = ph1) as -> by congruence. clear E1.
  assert (q ≠ p) as Hqp by (intros ->; rewrite Hp in Hq; simplify_eq; lia).
  assert (peerIDs ph1 !! q = Some dq) as Hq1 by (by rewrite Hother).
  pose proof (I _ _ Hq) as Hiq. rewrite Hs in Hiq. change (peerIDsPerShard ph) with (Get ph) in Hiq.
  rewrite Hl in Hiq, Hnd. rewrite lookup_app_r in Hiq by lia.
  destruct (index dq - length a) as [|j] eqn:Ej; [lia|]. simpl in Hiq.
  rewrite (Remove_held _ _ _ Hq1), Hs. change (peerIDsPerShard ph1) with (Get ph1).
  rewrite Hl1, Hl, !length_app. simpl.
  case_decide as Hlast; [rewrite decide_False by lia; done|].
  pose proof (lookup_lt_Some _ _ _ Hiq) as Hjb.
  destruct (b !! S j) as [r|] eqn:Hr; [|apply lookup_ge_None in Hr; lia].
  assert (index dq = length a + S j) as Hidx by lia. rewrite Hidx.
  pose proof (take_drop_middle _ _ _ Hr) as Hb.
  rewrite decide_True by (apply lookup_lt_Some in Hr; lia).
  eexists _, r. split; [done|]. unfold Contains, Get. cbn [peerIDs peerIDsPerShard].
  rewrite lookup_delete_eq.
  assert (take (length a + S j) (a ++ b) ++ drop (length a + S j + 1) (a ++ b) =
          a ++ take (S j) b ++ drop (S (S j)) b) as ->.
  { replace (length a + S j + 1) with (length a + S (S j)) by lia.
    by rewrite take_app_add, drop_app_add, <- app_assoc. }
  assert (q ∈ a ++ take (S j) b ++ drop (S (S j)) b) as Hin.
  { rewrite !elem_of_app. right; left. apply list_elem_of_lookup. exists j.
    rewrite lookup_take_lt by lia. done. }
  rewrite decide_False by (rewrite length_take, length_app; lia).
  rewrite lookup_insert_eq. simpl. split_and!; try done.
  - rewrite lookup_app_r by lia. by replace (length a + S j + 1 - length a) with (S (S j)) by lia.
  - rewrite <- Hb in Hnd. rewrite !NoDup_app, NoDup_cons, NoDup_app, NoDup_cons in Hnd. set_solver.
Qed.

End Correctness.

(** ** Witnesses *)

Module Witness.

Definition AllShard : Z := 4294967280.
Definition addrs : list string := ["10.0.0.1"; "10.0.0.2"].
Definition ph0 : peersHolder :=
  match NewPeersHolder (fun _ => true) addrs with Ok ph => ph | Err _ => mk [] ∅ ∅ ∅ ∅ end.
Definition put ph p := PutConnectionAddress AllShard ph p "/ip4/10.0.0.1/tcp/4000".
Definition ph1 : peersHolder := put (put (put ph0 "p1") "p2") "p3".
Definition ph2 : peersHolder := PutShardID (PutShardID (PutShardID ph1 "p1" 7) "p2" 7) "p3" 7.

Lemma ph0_new : NewPeersHolder (fun _ => true) addrs = Ok ph0.
Proof. reflexivity. Qed.
Lemma ph1_reachable : reachable AllShard ph1.
Proof. unfold ph1, put. do 3 apply reach_put. exact (reach_new _ _ _ _ ph0_new). Qed.
Lemma ph2_lifo : reachable_lifo AllShard ph2.
Proof. unfold ph2, ph1, put. do 3 apply lifo_shard. do 3 apply lifo_put. exact (lifo_new _ _ _ _ ph0_new). Qed.

Lemma ph2_index_ok : index_ok ph2.
Proof.
  unfold ph2. assert (waiting_listed ph1) as W by (eapply reachable_waiting_listed, ph1_reachable).
  repeat apply index_ok_shard; repeat apply waiting_listed_shard; try exact W.
  unfold ph1, put. do 3 apply index_ok_put. intros p d. vm_compute. done.
Qed.

Lemma PutShardID_registers_witness :
  Contains (PutShardID ph1 "p2" 7) "p2" = true /\ Contains ph1 "p2" = false /\
  PutShardID ph1 "unknown" 7 = ph1.
Proof.
  split; [|split; [vm_compute; reflexivity|]].
  - exact (proj1 (PutShardID_registers AllShard ph1 "p2" 7 ph1_reachable)).
  - exact (PutShardID_registers AllShard ph1 "unknown" 7 ph1_reachable).
Defined.

Lemma index_ok_invariant_witness : index_ok ph2 /\ Get ph2 !! 7%Z = Some ["p1"; "p2"; "p3"].
Proof.
  split; [|vm_compute; reflexivity]. apply (index_ok_invariant AllShard). exact ph2_lifo.
Defined.

Definition d1 : peerIDData := mkPeerIDData "10.0.0.1" 7 0.
Definition d2 : peerIDData := mkPeerIDData "10.0.0.1" 7 1.

Lemma Remove_spec_witness : exists ph',
  Remove ph2 "p2" = Ret ph' /\ Contains ph' "p2" = false.
Proof.
  destruct (Remove_spec ph2 "p2" d2 ph2_index_ok) as (ph' & a & b & E & C & _).
  - vm_compute; reflexivity.
  - exists ph'. exact (conj E C).
Defined.

Definition ph3 : peersHolder := match Remove ph2 "p1" with Ret ph => ph | Panic => ph2 end.

Lemma Remove_stale_index_witness : exists ph4 r,
  Remove ph3 "p2" = Ret ph4 /\ Contains ph4 "p2" = false /\
  "p2" ∈ slice_at (Get ph4) 7%Z /\ slice_at (Get ph2) 7%Z !! 2 = Some r /\
  r ∉ slice_at (Get ph4) 7%Z.
Proof.
  refine (Remove_stale_index ph2 "p1" "p2" d1 d2 ph3 ph2_index_ok _ _ _ _ _ _).
  - apply (bool_decide_unpack _). vm_compute. exact I.
  - vm_compute; reflexivity.
  - vm_compute; reflexivity.
  - reflexivity.
  - simpl. lia.
  - vm_compute; reflexivity.
Defined.

(** The same sequence of calls ends in a panic. *)
Example Remove_panics :
  match Remove ph3 "p2" with Ret ph => Remove ph "p3" | Panic => Ret ph3 end = Panic.
Proof. vm_compute. reflexivity. Qed.

End Witness.
