(* ===== verification/Preferred.v ===== *)
(** * Preferred: who is a preferred peer ([peersHolder/peersHolder.go])

    What the users of the preferred peers holder count on: a roster of the peers that
    were seen at a preferred address and whose shard is known.  The holder keeps it in
    four maps, with positions from one into the lists of another.  Theorem: after every
    sequence of calls that does not panic [Contains] answers by the roster; when no
    removed peer has others of its shard behind it and no listed peer is registered
    again, no call panics and [Get] is the roster, shard by shard. *)

From S2P Require Import Prelude Errors PeersHolder.
From Stdlib Require Import ZArith Lia String.
From stdpp Require Import prelude gmap strings list.

(** ** The specification *)

(** The listed peers, in the order of their registration, with their address and shard;
    the peers that wait for their shard; the peers seen at each preferred address. *)
Record preferred : Type := mkPreferred {
  roster : list (string * (string * Z));
  waiting : gmap string string;
  seen : gset (string * string)
}.

Implicit Types (st : preferred) (p q addr c : string) (s : Z).

Inductive call : Type :=
| CPutConnectionAddress (p addr : string)
| CPutShardID (p : string) (s : Z)
| CRemove (p : string)
| CClear.

Definition forget p (r : list (string * (string * Z))) := filter (fun e => e.1 ≠ p) r.

(** The first preferred address that the address of the connection contains. *)
Definition preferred_address (addrs : list string) addr : string :=
  default "" (head (filter (fun a => strings_Contains addr a = true) addrs)).

Definition spec_run (addrs : list string) st (cl : call) : preferred :=
  match cl with
  | CPutConnectionAddress p addr =>
      let c := preferred_address addrs addr in
      if decide (c = "" \/ (c, p) ∈ seen st) then st
      else mkPreferred (roster st) (<[p := c]> (waiting st)) ({[(c, p)]} ∪ seen st)
  | CPutShardID p s =>
      match waiting st !! p with
      | None => st
      | Some c => mkPreferred (forget p (roster st) ++ [(p, (c, s))]) (delete p (waiting st)) (seen st)
      end
  | CRemove p =>
      match (list_to_map (roster st) : gmap string (string * Z)) !! p with
      | None => st
      | Some (c, _) => mkPreferred (forget p (roster st)) (delete p (waiting st)) (seen st ∖ {[(c, p)]})
      end
  | CClear => mkPreferred [] ∅ ∅
  end.

(** The peers of a shard. *)
Definition of_shard s (r : list (string * (string * Z))) : list string := (filter (fun e => e.2.2 = s) r).*1.

(** The calls under which the positions stay right. *)
Definition orderly st (cl : call) : Prop :=
  match cl with
  | CPutShardID p _ => is_Some (waiting st !! p) -> p ∉ (roster st).*1
  | CRemove p => forall c s, (p, (c, s)) ∈ roster st -> last (of_shard s (roster st)) = Some p
  | _ => True
  end.

Fixpoint all_orderly (addrs : list string) st (calls : list call) : Prop :=
  match calls with
  | [] => True
  | cl :: calls => orderly st cl /\ all_orderly addrs (spec_run addrs st cl) calls
  end.

Definition nobody : preferred := mkPreferred [] ∅ ∅.

(** ** The holder *)

Definition run (AllShardId : Z) (ph : peersHolder) (cl : call) : outcome peersHolder :=
  match cl with
  | CPutConnectionAddress p addr => Ret (PutConnectionAddress AllShardId ph p addr)
  | CPutShardID p s => Ret (PutShardID ph p s)
  | CRemove p => Remove ph p
  | CClear => Ret (Clear ph)
  end.

Fixpoint exec (AllShardId : Z) (ph : peersHolder) (calls : list call) : outcome peersHolder :=
  match calls with
  | [] => Ret ph
  | cl :: calls => let! ph := run AllShardId ph cl in exec AllShardId ph calls
  end.

(** The holder represents the roster, whatever its lists and positions are. *)
Record represents (addrs : list string) (ph : peersHolder) st : Prop := {
  rp_addrs : preferredConnAddresses ph = addrs;
  rp_roster p c s : (p, (c, s)) ∈ roster st <-> exists i, peerIDs ph !! p = Some (mkPeerIDData c s i);
  rp_distinct : NoDup (roster st).*1;
  rp_waiting : tempPeerIDsWaitingForShard ph = waiting st;
  rp_seen c p : (c, p) ∈ seen st <-> p ∈ pid <$> slice_at (connAddrToPeersInfo ph) c;
  rp_once c : NoDup (pid <$> slice_at (connAddrToPeersInfo ph) c);
  rp_waits : waiting_listed ph
}.

(** The lists and positions are right, too. *)
Record listed (ph : peersHolder) st : Prop := {
  ls_shards s : slice_at (peerIDsPerShard ph) s = of_shard s (roster st);
  ls_none s : peerIDsPerShard ph !! s = None <-> of_shard s (roster st) = [];
  ls_index : index_ok ph
}.

(** ** Rosters *)

Lemma elem_of_forget p (r : list (string * (string * Z))) e : e ∈ forget p r <-> e.1 ≠ p /\ e ∈ r.
Proof. unfold forget. by rewrite list_elem_of_filter. Qed.

Lemma forget_fst p r : (forget p r).*1 = filter (fun q => q ≠ p) r.*1.
Proof. unfold forget. induction r as [|e r IH]; [done|]. rewrite fmap_cons, !filter_cons. case_decide; rewrite ?fmap_cons; by rewrite IH. Qed.

Lemma forget_absent p r : p ∉ r.*1 -> forget p r = r.
Proof.
  intros Hp. unfold forget. apply filter_all_true. intros e He E. apply Hp. rewrite <- E. by apply list_elem_of_fmap_2.
Qed.

Lemma of_shard_forget s p r : of_shard s (forget p r) = filter (fun q => q ≠ p) (of_shard s r).
Proof.
  unfold of_shard, forget. induction r as [|e r IH]; [done|]. rewrite !filter_cons.
  repeat (case_decide; rewrite ?filter_cons; cbn); try done; by rewrite ?IH, ?decide_True, ?decide_False by done.
Qed.

Lemma of_shard_snoc s r p c s' : of_shard s (r ++ [(p, (c, s'))]) = of_shard s r ++ (if decide (s' = s) then [p] else []).
Proof. unfold of_shard. rewrite filter_app, fmap_app. f_equal. rewrite filter_cons. cbn. by case_decide. Qed.

Lemma elem_of_of_shard s r p : p ∈ of_shard s r <-> exists c, (p, (c, s)) ∈ r.
Proof.
  unfold of_shard. rewrite list_elem_of_fmap. split.
  - intros ([q [c s']] & -> & [Hs He]%list_elem_of_filter). cbn in *. subst. by exists c.
  - intros [c Hc]. exists (p, (c, s)). split; [done|]. by apply list_elem_of_filter.
Qed.

Lemma NoDup_of_shard s r : NoDup r.*1 -> NoDup (of_shard s r).
Proof. intros Hn. eapply sublist_NoDup; [exact Hn|]. unfold of_shard. apply fmap_sublist, sublist_filter. Qed.

Lemma roster_lookup (r : list (string * (string * Z))) p x : NoDup r.*1 -> (list_to_map r : gmap string _) !! p = Some x <-> (p, x) ∈ r.
Proof. intros Hn. by rewrite elem_of_list_to_map. Qed.

(** Cutting a peer out of a list of distinct peers. *)
Lemma pid_removed (l : list peerInfo) i x q :
  l !! i = Some x -> NoDup (pid <$> l) -> q ∈ pid <$> (take i l ++ drop (i + 1) l) <-> q ∈ pid <$> l /\ q ≠ pid x.
Proof.
  intros Hx. rewrite <- (take_drop_middle l i x Hx) at 1 4. rewrite Nat.add_1_r, !fmap_app, fmap_cons.
  rewrite NoDup_app, NoDup_cons, !elem_of_app, elem_of_cons. intros (_ & Hd & Hn & _). split; [|tauto].
  intros Hq. split; [tauto|]. intros ->. destruct Hq as [Hq|Hq]; [|tauto]. apply (Hd _ Hq). by left.
Qed.

(** ** The calls *)

Section Calls.

Context (AllShardId : Z) (addrs : list string).
Implicit Types (ph : peersHolder).

Lemma collectAddresses_spec isValid l preferred m preferred' m' :
  collectAddresses isValid l preferred m = Ok (preferred', m') -> (forall c, slice_at m c = []) ->
  preferred' = preferred ++ l /\ forall c, slice_at m' c = [].
Proof.
  revert preferred m. induction l as [|a l IH]; intros preferred m; cbn.
  - intros [= <- <-] Hm. by rewrite app_nil_r.
  - case_match; [done|]. intros E Hm. apply IH in E as [-> Hm'].
    + by rewrite <- app_assoc.
    + intros c. rewrite lookup_insert. by case_decide.
Qed.

Lemma represents_new isValid ph : NewPeersHolder isValid addrs = Ok ph -> represents addrs ph nobody /\ listed ph nobody.
Proof.
  unfold NewPeersHolder. destruct (collectAddresses _ _ _ _) as [[preferred m]|] eqn:E; [|done]. intros [= <-].
  apply collectAddresses_spec in E as [-> Hm]; [|intros c; by rewrite lookup_empty].
  split; split; cbn; try done.
  - intros p c s. split; [by intros ?%elem_of_nil | intros [i Hi]; by rewrite lookup_empty in Hi].
  - constructor.
  - intros c p. rewrite Hm. split; [by intros ?%elem_of_empty | by intros ?%elem_of_nil].
  - intros c. rewrite Hm. constructor.
Qed.

(** [PutConnectionAddress] adds the peer unless it is listed at the address already. *)
Lemma PutConnectionAddress_adds ph p addr :
  let c := getKnownConnection ph addr in
  PutConnectionAddress AllShardId ph p addr =
    if decide (c = "" \/ p ∈ pid <$> slice_at (connAddrToPeersInfo ph) c) then ph
    else addNewPeerInfoToMaps AllShardId ph p c.
Proof.
  cbn zeta. unfold PutConnectionAddress. set (c := getKnownConnection ph addr).
  assert (String.length c = 0 <-> c = "") as Hlen by (destruct c; split; intros [=]; done).
  destruct (decide (String.length c = 0)) as [Hl|Hl]; [by rewrite decide_True by tauto|].
  rewrite (decide_ext _ (is_Some (getPeerInfoForPeerID p (slice_at (connAddrToPeersInfo ph) c)))) by (rewrite getPeerInfo_is_Some; tauto).
  destruct (slice_at _ _) as [|x l]; [by rewrite decide_False by (by intros [? ?])|].
  destruct (getPeerInfoForPeerID p (x :: l)); [by rewrite decide_True | by rewrite decide_False by (by intros [? ?])].
Qed.

Lemma represents_put ph st p addr :
  represents addrs ph st ->
  represents addrs (PutConnectionAddress AllShardId ph p addr) (spec_run addrs st (CPutConnectionAddress p addr)).
Proof.
  intros R. pose proof (waiting_listed_put AllShardId ph p addr (rp_waits _ _ _ R)) as Hw.
  revert Hw. rewrite PutConnectionAddress_adds. cbn [spec_run].
  assert (preferred_address addrs addr = getKnownConnection ph addr) as -> by (unfold getKnownConnection; by rewrite (rp_addrs _ _ _ R)).
  set (c := getKnownConnection ph addr).
  rewrite (decide_ext (c = "" \/ (c, p) ∈ seen st) (c = "" \/ p ∈ pid <$> slice_at (connAddrToPeersInfo ph) c))
    by (by rewrite (rp_seen _ _ _ R)).
  case_decide as Hd; [done|]. intros Hw.
  assert (forall c', pid <$> slice_at (<[c:=slice_at (connAddrToPeersInfo ph) c ++ [mkPeerInfo p AllShardId]]> (connAddrToPeersInfo ph)) c' =
    (pid <$> slice_at (connAddrToPeersInfo ph) c') ++ (if decide (c = c') then [p] else [])) as E.
  { intros c'. rewrite lookup_insert. case_decide; [subst; cbn [from_option id]; by rewrite fmap_app | by rewrite app_nil_r]. }
  split; cbn [addNewPeerInfoToMaps preferredConnAddresses peerIDs tempPeerIDsWaitingForShard connAddrToPeersInfo
    set_temp set_connAddrToPeersInfo roster waiting seen].
  - apply R.
  - apply R.
  - apply R.
  - by rewrite (rp_waiting _ _ _ R).
  - intros c' q. rewrite E, elem_of_union, elem_of_singleton, elem_of_app, (rp_seen _ _ _ R).
    case_decide; [subst; rewrite list_elem_of_singleton; naive_solver | rewrite elem_of_nil; naive_solver].
  - intros c'. rewrite E. apply NoDup_app. split_and!; [apply R | | case_decide; [apply NoDup_singleton | constructor]].
    intros q Hq. case_decide; [|apply not_elem_of_nil]. subst. rewrite list_elem_of_singleton. intros ->. tauto.
  - exact Hw.
Qed.

Lemma represents_shard ph st p s :
  represents addrs ph st -> represents addrs (PutShardID ph p s) (spec_run addrs st (CPutShardID p s)).
Proof.
  intros R. pose proof (waiting_listed_shard ph p s (rp_waits _ _ _ R)) as Hw. revert Hw. cbn [spec_run].
  rewrite <- (rp_waiting _ _ _ R). destruct (tempPeerIDsWaitingForShard ph !! p) as [c|] eqn:Hc;
    [|by rewrite PutShardID_not_waiting].
  destruct (PutShardID_waiting ph p s c (rp_waits _ _ _ R) Hc) as (l & i & x & Hl & Hx & Hp & ->). intros Hw.
  assert (forall c', pid <$> slice_at (<[c:=<[i:=mkPeerInfo p s]> l]> (connAddrToPeersInfo ph)) c' =
    pid <$> slice_at (connAddrToPeersInfo ph) c') as E.
  { intros c'. rewrite lookup_insert. case_decide; [|done]. subst. rewrite Hl. cbn. by apply pid_insert_same. }
  split; cbn [preferredConnAddresses peerIDs tempPeerIDsWaitingForShard connAddrToPeersInfo roster waiting seen].
  - apply R.
  - intros q c' s'. rewrite elem_of_app, elem_of_forget, list_elem_of_singleton, (rp_roster _ _ _ R). cbn.
    rewrite lookup_insert. case_decide as Hq; [subst; naive_solver|]. naive_solver.
  - rewrite fmap_app, forget_fst. apply NoDup_app. split_and!; [apply NoDup_filter, R | | apply NoDup_singleton].
    intros q [Hq _]%list_elem_of_filter. by intros ->%list_elem_of_singleton.
  - by rewrite (rp_waiting _ _ _ R).
  - intros c' q. rewrite E. apply R.
  - intros c'. rewrite E. apply R.
  - exact Hw.
Qed.

Lemma represents_remove ph st p ph' :
  represents addrs ph st -> Remove ph p = Ret ph' -> represents addrs ph' (spec_run addrs st (CRemove p)).
Proof.
  intros R Hr. pose proof (waiting_listed_remove ph p ph' (rp_waits _ _ _ R) Hr) as Hw. cbn [spec_run].
  destruct (peerIDs ph !! p) as [[c s n]|] eqn:Hd.
  2: { rewrite Remove_not_held in Hr by done. injection Hr as <-.
    destruct ((list_to_map (roster st) : gmap string (string * Z)) !! p) as [[c s]|] eqn:E; [|done].
    apply roster_lookup, R in E as [i E]; [congruence | apply R]. }
  assert ((list_to_map (roster st) : gmap string (string * Z)) !! p = Some (c, s)) as ->.
  { apply roster_lookup, R; [apply R | by exists n]. }
  rewrite (Remove_held _ _ _ Hd) in Hr. cbn [connectionAddress shardID PeersHolder.index] in Hr. case_decide; [|done]. injection Hr as <-.
  set (m' := match _ with Some _ => _ | None => _ end) in *.
  assert (forall c' q, q ∈ pid <$> slice_at m' c' <-> q ∈ pid <$> slice_at (connAddrToPeersInfo ph) c' /\ (c', q) ≠ (c, p)) as E.
  { clear Hw. intros c' q. unfold m'. destruct (getPeerInfoForPeerID p _) as [[i x]|] eqn:Hi.
    - apply getPeerInfo_Some in Hi as [Hx Hpx]. rewrite lookup_insert. case_decide as Hc; [|split; [intros Hq; split; [exact Hq | congruence] | tauto]]. subst c' p.
      cbn [from_option id]. rewrite (pid_removed _ _ _ q Hx (rp_once _ _ _ R c)). split; (intros [Hq Hn]; split; [exact Hq | congruence]).
    - assert (p ∉ pid <$> slice_at (connAddrToPeersInfo ph) c) as Hn.
      { rewrite <- getPeerInfo_is_Some, Hi. by intros [? ?]. }
      split; [|tauto]. intros Hq. split; [exact Hq|]. by intros [= -> ->]. }
  split; cbn [preferredConnAddresses peerIDs tempPeerIDsWaitingForShard connAddrToPeersInfo roster waiting seen].
  - apply R.
  - intros q c' s'. rewrite elem_of_forget, (rp_roster _ _ _ R). cbn [fst]. destruct (decide (p = q)) as [<-|Hq].
    + rewrite lookup_delete_eq. split; [tauto | by intros [? ?]].
    + rewrite lookup_delete_ne by done. split; [tauto | intros Hi; split; [congruence | exact Hi]].
  - rewrite forget_fst. apply NoDup_filter, R.
  - by rewrite (rp_waiting _ _ _ R).
  - intros c' q. rewrite E, elem_of_difference, elem_of_singleton, (rp_seen _ _ _ R). done.
  - clear Hw. intros c'. unfold m'. destruct (getPeerInfoForPeerID p _) as [[i x]|]; [|apply R].
    rewrite lookup_insert. case_decide; [|apply R]. cbn [from_option id].
    eapply sublist_NoDup; [apply (rp_once _ _ _ R c)|]. apply fmap_sublist.
    rewrite <- (take_drop i (slice_at (connAddrToPeersInfo ph) c)) at 3. apply sublist_app; [done|].
    rewrite <- drop_drop. apply sublist_drop.
  - exact Hw.
Qed.

Lemma represents_run ph st cl ph' :
  represents addrs ph st -> run AllShardId ph cl = Ret ph' -> represents addrs ph' (spec_run addrs st cl).
Proof.
  intros R. destruct cl as [p addr|p s|p|]; cbn [run].
  - intros [= <-]. by apply represents_put.
  - intros [= <-]. by apply represents_shard.
  - by apply represents_remove.
  - intros [= <-]. split; cbn; try done; [apply R | | constructor | |].
    + intros p c s. rewrite lookup_empty. split; [by intros ?%elem_of_nil | by intros [? ?]].
    + intros c p. rewrite lookup_empty. split; [by intros ?%elem_of_empty | by intros ?%elem_of_nil].
    + intros c. rewrite lookup_empty. constructor.
Qed.

(** ** The lists of the shards *)

Lemma listed_shard ph st p s :
  represents addrs ph st -> listed ph st -> orderly st (CPutShardID p s) ->
  listed (PutShardID ph p s) (spec_run addrs st (CPutShardID p s)).
Proof.
  intros R L Ho. pose proof (index_ok_shard ph p s (rp_waits _ _ _ R) (ls_index _ _ L)) as Hi. revert Hi.
  cbn [spec_run orderly] in *. rewrite <- (rp_waiting _ _ _ R) in *.
  destruct (tempPeerIDsWaitingForShard ph !! p) as [c|] eqn:Hc; [|by rewrite PutShardID_not_waiting].
  destruct (PutShardID_waiting ph p s c (rp_waits _ _ _ R) Hc) as (l & i & x & _ & _ & _ & ->). intros Hi.
  rewrite (forget_absent p (roster st)) by (apply Ho; by eexists).
  split; cbn [peerIDsPerShard roster]; [intros s'; rewrite of_shard_snoc..|exact Hi].
  - rewrite lookup_insert. case_decide; cbn [from_option id]; [subst|rewrite app_nil_r]; by rewrite (ls_shards _ _ L).
  - rewrite lookup_insert. case_decide; [subst|rewrite app_nil_r; apply L].
    split; [done | by intros [_ ?]%app_nil].
Qed.

(** A peer of the roster is in one shard. *)
Lemma of_shard_only (r : list (string * (string * Z))) p c s s' :
  NoDup r.*1 -> (p, (c, s)) ∈ r -> s' ≠ s -> forall q, q ∈ of_shard s' r -> q ≠ p.
Proof.
  intros Hn Hin Hs q [c' Hq]%elem_of_of_shard ->. apply Hs.
  apply (roster_lookup _ _ _ Hn) in Hin, Hq. congruence.
Qed.

(** The last peer of a shard is where its position says, and goes alone. *)
Lemma listed_remove ph st p :
  represents addrs ph st -> listed ph st -> orderly st (CRemove p) ->
  exists ph', Remove ph p = Ret ph' /\ listed ph' (spec_run addrs st (CRemove p)).
Proof.
  intros R L Ho. cbn [spec_run orderly] in *.
  destruct (peerIDs ph !! p) as [[c s n]|] eqn:Hd.
  2: { exists ph. split; [by apply Remove_not_held|].
    destruct ((list_to_map (roster st) : gmap string (string * Z)) !! p) as [[c s]|] eqn:E; [|done].
    apply roster_lookup, R in E as [i E]; [congruence | apply R]. }
  assert ((p, (c, s)) ∈ roster st) as Hin by (apply R; by exists n).
  rewrite (proj2 (roster_lookup (roster st) p (c, s) (rp_distinct _ _ _ R)) Hin).
  pose proof (Ho _ _ Hin) as Hlast. apply last_Some in Hlast as [l Hl].
  pose proof (NoDup_of_shard s _ (rp_distinct _ _ _ R)) as Hnd. rewrite Hl in Hnd.
  pose proof (ls_index _ _ L p _ Hd) as Hn. cbn [shardID PeersHolder.index] in Hn. rewrite (ls_shards _ _ L), Hl in Hn.
  assert (n = length l) as ->.
  { apply (NoDup_lookup _ _ _ _ Hnd Hn). by apply list_lookup_middle. }
  assert (filter (fun q => q ≠ p) (l ++ [p]) = l) as Ef.
  { rewrite filter_app, (filter_all_false _ [p]), app_nil_r by (intros x ->%list_elem_of_singleton; tauto).
    apply filter_all_true. intros x Hx ->. rewrite NoDup_app in Hnd. destruct Hnd as (_ & Hd' & _).
    apply (Hd' _ Hx). by left. }
  assert (PeersHolder.index (mkPeerIDData c s (length l)) + 1 = length (slice_at (peerIDsPerShard ph) s)) as El.
  { rewrite (ls_shards _ _ L), Hl, length_app. done. }
  pose proof (Remove_held _ _ _ Hd) as Hr. cbn [connectionAddress shardID] in Hr. rewrite decide_True in Hr by lia.
  eexists. split; [exact Hr|]. split; cbn [peerIDsPerShard roster].
  3: { eapply index_ok_remove_last; [apply L | exact Hd | exact El | exact Hr]. }
  all: clear Hr.
  all: intros s'; rewrite of_shard_forget; cbn [PeersHolder.index]; rewrite (ls_shards _ _ L), Hl, Nat.add_1_r, take_app_length, drop_ge,
    app_nil_r by (rewrite length_app; cbn; lia).
  all: destruct (decide (s' = s)) as [->|Hs].
  - rewrite Hl, Ef. case_decide as Hz; [apply nil_length_inv in Hz as ->; by rewrite lookup_delete_eq | by rewrite lookup_insert_eq].
  - rewrite filter_all_true.
    + case_decide; rewrite ?lookup_delete_ne, ?lookup_insert_ne by done; apply L.
    + by eapply of_shard_only; [apply R | |].
  - rewrite Hl, Ef. case_decide as Hz; [apply nil_length_inv in Hz as ->; by rewrite lookup_delete_eq|].
    rewrite lookup_insert_eq. split; [done | by intros ->].
  - rewrite filter_all_true.
    + case_decide; rewrite ?lookup_delete_ne, ?lookup_insert_ne by done; apply L.
    + by eapply of_shard_only; [apply R | |].
Qed.

Lemma listed_run ph st cl :
  represents addrs ph st -> listed ph st -> orderly st cl ->
  exists ph', run AllShardId ph cl = Ret ph' /\ listed ph' (spec_run addrs st cl).
Proof.
  intros R L Ho. destruct cl as [p addr|p s|p|]; cbn [run].
  - eexists. split; [done|]. pose proof (index_ok_put AllShardId ph p addr (ls_index _ _ L)) as Hi.
    cbn [spec_run]. destruct (PutConnectionAddress_cases AllShardId ph p addr) as [E|E]; rewrite E in *;
      case_decide; (split; [apply L | apply L | exact Hi]).
  - eexists. split; [done|]. by apply listed_shard.
  - by apply listed_remove.
  - eexists. split; [done|]. split; cbn; [|done|apply index_ok_clear]. intros s. by rewrite lookup_empty.
Qed.

Lemma represents_exec calls ph st ph' :
  represents addrs ph st -> exec AllShardId ph calls = Ret ph' -> represents addrs ph' (fold_left (spec_run addrs) calls st).
Proof.
  revert ph st. induction calls as [|cl calls IH]; intros ph st R; cbn [exec fold_left]; [by intros [= <-]|].
  destruct (run AllShardId ph cl) eqn:E; [|done]. by apply IH, (represents_run ph).
Qed.

Lemma listed_exec calls ph st :
  represents addrs ph st -> listed ph st -> all_orderly addrs st calls ->
  exists ph', exec AllShardId ph calls = Ret ph' /\ listed ph' (fold_left (spec_run addrs) calls st).
Proof.
  revert ph st. induction calls as [|cl calls IH]; intros ph st R L; cbn [exec fold_left all_orderly]; [by exists ph|].
  intros [Ho Hos]. destruct (listed_run ph st cl R L Ho) as (ph1 & E & L'). rewrite E.
  apply IH; [by apply (represents_run ph) | done..].
Qed.

(** [C32] Refinement to a roster.  After every sequence of calls of a new holder that
    does not panic, [Contains] says who is on the roster.  When in addition every removed
    peer was the last of its shard and no peer of the roster got a shard again, then no
    call panics, and [Get] has for every shard with peers the peers of the roster, in the
    order of their registration. *)
Theorem preferred_refines isValid ph0 (calls : list call) :
  NewPeersHolder isValid addrs = Ok ph0 ->
  let st := fold_left (spec_run addrs) calls nobody in
  (forall ph, exec AllShardId ph0 calls = Ret ph -> forall p, Contains ph p = bool_decide (p ∈ (roster st).*1)) /\
  (all_orderly addrs nobody calls -> exists ph, exec AllShardId ph0 calls = Ret ph /\
     forall s, Get ph !! s = match of_shard s (roster st) with [] => None | l => Some l end).
Proof.
  intros [R L]%represents_new. split.
  - intros ph Hx p. pose proof (represents_exec calls _ _ _ R Hx) as R'. unfold Contains. apply bool_decide_ext.
    rewrite list_elem_of_fmap. split.
    + intros [[c s n] Hd]. exists (p, (c, s)). split; [done|]. apply R'. by exists n.
    + intros ([q [c s]] & -> & [n Hd]%(rp_roster _ _ _ R')). by eexists.
  - intros (ph & E & L')%(listed_exec calls ph0 _ R L). exists ph. split; [exact E|]. intros s.
    pose proof (ls_none _ _ L' s) as Hnone. pose proof (ls_shards _ _ L' s) as Hs. unfold Get.
    destruct (peerIDsPerShard ph !! s) as [l|]; cbn in Hs; rewrite <- Hs in *; [|done].
    destruct l; [by apply Hnone | done].
Qed.

(** Why registered peers must not be registered again.  When a listed peer is seen at
    another preferred address and gets a shard, it is listed twice; [Remove] takes out one
    of the two, so [Get] has the peer for ever although it is no preferred peer. *)
Theorem registered_again ph p d c s :
  waiting_listed ph -> index_ok ph -> peerIDs ph !! p = Some d -> tempPeerIDsWaitingForShard ph !! p = Some c ->
  exists ph', Remove (PutShardID ph p s) p = Ret ph' /\ Contains ph' p = false /\
    tempPeerIDsWaitingForShard ph' !! p = None /\ p ∈ slice_at (Get ph') (shardID d).
Proof.
  intros W I Hd Hc. destruct (PutShardID_waiting ph p s c W Hc) as (l & i & x & _ & _ & _ & E).
  assert (peerIDs (PutShardID ph p s) !! p = Some (mkPeerIDData c s (length (slice_at (peerIDsPerShard ph) s)))) as Hp
    by (rewrite E; apply lookup_insert_eq).
  assert (slice_at (peerIDsPerShard (PutShardID ph p s)) s = slice_at (peerIDsPerShard ph) s ++ [p]) as Hs
    by (rewrite E; cbn [peerIDsPerShard]; by rewrite lookup_insert_eq).
  rewrite (Remove_held _ _ _ Hp). cbn [connectionAddress shardID PeersHolder.index].
  rewrite Hs, decide_True by (rewrite length_app; cbn; lia).
  rewrite Nat.add_1_r, take_app_length, drop_ge, app_nil_r by (rewrite length_app; cbn; lia).
  eexists. split; [done|]. unfold Contains, Get. cbn [peerIDs peerIDsPerShard tempPeerIDsWaitingForShard].
  rewrite !lookup_delete_eq. split_and!; [done..|].
  pose proof (list_elem_of_lookup_2 _ _ _ (I _ _ Hd)) as Hin. rewrite E. cbn [peerIDsPerShard].
  destruct (decide (s = shardID d)) as [->|Hne].
  - case_decide as Hz; [apply nil_length_inv in Hz; rewrite Hz in Hin; by apply not_elem_of_nil in Hin|].
    by rewrite lookup_insert_eq.
  - case_decide; rewrite ?lookup_delete_ne, !lookup_insert_ne by done; exact Hin.
Qed.

End Calls.

(** ** Witnesses *)

Module Witness.

Abbreviation AllShard := PeersHolder.Witness.AllShard.
Abbreviation addrs := PeersHolder.Witness.addrs.
Abbreviation ph0 := PeersHolder.Witness.ph0.
Definition at1 : string := "/ip4/10.0.0.1/tcp/4000".
Definition at2 : string := "/ip4/10.0.0.2/tcp/4000".

(** Three peers at two addresses, in two shards; the last of the first shard goes. *)
Definition calls : list call :=
  [CPutConnectionAddress "p1" at1; CPutConnectionAddress "p2" at2; CPutConnectionAddress "x" "/ip4/10.0.0.9/tcp/1";
   CPutShardID "p1" 7; CPutShardID "p2" 8; CPutShardID "x" 7; CPutConnectionAddress "p3" at1; CPutShardID "p3" 7;
   CRemove "x"; CRemove "p3"].

Lemma calls_orderly : all_orderly addrs nobody calls.
Proof.
  repeat split; cbn [orderly]; try (intros _; apply (bool_decide_unpack _); vm_compute; exact I); intros c s;
    match goal with |- _ ∈ roster ?st -> _ => set (r := roster st) end; vm_compute in r; subst r.
  - intros Hin. rewrite !elem_of_cons, elem_of_nil in Hin. naive_solver.
  - intros Hin. rewrite !elem_of_cons, elem_of_nil in Hin. destruct Hin as [[=]|[[=]|[[= -> ->]|[]]]]. reflexivity.
Qed.

Lemma preferred_refines_witness : exists ph, exec AllShard ph0 calls = Ret ph /\
  Get ph !! 7%Z = Some ["p1"] /\ Get ph !! 8%Z = Some ["p2"] /\ Contains ph "p1" = true /\ Contains ph "p3" = false.
Proof.
  destruct (preferred_refines AllShard addrs (fun _ => true) ph0 calls eq_refl) as [Hc Ho].
  destruct (Ho calls_orderly) as (ph & E & Hg). exists ph. split; [exact E|].
  rewrite !Hg, !(Hc ph E). split_and!; vm_compute; reflexivity.
Defined.

(** [p1] comes back from the second address. *)
Definition back : peersHolder :=
  PutConnectionAddress AllShard (PutShardID (PutConnectionAddress AllShard ph0 "p1" at1) "p1" 7) "p1" at2.

Lemma registered_again_witness : exists ph',
  Remove (PutShardID back "p1" 8) "p1" = Ret ph' /\ Contains ph' "p1" = false /\ "p1" ∈ slice_at (Get ph') 7%Z.
Proof.
  assert (reachable_lifo AllShard back) as Hr.
  { unfold back. apply lifo_put, lifo_shard, lifo_put. exact (lifo_new AllShard _ _ _ PeersHolder.Witness.ph0_new). }
  destruct (registered_again back "p1" (mkPeerIDData "10.0.0.1" 7 0) "10.0.0.2" 8) as (ph' & E & C & _ & G).
  - by eapply reachable_waiting_listed, reachable_lifo_reachable.
  - by eapply index_ok_invariant.
  - vm_compute; reflexivity.
  - vm_compute; reflexivity.
  - exists ph'. split; [exact E | split; [exact C | exact G]].
Defined.

End Witness.
