(* ===== verification/SharedSlices.v ===== *)
(** * SharedSlices: what [Get] of the preferred peers shares
      ([peersHolder/peersHolder.go])

    [PeersHolder] has the peers of a shard as a list.  In the code it is a slice, a
    pointer to an array with a length, and [Get] copies the map of the slices but not
    the arrays.  Here the arrays are in a store.  Theorem: on the store the methods do
    what they do on the lists; calls of [PutShardID] leave what a caller sees in the
    result of [Get] as it was, a call of [Remove] does not. *)

From S2P Require Import Prelude PeersHolder.
From Stdlib Require Import ZArith Lia String.
From stdpp Require Import prelude gmap strings list.

(** ** Slices *)

(** An array of the store, from its first element, and the length; nil points to the
    array 0, which is never allocated. *)
Record slice : Type := mkSlice { arr : nat; slen : nat }.
Definition nil_slice : slice := mkSlice 0 0.

Record store : Type := mk { arrays : gmap nat (list string); next : nat; shards : gmap Z slice }.

Implicit Types (st : store) (sl v : slice) (p : string) (s : Z) (i : nat).

Definition array st sl : list string := default [] (arrays st !! arr sl).
Definition read st sl : list string := take (slen sl) (array st sl).
Definition slice_of st s : slice := default nil_slice (shards st !! s).

Definition set_array a l st : store := mk (<[a := l]> (arrays st)) (next st) (shards st).
Definition set_shards m st : store := mk (arrays st) (next st) m.

Section Store.

(** The capacity the runtime gives to an array that must hold [n] elements. *)
Context (capacity : nat -> nat).

(** [append(s, p)]: in place while there is room, else into a new array. *)
Definition append st sl p : slice * store :=
  if decide (slen sl < length (array st sl))
  then (mkSlice (arr sl) (S (slen sl)), set_array (arr sl) (<[slen sl := p]> (array st sl)) st)
  else (mkSlice (next st) (S (slen sl)),
        mk (<[next st := read st sl ++ p :: replicate (capacity (S (slen sl)) - S (slen sl)) ""]> (arrays st))
           (S (next st)) (shards st)).

(** [append(s[:i], s[i+1:]...)]: the array has room, so the elements move down in it. *)
Definition cut_out st sl i : outcome (slice * store) :=
  if decide (i + 1 <= slen sl)
  then Ret (mkSlice (arr sl) (slen sl - 1),
            set_array (arr sl) (take i (array st sl) ++ drop (i + 1) (read st sl) ++ drop (slen sl - 1) (array st sl)) st)
  else Panic.

(** The line of [PutShardID] that lists the peer. *)
Definition put_shard st s p : store :=
  let '(sl, st) := append st (slice_of st s) p in set_shards (<[s := sl]> (shards st)) st.

(** [removePeerFromMapAtIndex]. *)
Definition remove_at st s i : outcome store :=
  let! (sl, st) := cut_out st (slice_of st s) i in
  let st := set_shards (<[s := sl]> (shards st)) st in
  Ret (if decide (slen sl = 0) then set_shards (delete s (shards st)) st else st).

(** [Get] copies the map. *)
Definition Get st : gmap Z slice := shards st.

(** What a caller reads in a map of slices. *)
Definition seen_in st (view : gmap Z slice) : gmap Z (list string) := read st <$> view.

(** ** The store represents the lists *)

Record wf st : Prop := {
  wf_next s sl : shards st !! s = Some sl -> 0 < arr sl < next st;
  wf_len s sl : shards st !! s = Some sl -> slen sl <= length (array st sl);
  wf_apart s s' sl sl' : shards st !! s = Some sl -> shards st !! s' = Some sl' -> arr sl = arr sl' -> s = s';
  wf_nil : arrays st !! 0 = None;
  wf_pos : 0 < next st
}.

Definition represents st (m : gmap Z (list string)) : Prop := wf st /\ seen_in st (Get st) = m.

Lemma array_nil st : wf st -> array st nil_slice = [].
Proof. intros W. unfold array. cbn. by rewrite (wf_nil _ W). Qed.

Lemma represents_at st m s : represents st m -> read st (slice_of st s) = slice_at m s.
Proof.
  intros [W <-]. unfold seen_in, Get, slice_of. rewrite lookup_fmap. by destruct (shards st !! s).
Qed.

Lemma slice_of_len st s : wf st -> slen (slice_of st s) <= length (array st (slice_of st s)).
Proof.
  intros W. unfold slice_of. destruct (shards st !! s) as [sl|] eqn:E; cbn; [by eapply wf_len | lia].
Qed.

Lemma length_read st sl : slen sl <= length (array st sl) -> length (read st sl) = slen sl.
Proof. intros Hl. unfold read. rewrite length_take. lia. Qed.

(** A slice of another array reads the same after a write. *)
Lemma read_other st st' sl : arrays st' !! arr sl = arrays st !! arr sl -> read st' sl = read st sl.
Proof. unfold read, array. by intros ->. Qed.

(** After [append] the new slice reads the old one and the peer; slices of other arrays,
    and of the same array up to the old length, read what they read before. *)
Lemma append_spec st sl p :
  slen sl <= length (array st sl) ->
  let '(sl', st') := append st sl p in
  read st' sl' = read st sl ++ [p] /\ slen sl' = S (slen sl) /\ slen sl' <= length (array st' sl') /\ shards st' = shards st /\
  (arr sl' = arr sl /\ next st' = next st /\ slen sl < length (array st sl) \/ arr sl' = next st /\ next st' = S (next st)) /\
  (forall v, arr v ≠ arr sl' -> arrays st' !! arr v = arrays st !! arr v) /\
  (forall v, arr v = arr sl -> arr v ≠ next st -> slen v <= slen sl -> read st' v = read st v).
Proof.
  intros Hl. unfold append. case_decide as Hd.
  - assert (array (set_array (arr sl) (<[slen sl:=p]> (array st sl)) st) sl = <[slen sl:=p]> (array st sl)) as Ea
      by (unfold array at 1; cbn; by rewrite lookup_insert_eq).
    split_and!; [|done| | done | by left | |].
    + unfold read, array. cbn [arr slen set_array arrays]. rewrite lookup_insert_eq. cbn [from_option id].
      rewrite (take_S_r _ _ p) by (by apply list_lookup_insert_eq). by rewrite take_insert_ge by lia.
    + unfold array. cbn. rewrite lookup_insert_eq. cbn. rewrite length_insert. exact Hd.
    + intros v Hv. cbn in *. by rewrite lookup_insert_ne.
    + intros v Hv _ Hs. unfold read, array. rewrite Hv. cbn. rewrite lookup_insert_eq. cbn. by rewrite take_insert_ge by lia.
  - split_and!; [|done| | done | by right | |].
    + unfold read at 1, array at 1. cbn. rewrite lookup_insert_eq. cbn [from_option id].
      rewrite <- (length_read st sl Hl) at 1. rewrite (cons_middle p), app_assoc, take_app_ge by (rewrite length_app; cbn; lia).
      rewrite length_app. cbn. replace (S _ - _) with 0 by lia. by rewrite take_0, app_nil_r.
    + unfold array. cbn. rewrite lookup_insert_eq. cbn [from_option id]. rewrite length_app, length_read by done. cbn. lia.
    + intros v Hv. cbn in *. by rewrite lookup_insert_ne.
    + intros v _ Hn _. apply read_other. cbn. by rewrite lookup_insert_ne.
Qed.

(** After [cut_out] the new slice reads the elements but one, and the old slice the same
    and its last element again. *)
Lemma cut_out_spec st sl i :
  slen sl <= length (array st sl) -> i + 1 <= slen sl ->
  exists sl' st', cut_out st sl i = Ret (sl', st') /\
  read st' sl' = take i (read st sl) ++ drop (i + 1) (read st sl) /\
  read st' sl = take i (read st sl) ++ drop (i + 1) (read st sl) ++ drop (slen sl - 1) (read st sl) /\
  arr sl' = arr sl /\ slen sl' = slen sl - 1 /\ slen sl' <= length (array st' sl') /\ next st' = next st /\ shards st' = shards st /\
  (forall v, arr v ≠ arr sl -> arrays st' !! arr v = arrays st !! arr v).
Proof.
  intros Hl Hi. unfold cut_out. rewrite decide_True by done. eexists _, _. split; [reflexivity|].
  set (a' := take i _ ++ _). set (st' := set_array _ _ _).
  assert (forall n, read st' (mkSlice (arr sl) n) = take n a') as Er.
  { intros n. unfold read, array. cbn. by rewrite lookup_insert_eq. }
  assert (a' = (take i (read st sl) ++ drop (i + 1) (read st sl)) ++ drop (slen sl - 1) (array st sl)) as Ea.
  { unfold a'. rewrite <- app_assoc. f_equal. unfold read. rewrite take_take. f_equal. lia. }
  pose proof (length_read st sl Hl) as Hr.
  assert (length (take i (read st sl) ++ drop (i + 1) (read st sl)) = slen sl - 1) as Ek
    by (rewrite length_app, length_take, length_drop, Hr; lia).
  split_and!; [ | | done | done | | done | done | ].
  - rewrite Er, Ea, take_app_le by lia. apply take_ge. lia.
  - destruct sl as [a n]. rewrite Er, Ea, take_app_ge, Ek by (cbn [slen] in *; lia). rewrite <- app_assoc. do 2 f_equal.
    unfold read. cbn [slen]. rewrite skipn_firstn_comm. done.
  - unfold array. cbn. rewrite lookup_insert_eq. cbn [from_option id]. rewrite Ea, length_app, length_drop. lia.
  - intros v Hv. cbn. by rewrite lookup_insert_ne.
Qed.

(** ** The methods on the store *)

(** The slices of the other shards, when one shard has a new slice in an array that was
    its own or is new. *)
Lemma represents_update st st' s sl' m l :
  represents st m -> arrays st' !! 0 = arrays st !! 0 -> next st <= next st' -> 0 < arr sl' < next st' ->
  slen sl' <= length (array st' sl') -> read st' sl' = l ->
  shards st' = <[s := sl']> (shards st) ->
  (arr sl' = arr (slice_of st s) \/ next st <= arr sl') ->
  (forall v, arr v ≠ arr sl' -> arrays st' !! arr v = arrays st !! arr v) ->
  represents st' (<[s := l]> m).
Proof.
  intros [W <-] H0 Hn Ha Hlen Hr Hs Hown Ho.
  assert (forall s' sl, s' ≠ s -> shards st !! s' = Some sl -> arr sl ≠ arr sl') as Hne.
  { intros s' sl Hne Hsl E. pose proof (wf_next _ W _ _ Hsl) as Hlt. destruct Hown as [Hown|Hown]; [|lia].
    unfold slice_of in Hown. destruct (shards st !! s) as [sl0|] eqn:E0; cbn in Hown; [|lia].
    apply Hne, (wf_apart _ W _ _ _ _ Hsl E0). congruence. }
  assert (forall s' sl, s' ≠ s -> shards st !! s' = Some sl -> array st' sl = array st sl) as Harr.
  { intros s' sl Hne' Hsl. unfold array. by rewrite Ho by (by eapply Hne). }
  split; [split|].
  - intros s' sl. rewrite Hs, lookup_insert_Some. intros [[_ <-]|[_ Hsl]]; [done|]. pose proof (wf_next _ W _ _ Hsl). lia.
  - intros s' sl. rewrite Hs, lookup_insert_Some. intros [[_ <-]|[Hd Hsl]]; [done|]. rewrite (Harr s') by done. by eapply wf_len.
  - intros s1 s2 sl1 sl2. rewrite Hs, !lookup_insert_Some. intros [[<- <-]|[Hd1 H1]] [[<- <-]|[Hd2 H2]] E; [done | | |by eapply wf_apart].
    + by destruct (Hne _ _ (not_eq_sym Hd2) H2).
    + by destruct (Hne _ _ (not_eq_sym Hd1) H1).
  - rewrite H0. apply W.
  - pose proof (wf_pos _ W). lia.
  - unfold Get, seen_in. rewrite Hs, fmap_insert, Hr. apply map_eq. intros s'. rewrite !lookup_insert.
    case_decide as Hd; [done|]. rewrite !lookup_fmap. destruct (shards st !! s') as [sl|] eqn:Hsl; [|done]. cbn.
    f_equal. unfold read. by rewrite (Harr s').
Qed.

(** The array of the slice with the new peer is that of the shard, or new. *)
Lemma append_array st s p :
  wf st -> let '(sl', st') := append st (slice_of st s) p in
  0 < arr sl' < next st' /\ next st <= next st' /\
  (arr sl' = next st \/ next st' = next st /\ exists sl, shards st !! s = Some sl /\ arr sl' = arr sl).
Proof.
  intros W. pose proof (wf_pos _ W) as Hp. unfold append. case_decide as Hd; cbn; [|lia].
  unfold slice_of in *. destruct (shards st !! s) as [sl|] eqn:E; cbn in *; [|rewrite array_nil in Hd by done; cbn in Hd; lia].
  pose proof (wf_next _ W _ _ E). split_and!; [lia | lia | lia|]. right. split; [done|]. by exists sl.
Qed.

Lemma put_shard_represents st m s p :
  represents st m -> represents (put_shard st s p) (<[s := slice_at m s ++ [p]]> m).
Proof.
  intros R. pose proof (represents_at st m s R) as Em. destruct (R) as [W _].
  pose proof (append_spec st (slice_of st s) p (slice_of_len st s W)) as Ha.
  pose proof (append_array st s p W) as Hb. unfold put_shard.
  destruct (append _ _ _) as [sl' st']. destruct Ha as (Hr & _ & Hlen & Hs & Harr & Ho & _), Hb as (Hb & Hn & _).
  apply (represents_update st _ s sl'); cbn [arrays next set_shards shards]; [done | | done | done | exact Hlen | | by rewrite Hs | | exact Ho].
  - apply (Ho nil_slice). cbn. lia.
  - rewrite <- Em. exact Hr.
  - destruct Harr as [(-> & _)|[-> _]]; [by left | right; lia].
Qed.

Lemma remove_at_represents st m s i :
  represents st m ->
  match slice_remove (slice_at m s) i with
  | Panic => remove_at st s i = Panic
  | Ret l => exists st', remove_at st s i = Ret st' /\
      represents st' (if decide (length l = 0) then delete s m else <[s := l]> m) /\
      read st' (slice_of st s) = l ++ drop (length (slice_at m s) - 1) (slice_at m s)
  end.
Proof.
  intros R. pose proof (represents_at st m s R) as Em. destruct (R) as [W _].
  pose proof (slice_of_len st s W) as Hl. pose proof (length_read st _ Hl) as Hlr. rewrite <- Em.
  unfold slice_remove, remove_at. rewrite Hlr. case_decide as Hi.
  2: { unfold cut_out. by rewrite decide_False. }
  destruct (cut_out_spec st (slice_of st s) i Hl Hi) as (sl' & st' & -> & Hr & Hv & Ha & Hlen & Hle & Hn & Hs & Ho).
  set (l := take i _ ++ _) in *.
  assert (exists sl, shards st !! s = Some sl) as [sl Hsl].
  { unfold slice_of in Hi. destruct (shards st !! s) as [sl|]; [by exists sl | cbn in Hi; lia]. }
  pose proof (wf_next _ W _ _ Hsl) as Hb. assert (slice_of st s = sl) as Esl by (unfold slice_of; by rewrite Hsl).
  assert (represents (set_shards (<[s:=sl']> (shards st')) st') (<[s := l]> m)) as R'.
  { apply (represents_update st _ s sl'); cbn [arrays next set_shards shards]; [done | | lia | rewrite Ha, Esl, Hn; lia
      | exact Hle | exact Hr | by rewrite Hs | by left | by rewrite Ha].
    apply (Ho nil_slice). rewrite Esl. cbn. lia. }
  assert (length l = slen sl') as El by (rewrite <- Hr; by apply length_read).
  eexists. split; [reflexivity|]. split.
  - rewrite El. case_decide; [|exact R']. destruct R' as [[W1 W2 W3 W4 W5] E'].
    split; [split|]; cbn [set_shards shards arrays next].
    + intros s' sl1 [_ H1]%lookup_delete_Some. by apply (W1 s').
    + intros s' sl1 [_ H1]%lookup_delete_Some. by apply (W2 s').
    + intros s1 s2 sl1 sl2 [_ H1]%lookup_delete_Some [_ H2]%lookup_delete_Some. by apply (W3 s1 s2 sl1 sl2).
    + exact W4.
    + exact W5.
    + unfold Get, seen_in. cbn [shards set_shards]. rewrite fmap_delete.
      unfold Get, seen_in in E'. cbn [shards set_shards] in E'. rewrite <- (delete_insert_eq m s l), <- E'. done.
  - transitivity (read st' (slice_of st s)); [by case_decide|]. rewrite Hv. unfold l. by rewrite <- app_assoc.
Qed.

(** ** What a caller of [Get] sees *)

(** Every slice of the view is a part of the present slice of its shard, or its array is
    no more in use. *)
Definition valid st (view : gmap Z slice) : Prop :=
  forall s v, view !! s = Some v -> arr v < next st /\
    ((exists sl, shards st !! s = Some sl /\ arr sl = arr v /\ slen v <= slen sl) \/
     (forall s' sl, shards st !! s' = Some sl -> arr sl ≠ arr v)).

Lemma Get_valid st : wf st -> valid st (Get st).
Proof. intros W s v Hv. split; [by eapply wf_next|]. left. by exists v. Qed.

Lemma put_shard_valid st view s p :
  wf st -> valid st view -> valid (put_shard st s p) view /\ seen_in (put_shard st s p) view = seen_in st view.
Proof.
  intros W Hv. pose proof (append_spec st (slice_of st s) p (slice_of_len st s W)) as Ha.
  pose proof (append_array st s p W) as Hb. unfold put_shard.
  destruct (append _ _ _) as [sl' st']. destruct Ha as (_ & Hlen & _ & Hs & _ & Ho & Hsame), Hb as (Hb & Hn & Hcase).
  assert (forall s0 v, view !! s0 = Some v -> read st' v = read st v /\
    ((exists sl, <[s := sl']> (shards st) !! s0 = Some sl /\ arr sl = arr v /\ slen v <= slen sl) \/
     (forall s' sl, <[s := sl']> (shards st) !! s' = Some sl -> arr sl ≠ arr v))) as H.
  { intros s0 v Hv0. destruct (Hv _ _ Hv0) as [Hlt Hown].
    destruct (decide (arr v = arr sl')) as [Ea|Ea].
    - destruct Hcase as [?|(_ & sl & Hsl & Esl)]; [lia|].
      assert (slice_of st s = sl) as Es by (unfold slice_of; by rewrite Hsl). rewrite Es in *.
      destruct Hown as [(cur & Hcur & Ec & Hle)|Hno]; [|by destruct (Hno s sl Hsl); congruence].
      assert (s0 = s) as -> by (apply (wf_apart _ W _ _ _ _ Hcur Hsl); congruence). replace cur with sl in * by congruence.
      split; [apply Hsame; [congruence | lia | done]|]. left. exists sl'. rewrite lookup_insert_eq, Hlen.
      split_and!; [done | done | lia].
    - split; [by apply read_other, Ho|]. destruct (decide (s0 = s)) as [->|Hne].
      + right. intros s' sl. rewrite lookup_insert_Some. intros [[_ <-]|[Hd Hsl]]; [congruence|].
        destruct Hown as [(cur & Hcur & Ec & _)|Hno]; [|by eapply Hno]. intros E.
        apply Hd, (wf_apart _ W _ _ _ _ Hcur Hsl). congruence.
      + destruct Hown as [(cur & Hcur & Ec & Hle)|Hno].
        * left. exists cur. by rewrite lookup_insert_ne.
        * right. intros s' sl. rewrite lookup_insert_Some. intros [[_ <-]|[_ Hsl]]; [congruence | by eapply Hno]. }
  split.
  - intros s0 v Hv0. split; [destruct (Hv _ _ Hv0); cbn; lia|]. cbn [set_shards shards]. rewrite Hs. by apply H.
  - unfold seen_in. apply map_fmap_ext. intros s0 v Hv0. by apply (H s0).
Qed.

(** Calls of [PutShardID] that list their peers. *)
Definition put_all st (calls : list (Z * string)) : store := fold_left (fun st '(s, p) => put_shard st s p) calls st.

Lemma put_all_valid st m view calls :
  represents st m -> valid st view -> seen_in (put_all st calls) view = seen_in st view.
Proof.
  revert st m. induction calls as [|[s p] calls IH]; intros st m R Hv; [done|]. cbn [put_all fold_left].
  destruct (put_shard_valid st view s p (proj1 R) Hv) as [Hv' <-].
  eapply IH; [|exact Hv']. by apply put_shard_represents.
Qed.

Lemma last_cons_default (b : list string) x y : List.last (y :: b) x = List.last b y.
Proof.
  revert x y. induction b as [|z b IH]; intros x y; [done|].
  change (List.last (z :: b) x = List.last (z :: b) y). by rewrite !IH.
Qed.

Lemma drop_last (a b : list string) x : drop (length (a ++ x :: b) - 1) (a ++ x :: b) = [List.last b x].
Proof.
  revert x a. induction b as [|y b IH]; intros x a.
  - rewrite length_app, Nat.add_sub. apply drop_app_length.
  - rewrite (cons_middle x), app_assoc. by rewrite (IH y (a ++ [x])), last_cons_default.
Qed.

(** The slices of the holder.  [PutShardID] of a waiting peer and [Remove] of a listed one
    do on the store what they do on the lists, panics included.  What a caller sees in the
    result of [Get] is the lists at the time of the call, and stays so whatever peers are
    listed afterwards; but after [Remove] the caller sees the rest of the list followed by
    its last peer, that is, not the removed peer and the last one twice (unless the removed
    peer is the last one, which the caller goes on seeing). *)
Theorem Get_shares st ph :
  represents st (PeersHolder.Get ph) -> waiting_listed ph ->
  seen_in st (Get st) = PeersHolder.Get ph /\
  (forall p s, is_Some (tempPeerIDsWaitingForShard ph !! p) ->
     represents (put_shard st s p) (PeersHolder.Get (PutShardID ph p s))) /\
  (forall calls, seen_in (put_all st calls) (Get st) = PeersHolder.Get ph) /\
  (forall p d, peerIDs ph !! p = Some d ->
     match Remove ph p with
     | Panic => remove_at st (shardID d) (PeersHolder.index d) = Panic
     | Ret ph' => exists st' a x b,
         remove_at st (shardID d) (PeersHolder.index d) = Ret st' /\ represents st' (PeersHolder.Get ph') /\
         PeersHolder.Get ph !! shardID d = Some (a ++ x :: b) /\ length a = PeersHolder.index d /\
         seen_in st' (Get st) !! shardID d = Some (a ++ b ++ [List.last b x])
     end).
Proof.
  intros R W. split_and!.
  - apply R.
  - intros p s [c Hc]. destruct (PutShardID_waiting ph p s c W Hc) as (l & i & x & _ & _ & _ & ->).
    by apply put_shard_represents.
  - intros calls. rewrite (put_all_valid st _ _ calls R (Get_valid st (proj1 R))). apply R.
  - intros p d Hd. pose proof (remove_at_represents st _ (shardID d) (PeersHolder.index d) R) as Hr. unfold slice_remove in Hr.
    rewrite (Remove_held _ _ _ Hd). change (peerIDsPerShard ph) with (PeersHolder.Get ph) in *.
    case_decide as Hi; [|exact Hr]. destruct Hr as (st' & Er & R' & Hv).
    set (m := PeersHolder.Get ph) in *. destruct (m !! shardID d) as [l|] eqn:El; cbn [from_option id] in *; [|cbn in Hi; lia].
    destruct (lookup_lt_is_Some_2 l (PeersHolder.index d)) as [x Hx]; [lia|].
    pose proof (take_drop_middle l _ x Hx) as Hm. rewrite <- Nat.add_1_r in Hm.
    exists st', (take (PeersHolder.index d) l), x, (drop (PeersHolder.index d + 1) l). split_and!.
    + exact Er.
    + exact R'.
    + by rewrite Hm.
    + rewrite length_take. lia.
    + destruct R as [_ Em]. unfold seen_in in *. rewrite lookup_fmap. rewrite <- Em, lookup_fmap in El.
      unfold slice_of in Hv. unfold Get in *. destruct (shards st !! shardID d) as [v|]; [|done]. cbn [from_option id fmap option_fmap option_map] in *.
      rewrite Hv, <- app_assoc. do 3 f_equal. rewrite <- Hm at 1 2. apply drop_last.
Qed.

End Store.

Module Witness.

Abbreviation ph1 := PeersHolder.Witness.ph1.
Abbreviation ph2 := PeersHolder.Witness.ph2.

(** The store of a new holder; arrays grow to the next even number. *)
Definition start : store := mk ∅ 1 ∅.
Definition even (n : nat) : nat := 2 * ((n + 1) / 2).

Lemma start_represents : represents start ∅.
Proof. split; [split|]; cbn; try done. lia. Qed.

(** The three peers of shard 7. *)
Definition st2 : store := put_all even start [(7%Z, "p1"); (7%Z, "p2"); (7%Z, "p3")].

Lemma st2_represents : represents st2 (PeersHolder.Get ph2).
Proof.
  change (PeersHolder.Get ph2) with (<[7%Z := ["p1"; "p2"; "p3"]]> (<[7%Z := ["p1"; "p2"]]> (<[7%Z := ["p1"]]> (∅ : gmap Z (list string))))).
  exact (put_shard_represents even _ _ 7 "p3" (put_shard_represents even _ _ 7 "p2" (put_shard_represents even _ _ 7 "p1" start_represents))).
Qed.

(** A caller that holds the result of [Get] while [p1] is removed. *)
Lemma Get_shares_witness : exists st', remove_at st2 7 0 = Ret st' /\
  seen_in st2 (Get st2) !! 7%Z = Some ["p1"; "p2"; "p3"] /\ seen_in st' (Get st2) !! 7%Z = Some ["p2"; "p3"; "p3"].
Proof.
  assert (waiting_listed ph2) as W.
  { unfold ph2. do 3 apply waiting_listed_shard. eapply reachable_waiting_listed, PeersHolder.Witness.ph1_reachable. }
  destruct (Get_shares even st2 ph2 st2_represents W) as (Hs & _ & _ & Hr).
  specialize (Hr "p1" PeersHolder.Witness.d1). rewrite Hs.
  assert (peerIDs ph2 !! "p1" = Some PeersHolder.Witness.d1) as Hd by (vm_compute; reflexivity). specialize (Hr Hd).
  destruct (Remove ph2 "p1") as [ph'|] eqn:E; [|exfalso; revert E; vm_compute; discriminate].
  destruct Hr as (st' & a & x & b & Hr & _ & Hl & Ha & Hv). exists st'. split; [exact Hr|].
  assert (PeersHolder.Get ph2 !! 7%Z = Some ["p1"; "p2"; "p3"]) as Hg by (vm_compute; reflexivity).
  split; [exact Hg|]. cbn in Hl. change (shardID PeersHolder.Witness.d1) with 7%Z in *. rewrite Hg in Hl.
  destruct a; [|discriminate Ha]. cbn [app] in *. injection Hl as <- <-. exact Hv.
Defined.

End Witness.
