(* ===== verification/Wire.v ===== *)
(** * Wire: the primitives of the generated protobuf code

    The two generated files [data/topicMessage.pb.go] and
    [message/peerShardMessage.pb.go] contain the same runtime under two names:
    writing a varint backwards into a buffer of the right size, reading a varint,
    reading a length-delimited field, and skipping an unknown field.  Positions
    are Go [int]s; a write or slice out of range is a [Panic].  Reading keeps the
    bytes not read yet; the position of the code is the length of the input minus
    their number. *)

From S2P Require Import Prelude Errors.
From Stdlib Require Import ZArith Lia String Strings.Byte.
From stdpp Require Import prelude list strings pretty.

Local Open Scope Z_scope.

Abbreviation len l := (Z.of_nat (length l)).

(** ** Errors of the decoder *)

Definition ErrInvalidLength : error := ErrText "proto: negative length found during unmarshaling".
Definition ErrIntOverflow : error := ErrText "proto: integer overflow".
Definition ErrUnexpectedEndOfGroup : error := ErrText "proto: unexpected end of group".
Definition io_ErrUnexpectedEOF : error := ErrText "unexpected EOF".

Definition wrong_wireType (wireType : Z) (field : string) : error :=
  ErrText ("proto: wrong wireType = " +:+ pretty wireType +:+ " for field " +:+ field).

(** ** Writing *)

(** [dAtA[i] = b]. *)
Definition put (dAtA : bytes) (i : Z) (b : byte) : outcome bytes :=
  if decide (0 <= i < len dAtA) then Ret (<[Z.to_nat i := b]> dAtA) else Panic.

(** [copy(dAtA[i:], src)]. *)
Definition copy_at (dAtA : bytes) (i : Z) (src : bytes) : outcome bytes :=
  if decide (0 <= i <= len dAtA) then
    let i := Z.to_nat i in
    Ret (take i dAtA ++ take (length dAtA - i) src ++ drop (i + length src) dAtA)
  else Panic.

(** [math_bits.Len64]. *)
Definition Len64 (x : Z) : Z := if x =? 0 then 0 else Z.log2 x + 1.

Definition sov (x : Z) : Z := (Len64 (Z.lor x 1) + 6) / 7.

(** The loop of [encodeVarint]; a [uint64] needs at most ten rounds. *)
Fixpoint encode_loop (fuel : nat) (dAtA : bytes) (offset v : Z) : outcome bytes :=
  match fuel with
  | O => Panic
  | S n =>
      if v >=? 128 then
        let! dAtA := put dAtA offset (z2b (Z.lor (Z.land v 127) 128)) in
        encode_loop n dAtA (offset + 1) (Z.shiftr v 7)
      else put dAtA offset (z2b v)
  end.

Definition encodeVarint (dAtA : bytes) (offset v : Z) : outcome (bytes * Z) :=
  let offset := offset - sov v in
  let base := offset in
  let! dAtA := encode_loop 10 dAtA offset v in
  Ret (dAtA, base).

(** A length-delimited field written in front of position [i]: data, length, tag. *)
Definition put_bytes (dAtA : bytes) (i : Z) (tag : Z) (src : bytes) : outcome (bytes * Z) :=
  let i := i - len src in
  let! dAtA := copy_at dAtA i src in
  let! (dAtA, i) := encodeVarint dAtA i (u64 (len src)) in
  let i := i - 1 in
  let! dAtA := put dAtA i (z2b tag) in
  Ret (dAtA, i).

(** A varint field written in front of position [i]. *)
Definition put_varint (dAtA : bytes) (i : Z) (tag : Z) (v : Z) : outcome (bytes * Z) :=
  let! (dAtA, i) := encodeVarint dAtA i v in
  let i := i - 1 in
  let! dAtA := put dAtA i (z2b tag) in
  Ret (dAtA, i).

(** The size of a length-delimited field with a one-byte tag. *)
Definition size_bytes (b : bytes) : Z :=
  if len b >? 0 then 1 + len b + sov (u64 (len b)) else 0.

(** ** Reading *)

(** The loop [x |= T(b&0x7F) << shift]; [trunc] is the conversion to [T]. *)
Fixpoint varint_loop (trunc : Z -> Z) (shift acc : Z) (rest : bytes) : result (Z * bytes) :=
  if shift >=? 64 then Err ErrIntOverflow
  else match rest with
  | [] => Err io_ErrUnexpectedEOF
  | b :: rest' =>
      let acc := Z.lor acc (trunc (Z.shiftl (Z.land (b2z b) 127) shift)) in
      if b2z b <? 128 then Ok (acc, rest') else varint_loop trunc (shift + 7) acc rest'
  end.

Definition varint (trunc : Z -> Z) (rest : bytes) : result (Z * bytes) := varint_loop trunc 0 0 rest.

(** The bytes after position [iNdEx + n]. *)
Definition drop_z (n : Z) (rest : bytes) : bytes :=
  if decide (len rest <= n) then [] else drop (Z.to_nat n) rest.

(** The checked read of [byteLen] bytes of an input of [l] bytes. *)
Definition read_chunk (l byteLen : Z) (rest : bytes) : result (bytes * bytes) :=
  if byteLen <? 0 then Err ErrInvalidLength
  else
    let postIndex := i64 (l - len rest + byteLen) in
    if postIndex <? 0 then Err ErrInvalidLength
    else if postIndex >? l then Err io_ErrUnexpectedEOF
    else Ok (take (Z.to_nat byteLen) rest, drop (Z.to_nat byteLen) rest).

(** A length-delimited field whose length is an [int]. *)
Definition read_bytes (l : Z) (rest : bytes) : result (bytes * bytes) :=
  let? (byteLen, rest) := varint i64 rest in
  read_chunk l byteLen rest.

(** The loop of [skip]: one field per round, [depth] open groups.  Every round
    reads at least one byte, so the length of the input is enough fuel. *)
Fixpoint skip_loop (fuel : nat) (l depth : Z) (rest : bytes) : result Z :=
  match fuel, rest with
  | O, _ | _, [] => Err io_ErrUnexpectedEOF
  | S n, _ =>
      let? (wire, rest) := varint u64 rest in
      let wireType := Z.land wire 7 in
      let iNdEx := l - len rest in
      let next iNdEx depth rest :=
        if iNdEx <? 0 then Err ErrInvalidLength
        else if depth =? 0 then Ok iNdEx
        else skip_loop n l depth rest in
      if wireType =? 0 then
        let? (_, rest) := varint u64 rest in
        next (l - len rest) depth rest
      else if wireType =? 1 then next (iNdEx + 8) depth (drop_z 8 rest)
      else if wireType =? 2 then
        let? (length, rest) := varint i64 rest in
        if length <? 0 then Err ErrInvalidLength
        else next (i64 (l - len rest + length)) depth (drop_z length rest)
      else if wireType =? 3 then next iNdEx (depth + 1) rest
      else if wireType =? 4 then
        if depth =? 0 then Err ErrUnexpectedEndOfGroup else next iNdEx (depth - 1) rest
      else if wireType =? 5 then next (iNdEx + 4) depth (drop_z 4 rest)
      else Err (ErrText ("proto: illegal wireType " +:+ pretty wireType))
  end.

Definition skip (dAtA : bytes) : result Z := skip_loop (length dAtA) (len dAtA) 0 dAtA.

(** The [default] branch of [Unmarshal]: the field starts again at its tag, at
    which [field] are the bytes left. *)
Definition skip_field (l : Z) (field : bytes) : result bytes :=
  let iNdEx := l - len field in
  let? skippy := skip field in
  if (skippy <? 0) || (i64 (iNdEx + skippy) <? 0) then Err ErrInvalidLength
  else if i64 (iNdEx + skippy) >? l then Err io_ErrUnexpectedEOF
  else Ok (drop (Z.to_nat skippy) field).

(** ** The encoding, as a specification *)

(** Base-128 digits of [v], least significant first. *)
Fixpoint uvarint_n (n : nat) (v : Z) : bytes :=
  match n with
  | O => []
  | S n => if v <? 128 then [z2b v] else z2b (v mod 128 + 128) :: uvarint_n n (v / 128)
  end.
Definition uvarint (v : Z) : bytes := uvarint_n 10 v.

Definition bytes_field (tag : Z) (b : bytes) : bytes :=
  if decide (b = []) then [] else z2b tag :: uvarint (len b) ++ b.
Definition varint_field (tag v : Z) : bytes :=
  if decide (v = 0) then [] else z2b tag :: uvarint v.

(** ** Bit arithmetic *)

Lemma lor_disjoint a b k : 0 <= k -> 0 <= a < 2 ^ k -> Z.lor a (b * 2 ^ k) = a + b * 2 ^ k.
Proof.
  intros Hk Ha. rewrite <- Z.shiftl_mul_pow2 by done.
  assert (Z.land a (Z.shiftl b k) = 0) as E.
  { apply Z.bits_inj'. intros n Hn. rewrite Z.land_spec, Z.bits_0.
    destruct (Z.ltb_spec n k).
    - rewrite Z.shiftl_spec_low by done. apply andb_false_r.
    - rewrite <- (Z.mod_small a (2 ^ k)), Z.mod_pow2_bits_high by lia. done. }
  by rewrite <- Z.lxor_lor, Z.add_nocarry_lxor by done.
Qed.

Lemma land_127 v : Z.land v 127 = v mod 128.
Proof. exact (Z.land_ones v 7 ltac:(lia)). Qed.

Lemma lor_128 a : 0 <= a < 128 -> Z.lor a 128 = a + 128.
Proof. intros. exact (lor_disjoint a 1 7 ltac:(lia) ltac:(lia)). Qed.

Lemma shiftr_7 v : Z.shiftr v 7 = v / 128.
Proof. exact (Z.shiftr_div_pow2 v 7 ltac:(lia)). Qed.

Lemma u64_lor a b : u64 (Z.lor a b) = Z.lor (u64 a) (u64 b).
Proof. unfold u64. by rewrite <- !Z.land_ones, Z.land_lor_distr_l by lia. Qed.
Lemma u32_lor a b : u32 (Z.lor a b) = Z.lor (u32 a) (u32 b).
Proof. unfold u32. by rewrite <- !Z.land_ones, Z.land_lor_distr_l by lia. Qed.

Lemma i64_lor a b : Z.lor (i64 a) (i64 b) = i64 (Z.lor a b).
Proof.
  rewrite <- (i64_id (Z.lor (i64 a) (i64 b))).
  - by rewrite <- (i64_u64 (Z.lor (i64 a) (i64 b))), u64_lor, !u64_i64, <- u64_lor, i64_u64.
  - unfold in_i64. assert (forall x, in_i64 x <-> Z.shiftr x 63 = 0 \/ Z.shiftr x 63 = -1) as Hx.
    { intros x. rewrite Z.shiftr_div_pow2 by lia. unfold in_i64.
      split; intros; [|Z.div_mod_to_equations; lia].
      assert (-1 <= x / 2 ^ 63 < 1); [|lia]. split; [apply Z.div_le_lower_bound | apply Z.div_lt_upper_bound]; lia. }
    apply Hx. rewrite Z.shiftr_lor.
    destruct (proj1 (Hx _) (i64_range a)) as [->| ->], (proj1 (Hx _) (i64_range b)) as [->| ->];
      simpl; auto.
Qed.

(** The conversions to [uint32], [uint64] and [int64] of the varint loop. *)
Class Truncation (trunc : Z -> Z) : Prop :=
  trunc_lor a b : Z.lor (trunc a) (trunc b) = trunc (Z.lor a b).

#[export] Instance u32_truncation : Truncation u32.
Proof. intros a b. by rewrite u32_lor. Qed.
#[export] Instance u64_truncation : Truncation u64.
Proof. intros a b. by rewrite u64_lor. Qed.
#[export] Instance i64_truncation : Truncation i64.
Proof. exact i64_lor. Qed.

(** ** Reading back a varint *)

Lemma uvarint_n_nonempty n v : (0 < n)%nat -> uvarint_n n v ≠ [].
Proof. destruct n; [lia|]. intros _. simpl. by case_match. Qed.

Lemma varint_loop_uvarint trunc `{!Truncation trunc} n shift low v rest :
  0 <= shift < 64 -> 0 <= low < 2 ^ shift -> 0 <= v < 2 ^ (64 - shift) -> 64 - shift <= 7 * Z.of_nat n ->
  varint_loop trunc shift (trunc low) (uvarint_n n v ++ rest) = Ok (trunc (low + v * 2 ^ shift), rest).
Proof.
  revert shift low v. induction n as [|n IH]; intros shift low v Hs Hl Hv Hn; [lia|].
  simpl uvarint_n. destruct (Z.ltb_spec v 128) as [Hv1|Hv1]; simpl;
    rewrite Z.geb_leb, (proj2 (Z.leb_gt 64 shift)) by lia.
  - rewrite b2z_z2b_small, (proj2 (Z.ltb_lt v 128)) by lia.
    rewrite land_127, (Z.mod_small v 128), Z.shiftl_mul_pow2, trunc_lor, lor_disjoint by lia. done.
  - pose proof (Z.mod_pos_bound v 128 eq_refl) as Hm.
    rewrite b2z_z2b_small, (proj2 (Z.ltb_ge (v mod 128 + 128) 128)) by lia.
    rewrite land_127, Z.shiftl_mul_pow2, trunc_lor by lia.
    replace ((v mod 128 + 128) mod 128) with (v mod 128)
      by (rewrite <- Zplus_mod_idemp_r, Z_mod_same_full, Z.add_0_r, Zmod_mod; done).
    rewrite lor_disjoint by lia.
    assert (64 - shift > 7) as Hs7.
    { destruct (Z.le_gt_cases (64 - shift) 7) as [Hle|]; [|lia].
      pose proof (Z.pow_le_mono_r 2 (64 - shift) 7 ltac:(lia) Hle). lia. }
    assert (2 ^ (shift + 7) = 2 ^ shift * 128) as E7 by (rewrite Z.pow_add_r by lia; done).
    assert (2 ^ (64 - shift) = 128 * 2 ^ (64 - (shift + 7))) as E64.
    { replace (64 - shift) with (7 + (64 - (shift + 7))) by lia. by rewrite Z.pow_add_r by lia. }
    assert (0 < 2 ^ shift) by (apply Z.pow_pos_nonneg; lia).
    rewrite IH; [| lia | | | lia].
    + do 3 f_equal. rewrite E7. pose proof (Z.div_mod v 128 ltac:(lia)) as Ev.
      generalize dependent (v / 128). generalize dependent (v mod 128). intros. subst v. ring.
    + rewrite E7. nia.
    + split; [by apply Z.div_pos; lia | apply Z.div_lt_upper_bound; lia].
Qed.

Lemma varint_uvarint trunc `{!Truncation trunc} v rest :
  trunc 0 = 0 -> in_u64 v -> varint trunc (uvarint v ++ rest) = Ok (trunc v, rest).
Proof.
  intros E0 Hv. unfold in_u64 in Hv. unfold varint, uvarint.
  pose proof (varint_loop_uvarint trunc 10 0 0 v rest) as P. rewrite E0 in P.
  rewrite P by lia. do 3 f_equal. lia.
Qed.

Lemma varint_u64 v rest : in_u64 v -> varint u64 (uvarint v ++ rest) = Ok (v, rest).
Proof. intros Hv. rewrite (varint_uvarint u64), u64_id by done. done. Qed.
Lemma varint_u32 v rest : in_u64 v -> varint u32 (uvarint v ++ rest) = Ok (u32 v, rest).
Proof. exact (varint_uvarint u32 v rest eq_refl). Qed.
Lemma varint_i64 v rest : in_u64 v -> varint i64 (uvarint v ++ rest) = Ok (i64 v, rest).
Proof. exact (varint_uvarint i64 v rest eq_refl). Qed.

(** ** The length of a varint *)

Lemma length_uvarint_n n v :
  0 <= v < 2 ^ (7 * Z.of_nat n) -> (0 < n)%nat -> len (uvarint_n n v) = sov v.
Proof.
  unfold sov, Len64. revert v. induction n as [|n IH]; intros v Hv Hn; [lia|]. simpl uvarint_n.
  assert (0 < Z.lor v 1) as Hpos.
  { destruct (Z.lor_nonneg v 1) as [_ Hnn]. destruct (Z.eq_dec (Z.lor v 1) 0) as [E|]; [|lia].
    apply Z.lor_eq_0_iff in E. lia. }
  rewrite (proj2 (Z.eqb_neq _ 0)) by lia. rewrite Z.log2_lor by lia. change (Z.log2 1) with 0.
  rewrite Z.max_l by apply Z.log2_nonneg.
  destruct (Z.ltb_spec v 128) as [Hs|Hs]; simpl length.
  - assert (0 <= Z.log2 v < 7) as Hlog.
    { split; [apply Z.log2_nonneg|]. destruct (Z.eq_dec v 0) as [->|]; [done|].
      apply (Z.log2_lt_pow2 v 7); lia. }
    Z.div_mod_to_equations. lia.
  - assert (0 < n)%nat.
    { destruct n; [|lia]. change (2 ^ (7 * Z.of_nat 1)) with 128 in Hv. lia. }
    assert (0 < v / 128) by (apply Z.div_str_pos; lia).
    rewrite Nat2Z.inj_succ, IH; [| |done].
    + assert (0 < Z.lor (v / 128) 1).
      { destruct (Z.lor_nonneg (v / 128) 1) as [_ Hnn].
        destruct (Z.eq_dec (Z.lor (v / 128) 1) 0) as [E|]; [|lia]. apply Z.lor_eq_0_iff in E. lia. }
      rewrite (proj2 (Z.eqb_neq _ 0)) by lia. rewrite Z.log2_lor by lia. change (Z.log2 1) with 0.
      rewrite Z.max_l by apply Z.log2_nonneg.
      rewrite <- shiftr_7, Z.log2_shiftr by lia.
      assert (7 <= Z.log2 v) by (apply Z.log2_le_pow2; lia).
      rewrite Z.max_r by lia. Z.div_mod_to_equations. lia.
    + split; [lia|]. apply Z.div_lt_upper_bound; [lia|].
      rewrite Nat2Z.inj_succ in Hv. replace (7 * Z.succ (Z.of_nat n)) with (7 + 7 * Z.of_nat n) in Hv by lia.
      rewrite Z.pow_add_r in Hv by lia. lia.
Qed.

Lemma length_uvarint v : in_u64 v -> len (uvarint v) = sov v.
Proof.
  intros Hv. apply length_uvarint_n; [|lia]. unfold in_u64 in Hv.
  pose proof (Z.pow_le_mono_r 2 64 (7 * Z.of_nat 10) ltac:(lia) ltac:(lia)). lia.
Qed.

Lemma length_uvarint_le v : len (uvarint v) <= 10.
Proof.
  assert (forall n w, (length (uvarint_n n w) <= n)%nat) as Hn.
  { intros n. induction n as [|n IH]; intros w; [done|]. simpl. case_match; simpl; [lia|].
    specialize (IH (w / 128)). lia. }
  specialize (Hn 10%nat v). unfold uvarint. lia.
Qed.

Lemma sov_pos v : in_u64 v -> 0 < sov v.
Proof.
  intros Hv. rewrite <- length_uvarint by done.
  pose proof (uvarint_n_nonempty 10 v ltac:(lia)) as Hne. unfold uvarint.
  destruct (uvarint_n 10 v); [done|]. simpl. lia.
Qed.

(** ** Writing into a buffer

    A message is written backwards: before a field is written at position [i] the
    buffer is the [i] bytes before it, bytes to be overwritten, and what is written
    already. *)

Definition zeros (i : Z) : bytes := replicate (Z.to_nat i) x00.

Lemma len_zeros i : 0 <= i -> len (zeros i) = i.
Proof. intros. unfold zeros. rewrite length_replicate. lia. Qed.

Lemma put_middle pre b b0 post : put (pre ++ b0 :: post) (len pre) b = Ret (pre ++ b :: post).
Proof.
  unfold put. rewrite decide_True by (rewrite length_app; simpl; lia).
  rewrite Nat2Z.id. f_equal. rewrite insert_app_r_alt by done. by rewrite Nat.sub_diag.
Qed.

Lemma put_negative dAtA i b : i < 0 -> put dAtA i b = Panic.
Proof. intros. unfold put. rewrite decide_False by lia. done. Qed.

Lemma copy_at_middle pre old src post :
  length old = length src -> copy_at (pre ++ old ++ post) (len pre) src = Ret (pre ++ src ++ post).
Proof.
  intros Hl. unfold copy_at. rewrite !length_app, decide_True by lia. rewrite Nat2Z.id.
  rewrite take_app_length, (take_ge src) by lia. f_equal. do 2 f_equal.
  rewrite app_assoc. apply drop_app_length'. rewrite length_app. lia.
Qed.

Lemma length_put dAtA i b dAtA' : put dAtA i b = Ret dAtA' -> length dAtA' = length dAtA.
Proof. unfold put. case_decide; [|done]. intros [= <-]. apply length_insert. Qed.

Lemma encode_loop_spec n pre old v post :
  0 <= v < 2 ^ (7 * Z.of_nat n) -> (0 < n)%nat -> length old = length (uvarint_n n v) ->
  encode_loop n (pre ++ old ++ post) (len pre) v = Ret (pre ++ uvarint_n n v ++ post).
Proof.
  revert pre old v. induction n as [|n IH]; intros pre old v Hv Hn; [lia|]. simpl uvarint_n.
  simpl encode_loop. rewrite Z.geb_leb. destruct (Z.ltb_spec v 128) as [Hs|Hs]; intros Hl;
    (destruct old as [|b0 old]; [done|]); injection Hl as Hl.
  - rewrite (proj2 (Z.leb_gt 128 v)) by lia. destruct old; [|done]. apply put_middle.
  - rewrite (proj2 (Z.leb_le 128 v)) by lia.
    assert (0 < n)%nat. { destruct n; [|lia]. change (2 ^ (7 * Z.of_nat 1)) with 128 in Hv. lia. }
    set (rest := uvarint_n n (v / 128)) in *.
    simpl. rewrite put_middle, land_127, shiftr_7.
    pose proof (Z.mod_pos_bound v 128 eq_refl). rewrite lor_128 by lia.
    specialize (IH (pre ++ [z2b (v mod 128 + 128)]) old (v / 128)).
    rewrite length_app, Nat2Z.inj_add, <- !app_assoc in IH. simpl in IH.
    apply IH; [|done|done]. split; [by apply Z.div_pos; lia|].
    apply Z.div_lt_upper_bound; [lia|].
    rewrite Nat2Z.inj_succ in Hv. replace (7 * Z.succ (Z.of_nat n)) with (7 + 7 * Z.of_nat n) in Hv by lia.
    rewrite Z.pow_add_r in Hv by lia. lia.
Qed.

Lemma u64_lt_2_70 v : in_u64 v -> 0 <= v < 2 ^ (7 * Z.of_nat 10).
Proof.
  unfold in_u64. intros. pose proof (Z.pow_le_mono_r 2 64 (7 * Z.of_nat 10) ltac:(lia) ltac:(lia)). lia.
Qed.

Lemma encodeVarint_middle pre old v post :
  in_u64 v -> length old = length (uvarint v) ->
  encodeVarint (pre ++ old ++ post) (len pre + len old) v = Ret (pre ++ uvarint v ++ post, len pre).
Proof.
  intros Hv Hl. unfold encodeVarint. rewrite <- length_uvarint, Hl by done.
  replace (len pre + len (uvarint v) - len (uvarint v)) with (len pre) by lia.
  unfold uvarint in *. by rewrite encode_loop_spec by (try apply u64_lt_2_70; try done; lia).
Qed.

Lemma encode_loop_negative n dAtA offset v : offset < 0 -> encode_loop n dAtA offset v = Panic.
Proof. intros. destruct n; [done|]. cbn [encode_loop]. destruct (v >=? 128); by rewrite put_negative. Qed.

Lemma encodeVarint_negative dAtA offset v : offset < sov v -> encodeVarint dAtA offset v = Panic.
Proof.
  intros Hlt. unfold encodeVarint. by rewrite encode_loop_negative by lia.
Qed.

Ltac by_app := repeat first [rewrite <- app_assoc | progress simpl app]; reflexivity.

(** A field at position [i], written or not fitting. *)
Definition put_spec (putf : bytes -> Z -> outcome (bytes * Z)) (f : bytes) : Prop :=
  (forall pre old post, length old = length f ->
     putf (pre ++ old ++ post) (len pre + len old) = Ret (pre ++ f ++ post, len pre)) /\
  (forall dAtA i, 0 <= i <= len dAtA -> i < len f -> putf dAtA i = Panic).

Lemma put_tag pre b0 tag (v : bytes) (k : Z) post :
  k = len pre + 1 -> (let i := k - 1 in let! dAtA := put (pre ++ b0 :: post) i (z2b tag) in Ret (dAtA, i)) =
  Ret (pre ++ z2b tag :: post, len pre).
Proof. intros ->. replace (len pre + 1 - 1) with (len pre) by lia. cbn zeta. by rewrite put_middle. Qed.

Lemma put_varint_spec tag v :
  in_u64 v -> put_spec (fun dAtA i => put_varint dAtA i tag v) (z2b tag :: uvarint v).
Proof.
  intros Hv. split.
  - intros pre [|b0 old] post; [done|]. intros [= Hl]. unfold put_varint. cbn [app length].
    replace (len pre + Z.of_nat (S (length old))) with (len (pre ++ [b0]) + len old) by (rewrite length_app; cbn; lia).
    replace (pre ++ b0 :: old ++ post) with ((pre ++ [b0]) ++ old ++ post) by by_app.
    rewrite encodeVarint_middle by done. rewrite <- app_assoc. cbn [app].
    replace (len (pre ++ [b0]) - 1) with (len pre) by (rewrite length_app; cbn; lia). by rewrite put_middle.
  - intros dAtA i Hi Hlt. cbn [length] in Hlt. unfold put_varint.
    destruct (Z.lt_ge_cases i (sov v)); [by rewrite encodeVarint_negative|].
    unfold encodeVarint. rewrite <- length_uvarint in * by done. destruct (encode_loop _ _ _ _); [|done].
    by rewrite put_negative by lia.
Qed.

Lemma put_bytes_spec tag b :
  in_u64 (len b) -> put_spec (fun dAtA i => put_bytes dAtA i tag b) (z2b tag :: uvarint (len b) ++ b).
Proof.
  intros Hv. split.
  - intros pre [|b0 old] post; [done|]. intros [= Hl]. rewrite length_app in Hl. unfold put_bytes.
    rewrite <- (take_drop (length (uvarint (len b))) old). set (o1 := take _ old). set (o2 := drop _ old).
    assert (length o1 = length (uvarint (len b))) as L1 by (unfold o1; rewrite length_take; lia).
    assert (length o2 = length b) as L2 by (unfold o2; rewrite length_drop; lia).
    replace (len pre + len (b0 :: o1 ++ o2) - len b) with (len (pre ++ [b0] ++ o1))
      by (cbn [length]; rewrite !length_app; cbn [length]; lia).
    replace (pre ++ (b0 :: o1 ++ o2) ++ post) with ((pre ++ [b0] ++ o1) ++ o2 ++ post) by by_app.
    rewrite copy_at_middle by done. rewrite u64_id by done.
    replace (len (pre ++ [b0] ++ o1)) with (len (pre ++ [b0]) + len o1) by (rewrite !length_app; cbn; lia).
    replace ((pre ++ [b0] ++ o1) ++ b ++ post) with ((pre ++ [b0]) ++ o1 ++ b ++ post) by by_app.
    rewrite encodeVarint_middle by done. rewrite <- !app_assoc. cbn [app].
    replace (len (pre ++ [b0]) - 1) with (len pre) by (rewrite length_app; cbn; lia). rewrite put_middle. cbn [app]. by rewrite <- app_assoc.
  - intros dAtA i Hi Hlt. cbn [length] in Hlt. rewrite length_app in Hlt. unfold put_bytes.
    destruct (copy_at _ _ _) as [dAtA'|] eqn:Ec; [|done]. unfold copy_at in Ec. case_decide as Hd; [|done].
    rewrite u64_id by done. destruct (Z.lt_ge_cases (i - len b) (sov (len b))); [by rewrite encodeVarint_negative|].
    unfold encodeVarint. rewrite <- length_uvarint in * by done. destruct (encode_loop _ _ _ _); [|done].
    by rewrite put_negative by lia.
Qed.

(** A field that is left out when it is empty. *)
Lemma put_field_spec (b : bool) putf f :
  (b = true -> put_spec putf f) -> (b = false -> f = []) ->
  put_spec (fun dAtA i => if b then putf dAtA i else Ret (dAtA, i)) f.
Proof.
  destruct b; intros Hs Hf; [by apply Hs|]. rewrite (Hf eq_refl). split.
  - intros pre [|b0 old] post; [|done]. intros _. cbn. by rewrite Z.add_0_r.
  - intros dAtA i Hi Hlt. cbn in Hlt. lia.
Qed.

Lemma put_bytes_field tag b :
  len b < 2 ^ 63 -> put_spec (fun dAtA i => if len b >? 0 then put_bytes dAtA i tag b else Ret (dAtA, i)) (bytes_field tag b).
Proof.
  intros Hb. unfold bytes_field. apply put_field_spec; rewrite Z.gtb_ltb.
  - intros Hl%Z.ltb_lt. rewrite decide_False by (intros ->; done). apply put_bytes_spec. unfold in_u64. lia.
  - intros Hl%Z.ltb_ge. rewrite decide_True; [done|]. destruct b; [done | cbn in Hl; lia].
Qed.

(** Fields written one after the other, the last first. *)
Lemma put_spec_then putf1 putf2 f1 f2 :
  put_spec putf1 f1 -> put_spec putf2 f2 ->
  put_spec (fun dAtA i => let! (dAtA, i) := putf2 dAtA i in putf1 dAtA i) (f1 ++ f2).
Proof.
  intros [W1 S1] [W2 S2]. split.
  - intros pre old post Hl. rewrite length_app in Hl. rewrite <- (take_drop (length f1) old).
    set (o1 := take _ old). set (o2 := drop _ old).
    assert (length o1 = length f1) as L1 by (unfold o1; rewrite length_take; lia).
    assert (length o2 = length f2) as L2 by (unfold o2; rewrite length_drop; lia).
    replace (len pre + len (o1 ++ o2)) with (len (pre ++ o1) + len o2) by (rewrite !length_app; lia).
    replace (pre ++ (o1 ++ o2) ++ post) with ((pre ++ o1) ++ o2 ++ post) by by_app.
    rewrite W2 by done. replace (len (pre ++ o1)) with (len pre + len o1) by (rewrite length_app; lia).
    rewrite <- !app_assoc. by rewrite W1.
  - intros dAtA i Hi Hlt. rewrite length_app in Hlt. destruct (Z.lt_ge_cases i (len f2)); [by rewrite S2|].
    assert (dAtA = take (Z.to_nat i - length f2) dAtA ++ take (length f2) (drop (Z.to_nat i - length f2) dAtA) ++
                   drop (Z.to_nat i) dAtA) as E.
    { rewrite <- (take_drop (Z.to_nat i - length f2) dAtA) at 1. f_equal.
      rewrite <- (take_drop (length f2) (drop _ dAtA)) at 1. f_equal. rewrite drop_drop. f_equal. lia. }
    set (pre := take _ dAtA) in E. set (old := take _ (drop _ _)) in E. set (post := drop _ dAtA) in E.
    assert (length pre = Z.to_nat i - length f2)%nat as Lp by (unfold pre; rewrite length_take; lia).
    assert (length old = length f2) as Lo by (unfold old; rewrite length_take, length_drop; lia).
    replace i with (len pre + len old) by lia. rewrite E, W2 by done. apply S1; [rewrite length_app; lia | lia].
Qed.

(** The encoding goes to the end of the buffer, or does not fit. *)
Lemma put_spec_buffer putf f dAtA :
  put_spec putf f ->
  (let! (dAtA, i) := putf dAtA (len dAtA) in Ret (dAtA, len dAtA - i)) =
  (if len dAtA <? len f then Panic else Ret (take (length dAtA - length f) dAtA ++ f, len f)).
Proof.
  intros [Hw Hs]. destruct (Z.ltb_spec (len dAtA) (len f)) as [Hl|Hl]; [by rewrite Hs by lia|].
  set (k := (length dAtA - length f)%nat). assert (length (take k dAtA) = k) as Lt by (rewrite length_take; lia).
  pose proof (Hw (take k dAtA) (drop k dAtA) []) as P. rewrite !app_nil_r, take_drop in P.
  replace (len (take k dAtA) + len (drop k dAtA)) with (len dAtA) in P by (rewrite length_drop; lia).
  rewrite P by (rewrite length_drop; lia). rewrite length_app. do 2 f_equal. lia.
Qed.

(** [MarshalTo] writes into [dAtA[:size]], where [dAtA] is the slice up to its
    capacity, and [XXX_Marshal] into the whole of [b], up to its capacity. *)
Definition marshal_to (msb : bytes -> outcome (bytes * Z)) (size : Z) (dAtA : bytes) : outcome (bytes * Z) :=
  if decide (0 <= size <= len dAtA) then
    let! (front, n) := msb (take (Z.to_nat size) dAtA) in
    Ret (front ++ drop (Z.to_nat size) dAtA, n)
  else Panic.

Definition xxx_marshal (msb : bytes -> outcome (bytes * Z)) (b : bytes) : outcome bytes :=
  let! (b, n) := msb b in
  if decide (0 <= n <= len b) then Ret (take (Z.to_nat n) b) else Panic.

Lemma marshal_buffers msb f dAtA :
  (forall d, msb d = if len d <? len f then Panic else Ret (take (length d - length f) d ++ f, len f)) ->
  marshal_to msb (len f) dAtA = (if len dAtA <? len f then Panic else Ret (f ++ drop (length f) dAtA, len f)) /\
  (len dAtA < len f -> xxx_marshal msb dAtA = Panic) /\
  (len dAtA = len f -> xxx_marshal msb dAtA = Ret f).
Proof.
  intros Hm. unfold marshal_to, xxx_marshal. rewrite !Hm. split_and!.
  - destruct (Z.ltb_spec (len dAtA) (len f)) as [Hl|Hl]; [by rewrite decide_False by lia|].
    assert (length (take (length f) dAtA) = length f) as Ht by (rewrite length_take; lia).
    rewrite decide_True by lia. rewrite Nat2Z.id, Ht, Z.ltb_irrefl, Nat.sub_diag. done.
  - intros Hl%Z.ltb_lt. by rewrite Hl.
  - intros Hl. rewrite Hl, Z.ltb_irrefl. replace (length dAtA) with (length f) by lia.
    rewrite Nat.sub_diag, take_0, app_nil_l, decide_True by lia. by rewrite Nat2Z.id, firstn_all.
Qed.

Lemma size_bytes_field tag b : len b < 2 ^ 63 -> size_bytes b = len (bytes_field tag b).
Proof.
  intros Hb. unfold size_bytes, bytes_field. rewrite Z.gtb_ltb. case_decide as E.
  - by subst.
  - assert (0 < len b) by (destruct b; [done | simpl; lia]).
    rewrite (proj2 (Z.ltb_lt 0 (len b))) by done. rewrite u64_id by (unfold in_u64; lia).
    simpl. rewrite length_app, <- length_uvarint by (unfold in_u64; lia). lia.
Qed.

Lemma len_bytes_field tag b : len b <= len (bytes_field tag b).
Proof. unfold bytes_field. case_decide; [by subst |]. simpl. rewrite length_app. lia. Qed.

(** ** Reading back a field *)

Lemma read_bytes_field l b rest :
  len b < 2 ^ 63 -> l < 2 ^ 63 -> len (uvarint (len b) ++ b ++ rest) <= l ->
  read_bytes l (uvarint (len b) ++ b ++ rest) = Ok (b, rest).
Proof.
  intros Hb Hl Hle. unfold read_bytes. rewrite !length_app in Hle.
  rewrite varint_i64 by (unfold in_u64; lia).
  rewrite i64_id by (unfold in_i64; lia). unfold read_chunk. rewrite length_app.
  rewrite (proj2 (Z.ltb_ge (len b) 0)) by lia.
  replace (l - Z.of_nat (length b + length rest) + len b) with (l - len rest) by lia.
  rewrite i64_id by (unfold in_i64; lia).
  rewrite (proj2 (Z.ltb_ge (l - len rest) 0)), Z.gtb_ltb, (proj2 (Z.ltb_ge l (l - len rest))) by lia.
  rewrite Nat2Z.id, take_app_length, drop_app_length. done.
Qed.

(** Every round of [skip] reads at least one byte. *)
Lemma varint_loop_shrinks trunc shift acc rest v rest' :
  varint_loop trunc shift acc rest = Ok (v, rest') -> (length rest' < length rest)%nat.
Proof.
  revert shift acc. induction rest as [|b rest IH]; intros shift acc; simpl; case_match; try done.
  case_match; [intros; simplify_eq; lia|]. intros Hr. apply IH in Hr. lia.
Qed.

Lemma length_drop_z n rest : (length (drop_z n rest) <= length rest)%nat.
Proof. unfold drop_z. case_decide; simpl; [lia|]. rewrite length_drop. lia. Qed.

(** Any fuel from the length of the input on gives the same result. *)
Lemma skip_loop_fuel n1 n2 l depth rest :
  (length rest <= n1)%nat -> (length rest <= n2)%nat ->
  skip_loop n1 l depth rest = skip_loop n2 l depth rest.
Proof.
  revert n2 depth rest. induction n1 as [|n1 IH]; intros [|n2] depth rest H1 H2;
    try (destruct rest; simpl in *; [done | lia]).
  destruct rest as [|b rest]; [done|].
  assert (forall rest', (length rest' < length (b :: rest))%nat -> forall d,
    skip_loop n1 l d rest' = skip_loop n2 l d rest') as IH' by (intros; apply IH; lia).
  cbn [skip_loop]. destruct (varint u64 (b :: rest)) as [[wire rest1]|e] eqn:Ew; [|done].
  apply varint_loop_shrinks in Ew.
  pose proof (length_drop_z 8 rest1). pose proof (length_drop_z 4 rest1).
  repeat case_match; try done; try (apply IH'; lia);
    match goal with E : varint _ _ = Ok (?z, ?r) |- _ =>
      apply varint_loop_shrinks in E; pose proof (length_drop_z z r); try apply IH'; try lia end.
Qed.

(** ** Tags and unknown fields *)

Lemma varint_tag tag rest : 0 <= tag < 128 -> varint u64 (z2b tag :: rest) = Ok (tag, rest).
Proof.
  intros Ht. pose proof (varint_uvarint u64 tag rest eq_refl) as P.
  rewrite u64_id in P by (unfold in_u64; lia). rewrite <- P by (unfold in_u64; lia).
  f_equal. unfold uvarint. simpl. by rewrite (proj2 (Z.ltb_lt tag 128)) by lia.
Qed.

(** A field with a number the decoder does not know: a varint or a chunk. *)
Inductive unknown_payload : Type :=
| UVarint (v : Z)
| UBytes (b : bytes).

Definition unknown_wiretype (u : unknown_payload) : Z :=
  match u with UVarint _ => 0 | UBytes _ => 2 end.
Definition unknown_body (u : unknown_payload) : bytes :=
  match u with UVarint v => uvarint v | UBytes b => uvarint (len b) ++ b end.
Definition unknown_field (num : Z) (u : unknown_payload) : bytes :=
  uvarint (num * 8 + unknown_wiretype u) ++ unknown_body u.
Definition unknown_ok (u : unknown_payload) : Prop :=
  match u with UVarint v => in_u64 v | UBytes b => in_i64 (len b) end.

Lemma wire_split num w : 0 <= w < 8 -> Z.land (num * 8 + w) 7 = w /\ Z.shiftr (num * 8 + w) 3 = num.
Proof.
  intros Hw. change 7 with (Z.ones 3). rewrite Z.land_ones, Z.shiftr_div_pow2 by lia.
  change (2 ^ 3) with 8. split; Z.div_mod_to_equations; lia.
Qed.

Lemma unknown_wiretype_range u : 0 <= unknown_wiretype u < 8.
Proof. destruct u; simpl; lia. Qed.

Lemma skip_loop_unknown n l num u rest :
  0 <= num < 2 ^ 29 -> unknown_ok u -> l < 2 ^ 63 -> len (unknown_field num u ++ rest) <= l ->
  skip_loop (S n) l 0 (unknown_field num u ++ rest) = Ok (l - len rest).
Proof.
  intros Hnum Hu Hl Hle. pose proof (unknown_wiretype_range u) as Hw.
  destruct (wire_split num _ Hw) as [Ew _].
  assert (in_u64 (num * 8 + unknown_wiretype u)) as H64 by (unfold in_u64; lia).
  cbn [skip_loop]. destruct (unknown_field num u ++ rest) eqn:Ef.
  { apply (f_equal length) in Ef. unfold unknown_field in Ef. rewrite !length_app in Ef.
    pose proof (sov_pos _ H64) as Hp. rewrite <- length_uvarint in Hp by done. simpl in Ef. lia. }
  rewrite <- Ef in *. clear Ef. unfold unknown_field in *. rewrite <- !app_assoc in *.
  rewrite varint_u64 by done. cbv zeta. rewrite Ew.
  rewrite !length_app in Hle. destruct u as [v|ch]; simpl in *.
  - rewrite varint_u64 by done. by rewrite (proj2 (Z.ltb_ge _ 0)) by lia.
  - rewrite <- app_assoc. unfold in_i64 in Hu. rewrite length_app in Hle.
    rewrite varint_i64 by (unfold in_u64; lia).
    rewrite (i64_id (len ch)) by (unfold in_i64; lia). rewrite (proj2 (Z.ltb_ge (len ch) 0)) by lia.
    rewrite length_app. replace (l - Z.of_nat (length ch + length rest) + len ch) with (l - len rest) by lia.
    rewrite i64_id by (unfold in_i64; lia). by rewrite (proj2 (Z.ltb_ge _ 0)) by lia.
Qed.

(** An unknown field is skipped exactly. *)
Lemma skip_field_unknown l num u rest :
  0 <= num < 2 ^ 29 -> unknown_ok u -> l < 2 ^ 63 -> len (unknown_field num u ++ rest) <= l ->
  skip_field l (unknown_field num u ++ rest) = Ok rest.
Proof.
  intros Hnum Hu Hl Hle. unfold skip_field, skip.
  destruct (length (unknown_field num u ++ rest)) as [|n] eqn:En.
  { assert (in_u64 (num * 8 + unknown_wiretype u)) as H64
      by (pose proof (unknown_wiretype_range u); unfold in_u64; lia).
    pose proof (sov_pos _ H64) as Hp. rewrite <- length_uvarint in Hp by done.
    unfold unknown_field in En. rewrite !length_app in En. lia. }
  rewrite skip_loop_unknown by (try done; lia). rewrite length_app in En.
  replace (l - Z.of_nat (S n) + (Z.of_nat (S n) - len rest)) with (l - len rest) by lia.
  rewrite (proj2 (Z.ltb_ge (Z.of_nat (S n) - len rest) 0)) by lia.
  rewrite i64_id by (unfold in_i64; lia).
  rewrite (proj2 (Z.ltb_ge (l - len rest) 0)), Z.gtb_ltb, (proj2 (Z.ltb_ge l (l - len rest))) by lia.
  simpl. f_equal. apply drop_app_length'. lia.
Qed.

(** ** Progress of the readers *)

Lemma varint_shrinks trunc rest v rest' :
  varint trunc rest = Ok (v, rest') -> (length rest' < length rest)%nat.
Proof. apply varint_loop_shrinks. Qed.

Lemma varint_loop_i64_range shift acc rest v rest' :
  in_i64 acc -> varint_loop i64 shift acc rest = Ok (v, rest') -> in_i64 v.
Proof.
  revert shift acc. induction rest as [|b rest IH]; intros shift acc Ha; simpl; case_match; try done.
  assert (in_i64 (Z.lor acc (i64 (Z.shiftl (Z.land (b2z b) 127) shift)))) as Hl.
  { rewrite <- (i64_id acc Ha), i64_lor. apply i64_range. }
  case_match; [intros; by simplify_eq | by apply IH].
Qed.

Lemma varint_i64_range rest v rest' : varint i64 rest = Ok (v, rest') -> in_i64 v.
Proof. by apply varint_loop_i64_range. Qed.

Lemma read_bytes_shrinks l rest b rest' :
  read_bytes l rest = Ok (b, rest') -> (length rest' < length rest)%nat.
Proof.
  unfold read_bytes, read_chunk. destruct (varint i64 rest) as [[n r]|] eqn:E; [|done].
  apply varint_shrinks in E. repeat case_match; try done. intros [= <- <-].
  rewrite length_drop. lia.
Qed.

(** A sum of two positions that does not come out negative has not wrapped. *)
Lemma i64_sum_nonneg x y :
  0 <= x < 2 ^ 63 -> 0 <= y < 2 ^ 63 -> 0 <= i64 (x + y) -> i64 (x + y) = x + y.
Proof.
  intros Hx Hy. destruct (Z.lt_ge_cases (x + y) (2 ^ 63)).
  - intros _. apply i64_id. unfold in_i64. lia.
  - unfold i64. intros Hn. exfalso.
    assert ((x + y + 2 ^ 63) mod 2 ^ 64 = x + y + 2 ^ 63 - 2 ^ 64); [|lia].
    symmetry. apply Z.mod_unique with 1; lia.
Qed.

Lemma skip_loop_pos n l d rest k :
  skip_loop n l d rest = Ok k -> len rest <= l < 2 ^ 63 -> l - len rest < k.
Proof.
  revert d rest. induction n as [|n IH]; intros d rest; [done|]. destruct rest as [|b rest]; [done|].
  cbn [skip_loop]. destruct (varint u64 (b :: rest)) as [[wire rest1]|e] eqn:Ew; [|done].
  apply varint_shrinks in Ew.
  pose proof (length_drop_z 8 rest1) as L8. pose proof (length_drop_z 4 rest1) as L4.
  intros Hs Hl. repeat case_match; simplify_eq; try lia;
    try match goal with E : varint i64 _ = Ok (?z, ?r) |- _ =>
      pose proof (varint_i64_range _ _ _ E); pose proof (length_drop_z z r) end;
    repeat match goal with E : varint _ _ = Ok (?z, ?r) |- _ => apply varint_shrinks in E end;
    try (apply IH in Hs; lia); try lia.
  unfold in_i64 in *. rewrite i64_sum_nonneg; lia.
Qed.

Lemma skip_field_shrinks l field rest :
  skip_field l field = Ok rest -> len field <= l < 2 ^ 63 -> field ≠ [] -> (length rest < length field)%nat.
Proof.
  intros Hs Hl Hne. unfold skip_field in Hs. destruct (skip field) as [k|] eqn:Ek; [|done].
  unfold skip in Ek. apply skip_loop_pos in Ek; [|lia]. repeat case_match; try done. simplify_eq.
  rewrite length_drop. destruct field; [done|]. simpl length in *. lia.
Qed.
