(* ===== verification/TopicMessage.v ===== *)
(** * TopicMessage: the wire format of a topic message ([data/topicMessage.pb.go])

    [Marshal] sizes a buffer and fills it backwards; [Unmarshal] reads fields in
    any order, the last one of a number winning, and skips unknown fields.  A nil
    byte field and an empty one are the same value (the encoding and every
    reader of the struct treat them alike). *)

From S2P Require Import Prelude Errors Wire.
From Stdlib Require Import ZArith Lia String Strings.Byte.
From stdpp Require Import prelude list strings pretty.

Local Open Scope Z_scope.

Record TopicMessage : Type := mk {
  Version : Z;
  Payload : bytes;
  Timestamp : Z;
  Pk : bytes;
  SignatureOnPid : bytes
}.

#[export] Instance TopicMessage_eq_dec : EqDecision TopicMessage.
Proof. solve_decision. Defined.

(** [TopicMessage{}], also the effect of [Reset]. *)
Definition Reset : TopicMessage := mk 0 [] 0 [] [].

Definition GetVersion (m : option TopicMessage) : Z := match m with Some m => Version m | None => 0 end.
Definition GetPayload (m : option TopicMessage) : bytes := match m with Some m => Payload m | None => [] end.
Definition GetTimestamp (m : option TopicMessage) : Z := match m with Some m => Timestamp m | None => 0 end.
Definition GetPk (m : option TopicMessage) : bytes := match m with Some m => Pk m | None => [] end.
Definition GetSignatureOnPid (m : option TopicMessage) : bytes :=
  match m with Some m => SignatureOnPid m | None => [] end.

Definition set_Version v m := mk v (Payload m) (Timestamp m) (Pk m) (SignatureOnPid m).
Definition set_Payload v m := mk (Version m) v (Timestamp m) (Pk m) (SignatureOnPid m).
Definition set_Timestamp v m := mk (Version m) (Payload m) v (Pk m) (SignatureOnPid m).
Definition set_Pk v m := mk (Version m) (Payload m) (Timestamp m) v (SignatureOnPid m).
Definition set_SignatureOnPid v m := mk (Version m) (Payload m) (Timestamp m) (Pk m) v.

(** [Equal] on two possibly nil messages. *)
Definition Equal (this that : option TopicMessage) : bool :=
  match this, that with
  | None, None => true
  | Some a, Some b =>
      if negb (Version a =? Version b) then false
      else if negb (bool_decide (Payload a = Payload b)) then false
      else if negb (Timestamp a =? Timestamp b) then false
      else if negb (bool_decide (Pk a = Pk b)) then false
      else bool_decide (SignatureOnPid a = SignatureOnPid b)
  | _, _ => false
  end.

(** ** Size and Marshal *)

Definition Size (m : TopicMessage) : Z :=
  let n := 0 in
  let n := if negb (Version m =? 0) then n + (1 + sov (u64 (Version m))) else n in
  let n := n + size_bytes (Payload m) in
  let n := if negb (Timestamp m =? 0) then n + (1 + sov (u64 (Timestamp m))) else n in
  let n := n + size_bytes (Pk m) in
  n + size_bytes (SignatureOnPid m).

Definition MarshalToSizedBuffer (m : TopicMessage) (dAtA : bytes) : outcome (bytes * Z) :=
  let i := len dAtA in
  let! (dAtA, i) := if len (SignatureOnPid m) >? 0
                    then put_bytes dAtA i 42 (SignatureOnPid m) else Ret (dAtA, i) in
  let! (dAtA, i) := if len (Pk m) >? 0 then put_bytes dAtA i 34 (Pk m) else Ret (dAtA, i) in
  let! (dAtA, i) := if negb (Timestamp m =? 0)
                    then put_varint dAtA i 24 (u64 (Timestamp m)) else Ret (dAtA, i) in
  let! (dAtA, i) := if len (Payload m) >? 0 then put_bytes dAtA i 18 (Payload m) else Ret (dAtA, i) in
  let! (dAtA, i) := if negb (Version m =? 0)
                    then put_varint dAtA i 8 (u64 (Version m)) else Ret (dAtA, i) in
  Ret (dAtA, len dAtA - i).

Definition Marshal (m : TopicMessage) : outcome bytes :=
  let size := Size m in
  let dAtA := zeros size in
  let! (dAtA, n) := MarshalToSizedBuffer m dAtA in
  Ret (take (Z.to_nat n) dAtA).

Definition MarshalTo (m : TopicMessage) (dAtA : bytes) : outcome (bytes * Z) :=
  marshal_to (MarshalToSizedBuffer m) (Size m) dAtA.
Definition XXX_Marshal (m : TopicMessage) (b : bytes) : outcome bytes := xxx_marshal (MarshalToSizedBuffer m) b.
Definition XXX_Size (m : TopicMessage) : Z := Size m.

(** ** Unmarshal *)

(** The loop over the fields, [l] being the length of the whole input; every
    round reads at least one byte. *)
Fixpoint unmarshal_loop (fuel : nat) (l : Z) (m : TopicMessage) (field : bytes) : result TopicMessage :=
  match field, fuel with
  | [], _ => Ok m
  | _, O => Err io_ErrUnexpectedEOF
  | _, S n =>
      let? (wire, rest) := varint u64 field in
      let fieldNum := i32 (Z.shiftr wire 3) in
      let wireType := Z.land wire 7 in
      if wireType =? 4 then Err (ErrText "proto: TopicMessage: wiretype end group for non-group")
      else if fieldNum <=? 0 then
        Err (ErrText ("proto: TopicMessage: illegal tag " +:+ pretty fieldNum
                        +:+ " (wire type " +:+ pretty wire +:+ ")"))
      else if fieldNum =? 1 then
        if negb (wireType =? 0) then Err (wrong_wireType wireType "Version")
        else let? (v, rest) := varint u32 rest in unmarshal_loop n l (set_Version v m) rest
      else if fieldNum =? 2 then
        if negb (wireType =? 2) then Err (wrong_wireType wireType "Payload")
        else let? (b, rest) := read_bytes l rest in unmarshal_loop n l (set_Payload b m) rest
      else if fieldNum =? 3 then
        if negb (wireType =? 0) then Err (wrong_wireType wireType "Timestamp")
        else let? (v, rest) := varint i64 rest in unmarshal_loop n l (set_Timestamp v m) rest
      else if fieldNum =? 4 then
        if negb (wireType =? 2) then Err (wrong_wireType wireType "Pk")
        else let? (b, rest) := read_bytes l rest in unmarshal_loop n l (set_Pk b m) rest
      else if fieldNum =? 5 then
        if negb (wireType =? 2) then Err (wrong_wireType wireType "SignatureOnPid")
        else let? (b, rest) := read_bytes l rest in unmarshal_loop n l (set_SignatureOnPid b m) rest
      else
        let? rest := skip_field l field in unmarshal_loop n l m rest
  end.

Definition Unmarshal (m : TopicMessage) (dAtA : bytes) : result TopicMessage :=
  unmarshal_loop (length dAtA) (len dAtA) m dAtA.
Definition XXX_Unmarshal (m : TopicMessage) (b : bytes) : result TopicMessage := Unmarshal m b.

(** ** Specification of the encoding *)

Definition encode (m : TopicMessage) : bytes :=
  varint_field 8 (u64 (Version m)) ++ bytes_field 18 (Payload m) ++
  varint_field 24 (u64 (Timestamp m)) ++ bytes_field 34 (Pk m) ++
  bytes_field 42 (SignatureOnPid m).

(** A message of the Go type: fields in the range of their types, and a total
    size that an [int] can hold. *)
Record wf (m : TopicMessage) : Prop := {
  wf_Version : in_u32 (Version m);
  wf_Timestamp : in_i64 (Timestamp m);
  wf_size : len (encode m) < 2 ^ 63
}.

(** ** Marshal writes the encoding *)

Lemma u64_eq_0 v : in_i64 v \/ in_u32 v -> u64 v = 0 -> v = 0.
Proof.
  unfold in_i64, in_u32, u64. intros Hv E. apply Z.mod_divide in E as [q ->]; [|lia]. lia.
Qed.

Lemma put_varint_field tag v :
  in_i64 v \/ in_u32 v ->
  put_spec (fun dAtA i => if negb (v =? 0) then put_varint dAtA i tag (u64 v) else Ret (dAtA, i)) (varint_field tag (u64 v)).
Proof.
  intros Hv. unfold varint_field. apply put_field_spec; destruct (Z.eqb_spec v 0) as [->|Hne]; try done; intros _.
  rewrite decide_False by (intros E; by apply Hne, u64_eq_0). apply put_varint_spec, u64_range.
Qed.

Lemma size_varint_field tag v :
  in_i64 v \/ in_u32 v ->
  (if negb (v =? 0) then 1 + sov (u64 v) else 0) = len (varint_field tag (u64 v)).
Proof.
  intros Hv. unfold varint_field. destruct (Z.eqb_spec v 0) as [->|Hne]; [done|]. simpl negb.
  rewrite decide_False by (intros E; by apply Hne, u64_eq_0). cbn [length].
  rewrite <- length_uvarint by apply u64_range. lia.
Qed.

Lemma encode_chunks m :
  len (encode m) < 2 ^ 63 ->
  len (Payload m) < 2 ^ 63 /\ len (Pk m) < 2 ^ 63 /\ len (SignatureOnPid m) < 2 ^ 63.
Proof.
  unfold encode. rewrite !length_app. intros.
  pose proof (len_bytes_field 18 (Payload m)). pose proof (len_bytes_field 34 (Pk m)).
  pose proof (len_bytes_field 42 (SignatureOnPid m)). lia.
Qed.

Lemma Size_encode m : wf m -> Size m = len (encode m).
Proof.
  intros [Hv Ht Hs]. destruct (encode_chunks m Hs) as (Hp & Hk & Hsig).
  unfold Size, encode. rewrite !length_app, !Nat2Z.inj_add.
  rewrite <- (size_bytes_field 18), <- (size_bytes_field 34), <- (size_bytes_field 42) by done.
  rewrite <- (size_varint_field 8), <- (size_varint_field 24) by auto.
  destruct (negb (Version m =? 0)), (negb (Timestamp m =? 0)); lia.
Qed.

(** The body of [MarshalToSizedBuffer] without its last line. *)
Lemma MarshalToSizedBuffer_spec m :
  wf m -> exists putf, put_spec putf (encode m) /\
    forall dAtA, MarshalToSizedBuffer m dAtA = (let! (dAtA, i) := putf dAtA (len dAtA) in Ret (dAtA, len dAtA - i)).
Proof.
  intros [Hv Ht Hs]. destruct (encode_chunks m Hs) as (Hp & Hk & Hsig).
  eexists. split.
  - unfold encode. rewrite !app_assoc. repeat apply put_spec_then;
      [by apply put_varint_field; right | by apply put_bytes_field | by apply put_varint_field; left
      | by apply put_bytes_field | by apply put_bytes_field].
  - intros dAtA. unfold MarshalToSizedBuffer. cbn beta.
    repeat (match goal with |- context [if ?c then _ else Ret _] => destruct c end;
            [match goal with |- (match ?x with _ => _ end) = _ => destruct x as [[? ?]|] end; [|done]|]); done.
Qed.

(** A buffer that is long enough gets the encoding at its end, a shorter one is
    too short. *)
Lemma MarshalToSizedBuffer_buffer m dAtA :
  wf m ->
  MarshalToSizedBuffer m dAtA =
    if len dAtA <? Size m then Panic
    else Ret (take (length dAtA - length (encode m)) dAtA ++ encode m, Size m).
Proof.
  intros W. destruct (MarshalToSizedBuffer_spec m W) as (putf & Hw & ->). rewrite Size_encode by done.
  by apply put_spec_buffer.
Qed.

Lemma MarshalToSizedBuffer_encode m :
  wf m -> MarshalToSizedBuffer m (zeros (len (encode m))) = Ret (encode m, len (encode m)).
Proof.
  intros W. rewrite MarshalToSizedBuffer_buffer, Size_encode, len_zeros by (done || lia). rewrite Z.ltb_irrefl.
  unfold zeros. rewrite length_replicate, Nat2Z.id, Nat.sub_diag. done.
Qed.

(** ** Unmarshal reads the encoding back *)

Ltac read_shrinks :=
  repeat match goal with
  | E : varint _ _ = Ok _ |- _ => apply varint_shrinks in E
  | E : read_bytes _ _ = Ok _ |- _ => apply read_bytes_shrinks in E
  end.

(** Any fuel from the length of the input on gives the same result. *)
Lemma unmarshal_loop_fuel n1 n2 l m field :
  (length field <= n1)%nat -> (length field <= n2)%nat -> len field <= l < 2 ^ 63 ->
  unmarshal_loop n1 l m field = unmarshal_loop n2 l m field.
Proof.
  revert n2 m field. induction n1 as [|n1 IH]; intros [|n2] m field H1 H2 Hl;
    try (destruct field; simpl in *; [done | lia]).
  destruct field as [|b field]; [done|]. cbn [unmarshal_loop].
  repeat case_match; simplify_eq; try done; simpl length in *;
    match goal with
    | E : skip_field _ _ = Ok _ |- _ => apply skip_field_shrinks in E; [|simpl; lia|done]; simpl in E
    | _ => idtac
    end; read_shrinks; simpl length in *; apply IH; lia.
Qed.

(** The loop with enough fuel. *)
Definition fields (l : Z) (m : TopicMessage) (field : bytes) : result TopicMessage :=
  unmarshal_loop (length field) l m field.

Lemma fields_unfold l m tag rest num w :
  0 <= w < 8 -> 0 < num < 16 -> tag = num * 8 + w -> len (z2b tag :: rest) <= l < 2 ^ 63 ->
  fields l m (z2b tag :: rest) =
    unmarshal_loop (length (z2b tag :: rest)) l m (z2b tag :: rest) /\
  varint u64 (z2b tag :: rest) = Ok (tag, rest) /\
  i32 (Z.shiftr tag 3) = num /\ Z.land tag 7 = w.
Proof.
  intros Hw Hnum -> Hl. split; [done|]. split; [apply varint_tag; lia|].
  destruct (wire_split num w Hw) as [-> ->]. split; [|done]. apply i32_id. unfold in_i32. lia.
Qed.

Ltac open_field num w :=
  match goal with Hl : _ <= ?l |- fields ?l ?m (z2b ?tag :: ?r) = _ =>
    destruct (fields_unfold l m tag r num w ltac:(lia) ltac:(lia) eq_refl ltac:(lia))
      as (-> & Ev & En & Ew); cbn [unmarshal_loop length]; rewrite Ev, En, Ew;
      cbn [Z.eqb Z.leb Z.compare Pos.eqb Pos.compare Pos.compare_cont negb] end.

Lemma fields_Version l m v rest :
  in_u64 v -> len (z2b 8 :: uvarint v ++ rest) <= l -> l < 2 ^ 63 ->
  fields l m (z2b 8 :: uvarint v ++ rest) = fields l (set_Version (u32 v) m) rest.
Proof.
  intros Hv Hl Hl2. open_field 1 0. rewrite varint_u32 by done.
  unfold fields. simpl in Hl. rewrite length_app in *. apply unmarshal_loop_fuel; lia.
Qed.

Lemma fields_Timestamp l m v rest :
  in_u64 v -> len (z2b 24 :: uvarint v ++ rest) <= l -> l < 2 ^ 63 ->
  fields l m (z2b 24 :: uvarint v ++ rest) = fields l (set_Timestamp (i64 v) m) rest.
Proof.
  intros Hv Hl Hl2. open_field 3 0. rewrite varint_i64 by done.
  unfold fields. simpl in Hl. rewrite length_app in *. apply unmarshal_loop_fuel; lia.
Qed.

Ltac close_chunk :=
  match goal with Hl : len (_ :: uvarint (len ?b) ++ ?b ++ ?r) <= ?l |- _ =>
    rewrite read_bytes_field by (simpl in Hl; rewrite !length_app in *; lia);
    unfold fields; simpl in Hl; rewrite !length_app in *; apply unmarshal_loop_fuel; lia end.

Lemma fields_Payload l m b rest :
  len (z2b 18 :: uvarint (len b) ++ b ++ rest) <= l -> l < 2 ^ 63 ->
  fields l m (z2b 18 :: uvarint (len b) ++ b ++ rest) = fields l (set_Payload b m) rest.
Proof. intros Hl Hl2. open_field 2 2. close_chunk. Qed.

Lemma fields_Pk l m b rest :
  len (z2b 34 :: uvarint (len b) ++ b ++ rest) <= l -> l < 2 ^ 63 ->
  fields l m (z2b 34 :: uvarint (len b) ++ b ++ rest) = fields l (set_Pk b m) rest.
Proof. intros Hl Hl2. open_field 4 2. close_chunk. Qed.

Lemma fields_SignatureOnPid l m b rest :
  len (z2b 42 :: uvarint (len b) ++ b ++ rest) <= l -> l < 2 ^ 63 ->
  fields l m (z2b 42 :: uvarint (len b) ++ b ++ rest) = fields l (set_SignatureOnPid b m) rest.
Proof. intros Hl Hl2. open_field 5 2. close_chunk. Qed.

Lemma fields_unknown l m num u rest :
  6 <= num < 2 ^ 29 -> unknown_ok u -> l < 2 ^ 63 -> len (unknown_field num u ++ rest) <= l ->
  fields l m (unknown_field num u ++ rest) = fields l m rest.
Proof.
  intros Hnum Hu Hl Hle. pose proof (unknown_wiretype_range u) as Hw.
  assert (in_u64 (num * 8 + unknown_wiretype u)) as H64 by (unfold in_u64; lia).
  pose proof (skip_field_unknown l num u rest ltac:(lia) Hu Hl Hle) as Hskip.
  assert (varint u64 (unknown_field num u ++ rest) =
          Ok (num * 8 + unknown_wiretype u, unknown_body u ++ rest)) as Ev.
  { unfold unknown_field. rewrite <- app_assoc. by apply varint_u64. }
  destruct (wire_split num _ Hw) as [Ew En].
  unfold fields at 1. destruct (unknown_field num u ++ rest) as [|b0 r0] eqn:Ef; [done|].
  cbn [unmarshal_loop length]. rewrite Ev, En, Ew, i32_id by (unfold in_i32; lia).
  assert (unknown_wiretype u ≠ 4) by (destruct u; done).
  rewrite (proj2 (Z.eqb_neq _ 4)), (proj2 (Z.leb_gt num 0)) by lia.
  rewrite !(proj2 (Z.eqb_neq num _)) by lia. rewrite Hskip.
  apply skip_field_shrinks in Hskip; [|lia|done]. simpl in Hskip, Hle.
  apply unmarshal_loop_fuel; lia.
Qed.

(** What reading a message [m'] into [m] gives: the fields [m'] sets win. *)
Definition merge (m m' : TopicMessage) : TopicMessage :=
  mk (if decide (Version m' = 0) then Version m else Version m')
     (if decide (Payload m' = []) then Payload m else Payload m')
     (if decide (Timestamp m' = 0) then Timestamp m else Timestamp m')
     (if decide (Pk m' = []) then Pk m else Pk m')
     (if decide (SignatureOnPid m' = []) then SignatureOnPid m else SignatureOnPid m').

Lemma merge_Reset m : merge Reset m = m.
Proof. destruct m. unfold merge. simpl. repeat case_decide; congruence. Qed.

Lemma fields_encode l m m' rest :
  wf m' -> len (encode m' ++ rest) <= l -> l < 2 ^ 63 ->
  fields l m (encode m' ++ rest) = fields l (merge m m') rest.
Proof.
  intros [Hv Ht Hs] Hle Hl. unfold encode in *. clear Hs. unfold merge.
  rewrite <- !app_assoc in *. rewrite !length_app in Hle. unfold varint_field in *.
  destruct (decide (Version m' = 0)) as [Ev|Ev].
  1: rewrite Ev in *; change (u64 0) with 0 in *; rewrite decide_True in * by done; cbn [app] in *.
  2: rewrite decide_False in * by (intros E; apply u64_eq_0 in E; auto); cbn [app] in *;
     rewrite fields_Version by (try apply u64_range; simpl; rewrite ?length_app; simpl in Hle; lia);
     rewrite u32_u64, (u32_id (Version m')) by done.
  all: unfold bytes_field in *;
    destruct (decide (Payload m' = [])) as [Ep|Ep]; cbn [app] in *;
    [| rewrite <- app_assoc; rewrite fields_Payload
        by (simpl; rewrite ?length_app; simpl in Hle; rewrite ?length_app in Hle; lia)].
  all: destruct (decide (Timestamp m' = 0)) as [Et|Et];
    [ rewrite Et in *; change (u64 0) with 0 in *; rewrite decide_True in * by done; cbn [app] in *
    | rewrite (decide_False (P := u64 (Timestamp m') = 0)) in *
        by (intros E; apply u64_eq_0 in E; auto); cbn [app] in *;
      rewrite fields_Timestamp
        by (try apply u64_range; simpl; rewrite ?length_app; simpl in Hle; rewrite ?length_app in Hle; lia);
      rewrite i64_u64, (i64_id (Timestamp m')) by done ].
  all: destruct (decide (Pk m' = [])) as [Ek|Ek]; cbn [app] in *;
    [| rewrite <- app_assoc; rewrite fields_Pk
        by (simpl; rewrite ?length_app; simpl in Hle; rewrite ?length_app in Hle; lia)].
  all: destruct (decide (SignatureOnPid m' = [])) as [Es|Es]; cbn [app] in *;
    [| rewrite <- app_assoc; rewrite fields_SignatureOnPid
        by (simpl; rewrite ?length_app; simpl in Hle; rewrite ?length_app in Hle; lia)].
  all: by destruct m.
Qed.

Lemma Marshal_encode m : wf m -> Marshal m = Ret (encode m).
Proof.
  intros W. unfold Marshal. rewrite Size_encode, MarshalToSizedBuffer_encode by done.
  by rewrite Nat2Z.id, firstn_all.
Qed.

Lemma Unmarshal_encode m : wf m -> Unmarshal Reset (encode m) = Ok m.
Proof.
  intros W. pose proof (fields_encode (len (encode m)) Reset m [] W) as P. rewrite app_nil_r, merge_Reset in P.
  unfold Unmarshal. apply P; [done | apply W].
Qed.

(** ** Correctness of the codec *)

(** [C11] Round trip.  Marshalling a message succeeds, fills exactly the [Size]
    bytes that were allocated, and unmarshalling the bytes into a fresh message
    gives the message back. *)
Theorem TopicMessage_roundtrip m :
  wf m -> exists dAtA,
    Marshal m = Ret dAtA /\ len dAtA = Size m /\ Unmarshal Reset dAtA = Ok m.
Proof.
  intros W. exists (encode m).
  split_and!; [by apply Marshal_encode | by rewrite Size_encode | by apply Unmarshal_encode].
Qed.

(** [C37] The buffers.  Whatever a buffer holds: writing at its end succeeds exactly
    when it is at least [Size] bytes long, and leaves the encoding there and the
    bytes before it as they were; [MarshalTo] leaves it in front and the bytes after
    it as they were; [XXX_Marshal] returns the encoding when the capacity is [Size];
    a shorter buffer is a panic. *)
Theorem Marshal_buffers m dAtA :
  wf m ->
  (MarshalToSizedBuffer m dAtA =
     if len dAtA <? Size m then Panic
     else Ret (take (length dAtA - length (encode m)) dAtA ++ encode m, Size m)) /\
  (MarshalTo m dAtA = if len dAtA <? Size m then Panic else Ret (encode m ++ drop (length (encode m)) dAtA, Size m)) /\
  (len dAtA < Size m -> XXX_Marshal m dAtA = Panic) /\
  (len dAtA = Size m -> XXX_Marshal m dAtA = Ret (encode m)).
Proof.
  intros W. pose proof (Size_encode m W) as Es. split; [by apply MarshalToSizedBuffer_buffer|].
  unfold MarshalTo, XXX_Marshal. rewrite Es. apply marshal_buffers. intros d. rewrite <- Es. by apply MarshalToSizedBuffer_buffer.
Qed.

(** Forward compatibility.  Fields with numbers from 6 on, varints or chunks,
    may precede and follow a message: they are skipped and the known fields are
    read into the receiver, the fields present in the input winning. *)
Theorem Unmarshal_unknown_fields m m' num1 u1 num2 u2 :
  wf m' -> 6 <= num1 < 2 ^ 29 -> 6 <= num2 < 2 ^ 29 -> unknown_ok u1 -> unknown_ok u2 ->
  len (unknown_field num1 u1 ++ encode m' ++ unknown_field num2 u2) < 2 ^ 63 ->
  Unmarshal m (unknown_field num1 u1 ++ encode m' ++ unknown_field num2 u2) = Ok (merge m m').
Proof.
  intros W H1 H2 U1 U2 Hl. unfold Unmarshal.
  change (unmarshal_loop _ ?l m ?f) with (fields l m f).
  rewrite fields_unknown by (done || lia). rewrite !length_app in Hl.
  rewrite fields_encode by (rewrite ?length_app; done || lia).
  rewrite <- (app_nil_r (unknown_field num2 u2)) at 2.
  rewrite fields_unknown by (rewrite ?app_nil_r, ?length_app; done || lia). done.
Qed.

(** Version width.  A [Version] field holding any 64-bit varint is read
    modulo 2^32: the wire values 1 and 2^32 + 1 give the same message. *)
Theorem Unmarshal_Version_wraps m v :
  in_u64 v -> Unmarshal m (z2b 8 :: uvarint v) = Ok (set_Version (v mod 2 ^ 32) m).
Proof.
  intros Hv. unfold Unmarshal. change (unmarshal_loop _ ?l m ?f) with (fields l m f).
  rewrite <- (app_nil_r (uvarint v)).
  assert (len (uvarint v) <= 10).
  { rewrite length_uvarint by done. unfold sov, Len64. case_match; [Z.div_mod_to_equations; lia|].
    unfold in_u64 in Hv. rewrite Z.log2_lor by lia.
    assert (Z.log2 v < 64).
    { destruct (Z.eq_dec v 0) as [->|]; [done|]. apply Z.log2_lt_pow2; lia. }
    change (Z.log2 1) with 0. Z.div_mod_to_equations. lia. }
  rewrite fields_Version; [done | done | done |]. simpl. rewrite app_nil_r. lia.
Qed.

(** Equality.  [Equal] on two non-nil messages decides equality, and nil
    equals only nil. *)
Theorem Equal_spec this that : Equal this that = true <-> this = that.
Proof.
  destruct this as [a|], that as [b|]; simpl; try done.
  destruct a as [v p t k s], b as [v' p' t' k' s']; simpl.
  destruct (Z.eqb_spec v v'), (Z.eqb_spec t t'); simpl;
    repeat case_bool_decide; simpl; naive_solver.
Qed.

Module Witness.

Definition hello : TopicMessage := mk 1 [x68; x69] 1700000000 [] [].

Lemma hello_wf : wf hello.
Proof. split; [unfold in_u32 | unfold in_i64 |]; vm_compute; intuition congruence. Qed.

Lemma TopicMessage_roundtrip_witness : exists dAtA,
  Marshal hello = Ret dAtA /\ len dAtA = 12 /\ Unmarshal Reset dAtA = Ok hello.
Proof. exact (TopicMessage_roundtrip hello hello_wf). Defined.

Lemma Marshal_buffers_witness :
  XXX_Marshal hello (replicate 12 xff) = Ret (encode hello) /\ XXX_Marshal hello (replicate 11 xff) = Panic.
Proof.
  split.
  - apply (Marshal_buffers hello (replicate 12 xff) hello_wf). reflexivity.
  - apply (Marshal_buffers hello (replicate 11 xff) hello_wf). reflexivity.
Defined.

Lemma Unmarshal_unknown_fields_witness :
  Unmarshal Reset (unknown_field 6 (UVarint 300) ++ encode hello ++ unknown_field 7 (UBytes [x00])) =
    Ok (merge Reset hello).
Proof.
  apply (Unmarshal_unknown_fields Reset hello 6 (UVarint 300) 7 (UBytes [x00]) hello_wf);
    vm_compute; intuition congruence.
Defined.

Lemma Unmarshal_Version_wraps_witness :
  Unmarshal Reset (z2b 8 :: uvarint 4294967297) = Ok (set_Version 1 Reset).
Proof. exact (Unmarshal_Version_wraps Reset 4294967297 ltac:(unfold in_u64; lia)). Defined.

End Witness.
