(* ===== verification/PeerShard.v ===== *)
(** * PeerShard: the wire format of a peer shard message ([message/peerShardMessage.pb.go])

    A message with one string field.  The generated helpers are the same text as
    those of [data/topicMessage.pb.go], up to the names; they are the primitives
    of [Wire].  The length of a string is read as a [uint64] and then converted
    to [int], where a byte field reads an [int] directly. *)

From S2P Require Import Prelude Errors Wire.
From Stdlib Require Import ZArith Lia String Strings.Byte.
From stdpp Require Import prelude list strings pretty.

Local Open Scope Z_scope.

Record PeerShard : Type := mk { ShardId : string }.

#[export] Instance PeerShard_eq_dec : EqDecision PeerShard.
Proof. solve_decision. Defined.

Definition Reset : PeerShard := mk "".

(** The getter tolerates a nil receiver. *)
Definition GetShardId (m : option PeerShard) : string :=
  match m with Some m => ShardId m | None => "" end.

Definition Equal (this that : option PeerShard) : bool :=
  match that with
  | None => match this with None => true | Some _ => false end
  | Some that1 =>
      match this with
      | None => false
      | Some this => if decide (ShardId this ≠ ShardId that1) then false else true
      end
  end.

Definition sovPeerShardMessage (x : Z) : Z := sov x.
Definition encodeVarintPeerShardMessage (dAtA : bytes) (offset v : Z) : outcome (bytes * Z) :=
  encodeVarint dAtA offset v.
Definition skipPeerShardMessage (dAtA : bytes) : result Z := skip dAtA.

(** [len(m.ShardId)]. *)
Definition strlen (s : string) : Z := len (bytes_of_string s).

Definition Size (m : option PeerShard) : Z :=
  match m with
  | None => 0
  | Some m =>
      let l := strlen (ShardId m) in
      if l >? 0 then 0 + (1 + l + sovPeerShardMessage (u64 l)) else 0
  end.

Definition MarshalToSizedBuffer (m : PeerShard) (dAtA : bytes) : outcome (bytes * Z) :=
  let i := len dAtA in
  let! (dAtA, i) :=
    if strlen (ShardId m) >? 0 then
      let i := i - strlen (ShardId m) in
      let! dAtA := copy_at dAtA i (bytes_of_string (ShardId m)) in
      let! (dAtA, i) := encodeVarintPeerShardMessage dAtA i (u64 (strlen (ShardId m))) in
      let i := i - 1 in
      let! dAtA := put dAtA i (z2b 10) in
      Ret (dAtA, i)
    else Ret (dAtA, i) in
  Ret (dAtA, len dAtA - i).

Definition Marshal (m : PeerShard) : outcome bytes :=
  let size := Size (Some m) in
  let dAtA := zeros size in
  let! (dAtA, n) := MarshalToSizedBuffer m dAtA in
  Ret (take (Z.to_nat n) dAtA).

Definition MarshalTo (m : PeerShard) (dAtA : bytes) : outcome (bytes * Z) :=
  marshal_to (MarshalToSizedBuffer m) (Size (Some m)) dAtA.
Definition XXX_Marshal (m : PeerShard) (b : bytes) : outcome bytes := xxx_marshal (MarshalToSizedBuffer m) b.
Definition XXX_Size (m : option PeerShard) : Z := Size m.

(** The read of a string field: length as [uint64], then [int(stringLen)]. *)
Definition read_string (l : Z) (rest : bytes) : result (string * bytes) :=
  let? (stringLen, rest) := varint u64 rest in
  let intStringLen := i64 stringLen in
  let? (b, rest) := read_chunk l intStringLen rest in
  Ok (string_of_bytes b, rest).

Fixpoint unmarshal_loop (fuel : nat) (l : Z) (m : PeerShard) (field : bytes) : result PeerShard :=
  match field, fuel with
  | [], _ => Ok m
  | _, O => Err io_ErrUnexpectedEOF
  | _, S n =>
      let? (wire, rest) := varint u64 field in
      let fieldNum := i32 (Z.shiftr wire 3) in
      let wireType := Z.land wire 7 in
      if wireType =? 4 then Err (ErrText "proto: PeerShard: wiretype end group for non-group")
      else if fieldNum <=? 0 then
        Err (ErrText ("proto: PeerShard: illegal tag " +:+ pretty fieldNum
                        +:+ " (wire type " +:+ pretty wire +:+ ")"))
      else if fieldNum =? 1 then
        if negb (wireType =? 2) then Err (wrong_wireType wireType "ShardId")
        else let? (s, rest) := read_string l rest in unmarshal_loop n l (mk s) rest
      else
        let? rest := skip_field l field in unmarshal_loop n l m rest
  end.

Definition Unmarshal (m : PeerShard) (dAtA : bytes) : result PeerShard :=
  unmarshal_loop (length dAtA) (len dAtA) m dAtA.
Definition XXX_Unmarshal (m : PeerShard) (b : bytes) : result PeerShard := Unmarshal m b.

(** ** Correctness *)

Definition encode (m : PeerShard) : bytes := bytes_field 10 (bytes_of_string (ShardId m)).

Lemma read_string_field l s rest :
  l < 2 ^ 63 -> len (uvarint (strlen s) ++ bytes_of_string s ++ rest) <= l ->
  read_string l (uvarint (strlen s) ++ bytes_of_string s ++ rest) = Ok (s, rest).
Proof.
  intros Hl Hle. pose proof Hle as Hle'. rewrite !length_app in Hle'. fold (strlen s) in Hle'.
  unfold strlen in *.
  pose proof (read_bytes_field l (bytes_of_string s) rest ltac:(lia) Hl Hle) as P.
  unfold read_string, read_bytes in *.
  rewrite varint_i64 in P by (unfold in_u64; lia). rewrite varint_u64 by (unfold in_u64; lia).
  rewrite P. by rewrite string_of_bytes_of_string.
Qed.

Lemma PeerShard_MarshalToSizedBuffer m dAtA :
  len (encode m) < 2 ^ 63 ->
  MarshalToSizedBuffer m dAtA =
    if len dAtA <? len (encode m) then Panic
    else Ret (take (length dAtA - length (encode m)) dAtA ++ encode m, len (encode m)).
Proof.
  intros Hlen. pose proof (len_bytes_field 10 (bytes_of_string (ShardId m))) as Hb. unfold encode in Hlen.
  pose proof (put_spec_buffer _ _ dAtA (put_bytes_field 10 (bytes_of_string (ShardId m)) ltac:(lia))) as P.
  exact P.
Qed.

Lemma unmarshal_ShardId n l m s :
  len (uvarint (strlen s) ++ bytes_of_string s) <= l -> l < 2 ^ 63 ->
  unmarshal_loop (S n) l m (z2b 10 :: uvarint (strlen s) ++ bytes_of_string s) = Ok (mk s).
Proof.
  intros Hle Hl. cbn [unmarshal_loop]. rewrite varint_tag by lia.
  rewrite <- (app_nil_r (bytes_of_string s)) in Hle |- *.
  change (i32 (Z.shiftr 10 3)) with 1. change (Z.land 10 7) with 2.
  cbn [Z.eqb Z.leb Z.compare Pos.eqb Pos.compare Pos.compare_cont negb].
  rewrite read_string_field by (rewrite ?length_app in *; done || lia). by destruct n.
Qed.

(** Round trip.  Marshalling a peer shard message fills exactly [Size]
    bytes, and unmarshalling them, after an unknown field or not, gives the
    message back whatever the receiver held, unless the shard id is empty, which
    leaves the receiver. *)
Theorem PeerShard_roundtrip m m0 :
  len (encode m) < 2 ^ 63 -> exists dAtA,
    Marshal m = Ret dAtA /\ len dAtA = Size (Some m) /\
    Unmarshal m0 dAtA = Ok (if decide (ShardId m = ""%string) then m0 else m).
Proof.
  intros Hlen. exists (encode m). pose proof (len_bytes_field 10 (bytes_of_string (ShardId m))) as Hb.
  assert (Size (Some m) = len (encode m)) as Hsize
    by (unfold encode in *; rewrite <- size_bytes_field by lia; unfold Size, size_bytes; done).
  split_and!; [| done |].
  - unfold Marshal. rewrite Hsize, PeerShard_MarshalToSizedBuffer, len_zeros, Z.ltb_irrefl by (done || lia).
    unfold zeros. rewrite length_replicate, Nat2Z.id, Nat.sub_diag, take_0, app_nil_l. by rewrite firstn_all.
  - unfold Unmarshal, encode, bytes_field in *. destruct m as [s]; simpl ShardId in *.
    destruct (decide (s = ""%string)) as [->|Hne]; [done|].
    rewrite decide_False in * by (intros E; apply Hne; by destruct s).
    simpl length in Hlen.
    apply unmarshal_ShardId; unfold strlen; simpl length; lia.
Qed.

Module Witness.

Lemma PeerShard_roundtrip_witness : exists dAtA,
  Marshal (mk "1") = Ret dAtA /\ len dAtA = 3 /\ Unmarshal (mk "7") dAtA = Ok (mk "1").
Proof. exact (PeerShard_roundtrip (mk "1") (mk "7") eq_refl). Defined.

End Witness.
