(* ===== verification/Canonical.v ===== *)
(** * Canonical: what the decoder of topic messages gives back ([data/topicMessage.pb.go])

    The decoder accepts many encodings of a message: repeated fields, varints
    with leading zero groups, unknown fields, numbers beyond the width of their
    field.  Whatever it accepts is a value of the Go type, and marshalling that
    value gives an encoding that is never longer and reads back as the same
    message. *)

From S2P Require Import Prelude Errors Wire TopicMessage.
From Stdlib Require Import ZArith Lia String Strings.Byte.
From stdpp Require Import prelude list strings pretty.

Local Open Scope Z_scope.

(** ** Varints *)

Lemma length_uvarint_n_le n v c :
  0 <= v < 2 ^ (7 * Z.of_nat c) -> (0 < c)%nat -> (length (uvarint_n n v) <= c)%nat.
Proof.
  revert v c. induction n as [|n IH]; intros v c Hv Hc; [simpl; lia|]. simpl uvarint_n.
  destruct (Z.ltb_spec v 128); [simpl; lia|]. destruct c as [|c]; [lia|]. cbn [length].
  assert (0 < c)%nat. { destruct c; [|lia]. change (2 ^ (7 * Z.of_nat 1)) with 128 in Hv. lia. }
  apply le_n_S, IH; [|done]. split; [by apply Z.div_pos; lia|]. apply Z.div_lt_upper_bound; [lia|].
  rewrite Nat2Z.inj_succ in Hv. replace (7 * Z.succ (Z.of_nat c)) with (7 + 7 * Z.of_nat c) in Hv by lia.
  rewrite Z.pow_add_r in Hv by lia. lia.
Qed.

(** The value that is read, before truncation, has seven bits for each byte. *)
Lemma varint_loop_value trunc `{!Truncation trunc} k low rest v rest' :
  0 <= low < 2 ^ (7 * Z.of_nat k) ->
  varint_loop trunc (7 * Z.of_nat k) (trunc low) rest = Ok (v, rest') ->
  exists x c, v = trunc x /\ 0 <= x < 2 ^ (7 * Z.of_nat (k + c)) /\ (0 < c)%nat /\
    length rest = (c + length rest')%nat.
Proof.
  revert k low. induction rest as [|b rest IH]; intros k low Hl; cbn [varint_loop];
    rewrite Z.geb_leb; destruct (Z.leb_spec 64 (7 * Z.of_nat k)); [done..|].
  pose proof (b2z_range b) as Hb. pose proof (Z.mod_pos_bound (b2z b) 128 eq_refl) as Hm.
  rewrite trunc_lor, land_127, Z.shiftl_mul_pow2, lor_disjoint by lia.
  assert (0 <= low + b2z b mod 128 * 2 ^ (7 * Z.of_nat k) < 2 ^ (7 * Z.of_nat (S k))) as Hx.
  { replace (7 * Z.of_nat (S k)) with (7 * Z.of_nat k + 7) by lia. rewrite Z.pow_add_r by lia.
    change (2 ^ 7) with 128. assert (0 < 2 ^ (7 * Z.of_nat k)) by (apply Z.pow_pos_nonneg; lia). nia. }
  destruct (b2z b <? 128).
  - intros [= <- <-]. eexists _, 1%nat. rewrite Nat.add_1_r. split_and!; [done | lia | lia | lia | done].
  - replace (7 * Z.of_nat k + 7) with (7 * Z.of_nat (S k)) by lia.
    intros (x & c & Ev & Hr & Hc & El)%IH; [|done]. exists x, (S c). cbn [length].
    replace (k + S c)%nat with (S k + c)%nat by lia. split_and!; [done | lia | lia | lia | lia].
Qed.

Lemma varint_value trunc `{!Truncation trunc} rest v rest' :
  trunc 0 = 0 -> varint trunc rest = Ok (v, rest') ->
  exists x c, v = trunc x /\ 0 <= x < 2 ^ (7 * Z.of_nat c) /\ (0 < c)%nat /\ length rest = (c + length rest')%nat.
Proof.
  intros E0 E. unfold varint in E. rewrite <- E0 in E at 2.
  apply (varint_loop_value trunc 0 0) in E; [|simpl; lia]. exact E.
Qed.

(** The encoding of the value that is read is not longer than what was read. *)
Lemma varint_u32_le rest v rest' :
  varint u32 rest = Ok (v, rest') -> in_u32 v /\ len (uvarint (u64 v)) + len rest' <= len rest.
Proof.
  intros (x & c & -> & Hx & Hc & El)%(varint_value u32); [|done]. split; [apply u32_range|].
  rewrite u64_id by (pose proof (u32_range x); unfold in_u64, in_u32 in *; lia).
  enough (length (uvarint (u32 x)) <= c)%nat by lia. apply length_uvarint_n_le; [|done].
  pose proof (u32_range x) as Hr. unfold in_u32 in Hr. unfold u32 in *. pose proof (Z.mod_le x (2 ^ 32)). lia.
Qed.

Lemma varint_i64_le rest v rest' :
  varint i64 rest = Ok (v, rest') -> in_i64 v /\ len (uvarint (u64 v)) + len rest' <= len rest.
Proof.
  intros (x & c & -> & Hx & Hc & El)%(varint_value i64); [|done]. split; [apply i64_range|].
  rewrite u64_i64. enough (length (uvarint (u64 x)) <= c)%nat by lia. apply length_uvarint_n_le; [|done].
  pose proof (u64_range x) as Hr. unfold in_u64 in Hr. unfold u64 in *. pose proof (Z.mod_le x (2 ^ 64)). lia.
Qed.

(** ** Chunks *)

Lemma read_bytes_le l rest b rest' :
  len rest <= l < 2 ^ 63 -> read_bytes l rest = Ok (b, rest') ->
  len (uvarint (len b)) + len b + len rest' <= len rest.
Proof.
  intros Hl. unfold read_bytes. destruct (varint i64 rest) as [[byteLen rest1]|] eqn:Ev; [|done].
  apply varint_i64_le in Ev as [Hr Hlen]. unfold read_chunk. destruct (Z.ltb_spec byteLen 0); [done|].
  destruct (Z.ltb_spec (i64 (l - len rest1 + byteLen)) 0) as [|Hp]; [done|].
  rewrite Z.gtb_ltb. destruct (Z.ltb_spec l (i64 (l - len rest1 + byteLen))) as [|Hle]; [done|].
  intros [= <- <-]. unfold in_i64 in Hr. rewrite u64_id in Hlen by (unfold in_u64; lia).
  assert (byteLen <= len rest1).
  { rewrite i64_sum_nonneg in Hle by lia. lia. }
  rewrite length_take, length_drop. rewrite Nat.min_l by lia. rewrite Z2Nat.id by lia. lia.
Qed.

(** ** Messages *)

(** The numbers of a message are in the range of their types. *)
Record typed (m : TopicMessage) : Prop := {
  typed_Version : in_u32 (Version m);
  typed_Timestamp : in_i64 (Timestamp m)
}.

Lemma len_varint_field tag v : len (varint_field tag v) <= 1 + len (uvarint v).
Proof. unfold varint_field. case_decide; cbn [length]; lia. Qed.

Lemma len_bytes_field_le tag b : len (bytes_field tag b) <= 1 + len (uvarint (len b)) + len b.
Proof. unfold bytes_field. case_decide; cbn [length]; rewrite ?length_app; lia. Qed.

Lemma len_encode m :
  len (TopicMessage.encode m) =
    len (varint_field 8 (u64 (Version m))) + len (bytes_field 18 (Payload m)) +
    len (varint_field 24 (u64 (Timestamp m))) + len (bytes_field 34 (Pk m)) + len (bytes_field 42 (SignatureOnPid m)).
Proof. unfold TopicMessage.encode. rewrite !length_app. lia. Qed.

(** A field that is read costs at least its encoding; [setter] is the new message. *)
Ltac count_field tag IH setter bound :=
  intros [Ht' He]%IH; [|lia | by match goal with Ht : typed _ |- _ => destruct Ht; constructor end];
  split; [done|]; rewrite (len_encode setter) in He; cbn in He; pose proof (bound : _ <= _); lia.

Lemma unmarshal_loop_le n l m field m' :
  len field <= l < 2 ^ 63 -> typed m -> unmarshal_loop n l m field = Ok m' ->
  typed m' /\ len (TopicMessage.encode m') <= len (TopicMessage.encode m) + len field.
Proof.
  revert m field. induction n as [|n IH]; intros m field Hl Ht.
  { destruct field; [intros [= <-]; split; [done | cbn; lia] | done]. }
  destruct field as [|b field]; [intros [= <-]; split; [done | cbn; lia]|].
  cbn [unmarshal_loop]. destruct (varint u64 (b :: field)) as [[wire rest]|] eqn:Ew; [|done].
  apply varint_shrinks in Ew. pose proof (len_encode m) as Em.
  destruct (Z.land wire 7 =? 4); [done|]. destruct (i32 (Z.shiftr wire 3) <=? 0); [done|].
  repeat (case_match; try done); simplify_eq;
    match goal with
    | E : varint u32 _ = Ok (?v, _) |- _ => apply varint_u32_le in E as [Hv Hlen];
        count_field 8 IH (set_Version v m) (len_varint_field 8 (u64 v))
    | E : varint i64 _ = Ok (?v, _) |- _ => apply varint_i64_le in E as [Hv Hlen];
        count_field 24 IH (set_Timestamp v m) (len_varint_field 24 (u64 v))
    | E : skip_field _ _ = Ok _ |- _ => apply skip_field_shrinks in E; [|lia | done];
        intros [Ht' He]%IH; [split; [done | lia] | lia | done]
    | E : read_bytes _ _ = Ok (?c, _) |- unmarshal_loop _ _ (set_Payload _ _) _ = _ -> _ =>
        apply read_bytes_le in E; [|lia]; count_field 18 IH (set_Payload c m) (len_bytes_field_le 18 c)
    | E : read_bytes _ _ = Ok (?c, _) |- unmarshal_loop _ _ (set_Pk _ _) _ = _ -> _ =>
        apply read_bytes_le in E; [|lia]; count_field 34 IH (set_Pk c m) (len_bytes_field_le 34 c)
    | E : read_bytes _ _ = Ok (?c, _) |- _ =>
        apply read_bytes_le in E; [|lia]; count_field 42 IH (set_SignatureOnPid c m) (len_bytes_field_le 42 c)
    end.
Qed.

Lemma typed_Reset : typed Reset.
Proof. constructor; [unfold in_u32 | unfold in_i64]; cbn; lia. Qed.

(** [C24] Decoded messages.  Whatever bytes are unmarshalled into a fresh message, if
    that succeeds the version is a [uint32] and the timestamp an [int64];
    marshalling the message succeeds and gives bytes that are not longer than
    the ones it was read from and that unmarshal to the same message. *)
Theorem Unmarshal_typed dAtA m :
  len dAtA < 2 ^ 63 -> Unmarshal Reset dAtA = Ok m ->
  typed m /\
  exists b, Marshal m = Ret b /\ len b = TopicMessage.Size m /\ len b <= len dAtA /\ Unmarshal Reset b = Ok m.
Proof.
  intros Hl Hu. apply unmarshal_loop_le in Hu as [[Hv Ht] He]; [|lia | exact typed_Reset].
  change (len (TopicMessage.encode Reset)) with 0 in He.
  assert (TopicMessage.wf m) as Hwf by (constructor; [done | done | lia]).
  split; [done|]. exists (TopicMessage.encode m).
  split_and!; [by apply Marshal_encode | by rewrite Size_encode | lia | by apply Unmarshal_encode].
Qed.

Module Witness.

(** Version 2^32 + 1, the payload twice, a timestamp with a superfluous group, an
    unknown field. *)
Definition untidy : bytes :=
  [x08; x81; x80; x80; x80; x10; x12; x01; x61; x12; x02; x68; x69; x18; x85; x00; x30; x07].

Definition tidy : TopicMessage := TopicMessage.mk 1 [x68; x69] 5 [] [].

Lemma untidy_read : Unmarshal Reset untidy = Ok tidy.
Proof. vm_compute. reflexivity. Qed.

Lemma Unmarshal_typed_witness : exists b,
  Marshal tidy = Ret b /\ len b <= 18 /\ Unmarshal Reset b = Ok tidy.
Proof.
  destruct (Unmarshal_typed untidy tidy ltac:(reflexivity) untidy_read) as (_ & b & E & _ & Hl & Eu).
  exists b. split_and!; assumption.
Defined.

End Witness.
