(* ===== verification/Printed.v ===== *)
(** * Printed: the printed form of the messages
      ([data/topicMessage.pb.go], [message/peerShardMessage.pb.go])

    [String] of both messages, with the verb [%v] of [fmt] on the types of their
    fields, and the size of a zigzag varint.  Theorem: two messages are printed the
    same only when they are the same. *)

From S2P Require Import Prelude Wire TopicMessage PeerShard.
From Stdlib Require Import ZArith Lia Ascii String Strings.Byte.
From stdpp Require Import prelude list strings pretty.

Local Open Scope Z_scope.

(** [fmt.Sprintf] of a byte slice with [%v]. *)
Definition print_bytes (b : bytes) : string := "[" +:+ strings_Join ((fun x => pretty (b2z x)) <$> b) " " +:+ "]".

Definition TopicMessage_String (this : option TopicMessage) : string :=
  match this with
  | None => "nil"
  | Some this =>
      strings_Join
        ["&TopicMessage{";
         "Version:" +:+ pretty (Version this) +:+ ",";
         "Payload:" +:+ print_bytes (Payload this) +:+ ",";
         "Timestamp:" +:+ pretty (Timestamp this) +:+ ",";
         "Pk:" +:+ print_bytes (Pk this) +:+ ",";
         "SignatureOnPid:" +:+ print_bytes (SignatureOnPid this) +:+ ",";
         "}"] ""
  end.

Definition PeerShard_String (this : option PeerShard) : string :=
  match this with
  | None => "nil"
  | Some this => strings_Join ["&PeerShard{"; "ShardId:" +:+ ShardId this +:+ ","; "}"] ""
  end.

(** [(x << 1) ^ (int64(x) >> 63)], on [uint64]. *)
Definition zigzag (x : Z) : Z := Z.lxor (u64 (Z.shiftl x 1)) (u64 (Z.shiftr (i64 x) 63)).
Definition sozTopicMessage (x : Z) : Z := sov (zigzag x).
Definition sozPeerShardMessage (x : Z) : Z := sov (zigzag x).

(** ** Strings without a character *)

Fixpoint lacks (c : ascii) (s : string) : Prop :=
  match s with
  | EmptyString => True
  | String d s => d ≠ c /\ lacks c s
  end.

Lemma lacks_app c s t : lacks c (s +:+ t) <-> lacks c s /\ lacks c t.
Proof. induction s as [|d s IH]; simpl; [tauto|]. rewrite IH. tauto. Qed.

(** A separator that neither part before it has tells where they end. *)
Lemma cut c a b a' b' :
  lacks c a -> lacks c a' -> a +:+ String c b = a' +:+ String c b' -> a = a' /\ b = b'.
Proof.
  revert a'. induction a as [|d a IH]; intros [|d' a'] Ha Ha'; cbn in *.
  - by intros [= ->].
  - intros [= -> _]. by destruct Ha'.
  - intros [= -> _]. by destruct Ha.
  - intros [= -> E]. by destruct (IH a' (proj2 Ha) (proj2 Ha') E) as [-> ->].
Qed.

(** No character of [t], a separator, is in a printed number. *)
Definition digitless (c : ascii) : Prop := (forall n, pretty_N_char n ≠ c) /\ c ≠ "-"%char.

Lemma digitless_space : digitless " ".
Proof. split; [|done]. intros n. unfold pretty_N_char. by repeat case_match. Qed.
Lemma digitless_comma : digitless ",".
Proof. split; [|done]. intros n. unfold pretty_N_char. by repeat case_match. Qed.
Lemma digitless_bracket : digitless "]".
Proof. split; [|done]. intros n. unfold pretty_N_char. by repeat case_match. Qed.

Lemma pretty_N_lacks c n s : digitless c -> lacks c s -> lacks c (pretty_N_go n s).
Proof.
  intros Hc. revert s. induction n as [n IH] using (well_founded_induction N.lt_wf_0). intros s Hs.
  destruct (decide (n = 0)%N) as [->|Hn]; [by rewrite pretty_N_go_0|].
  rewrite pretty_N_go_step by lia. apply IH; [apply N.div_lt; lia|]. split; [apply Hc | done].
Qed.

Lemma pretty_lacks c (z : Z) : digitless c -> lacks c (pretty z).
Proof.
  intros Hc. assert (forall n : N, lacks c (pretty n)) as HN.
  { intros n. unfold pretty, pretty_N. case_decide; [split; [apply (proj1 Hc 0%N) | done] | by apply pretty_N_lacks]. }
  destruct z as [|p|p]; unfold pretty, pretty_Z.
  - split; [apply (proj1 Hc 0%N) | done].
  - apply HN.
  - apply lacks_app. split; [split; [|done]; intros E; by apply (proj2 Hc) | apply HN].
Qed.

Lemma pretty_not_empty (z : Z) : pretty z ≠ "".
Proof.
  assert (forall n s, s ≠ "" -> pretty_N_go n s ≠ "") as HN.
  { intros n. induction n as [n IH] using (well_founded_induction N.lt_wf_0). intros s Hs.
    destruct (decide (n = 0)%N) as [->|Hn]; [by rewrite pretty_N_go_0|].
    rewrite pretty_N_go_step by lia. apply IH; [apply N.div_lt; lia | done]. }
  destruct z as [|p|p]; unfold pretty, pretty_Z; [done | | done].
  unfold pretty, pretty_positive, pretty, pretty_N. rewrite decide_False by lia.
  rewrite pretty_N_go_step by lia. by apply HN.
Qed.

(** ** Printed bytes *)

Lemma print_bytes_lacks c b : digitless c -> c ∉ ["["; " "; "]"]%char -> lacks c (print_bytes b).
Proof.
  intros Hc Hn. rewrite !not_elem_of_cons in Hn. destruct Hn as (H1 & H2 & H3 & _).
  unfold print_bytes. rewrite !lacks_app. split_and!; [done | | done].
  induction b as [|x [|y b] IH]; [done | by apply pretty_lacks|].
  change (lacks c (pretty (b2z x) +:+ " " +:+ strings_Join ((fun x => pretty (b2z x)) <$> y :: b) " ")).
  rewrite !lacks_app. split_and!; [by apply pretty_lacks | done | exact IH].
Qed.

#[export] Instance b2z_inj : Inj (=) (=) b2z.
Proof. intros x y E. rewrite <- (z2b_b2z x), <- (z2b_b2z y). by f_equal. Qed.

(** The list ends where the bracket is. *)
Lemma joined_inj b b' :
  strings_Join ((fun x => pretty (b2z x)) <$> b) " " = strings_Join ((fun x => pretty (b2z x)) <$> b') " " -> b = b'.
Proof.
  assert (forall x y l, strings_Join ((fun x => pretty (b2z x)) <$> x :: y :: l) " " =
    pretty (b2z x) +:+ String " " (strings_Join ((fun x => pretty (b2z x)) <$> y :: l) " ")) as E by done.
  assert (forall x, lacks " " (pretty (b2z x))) as L by (intros; apply pretty_lacks, digitless_space).
  assert (forall x y t, pretty (b2z x) ≠ pretty (b2z y) +:+ String " " t) as N.
  { intros x y t Ex. pose proof (L x) as Lx. rewrite Ex, lacks_app in Lx. by destruct Lx as (_ & [] & _). }
  revert b'. induction b as [|x [|y b] IH]; intros [|x' [|y' b']]; rewrite ?E; intros Eq.
  - done.
  - symmetry in Eq. by apply pretty_not_empty in Eq.
  - exfalso. destruct (pretty (b2z x')) eqn:Ep; [by apply pretty_not_empty in Ep | done].
  - by apply pretty_not_empty in Eq.
  - cbn in Eq. by apply (inj pretty), (inj b2z) in Eq as ->.
  - by apply N in Eq.
  - exfalso. destruct (pretty (b2z x)) eqn:Ep; [by apply pretty_not_empty in Ep | done].
  - symmetry in Eq. by apply N in Eq.
  - apply cut in Eq as [Ex Er]; [|done..]. apply (inj pretty), (inj b2z) in Ex as ->. by rewrite (IH _ Er).
Qed.

#[export] Instance print_bytes_inj : Inj (=) (=) print_bytes.
Proof.
  intros b b' E. unfold print_bytes in E. apply joined_inj.
  assert (forall l, lacks "]" (strings_Join ((fun x => pretty (b2z x)) <$> l) " ")) as L.
  { induction l as [|x [|y l] IH]; [done | apply pretty_lacks, digitless_bracket|].
    change (lacks "]" (pretty (b2z x) +:+ " " +:+ strings_Join ((fun x => pretty (b2z x)) <$> y :: l) " ")).
    rewrite !lacks_app. split_and!; [apply pretty_lacks, digitless_bracket | done | exact IH]. }
  injection E as E. by destruct (cut "]" _ "" _ "" (L b) (L b') E).
Qed.

(** ** Printed messages *)

Lemma append_assoc (a b c : string) : (a +:+ b) +:+ c = a +:+ b +:+ c.
Proof. induction a as [|d a IH]; [done|]. change (String d ((a +:+ b) +:+ c) = String d (a +:+ b +:+ c)). by rewrite IH. Qed.

(** A printed field and the rest of the line. *)
Lemma cut_field a b a' b' : lacks "," a -> lacks "," a' ->
  (a +:+ ",") +:+ b = (a' +:+ ",") +:+ b' -> a = a' /\ b = b'.
Proof. intros Ha Ha'. rewrite !append_assoc. by apply cut. Qed.

Lemma append_last_inj s t s' : s +:+ t = s' +:+ t -> s = s'.
Proof.
  intros E. apply (f_equal bytes_of_string) in E. rewrite !bytes_of_string_app in E.
  by apply app_inv_tail, (inj bytes_of_string) in E.
Qed.

(** The printed form determines the message.  Two topic messages, nil or not, that
    [String] prints the same are the same; so are two peer shard messages. *)
Theorem String_determines :
  Inj (=) (=) TopicMessage_String /\ Inj (=) (=) PeerShard_String.
Proof.
  assert (forall z : Z, lacks "," (pretty z)) as Lz by (intros; apply pretty_lacks, digitless_comma).
  assert (forall b, lacks "," (print_bytes b)) as Lb.
  { intros b. apply print_bytes_lacks; [apply digitless_comma | by apply (bool_decide_unpack _)]. }
  split.
  - intros [[v p t k s]|] [[v' p' t' k' s']|] E; [|done..]. unfold TopicMessage_String in E.
    cbn [strings_Join Version Payload Timestamp Pk SignatureOnPid] in E. rewrite !append_assoc in E.
    do 3 apply (inj (String.append _)) in E. apply cut in E as [->%(inj pretty) E]; [|done..].
    do 2 apply (inj (String.append _)) in E. apply cut in E as [->%(inj print_bytes) E]; [|done..].
    do 2 apply (inj (String.append _)) in E. apply cut in E as [->%(inj pretty) E]; [|done..].
    do 2 apply (inj (String.append _)) in E. apply cut in E as [->%(inj print_bytes) E]; [|done..].
    do 2 apply (inj (String.append _)) in E. by apply cut in E as [->%(inj print_bytes) _].
  - intros [[s]|] [[s']|] E; [|done..]. unfold PeerShard_String in E.
    cbn [strings_Join ShardId] in E. rewrite !append_assoc in E.
    do 3 apply (inj (String.append _)) in E. by apply append_last_inj in E as ->.
Qed.

Lemma lxor_ones a n : 0 <= n -> 0 <= a < 2 ^ n -> Z.lxor a (Z.ones n) = 2 ^ n - 1 - a.
Proof.
  intros Hn Ha. assert (Z.land a (Z.ones n) = a) as E by (rewrite Z.land_ones, Z.mod_small by lia; done).
  assert (Z.ldiff a (Z.ones n) = 0) as D by (rewrite Z.ldiff_ones_r, Z.shiftr_div_pow2, Z.div_small by lia; apply Z.shiftl_0_l).
  assert (2 ^ n - 1 = Z.ones n) as -> by (rewrite Z.ones_equiv; lia). rewrite Z.sub_nocarry_ldiff by done.
  apply Z.bits_inj'. intros i Hi. rewrite Z.lxor_spec, Z.ldiff_spec.
  pose proof (f_equal (fun x => Z.testbit x i) E) as Ei. cbn in Ei. rewrite Z.land_spec in Ei.
  by destruct (Z.testbit a i), (Z.testbit (Z.ones n) i).
Qed.

(** The zigzag form of an [int64] is twice its absolute value, less one below zero. *)
Lemma zigzag_spec z : in_i64 z -> zigzag (u64 z) = if decide (0 <= z) then 2 * z else - 2 * z - 1.
Proof.
  intros Hz. unfold zigzag. rewrite i64_u64, i64_id, Z.shiftl_mul_pow2, Z.shiftr_div_pow2 by done.
  unfold in_i64 in Hz. unfold u64. rewrite Zmult_mod_idemp_l. case_decide.
  - rewrite (Z.div_small z), Z.mod_0_l, Z.lxor_0_r, Z.mod_small by lia. lia.
  - assert (z / 2 ^ 63 = -1) as -> by (symmetry; apply (Z.div_unique _ _ _ (z + 2 ^ 63)); lia).
    rewrite <- (Z.mod_unique (z * 2 ^ 1) (2 ^ 64) (-1) (2 * z + 2 ^ 64)) by lia.
    change (-1 mod 2 ^ 64) with (Z.ones 64). rewrite lxor_ones by lia. lia.
Qed.
