(* ===== verification/MutexHolder.v ===== *)
(** * MutexHolder: one mutex per key ([libp2p/mutexHolder.go])

    The mutexes live in a cache of bounded capacity; a mutex is identified by its
    address, and a fresh one is taken at each allocation.  The calls that lock and
    unlock the mutexes are in [DirectSends]. *)

From S2P Require Import Prelude Errors Cacher.
From Stdlib Require Import ZArith Lia String.
From stdpp Require Import prelude gmap strings list.

Section MutexHolder.

Context {C : Type} `{Cacher C}.

Record MutexHolder : Type := mk {
  mutexes : C;
  next_addr : nat
}.

(** [NewMutexHolder]: [lrucache.NewCache] builds the cache or fails. *)
Definition NewMutexHolder (NewCache : Z -> result C) (mutexesCapacity : Z) : result MutexHolder :=
  let? c := NewCache mutexesCapacity in Ok (mk c 0).

(** [&sync.Mutex{}] stored under the key. *)
Definition newMutex (mh : MutexHolder) (key : string) : nat * MutexHolder :=
  (next_addr mh, mk (Put (mutexes mh) key (IfMutex (next_addr mh))) (S (next_addr mh))).

Definition Get (mh : MutexHolder) (key : string) : nat * MutexHolder :=
  let '(val, c) := Cacher.Get (mutexes mh) key in
  let mh := mk c (next_addr mh) in
  match val with
  | None => newMutex mh key
  | Some (IfMutex mutex) => (mutex, mh)
  | Some _ => newMutex mh key
  end.

(** The mutexes returned for a sequence of keys. *)
Fixpoint Gets (mh : MutexHolder) (keys : list string) : list nat * MutexHolder :=
  match keys with
  | [] => ([], mh)
  | key :: keys =>
      let '(m, mh) := Get mh key in
      let '(ms, mh) := Gets mh keys in (m :: ms, mh)
  end.

End MutexHolder.
Arguments MutexHolder : clear implicits.
Arguments mk {C}.

Section Correctness.

Context {C : Type} `{CacherLaws C}.
Implicit Types (mh : MutexHolder C).

(** Stored mutexes were allocated, and no two keys share one. *)
Record wf mh : Prop := {
  wf_fresh k a : entry (mutexes mh) k = Some (IfMutex a) -> a < next_addr mh;
  wf_inj k1 k2 a : entry (mutexes mh) k1 = Some (IfMutex a) ->
                   entry (mutexes mh) k2 = Some (IfMutex a) -> k1 = k2
}.

Lemma Get_entry_cases mh key :
  (exists a, entry (mutexes mh) key = Some (IfMutex a) /\ (Get mh key).1 = a /\
     next_addr (Get mh key).2 = next_addr mh /\
     forall k, entry (mutexes (Get mh key).2) k = entry (mutexes mh) k) \/
  ((forall a, entry (mutexes mh) key ≠ Some (IfMutex a)) /\ (Get mh key).1 = next_addr mh /\
     next_addr (Get mh key).2 = S (next_addr mh) /\
     entry (mutexes (Get mh key).2) key = Some (IfMutex (next_addr mh)) /\
     forall k, key ≠ k -> entry (mutexes (Get mh key).2) k = entry (mutexes mh) k \/
                         entry (mutexes (Get mh key).2) k = None).
Proof.
  unfold Get. destruct (Cacher.Get (mutexes mh) key) as [val c] eqn:E.
  pose proof (Get_entry (mutexes mh) key) as Hv. rewrite E in Hv. simpl in Hv. subst val.
  assert (forall k, entry c k = entry (mutexes mh) k) as Hc.
  { intros k. pose proof (entry_Get (mutexes mh) key k) as P. by rewrite E in P. }
  destruct (entry (mutexes mh) key) as [[z|a|]|] eqn:Ek; simpl.
  2: by left; exists a.
  all: right; split_and!; try done; [apply entry_Put_eq|];
    intros k Hk; destruct (entry_Put_ne c key k (IfMutex (next_addr mh)) Hk) as [-> | ->]; auto.
Qed.

Lemma wf_Get mh key : wf mh -> wf (Get mh key).2.
Proof.
  intros [F I]. destruct (Get_entry_cases mh key)
    as [(a & Ea & _ & En & Ee)|(Ne & _ & En & Ek & Ee)].
  - constructor; intros *; rewrite !Ee, ?En; [apply F | apply I].
  - assert (forall k b, entry (mutexes (Get mh key).2) k = Some (IfMutex b) ->
      (k = key /\ b = next_addr mh) \/ (k ≠ key /\ entry (mutexes mh) k = Some (IfMutex b))) as Hc.
    { intros k b Hb. destruct (decide (key = k)) as [<-|Hk].
      - rewrite Ek in Hb. by simplify_eq; left.
      - right. destruct (Ee k Hk) as [E|E]; [by rewrite E in Hb | by rewrite E in Hb]. }
    constructor.
    + intros k b Hb. rewrite En. destruct (Hc _ _ Hb) as [[_ ->]|[_ E]]; [lia | apply F in E; lia].
    + intros k1 k2 b H1 H2.
      destruct (Hc _ _ H1) as [[X1 X2]|[N1 E1]], (Hc _ _ H2) as [[X3 X4]|[N2 E2]].
      * congruence.
      * apply F in E2. lia.
      * apply F in E1. lia.
      * by eapply I.
Qed.

(** Per-peer locking.  In a holder whose entries are well formed, two calls
    for the same key with no call in between give the same mutex, and two keys
    whose mutexes are both in the cache never share one, so two senders are
    serialised exactly when they send to the same peer.  The invariant is kept by
    every call, whatever the cache forgets. *)
Theorem Get_mutex_per_key mh k1 k2 :
  wf mh ->
  let mh1 := (Get mh k1).2 in
  let mh2 := (Get mh1 k2).2 in
  wf mh1 /\ (k1 = k2 -> (Get mh1 k2).1 = (Get mh k1).1) /\
  (k1 ≠ k2 -> (Get mh1 k2).1 ≠ (Get mh k1).1).
Proof.
  intros W mh1 mh2. pose proof (wf_Get mh k1 W) as W1. split; [done|].
  assert (entry (mutexes mh1) k1 = Some (IfMutex (Get mh k1).1)) as E1.
  { unfold mh1. destruct (Get_entry_cases mh k1) as [(a & Ea & E & _ & Ee)|(_ & E & _ & Ek & _)];
      rewrite E; [by rewrite Ee | done]. }
  split.
  - intros <-. destruct (Get_entry_cases mh1 k1) as [(a & Ea & E & _)|(Ne & _)].
    + rewrite E. congruence.
    + by apply Ne in E1.
  - intros Hne Heq. destruct (Get_entry_cases mh1 k2) as [(a & Ea & E & _)|(_ & E & _)].
    + apply Hne. eapply (wf_inj _ W1); [exact E1|]. by rewrite <- Heq, E.
    + apply (wf_fresh _ W1) in E1. rewrite <- Heq, E in E1. by apply Nat.lt_irrefl in E1.
Qed.

(** With room for one more key no mutex is forgotten. *)
Context `{!CacherRoom C}.

Lemma Get_keeps mh key k a :
  cache_ok (mutexes mh) -> size ({[key]} ∪ stored (mutexes mh)) <= room (mutexes mh) ->
  entry (mutexes mh) k = Some (IfMutex a) -> entry (mutexes (Get mh key).2) k = Some (IfMutex a).
Proof.
  intros Hok Hs Ha. unfold Get. destruct (Cacher.Get (mutexes mh) key) as [val c] eqn:E.
  pose proof (Get_entry (mutexes mh) key) as Hv. pose proof (room_Get (mutexes mh) key) as Hr.
  pose proof (cache_ok_Get (mutexes mh) key Hok) as Hok'.
  assert (forall k, entry c k = entry (mutexes mh) k) as Hc by (intros k'; by rewrite <- (entry_Get (mutexes mh) key), E).
  rewrite E in *. cbn [fst snd] in *. subst val. rewrite <- Hc in Ha.
  destruct (decide (key = k)) as [->|Hne]; [by rewrite <- Hc, Ha|].
  assert (stored c ≡ stored (mutexes mh)) as Hst by (intros x; by rewrite !elem_of_stored, Hc).
  destruct (entry (mutexes mh) key) as [[]|]; cbn [snd newMutex mutexes]; try done.
  all: rewrite entry_Put_keeps; [done..|]; by rewrite Hst, Hr.
Qed.

Lemma Get_room mh key :
  cache_ok (mutexes mh) ->
  cache_ok (mutexes (Get mh key).2) /\ room (mutexes (Get mh key).2) = room (mutexes mh) /\
  stored (mutexes (Get mh key).2) ⊆ {[key]} ∪ stored (mutexes mh).
Proof.
  intros Hok. unfold Get. destruct (Cacher.Get (mutexes mh) key) as [val c] eqn:E.
  pose proof (room_Get (mutexes mh) key) as Hr. pose proof (cache_ok_Get (mutexes mh) key Hok) as Hok'.
  assert (forall k, entry c k = entry (mutexes mh) k) as Hc by (intros k'; by rewrite <- (entry_Get (mutexes mh) key), E).
  rewrite E in *. cbn [fst snd] in *.
  assert (stored c ≡ stored (mutexes mh)) as Hst by (intros x; by rewrite !elem_of_stored, Hc).
  assert (forall v, stored (Put c key v) ⊆ {[key]} ∪ stored (mutexes mh)) as Hput.
  { intros v x. rewrite elem_of_union, elem_of_singleton, !elem_of_stored, <- Hc. intros Hx.
    destruct (decide (key = x)) as [->|Hne]; [by left|]. right.
    destruct (entry_Put_ne c key x v Hne) as [E'|E']; rewrite E' in Hx; [done | by destruct Hx]. }
  destruct val as [[]|]; cbn [snd newMutex mutexes]; rewrite ?room_Put; split_and!; auto using cache_ok_Put.
  intros x Hx. apply elem_of_union_r. by rewrite <- Hst.
Qed.

End Correctness.

Module Witness.

Definition empty : MutexHolder LruCache.t := mk (LruCache.empty 1) 0.

Lemma empty_wf : wf empty.
Proof. by constructor. Qed.

(** After other keys have pushed an entry out, its key gets another mutex. *)
Example evicted_key_gets_new_mutex : (Gets empty ["a"; "b"; "a"; "c"; "d"; "a"]).1 = [0; 1; 0; 2; 3; 4].
Proof. reflexivity. Qed.

Lemma Get_mutex_per_key_witness :
  let mh1 := (Get empty "a").2 in wf mh1 /\ ("a" = "b" -> (Get mh1 "b").1 = 0) /\
  ("a" ≠ "b" -> (Get mh1 "b").1 ≠ 0).
Proof. exact (Get_mutex_per_key empty "a" "b" empty_wf). Defined.

End Witness.
