(* ===== verification/TopicProcessors.v ===== *)
(** * TopicProcessors: the message processors of a topic ([libp2p/topicProcessors.go])

    A map from identifiers to processors; the type of processors is a parameter. *)

From S2P Require Import Prelude Errors Interfaces.
From Stdlib Require Import ZArith Lia String.
From stdpp Require Import prelude gmap strings list.

Section TopicProcessors.

Context `{MapRange} {A : Type}.

Record topicProcessors : Type := mk { processors : gmap string A }.

Definition newTopicProcessors : topicProcessors := mk ∅.

Implicit Types (tp : topicProcessors) (identifier : string).

Definition addTopicProcessor tp identifier (processor : A) : result topicProcessors :=
  match processors tp !! identifier with
  | Some _ => Err (ErrWrap ErrMessageProcessorAlreadyDefined
                     (", in addTopicProcessor, identifier " +:+ identifier))
  | None => Ok (mk (<[identifier := processor]> (processors tp)))
  end.

Definition removeTopicProcessor tp identifier : result topicProcessors :=
  match processors tp !! identifier with
  | None => Err (ErrWrap ErrMessageProcessorDoesNotExists
                   (", in removeTopicProcessor, identifier " +:+ identifier))
  | Some _ => Ok (mk (delete identifier (processors tp)))
  end.

(** The two slices are filled by one iteration. *)
Definition getList tp : list string * list A :=
  let entries := go_range (processors tp) in (entries.*1, entries.*2).

Lemma getList_lengths tp : length (getList tp).1 = length (getList tp).2.
Proof. unfold getList. simpl. by rewrite !length_fmap. Qed.

Lemma getList_zip tp : zip (getList tp).1 (getList tp).2 = go_range (processors tp).
Proof. unfold getList. simpl. apply zip_fst_snd. Qed.

Lemma getList_empty tp : (getList tp).1 = [] <-> processors tp = ∅.
Proof.
  unfold getList. simpl. split.
  - intros E. apply fmap_nil_inv in E. apply map_to_list_empty_iff.
    apply Permutation_nil_r. rewrite <- go_range_perm. by rewrite E.
  - intros ->. assert (go_range (∅ : gmap string A) = []) as ->; [|done].
    apply Permutation_nil_r. rewrite go_range_perm. by rewrite map_to_list_empty.
Qed.

Lemma addTopicProcessor_Ok tp identifier p :
  processors tp !! identifier = None ->
  addTopicProcessor tp identifier p = Ok (mk (<[identifier := p]> (processors tp))).
Proof. unfold addTopicProcessor. by intros ->. Qed.

Lemma removeTopicProcessor_Ok tp identifier p :
  processors tp !! identifier = Some p ->
  removeTopicProcessor tp identifier = Ok (mk (delete identifier (processors tp))).
Proof. unfold removeTopicProcessor. by intros ->. Qed.

End TopicProcessors.
Arguments topicProcessors : clear implicits.
Arguments mk {A}.
