(* ===== verification/Ports.v ===== *)
(** * Ports: the port of the node ([libp2p/ports.go])

    The port setting is a number or a range [start-end]; a port of a range is tried
    by listening on it and closing the listener.  The TCP functions of [net] are the
    class [TCPStack] and the random shuffle is a parameter; assumed is that the shuffle
    returns a permutation and that a closed listener, or one that could not be
    opened, leaves nothing behind. *)

From S2P Require Import Prelude Errors.
From Stdlib Require Import ZArith Lia Ascii String.
From stdpp Require Import prelude strings list pretty.

Local Open Scope Z_scope.

(** ** [strconv.Atoi] *)

Definition digit (c : ascii) : option Z :=
  let n := Z.of_N (N_of_ascii c) in
  if (48 <=? n) && (n <=? 57) then Some (n - 48) else None.

Fixpoint digits (acc : Z) (s : string) : option Z :=
  match s with
  | EmptyString => Some acc
  | String c s' =>
      match digit c with
      | Some d => digits (10 * acc + d) s'
      | None => None
      end
  end.

(** An unsigned decimal number, at least one digit. *)
Definition decimal (s : string) : option Z :=
  match s with EmptyString => None | _ => digits 0 s end.

(** [Atoi] is [ParseInt(s, 10, 0)]: an optional sign and decimal digits, in the
    range of [int].  The error is only tested for presence. *)
Definition strconv_Atoi (s : string) : option Z :=
  let n := match s with
           | String "+" s' => decimal s'
           | String "-" s' => option_map Z.opp (decimal s')
           | _ => decimal s
           end in
  match n with
  | Some n => if decide (in_i64 n) then Some n else None
  | None => None
  end.

#[export] Instance in_i64_dec z : Decision (in_i64 z).
Proof. unfold in_i64. apply _. Defined.

(** ** Choosing the port *)

Definition minRangePortValue : Z := 1025.

(** [make] panics when the slice does not fit the address space (2^48 bytes). *)
Definition maxPorts : Z := 2 ^ 45.

Section Ports.

Context (FisherYatesShuffle : list Z -> list Z) (handler : Z -> option error).

(** The first port of the list that can be opened. *)
Fixpoint firstFree (ports : list Z) : option Z :=
  match ports with
  | [] => None
  | p :: ports' =>
      match handler p with
      | Some _ => firstFree ports'
      | None => Some p
      end
  end.

Definition choosePort (startPort endPort : Z) : outcome (result Z) :=
  if endPort - startPort + 1 >? maxPorts then Panic
  else
    let ports := seqZ startPort (endPort - startPort + 1) in
    let ports := FisherYatesShuffle ports in
    match firstFree ports with
    | Some p => Ret (Ok p)
    | None => Ret (Err (ErrWrap ErrNoFreePortInRange
                          (", range " +:+ pretty startPort +:+ "-" +:+ pretty endPort)))
    end.

Definition getPort (port : string) : outcome (result Z) :=
  match strconv_Atoi port with
  | Some val =>
      if val <? 0 then
        Ret (Err (ErrWrap ErrInvalidPortValue
               (", " +:+ pretty val +:+ " does not represent a positive value for port")))
      else Ret (Ok val)
  | None =>
      match strings_Split port "-" with
      | [p0; p1] =>
          match strconv_Atoi p0 with
          | None => Ret (Err ErrInvalidStartingPortValue)
          | Some startPort =>
              match strconv_Atoi p1 with
              | None => Ret (Err ErrInvalidEndingPortValue)
              | Some endPort =>
                  if startPort <? minRangePortValue then
                    Ret (Err (ErrWrap ErrInvalidValue
                           (", provided starting port should be >= " +:+ pretty minRangePortValue)))
                  else if endPort <? startPort then Ret (Err ErrEndPortIsSmallerThanStartPort)
                  else choosePort startPort endPort
              end
          end
      | _ => Ret (Err (ErrWrap ErrInvalidPortsRangeString
                   (", provided port string `" +:+ port +:+
                    "` is not in the correct format, expected `start-end`")))
      end
  end.

End Ports.

(** ** Trying a port *)

(** [net.ResolveTCPAddr], [net.ListenTCP] and [Close] of the listener, over what the
    operating system holds. *)
Class TCPStack (O : Type) := {
  tcp_addr : Type;
  tcp_listener : Type;
  ResolveTCPAddr : O -> string -> string -> result tcp_addr;
  ListenTCP : O -> string -> tcp_addr -> O * result tcp_listener;
  CloseListener : O -> tcp_listener -> O
}.

Class TCPStackLaws (O : Type) `{TCPStack O} : Prop := {
  Close_Listen o network addr o' l : ListenTCP o network addr = (o', Ok l) -> CloseListener o' l = o;
  Listen_fails o network addr o' err : ListenTCP o network addr = (o', Err err) -> o' = o
}.

Definition localhost (port : Z) : string := "localhost:" +:+ pretty port.

Definition checkFreePort {O} `{TCPStack O} (o : O) (port : Z) : O * option error :=
  match ResolveTCPAddr o "tcp" (localhost port) with
  | Err err => (o, Some err)
  | Ok addr =>
      let '(o, l) := ListenTCP o "tcp" addr in
      match l with
      | Err err => (o, Some err)
      | Ok l => (CloseListener o l, None)
      end
  end.

(** A port at which the node could listen. *)
Definition can_listen {O} `{TCPStack O} (o : O) (port : Z) : Prop :=
  exists addr o' l, ResolveTCPAddr o "tcp" (localhost port) = Ok addr /\ ListenTCP o "tcp" addr = (o', Ok l).

(** ** Decimal numbers *)

Lemma digit_pretty (x : N) :
  (x < 10)%N -> digit (pretty_N_char x) = Some (Z.of_N x).
Proof.
  intros Hx. assert (x = 0 \/ x = 1 \/ x = 2 \/ x = 3 \/ x = 4 \/ x = 5 \/ x = 6 \/ x = 7 \/ x = 8 \/ x = 9)%N
    as Hc by lia. by repeat destruct Hc as [->|Hc]; subst.
Qed.

(** Reading the digits of [x] in front of [s]. *)
Lemma digits_pretty_go (x : N) s acc n :
  (x < 2 ^ N.of_nat n)%N ->
  exists k, 0 <= k /\ (forall acc', digits acc' (pretty_N_go x s) = digits (acc' * k + Z.of_N x) s) /\
  (acc = 0 -> digits acc (pretty_N_go x s) = digits (Z.of_N x) s).
Proof.
  revert x s. induction n as [|n IH]; intros x s Hx.
  - assert (x = 0%N) as -> by (simpl in Hx; lia). rewrite pretty_N_go_0. exists 1.
    split_and!; [done | intros; f_equal; lia | by intros ->].
  - destruct (decide (0 < x)%N) as [Hpos|Hz].
    2: { assert (x = 0%N) as -> by lia. rewrite pretty_N_go_0. exists 1.
         split_and!; [done | intros; f_equal; lia | by intros ->]. }
    rewrite pretty_N_go_step by done.
    destruct (IH (x `div` 10)%N (String (pretty_N_char (x `mod` 10)) s)) as (k & Hk & E & _).
    { rewrite Nat2N.inj_succ, N.pow_succ_r' in Hx. apply N.Div0.div_lt_upper_bound. lia. }
    assert (forall acc', digits acc' (pretty_N_go (x `div` 10) (String (pretty_N_char (x `mod` 10)) s)) =
       digits (acc' * (10 * k) + Z.of_N x) s) as E'.
    { intros acc'. rewrite E. simpl. rewrite digit_pretty by (apply N.mod_lt; lia). f_equal.
      pose proof (N.div_mod' x 10) as D. lia. }
    exists (10 * k). split_and!; [lia | done | intros ->; rewrite E'; f_equal; lia].
Qed.

Lemma decimal_pretty (x : N) : decimal (pretty x) = Some (Z.of_N x).
Proof.
  unfold pretty, pretty_N. destruct (decide (x = 0%N)) as [->|Hx]; [done|].
  destruct (digits_pretty_go x "" 0 (N.to_nat (N.size x))) as (k & Hk & _ & E).
  { rewrite N2Nat.id. apply N.size_gt. }
  specialize (E eq_refl). simpl in E. unfold decimal.
  destruct (pretty_N_go x "") eqn:Ep; [|done].
  simpl in E. injection E. lia.
Qed.

Lemma digit_dash : digit "-" = None.
Proof. done. Qed.

Lemma digits_not_dash acc c s n : digits acc (String c s) = Some n -> c ≠ "-"%char.
Proof. simpl. intros E ->. by rewrite digit_dash in E. Qed.

Lemma strings_Split_dash acc s n t :
  digits acc s = Some n -> strings_Split (s +:+ String "-" t) "-" = s :: strings_Split t "-".
Proof.
  revert acc. induction s as [|c s IH]; intros acc E.
  - reflexivity.
  - pose proof (digits_not_dash _ _ _ _ E) as Hc. simpl in E |- *.
    destruct (digit c); [|done]. by rewrite decide_False, (IH _ E) by done.
Qed.

Lemma strings_Split_digits acc s n : digits acc s = Some n -> strings_Split s "-" = [s].
Proof.
  revert acc. induction s as [|c s IH]; intros acc E; [done|].
  pose proof (digits_not_dash _ _ _ _ E) as Hc. simpl in E |- *.
  destruct (digit c); [|done]. by rewrite decide_False, (IH _ E) by done.
Qed.

Lemma digits_dash acc s t : digits acc (s +:+ String "-" t) = None.
Proof.
  revert acc. induction s as [|c s IH]; intros acc; [done|]. simpl.
  by destruct (digit c).
Qed.

Lemma digit_is_not_sign c d : digit c = Some d -> c ≠ "+"%char /\ c ≠ "-"%char.
Proof. intros E. split; by intros ->. Qed.

(** On a string that starts with a digit [Atoi] reads a plain decimal number. *)
Lemma strconv_Atoi_digit c d s :
  digit c = Some d ->
  strconv_Atoi (String c s) =
    match digits 0 (String c s) with
    | Some n => if decide (in_i64 n) then Some n else None
    | None => None
    end.
Proof.
  intros E. apply digit_is_not_sign in E as [H1 H2]. unfold strconv_Atoi.
  destruct (ascii_dec c "+") as [->|_]; [done|]. destruct (ascii_dec c "-") as [->|_]; [done|].
  destruct c as [[] [] [] [] [] [] [] []]; done.
Qed.

Lemma pretty_cons (x : N) : exists c d s, pretty x = String c s /\ digit c = Some d /\
  digits 0 (String c s) = Some (Z.of_N x).
Proof.
  pose proof (decimal_pretty x) as E. unfold decimal in E.
  destruct (pretty x) as [|c s]; [done|]. simpl in E. destruct (digit c) as [d|] eqn:Ed; [|done].
  exists c, d, s. simpl. by rewrite Ed.
Qed.

Lemma strconv_Atoi_pretty (x : N) : Z.of_N x < 2 ^ 63 -> strconv_Atoi (pretty x) = Some (Z.of_N x).
Proof.
  intros Hx. destruct (pretty_cons x) as (c & d & s & -> & Ed & E).
  rewrite (strconv_Atoi_digit c d) by done. rewrite E, decide_True; [done|unfold in_i64; lia].
Qed.

Lemma strconv_Atoi_dash (x : N) t : strconv_Atoi (pretty x +:+ String "-" t) = None.
Proof.
  destruct (pretty_cons x) as (c & d & s & -> & Ed & E).
  change (String c s +:+ String "-" t) with (String c (s +:+ String "-" t)).
  rewrite (strconv_Atoi_digit c d) by done. pose proof (digits_dash 0 (String c s) t) as Hd.
  change (String c s +:+ String "-" t) with (String c (s +:+ String "-" t)) in Hd. by rewrite Hd.
Qed.

Lemma strings_Split_range (x y : N) :
  strings_Split (pretty x +:+ String "-" (pretty y)) "-" = [pretty x; pretty y].
Proof.
  destruct (pretty_cons x) as (c & d & s & -> & Ed & E).
  rewrite (strings_Split_dash 0 _ (Z.of_N x)) by done. f_equal.
  destruct (pretty_cons y) as (c' & d' & s' & -> & Ed' & E'). by apply (strings_Split_digits 0 _ (Z.of_N y)).
Qed.

(** ** Correctness *)

Section Correctness.

Context (FisherYatesShuffle : list Z -> list Z) (handler : Z -> option error).
Context (shuffle_perm : forall l, FisherYatesShuffle l ≡ₚ l).

Lemma firstFree_Some ports p : firstFree handler ports = Some p -> p ∈ ports /\ handler p = None.
Proof.
  induction ports as [|q ports IH]; [done|]. simpl. destruct (handler q) eqn:E.
  - intros [? ?]%IH. set_solver.
  - intros [=<-]. set_solver.
Qed.

Lemma firstFree_None ports p : firstFree handler ports = None -> p ∈ ports -> handler p ≠ None.
Proof.
  induction ports as [|q ports IH]; simpl; [set_solver|].
  destruct (handler q) eqn:E; [|done]. intros Hn [->|Hin]%elem_of_cons; [congruence | auto].
Qed.

Lemma getPort_range (a b : N) :
  Z.of_N a < 2 ^ 63 -> Z.of_N b < 2 ^ 63 -> Z.of_N b - Z.of_N a < maxPorts ->
  getPort FisherYatesShuffle handler (pretty a) = Ret (Ok (Z.of_N a)) /\
  match getPort FisherYatesShuffle handler (pretty a +:+ String "-" (pretty b)) with
  | Panic => False
  | Ret (Ok p) => minRangePortValue <= Z.of_N a <= p /\ p <= Z.of_N b /\ handler p = None
  | Ret (Err e) =>
      (errors_Is e ErrNoFreePortInRange = true /\ minRangePortValue <= Z.of_N a <= Z.of_N b /\
       forall p, Z.of_N a <= p <= Z.of_N b -> handler p ≠ None) \/
      (errors_Is e ErrInvalidValue = true /\ Z.of_N a < minRangePortValue) \/
      (e = ErrEndPortIsSmallerThanStartPort /\ minRangePortValue <= Z.of_N a /\ Z.of_N b < Z.of_N a)
  end.
Proof.
  intros Ha Hb Hd. split.
  - unfold getPort. rewrite strconv_Atoi_pretty by done. by rewrite (proj2 (Z.ltb_ge _ _)) by lia.
  - unfold getPort. rewrite strconv_Atoi_dash, strings_Split_range, !strconv_Atoi_pretty by done.
    destruct (Z.ltb_spec (Z.of_N a) minRangePortValue); [by right; left|].
    destruct (Z.ltb_spec (Z.of_N b) (Z.of_N a)); [by right; right|].
    unfold choosePort. rewrite Z.gtb_ltb, (proj2 (Z.ltb_ge _ _)) by lia.
    destruct (firstFree _ _) as [p|] eqn:E.
    + apply firstFree_Some in E as [Hin Hf]. rewrite shuffle_perm, elem_of_seqZ in Hin. split_and!; [lia..|done].
    + left. split_and!; [done|lia..|]. intros p Hp. apply (firstFree_None _ _ E).
      rewrite shuffle_perm, elem_of_seqZ. lia.
Qed.

End Correctness.

Section Opening.

Context {O : Type} `{TCPStackLaws O} (FisherYatesShuffle : list Z -> list Z).
Context (shuffle_perm : forall l, FisherYatesShuffle l ≡ₚ l).
Implicit Types (o : O).

(** Trying a port leaves nothing behind and succeeds when one can listen there. *)
Lemma checkFreePort_spec o port :
  (checkFreePort o port).1 = o /\ ((checkFreePort o port).2 = None <-> can_listen o port).
Proof.
  unfold checkFreePort, can_listen. destruct (ResolveTCPAddr o "tcp" (localhost port)) as [addr|err].
  - destruct (ListenTCP o "tcp" addr) as [o' [l|err]] eqn:E; cbn [fst snd].
    + split; [by eapply Close_Listen|]. split; [|done]. intros _. by exists addr, o', l.
    + split; [by eapply Listen_fails|]. split; [done|]. intros (? & ? & ? & [= <-] & ?). congruence.
  - split; [done|]. split; [done|]. by intros (? & ? & ? & [=] & _).
Qed.

(** Choice of the port.  A literal number is taken as it is: it is not tried, and
    has no upper bound.  For a range [start-end] that begins at 1025 or later, the
    port that is returned lies in the range and the node can listen on it; the only
    error is that one can listen on no port of the range.  Ranges that begin lower or
    are reversed are refused.  Trying the ports leaves no listener behind. *)
Theorem getPort_spec o (a b : N) :
  let handler p := (checkFreePort o p).2 in
  Z.of_N a < 2 ^ 63 -> Z.of_N b < 2 ^ 63 -> Z.of_N b - Z.of_N a < maxPorts ->
  getPort FisherYatesShuffle handler (pretty a) = Ret (Ok (Z.of_N a)) /\
  match getPort FisherYatesShuffle handler (pretty a +:+ String "-" (pretty b)) with
  | Panic => False
  | Ret (Ok p) => minRangePortValue <= Z.of_N a <= p /\ p <= Z.of_N b /\ can_listen o p
  | Ret (Err e) =>
      (errors_Is e ErrNoFreePortInRange = true /\ minRangePortValue <= Z.of_N a <= Z.of_N b /\
       forall p, Z.of_N a <= p <= Z.of_N b -> ~ can_listen o p) \/
      (errors_Is e ErrInvalidValue = true /\ Z.of_N a < minRangePortValue) \/
      (e = ErrEndPortIsSmallerThanStartPort /\ minRangePortValue <= Z.of_N a /\ Z.of_N b < Z.of_N a)
  end /\
  (forall p, (checkFreePort o p).1 = o).
Proof.
  intros handler Ha Hb Hd. destruct (getPort_range FisherYatesShuffle handler shuffle_perm a b Ha Hb Hd) as [P1 P2].
  split_and!; [done| |intros p; by destruct (checkFreePort_spec o p)].
  destruct (getPort _ _ (pretty a +:+ _)) as [[p|e]|]; [| |done].
  - destruct P2 as (? & ? & Hp). split_and!; try lia. by apply checkFreePort_spec.
  - destruct P2 as [(? & ? & Hp)|?]; [left; split_and!; try done; try lia | by right].
    intros p Hin Hc%checkFreePort_spec. by apply (Hp p).
Qed.

End Opening.

Module Witness.

(** The ports in use; port numbers go up to 65535. *)
Definition unlocalhost (addr : string) : option Z :=
  match strings_Split addr ":" with [_; port] => strconv_Atoi port | _ => None end.

#[export] Instance tcp : TCPStack (list Z) := {
  tcp_addr := Z;
  tcp_listener := Z;
  ResolveTCPAddr _ _ addr :=
    match unlocalhost addr with
    | Some port => if port <? 65536 then Ok port else Err (ErrText "invalid port")
    | None => Err (ErrText "missing port")
    end;
  ListenTCP used _ port :=
    if bool_decide (port ∈ used) then (used, Err (ErrText "address already in use")) else (port :: used, Ok port);
  CloseListener used _ := tail used
}.

#[export] Instance tcp_laws : TCPStackLaws (list Z).
Proof.
  constructor; cbn; intros o _ addr o' x; case_bool_decide; by intros [= <- <-] || intros [= <-].
Qed.

(** Every port of the range but 1027 is in use; the shuffle reverses the list. *)
Definition used : list Z := [1025; 1026; 1028; 1029; 1030].
Definition handler (p : Z) : option error := (checkFreePort used p).2.

Lemma getPort_spec_witness :
  getPort (@reverse Z) handler "1025" = Ret (Ok 1025) /\
  getPort (@reverse Z) handler "1025-1030" = Ret (Ok 1027) /\ can_listen used 1027.
Proof.
  destruct (getPort_spec (@reverse Z) (fun l => reverse_Permutation l) used 1025 1030
              ltac:(lia) ltac:(lia) ltac:(unfold maxPorts; lia)) as (P & Q & _).
  split; [exact P|]. assert (getPort (@reverse Z) handler "1025-1030" = Ret (Ok 1027)) as E by (vm_compute; reflexivity).
  split; [exact E|]. change (pretty 1025%N +:+ String "-" (pretty 1030%N)) with "1025-1030"%string in Q.
  fold handler in Q. rewrite E in Q. apply Q.
Defined.

Example getPort_negative : getPort id handler "-5" =
  Ret (Err (ErrWrap ErrInvalidPortValue ", -5 does not represent a positive value for port")).
Proof. reflexivity. Qed.

Example getPort_above_65535 : getPort id handler "70000" = Ret (Ok 70000).
Proof. reflexivity. Qed.

End Witness.
