(* ===== verification/PeersOnChannel.v ===== *)
(** * PeersOnChannel: the peers known on each topic ([libp2p/peersOnChannel.go])

    A cache of the peer lists of the topics.  The pubsub query
    [fetchPeersHandler] and the clock are environment functions of each call; the
    rating handler is used through its interface.  The lists that are stored come
    from [make], so a stored list is never nil and the test [peers != nil] is the
    presence of the key. *)

From S2P Require Import Prelude Errors Interfaces.
From Stdlib Require Import ZArith Lia String.
From stdpp Require Import prelude gmap strings list.

Local Open Scope Z_scope.

Section PeersOnChannel.

Context `{MapRange} {R : Type} `{PeersRatingHandler R}.

Record peersOnChannel : Type := mk {
  peersRatingHandler : R;
  peers : gmap string (list PeerID);
  lastUpdated : gmap string Z;
  refreshInterval : Z;
  ttlInterval : Z;
  cancelled : bool
}.

Implicit Types (poc : peersOnChannel) (topic : string).

Definition newPeersOnChannel (rating : option R) (fetchPeersHandler : option (string -> list PeerID))
    (refreshInterval ttlInterval : Z) : result peersOnChannel :=
  match rating, fetchPeersHandler with
  | None, _ => Err ErrNilPeersRatingHandler
  | Some _, None => Err ErrNilFetchPeersOnTopicHandler
  | Some rating, Some _ =>
      if refreshInterval =? 0 then Err ErrInvalidDurationProvided
      else if ttlInterval =? 0 then Err ErrInvalidDurationProvided
      else Ok (mk rating ∅ ∅ refreshInterval ttlInterval false)
  end.

(** [now] is the reading of [getTimeHandler]. *)
Definition updateConnectedPeersOnTopic (now : Z) poc topic (connectedPeers : list PeerID) : peersOnChannel :=
  mk (peersRatingHandler poc) (<[topic := connectedPeers]> (peers poc))
     (<[topic := now]> (lastUpdated poc)) (refreshInterval poc) (ttlInterval poc) (cancelled poc).

Definition refreshPeersOnTopic (fetchPeersHandler : string -> list PeerID) (now : Z) poc topic :
    list PeerID * peersOnChannel :=
  let list := fetchPeersHandler topic in
  let rating := fold_left (fun h peerID => prh_AddPeer h peerID) list (peersRatingHandler poc) in
  let poc := mk rating (peers poc) (lastUpdated poc) (refreshInterval poc) (ttlInterval poc) (cancelled poc) in
  (list, updateConnectedPeersOnTopic now poc topic list).

Definition ConnectedPeersOnChannel (fetchPeersHandler : string -> list PeerID) (now : Z) poc topic :
    list PeerID * peersOnChannel :=
  match peers poc !! topic with
  | Some peers => (peers, poc)
  | None => refreshPeersOnTopic fetchPeersHandler now poc topic
  end.

(** The topics that need a refresh: the list a round builds under the lock. *)
Definition topicsToBeRefreshed (now : string -> Z) poc : list string :=
  (filter (fun tl => now tl.1 - tl.2 > ttlInterval poc) (go_range (lastUpdated poc))).*1.

(** One round of the loop of [refreshPeersOnAllKnownTopics]; [now] and [later]
    are the clock readings while the list is built and while topics are refreshed. *)
Definition refreshRound (fetchPeersHandler : string -> list PeerID) (now later : string -> Z) poc :
    peersOnChannel :=
  fold_left (fun poc topic => (refreshPeersOnTopic fetchPeersHandler (later topic) poc topic).2)
    (topicsToBeRefreshed now poc) poc.

(** The loop: it waits for the interval or for the cancellation. *)
Definition refreshPeersOnAllKnownTopics (fetchPeersHandler : string -> list PeerID)
    (now later : string -> Z) poc : option peersOnChannel :=
  if cancelled poc then None else Some (refreshRound fetchPeersHandler now later poc).

Definition Close poc : option error * peersOnChannel :=
  (None, mk (peersRatingHandler poc) (peers poc) (lastUpdated poc) (refreshInterval poc) (ttlInterval poc) true).

(** ** Correctness *)

(** Every cached list has an update time. *)
Definition timed poc : Prop := forall topic, is_Some (peers poc !! topic) <-> is_Some (lastUpdated poc !! topic).

Lemma timed_refresh fetch now poc topic : timed poc -> timed (refreshPeersOnTopic fetch now poc topic).2.
Proof. intros T t. simpl. destruct (decide (topic = t)); simplify_map_eq; [by split | apply T]. Qed.

Lemma refresh_fold fetch later topics poc t :
  let poc' := fold_left (fun poc topic => (refreshPeersOnTopic fetch (later topic) poc topic).2) topics poc in
  (t ∈ topics -> peers poc' !! t = Some (fetch t) /\ lastUpdated poc' !! t = Some (later t)) /\
  (t ∉ topics -> peers poc' !! t = peers poc !! t /\ lastUpdated poc' !! t = lastUpdated poc !! t).
Proof.
  revert poc. induction topics as [|topic topics IH]; intros poc;
    [simpl; set_solver|]. cbn zeta. cbn [fold_left].
  destruct (IH (refreshPeersOnTopic fetch (later topic) poc topic).2) as [I1 I2]. split.
  - intros Hin. destruct (decide (t ∈ topics)) as [|Hn]; [auto|].
    destruct (I2 Hn) as [-> ->]. assert (topic = t) as -> by set_solver.
    unfold refreshPeersOnTopic. simpl. by simplify_map_eq.
  - intros Hn. rewrite not_elem_of_cons in Hn. destruct Hn as [Hne Hn]. destruct (I2 Hn) as [-> ->].
    unfold refreshPeersOnTopic. simpl. by simplify_map_eq.
Qed.

Lemma elem_of_topicsToBeRefreshed now poc t :
  t ∈ topicsToBeRefreshed now poc <->
  exists u, lastUpdated poc !! t = Some u /\ now t - u > ttlInterval poc.
Proof.
  unfold topicsToBeRefreshed. rewrite list_elem_of_fmap. split.
  - intros ([t' u] & -> & [Hf Hin]%list_elem_of_filter). exists u. by rewrite <- elem_of_go_range.
  - intros (u & Hu & Hlt). exists (t, u). split; [done|]. apply list_elem_of_filter.
    by rewrite elem_of_go_range.
Qed.

(** Freshness.  After a round of the refresh loop every known topic either
    was refreshed in this round, and then its list is what pubsub reports and its
    age restarts, or was at most [ttlInterval] old and is unchanged.  A lookup
    serves the cached list of a known topic and fetches, stores and rates the
    peers of an unknown one. *)
Theorem peersOnChannel_freshness fetch now later poc t :
  timed poc ->
  let poc' := refreshRound fetch now later poc in
  timed poc' /\
  match lastUpdated poc !! t with
  | None => peers poc' !! t = None /\
      ConnectedPeersOnChannel fetch (later t) poc t =
        (fetch t, updateConnectedPeersOnTopic (later t)
           (mk (fold_left prh_AddPeer (fetch t) (peersRatingHandler poc)) (peers poc) (lastUpdated poc)
               (refreshInterval poc) (ttlInterval poc) (cancelled poc)) t (fetch t))
  | Some u =>
      (now t - u > ttlInterval poc /\ peers poc' !! t = Some (fetch t) /\ lastUpdated poc' !! t = Some (later t)) \/
      (now t - u <= ttlInterval poc /\ peers poc' !! t = peers poc !! t /\ lastUpdated poc' !! t = Some u /\
       (forall now', (ConnectedPeersOnChannel fetch now' poc t).2 = poc) /\
       Some (ConnectedPeersOnChannel fetch 0 poc t).1 = peers poc !! t)
  end.
Proof.
  intros T poc'. split.
  - unfold poc', refreshRound. generalize (topicsToBeRefreshed now poc) as l. intros l.
    revert poc poc' T. induction l as [|x l IH]; intros poc poc' T; [done|]. simpl.
    apply IH. by apply timed_refresh.
  - pose proof (refresh_fold fetch later (topicsToBeRefreshed now poc) poc t) as [R1 R2].
    change (fold_left _ (topicsToBeRefreshed now poc) poc) with poc' in R1, R2.
    rewrite elem_of_topicsToBeRefreshed in R1, R2.
    unfold ConnectedPeersOnChannel. destruct (lastUpdated poc !! t) as [u|] eqn:Eu.
    + destruct (decide (now t - u > ttlInterval poc)) as [Hg|Hle].
      * left. destruct R1 as [-> ->]; [by exists u|]. done.
      * right. destruct R2 as [-> ->]; [intros (? & [= <-] & ?); lia|].
        destruct (proj2 (T t)) as [l Hl]; [by rewrite Eu|]. rewrite Hl. split_and!; done || lia.
    + destruct R2 as [-> _]; [by intros (? & [=] & _)|].
      assert (peers poc !! t = None) as ->; [|done].
      apply eq_None_not_Some. intros Hs%T. rewrite Eu in Hs. by destruct Hs.
Qed.

End PeersOnChannel.
Arguments peersOnChannel : clear implicits.
Arguments mk {R}.

Module Witness.

(** A rating handler that remembers the peers it was given. *)
#[local] Instance collector : PeersRatingHandler (list PeerID) := {
  prh_AddPeer h p := p :: h;
  prh_IncreaseRating h _ := h;
  prh_DecreaseRating h _ := h;
  prh_GetTopRatedPeersFromList h l _ := (l, h)
}.

Definition fetch (topic : string) : list PeerID := if decide (topic = "t") then ["p1"; "p2"] else [].
Definition poc : peersOnChannel (list PeerID) :=
  mk [] {["t" := ["p0"]]} {["t" := 5]} 3 10 false.

Lemma poc_timed : timed poc.
Proof.
  intros t. unfold poc. simpl. destruct (decide (t = "t")) as [->|Hne].
  - rewrite !lookup_singleton_eq. by split.
  - rewrite !lookup_singleton_ne by done. split; intros [? ?]; done.
Qed.

Lemma peersOnChannel_freshness_witness :
  peers (refreshRound fetch (fun _ => 20) (fun _ => 21) poc) !! "t" = Some ["p1"; "p2"].
Proof.
  destruct (peersOnChannel_freshness fetch (fun _ => 20) (fun _ => 21) poc "t" poc_timed) as [_ Q].
  simpl in Q. destruct Q as [(_ & Q & _)|[Hle _]]; [exact Q | exfalso; lia].
Defined.

End Witness.
