(* ===== verification/LoadBalancer.v ===== *)
(** * LoadBalancer: the outgoing channel load balancer ([libp2p/outgoingChannelLoadBalancer.go])

    Named channels feed one main channel: each channel has a goroutine that
    receives an object from it and then sends it to the main channel, from which
    [CollectOneElementFromChannels] reads.  The balancer's own methods are
    functions on its state (they run under its mutex); the goroutines and the
    channels are a step relation, a channel being identified by its address.  The
    channels are unbuffered, so a send and the receive that matches it are one
    step. *)

From S2P Require Import Prelude Errors Interfaces.
From Stdlib Require Import ZArith Lia String.
From stdpp Require Import prelude gmap strings list sets.

Section LoadBalancer.

(** A [*SendableData] that is not nil. *)
Context {SendableData : Type}.

Definition defaultSendChannel : string := "default send channel".

Record OutgoingChannelLoadBalancer : Type := mk {
  chans : list nat;
  names : list string;
  namesChans : gmap string nat;
  ctx_done : bool;
  next_chan : nat
}.

(** What the goroutine of a channel is doing: waiting for an object, or for the
    main channel with the object it received (nil from a closed channel). *)
Inductive goroutine : Type :=
| Receiving
| Forwarding (obj : option SendableData)
| Stopped.

Record world : Type := mkWorld {
  oplb : OutgoingChannelLoadBalancer;
  closed : gset nat;
  goroutines : gmap nat goroutine
}.

Implicit Types (w : world) (channel : string) (c : nat).

Definition appendChannel w channel : world :=
  let lb := oplb w in
  let ch := next_chan lb in
  mkWorld (mk (chans lb ++ [ch]) (names lb ++ [channel]) (<[channel := ch]> (namesChans lb))
              (ctx_done lb) (S ch))
          (closed w) (<[ch := Receiving]> (goroutines w)).

Definition NewOutgoingChannelLoadBalancer : world :=
  appendChannel (mkWorld (mk [] [] ∅ false 0) ∅ ∅) defaultSendChannel.

Definition AddChannel w channel : option error * world :=
  if decide (channel = defaultSendChannel) then (Some (ErrSentinel ErrChannelCanNotBeReAdded), w)
  else if existsb (fun name => bool_decide (name = channel)) (names (oplb w)) then (None, w)
  else (None, appendChannel w channel).

(** The loop that looks for the name. *)
Fixpoint indexOf (l : list string) channel : option nat :=
  match l with
  | [] => None
  | name :: l' => if decide (name = channel) then Some 0 else (S <$> indexOf l' channel)
  end.

(** [copy(s[index:], s[index+1:])] and the truncation by one. *)
Definition slice_cut {A} (index : nat) (l : list A) : list A := take index l ++ drop (S index) l.

Definition RemoveChannel w channel : option error * world :=
  if decide (channel = defaultSendChannel) then (Some (ErrSentinel ErrChannelCanNotBeDeleted), w)
  else
    let lb := oplb w in
    match indexOf (names lb) channel with
    | None => (Some (ErrSentinel ErrChannelDoesNotExist), w)
    | Some index =>
        let lb' := mk (slice_cut index (chans lb)) (slice_cut index (names lb))
                      (delete channel (namesChans lb)) (ctx_done lb) (next_chan lb) in
        match chans lb !! index with
        | Some sendableChan => (None, mkWorld lb' ({[sendableChan]} ∪ closed w) (goroutines w))
        | None => (None, w)
        end
    end.

(** [oplb.chans[0]] exists: the default channel is never removed. *)
Definition GetChannelOrDefault w channel : option nat :=
  match namesChans (oplb w) !! channel with
  | Some ch => Some ch
  | None => chans (oplb w) !! 0
  end.

Definition Close w : option error * world :=
  let lb := oplb w in
  (None, mkWorld (mk (chans lb) (names lb) (namesChans lb) true (next_chan lb)) (closed w) (goroutines w)).

Definition set_goroutine w c (g : goroutine) : world :=
  mkWorld (oplb w) (closed w) (<[c := g]> (goroutines w)).

(** What an observer of the channels sees. *)
Inductive event : Type :=
| Call
| Sent (c : nat) (obj : SendableData)
| SendPanic (c : nat)
| Moved
| Collected (c : nat) (obj : option SendableData)
| CollectedDone.

Inductive step : world -> event -> world -> Prop :=
| step_add w channel : step w Call (AddChannel w channel).2
| step_remove w channel : step w Call (RemoveChannel w channel).2
| step_close w : step w Call (Close w).2
(* a client sends on a channel, its goroutine receives *)
| step_send w c obj :
    goroutines w !! c = Some Receiving -> c ∉ closed w ->
    step w (Sent c obj) (set_goroutine w c (Forwarding (Some obj)))
(* a client sends on a closed channel *)
| step_send_closed w c : c ∈ closed w -> step w (SendPanic c) w
(* a goroutine receives from a closed channel: the zero value, nil *)
| step_receive_closed w c :
    goroutines w !! c = Some Receiving -> c ∈ closed w ->
    step w Moved (set_goroutine w c (Forwarding None))
(* the main channel: the goroutine sends, CollectOneElementFromChannels receives *)
| step_collect w c obj :
    goroutines w !! c = Some (Forwarding obj) ->
    step w (Collected c obj) (set_goroutine w c Receiving)
| step_collect_done w : ctx_done (oplb w) = true -> step w CollectedDone w
| step_stop w c :
    goroutines w !! c = Some Receiving -> ctx_done (oplb w) = true ->
    step w Moved (set_goroutine w c Stopped).

Inductive run : world -> list event -> world -> Prop :=
| run_nil w : run w [] w
| run_snoc w es w' e w'' : run w es w' -> step w' e w'' -> run w (es ++ [e]) w''.

(** The executions of the program start from a new balancer. *)
Definition execution (es : list event) w : Prop := run NewOutgoingChannelLoadBalancer es w.

(** ** Names and channels *)

(** The three containers describe one list of named channels, the default channel
    first, and a listed channel is open. *)
Record wf w : Prop := {
  wf_default : exists rest, names (oplb w) = defaultSendChannel :: rest;
  wf_names : NoDup (names (oplb w));
  wf_length : length (names (oplb w)) = length (chans (oplb w));
  wf_map n c : namesChans (oplb w) !! n = Some c <-> (n, c) ∈ zip (names (oplb w)) (chans (oplb w));
  wf_chans : NoDup (chans (oplb w));
  wf_next c : c ∈ chans (oplb w) \/ c ∈ closed w \/ is_Some (goroutines w !! c) -> c < next_chan (oplb w);
  wf_open c : c ∈ chans (oplb w) -> c ∉ closed w;
  wf_goroutine c : c ∈ chans (oplb w) -> is_Some (goroutines w !! c)
}.

Lemma existsb_name l channel :
  existsb (fun name => bool_decide (name = channel)) l = true <-> channel ∈ l.
Proof.
  rewrite existsb_exists. setoid_rewrite bool_decide_eq_true. split.
  - intros (? & Hin & ->). by apply list_elem_of_In.
  - intros Hin. exists channel. by rewrite <- list_elem_of_In.
Qed.

Lemma indexOf_Some l channel i : indexOf l channel = Some i -> l !! i = Some channel.
Proof.
  revert i. induction l as [|x l IH]; intros i; simpl; [done|].
  case_decide; [by intros [= <-]; subst |].
  intros (j & Hj & ->)%fmap_Some. by apply IH.
Qed.

Lemma indexOf_None l channel : indexOf l channel = None <-> channel ∉ l.
Proof.
  induction l as [|x l IH]; simpl; [set_solver|].
  case_decide; [set_solver|]. rewrite fmap_None.
  split; [intros E%IH; set_solver | intros Hn; apply IH; set_solver].
Qed.

Lemma wf_append w channel : wf w -> channel ∉ names (oplb w) -> wf (appendChannel w channel).
Proof.
  intros [(rest & D) Nn L M Nc Nx O G] Hnew.
  assert (next_chan (oplb w) ∉ chans (oplb w)) as Hf by (intros Hin; apply (Nat.lt_irrefl (next_chan (oplb w))); auto).
  constructor; simpl.
  - exists (rest ++ [channel]). by rewrite D.
  - rewrite NoDup_app. split_and!; [done | set_solver | apply NoDup_singleton].
  - rewrite !length_app. simpl. lia.
  - intros n c. rewrite zip_with_app by done. simpl. rewrite elem_of_app, list_elem_of_singleton, <- M.
    destruct (decide (channel = n)) as [<-|Hne]; simplify_map_eq.
    + split; [intros [= <-]; auto|]. intros [Hm|[= <-]]; [|done]. exfalso. apply M in Hm.
      apply elem_of_zip_l in Hm. done.
    + split; [auto | intros [?|[= -> ->]]; done].
  - rewrite NoDup_app. split_and!; [done | set_solver | apply NoDup_singleton].
  - intros c. rewrite elem_of_app, list_elem_of_singleton. intros [[Hc| ->]|[Hc|Hc]]; [| lia | |].
    1,2: apply Nat.lt_lt_succ_r; auto.
    destruct (decide (next_chan (oplb w) = c)) as [<-|Hne]; [lia|]. simplify_map_eq.
    apply Nat.lt_lt_succ_r; auto.
  - intros c [Hc|Hc%list_elem_of_singleton]%elem_of_app; [auto|]. subst.
    intros Hin. apply (Nat.lt_irrefl (next_chan (oplb w))). auto.
  - intros c [Hc|Hc%list_elem_of_singleton]%elem_of_app; [|subst; by simplify_map_eq].
    destruct (decide (next_chan (oplb w) = c)); simplify_map_eq; auto.
Qed.

Lemma slice_cut_middle {A} (a b : list A) x : slice_cut (length a) (a ++ x :: b) = a ++ b.
Proof.
  unfold slice_cut. rewrite take_app_length. f_equal.
  by rewrite drop_app_ge, Nat.sub_succ_l, Nat.sub_diag by lia.
Qed.

(** The effect of a removal that finds the name. *)
Lemma RemoveChannel_listed w channel :
  wf w -> channel ≠ defaultSendChannel -> channel ∈ names (oplb w) ->
  exists na nb ca cb c,
    names (oplb w) = na ++ channel :: nb /\ chans (oplb w) = ca ++ c :: cb /\ length na = length ca /\
    namesChans (oplb w) !! channel = Some c /\
    RemoveChannel w channel =
      (None, mkWorld (mk (ca ++ cb) (na ++ nb) (delete channel (namesChans (oplb w)))
                         (ctx_done (oplb w)) (next_chan (oplb w)))
                     ({[c]} ∪ closed w) (goroutines w)).
Proof.
  intros [D Nn L M Nc Nx O G] Hne Hin.
  destruct (indexOf (names (oplb w)) channel) as [i|] eqn:Ei; [|by apply indexOf_None in Ei].
  pose proof (indexOf_Some _ _ _ Ei) as Hi.
  destruct (chans (oplb w) !! i) as [c|] eqn:Hc.
  2: { apply lookup_ge_None in Hc. apply lookup_lt_Some in Hi. lia. }
  apply take_drop_middle in Hi as Hn. apply take_drop_middle in Hc as Hcs.
  exists (take i (names (oplb w))), (drop (S i) (names (oplb w))),
    (take i (chans (oplb w))), (drop (S i) (chans (oplb w))), c.
  split_and!; try done.
  - rewrite !length_take. lia.
  - apply M. apply elem_of_lookup_zip_with. by exists i, channel, c.
  - unfold RemoveChannel. rewrite decide_False, Ei, Hc by done. done.
Qed.

Lemma wf_remove w channel : wf w -> wf (RemoveChannel w channel).2.
Proof.
  intros W. destruct (decide (channel = defaultSendChannel)) as [->|Hne].
  { unfold RemoveChannel. by rewrite decide_True. }
  destruct (decide (channel ∈ names (oplb w))) as [Hin|Hn].
  2: { unfold RemoveChannel. rewrite decide_False by done. by rewrite (proj2 (indexOf_None _ _) Hn). }
  destruct (RemoveChannel_listed w channel W Hne Hin) as (na & nb & ca & cb & c & En & Ec & El & Em & ->).
  destruct W as [(rest & D) Nn L M Nc Nx O G]. rewrite En in Nn, D, L, M. rewrite Ec in L, M, Nc, Nx, O, G.
  assert (length nb = length cb) as El2 by (rewrite !length_app in L; simpl in L; lia).
  rewrite NoDup_app, NoDup_cons in Nn. rewrite NoDup_app, NoDup_cons in Nc. destruct Nn as (Na & Nab & Nx1 & Nb), Nc as (Ca & Cab & Cx & Cb).
  constructor; simpl.
  - destruct na as [|d na]; simpl in D; [congruence|]. injection D as -> D. by exists (na ++ nb).
  - rewrite NoDup_app. split_and!; try done. intros x Hx. specialize (Nab x Hx). set_solver.
  - rewrite !length_app. lia.
  - intros n c'. rewrite zip_with_app in M |- * by done. specialize (M n c'). simpl in M.
    rewrite elem_of_app, elem_of_cons in M. rewrite elem_of_app.
    destruct (decide (channel = n)) as [<-|Hnn].
    + rewrite lookup_delete_eq. split; [done|]. intros [Hz|Hz]; apply elem_of_zip_l in Hz; [|done].
      specialize (Nab _ Hz). set_solver.
    + rewrite lookup_delete_ne, M by done. split; [|tauto]. intros [?|[[= -> ->]|?]]; [auto | done | auto].
  - rewrite NoDup_app. split_and!; try done. intros x Hx. specialize (Cab x Hx). set_solver.
  - intros x Hx. apply Nx. set_unfold. naive_solver.
  - intros x Hx [->%elem_of_singleton|Hcl]%elem_of_union.
    + apply elem_of_app in Hx as [Hx|Hx]; [specialize (Cab _ Hx); set_solver | done].
    + eapply O; [|done]. set_solver.
  - intros x Hx. apply G. set_solver.
Qed.

Lemma wf_new : wf NewOutgoingChannelLoadBalancer.
Proof.
  constructor; simpl.
  - by exists [].
  - apply NoDup_singleton.
  - done.
  - intros n c. rewrite list_elem_of_singleton.
    destruct (decide (n = defaultSendChannel)) as [->|Hne]; simplify_map_eq; [naive_solver|].
    split; [done | by intros [= -> ->]].
  - apply NoDup_singleton.
  - intros c [Hc|[Hc|[g Hg]]]; [set_solver..|]. destruct (decide (c = 0)) as [->|]; [lia|].
    by simplify_map_eq.
  - set_solver.
  - intros c ->%list_elem_of_singleton. by simplify_map_eq.
Qed.

Lemma wf_set_goroutine w c g : wf w -> is_Some (goroutines w !! c) -> wf (set_goroutine w c g).
Proof.
  intros [D Nn L M Nc Nx O G] Hs. constructor; simpl; try done.
  - intros c' H'. apply Nx. destruct H' as [?|[?|H']]; [auto | auto|]. right; right.
    destruct (decide (c = c')) as [<-|]; [done | by simplify_map_eq].
  - intros c' Hc'. destruct (decide (c = c')) as [<-|]; simplify_map_eq; auto.
Qed.

Lemma AddChannel_cases w channel :
  (AddChannel w channel).2 = w \/
  ((channel ∉ names (oplb w)) /\ AddChannel w channel = (None, appendChannel w channel)).
Proof.
  unfold AddChannel. case_decide; [by left|].
  destruct (existsb _ _) eqn:E; [by left|]. right. split; [|done].
  rewrite <- existsb_name, E. done.
Qed.

Lemma wf_step w e w' : wf w -> step w e w' -> wf w'.
Proof.
  intros W S. destruct S; try done; try (apply wf_set_goroutine; [done | by eexists]).
  - destruct (AddChannel_cases w channel) as [->|[Hn ->]]; [done | by apply wf_append].
  - by apply wf_remove.
  - by destruct W; constructor.
Qed.

Lemma wf_execution es w : execution es w -> wf w.
Proof.
  unfold execution. remember NewOutgoingChannelLoadBalancer as w0 eqn:E0.
  induction 1 as [w|w es w' e w'' R IH S]; [subst; apply wf_new|]. by eapply wf_step; [apply IH|].
Qed.

Lemma zip_lookup_fun w n c1 c2 :
  wf w -> (n, c1) ∈ zip (names (oplb w)) (chans (oplb w)) ->
  (n, c2) ∈ zip (names (oplb w)) (chans (oplb w)) -> c1 = c2.
Proof. intros W H1 H2. apply (wf_map w W) in H1, H2. congruence. Qed.

Lemma listed_namesChans w n :
  wf w -> n ∈ names (oplb w) -> exists c, namesChans (oplb w) !! n = Some c /\ c ∈ chans (oplb w).
Proof.
  intros W (i & Hi)%list_elem_of_lookup.
  destruct (chans (oplb w) !! i) as [c|] eqn:Hc.
  2: { apply lookup_ge_None in Hc. apply lookup_lt_Some in Hi. pose proof (wf_length w W). lia. }
  exists c. split; [|by eapply list_elem_of_lookup_2].
  apply (wf_map w W), elem_of_lookup_zip_with. by exists i, n, c.
Qed.

Lemma namesChans_listed w n c : wf w -> namesChans (oplb w) !! n = Some c -> n ∈ names (oplb w).
Proof. intros W Hm%(wf_map w W). by apply elem_of_zip_l in Hm. Qed.

Lemma GetChannel_default w :
  wf w -> exists d rest, chans (oplb w) = d :: rest /\ namesChans (oplb w) !! defaultSendChannel = Some d.
Proof.
  intros W. destruct (wf_default w W) as [rest D]. pose proof (wf_length w W) as L.
  destruct (chans (oplb w)) as [|d rest'] eqn:Ec; [rewrite D in L; done|].
  exists d, rest'. split; [done|]. apply (wf_map w W). rewrite D, Ec. simpl. set_solver.
Qed.

Lemma GetChannel_unlisted w n d rest :
  wf w -> n ∉ names (oplb w) -> chans (oplb w) = d :: rest -> GetChannelOrDefault w n = Some d.
Proof.
  intros W Hn Ec. unfold GetChannelOrDefault.
  destruct (namesChans (oplb w) !! n) as [c|] eqn:E; [by apply namesChans_listed in E|]. by rewrite Ec.
Qed.

Lemma namesChans_inj w n1 n2 c :
  wf w -> namesChans (oplb w) !! n1 = Some c -> namesChans (oplb w) !! n2 = Some c -> n1 = n2.
Proof.
  intros W H1%(wf_map w W) H2%(wf_map w W).
  apply elem_of_lookup_zip_with in H1 as (i & ? & ? & [= <- <-] & Hn1 & Hc1).
  apply elem_of_lookup_zip_with in H2 as (j & ? & ? & [= <- <-] & Hn2 & Hc2).
  rewrite (NoDup_lookup _ _ _ _ (wf_chans w W) Hc1 Hc2) in Hn1. congruence.
Qed.

Lemma AddChannel_names w n :
  n ≠ defaultSendChannel ->
  names (oplb (AddChannel w n).2) = (if decide (n ∈ names (oplb w)) then names (oplb w) else names (oplb w) ++ [n]).
Proof.
  intros Hne. unfold AddChannel. rewrite decide_False by done.
  destruct (existsb _ _) eqn:E; simpl.
  - apply existsb_name in E. by rewrite decide_True.
  - rewrite decide_False; [done|]. intros Hin%existsb_name. congruence.
Qed.

Lemma RemoveChannel_others w n n' :
  wf w -> n ≠ defaultSendChannel -> n ≠ n' ->
  GetChannelOrDefault (RemoveChannel w n).2 n' = GetChannelOrDefault w n'.
Proof.
  intros W Hd Hne. destruct (decide (n ∈ names (oplb w))) as [Hin|Hn].
  2: { unfold RemoveChannel. rewrite decide_False by done. by rewrite (proj2 (indexOf_None _ _) Hn). }
  destruct (RemoveChannel_listed w n W Hd Hin) as (na & nb & ca & cb & c & En & Ec & El & Em & ->).
  unfold GetChannelOrDefault. simpl. rewrite lookup_delete_ne, Ec by done.
  case_match; [done|]. destruct ca as [|x ca]; [|done]. destruct na as [|y na]; [|done].
  destruct (wf_default w W) as [rest D]. rewrite En in D. simpl in D. congruence.
Qed.

Lemma RemoveChannel_names w n :
  wf w -> n ≠ defaultSendChannel -> n ∉ names (oplb (RemoveChannel w n).2).
Proof.
  intros W Hd. destruct (decide (n ∈ names (oplb w))) as [Hin|Hn].
  - destruct (RemoveChannel_listed w n W Hd Hin) as (na & nb & ca & cb & c & En & Ec & El & Em & ->).
    pose proof (wf_names w W) as Nn. rewrite En, NoDup_app, NoDup_cons in Nn. simpl. set_solver.
  - unfold RemoveChannel. rewrite decide_False by done. by rewrite (proj2 (indexOf_None _ _) Hn).
Qed.

(** Channel lookup.  In every execution a registered channel name has its own
    open channel, different registered names have different channels, and every
    other name gets the open channel of the default name.  Adding registers
    exactly the new name, removing unregisters exactly the removed one, and the
    default channel can be neither added nor removed. *)
Theorem channel_lookup es w n :
  execution es w ->
  (exists c d, GetChannelOrDefault w n = Some c /\ c ∈ chans (oplb w) /\ (c ∉ closed w) /\
    GetChannelOrDefault w defaultSendChannel = Some d /\ (n ∉ names (oplb w) -> c = d) /\
    (forall n', n ∈ names (oplb w) -> n' ∈ names (oplb w) -> n ≠ n' -> GetChannelOrDefault w n' ≠ Some c)) /\
  (n ≠ defaultSendChannel ->
     names (oplb (AddChannel w n).2) =
       (if decide (n ∈ names (oplb w)) then names (oplb w) else names (oplb w) ++ [n]) /\
     (n ∉ names (oplb (RemoveChannel w n).2)) /\
     (forall n', n ≠ n' -> GetChannelOrDefault (RemoveChannel w n).2 n' = GetChannelOrDefault w n')) /\
  AddChannel w defaultSendChannel = (Some (ErrSentinel ErrChannelCanNotBeReAdded), w) /\
  RemoveChannel w defaultSendChannel = (Some (ErrSentinel ErrChannelCanNotBeDeleted), w).
Proof.
  intros X. pose proof (wf_execution _ _ X) as W. split; [|split; [|done]].
  - destruct (GetChannel_default w W) as (d & rest & Ec & Ed).
    assert (GetChannelOrDefault w defaultSendChannel = Some d) as Gd by (unfold GetChannelOrDefault; by rewrite Ed).
    destruct (decide (n ∈ names (oplb w))) as [Hin|Hn].
    + destruct (listed_namesChans w n W Hin) as (c & Ecn & Hc). exists c, d.
      assert (GetChannelOrDefault w n = Some c) as Gn by (unfold GetChannelOrDefault; by rewrite Ecn).
      split_and!; try done; [by apply (wf_open w W)|].
      intros n' _ Hin' Hne G'. destruct (listed_namesChans w n' W Hin') as (c' & Ecn' & _).
      unfold GetChannelOrDefault in G'. rewrite Ecn' in G'. injection G' as ->.
      by apply Hne, (namesChans_inj w n n' c).
    + exists d, d. split_and!; try done; [by eapply GetChannel_unlisted | | ].
      * rewrite Ec. set_solver.
      * apply (wf_open w W). rewrite Ec. set_solver.
  - intros Hd. split_and!.
    + by apply AddChannel_names.
    + by apply RemoveChannel_names.
    + intros n' Hne. by apply RemoveChannel_others.
Qed.

(** ** Delivery *)

(** The objects sent on channel [c], and those of channel [c] that were collected. *)
Definition sent_on c (es : list event) : list SendableData :=
  omap (fun e => match e with Sent c' obj => if decide (c' = c) then Some obj else None | _ => None end) es.
Definition collected_from c (es : list event) : list SendableData :=
  omap (fun e => match e with Collected c' obj => if decide (c' = c) then obj else None | _ => None end) es.
Definition held w c : list SendableData :=
  match goroutines w !! c with Some (Forwarding (Some obj)) => [obj] | _ => [] end.

Lemma channel_fifo_of es w c :
  execution es w -> collected_from c es ++ held w c = sent_on c es.
Proof.
  unfold execution. remember NewOutgoingChannelLoadBalancer as w0 eqn:E0.
  induction 1 as [w|w es w' e w'' R IH S].
  - subst. unfold held. simpl. destruct (decide (c = 0)) as [->|]; by simplify_map_eq.
  - specialize (IH E0). subst w. pose proof (wf_execution _ _ R) as W'.
    assert (forall e', collected_from c (es ++ [e']) = collected_from c es ++ collected_from c [e']) as Ca
      by (intros; apply omap_app).
    assert (forall e', sent_on c (es ++ [e']) = sent_on c es ++ sent_on c [e']) as Sa
      by (intros; apply omap_app).
    rewrite Ca, Sa, <- IH. clear Ca Sa IH R. rewrite <- !app_assoc. f_equal.
    destruct S; unfold held, sent_on, collected_from; simpl; rewrite ?app_nil_r; try done.
    + destruct (AddChannel_cases w channel) as [->|[Hn ->]]; [done|]. simpl.
      destruct (decide (next_chan (oplb w) = c)) as [<-|Hne]; simplify_map_eq; [|done].
      destruct (goroutines w !! next_chan (oplb w)) eqn:Eg; [|done].
      exfalso. apply (Nat.lt_irrefl (next_chan (oplb w))). apply (wf_next w W'). right; right. by eexists.
    + destruct (decide (channel = defaultSendChannel)) as [->|Hne].
      { unfold RemoveChannel. by rewrite decide_True. }
      destruct (decide (channel ∈ names (oplb w))) as [Hin|Hn].
      * by destruct (RemoveChannel_listed w channel W' Hne Hin) as (na & nb & ca & cb & c' & _ & _ & _ & _ & ->).
      * unfold RemoveChannel. rewrite decide_False by done. by rewrite (proj2 (indexOf_None _ _) Hn).
    + destruct (decide (c0 = c)) as [->|Hne]; simplify_map_eq; [done|]. by rewrite app_nil_r.
    + destruct (decide (c0 = c)) as [->|Hne]; by simplify_map_eq.
    + destruct (decide (c0 = c)) as [->|Hne]; simplify_map_eq; [|done]. by destruct obj.
    + destruct (decide (c0 = c)) as [->|Hne]; by simplify_map_eq.
Qed.

(** [C21] No loss, no duplication, order.  In every execution, whatever channels are
    added and removed meanwhile, the objects collected from a channel followed
    by the one its goroutine holds are exactly the objects that were sent on it,
    in order. *)
Theorem channel_fifo es w c :
  execution es w -> collected_from c es ++ held w c = sent_on c es.
Proof. apply channel_fifo_of. Qed.

(** The nil objects collected. *)
Definition is_nil_collected (e : event) : bool :=
  match e with Collected _ None => true | _ => false end.
Definition nils_collected (es : list event) : nat := length (filter is_nil_collected es).
Definition is_client (e : event) : bool :=
  match e with Call | Sent _ _ | SendPanic _ => true | _ => false end.

(** The goroutine of a closed channel produces as many nil objects as are collected. *)
Lemma closed_goroutine_nils w c n :
  goroutines w !! c = Some Receiving -> c ∈ closed w ->
  exists es w', run w es w' /\ nils_collected es = n /\ Forall (fun e => is_client e = false) es /\
    goroutines w' !! c = Some Receiving /\ closed w' = closed w.
Proof.
  intros Hg Hc. induction n as [|n (es & w' & R & En & Hcl & Hg' & Ecl)].
  - exists [], w. split_and!; try done; constructor.
  - rewrite <- Ecl in Hc.
    exists (es ++ [Moved] ++ [Collected c None]), (set_goroutine (set_goroutine w' c (Forwarding None)) c Receiving).
    split_and!; simpl.
    + replace (es ++ [Moved; Collected c None]) with ((es ++ [Moved]) ++ [Collected c None])
        by (by rewrite <- app_assoc).
      eapply run_snoc; [eapply run_snoc|]; [exact R | by apply step_receive_closed |].
      apply step_collect. simpl. by simplify_map_eq.
    + unfold nils_collected in *. rewrite !filter_app, !length_app, En. simpl. lia.
    + rewrite Forall_app. split; [done|]. by repeat constructor.
    + by simplify_map_eq.
    + done.
Qed.

Lemma run_app w es1 w' es2 w'' : run w es1 w' -> run w' es2 w'' -> run w (es1 ++ es2) w''.
Proof.
  intros R1. induction 1 as [w'|w' es w1 e w2 R IH S]; [by rewrite app_nil_r|].
  rewrite app_assoc. eapply run_snoc; [by apply IH | done].
Qed.

(** Removal of a channel.  When a registered channel is removed, its channel is
    closed but its goroutine keeps running: without any further call or send by
    a client, any number of nil objects can be collected from the balancer, and
    a client that still holds the channel panics when it sends on it. *)
Theorem RemoveChannel_nil_flood es w channel c :
  execution es w -> channel ≠ defaultSendChannel -> namesChans (oplb w) !! channel = Some c ->
  goroutines w !! c ≠ Some Stopped ->
  let w1 := (RemoveChannel w channel).2 in
  step w1 (SendPanic c) w1 /\
  forall n, exists es' w', run w1 es' w' /\ nils_collected es' = n /\
    Forall (fun e => is_client e = false) es'.
Proof.
  intros X Hd Hm Hns w1. pose proof (wf_execution _ _ X) as W.
  destruct (RemoveChannel_listed w channel W Hd) as (na & nb & ca & cb & c' & En & Ec & _ & Em & Er).
  { by eapply namesChans_listed. }
  assert (c' = c) as -> by congruence. unfold w1. clear w1. rewrite Er. simpl.
  split; [apply step_send_closed; simpl; set_solver|]. intros n.
  destruct (wf_goroutine w W c) as [g Hg]; [rewrite Ec; set_solver|].
  set (w1 := mkWorld _ _ _).
  assert (goroutines w1 !! c = Some g) as Hg1 by done.
  assert (c ∈ closed w1) as Hc1 by (simpl; set_solver).
  destruct g as [|obj|]; [|destruct obj as [obj|]|congruence].
  - destruct (closed_goroutine_nils w1 c n Hg1 Hc1) as (es' & w' & R & En' & Hcl & _). eauto.
  - destruct (closed_goroutine_nils (set_goroutine w1 c Receiving) c n) as (es' & w' & R & En' & Hcl & _);
      [simpl; by simplify_map_eq | done |].
    exists ([Collected c (Some obj)] ++ es'), w'. split_and!; [| done | by constructor].
    eapply run_app; [|exact R]. apply (run_snoc _ [] w1); [constructor | by apply step_collect].
  - destruct n as [|n]; [exists [], w1; split_and!; [constructor | done | constructor]|].
    destruct (closed_goroutine_nils (set_goroutine w1 c Receiving) c n) as (es' & w' & R & En' & Hcl & _);
      [simpl; by simplify_map_eq | done |].
    exists ([Collected c None] ++ es'), w'. split_and!; [| | by constructor].
    + eapply run_app; [|exact R]. apply (run_snoc _ [] w1); [constructor | by apply step_collect].
    + unfold nils_collected in *. rewrite filter_app, length_app, En'. done.
Qed.

End LoadBalancer.

Module Witness.

Definition w1 : world := (AddChannel (SendableData := string) NewOutgoingChannelLoadBalancer "blocks").2.

Lemma execution_w1 : execution [Call] w1.
Proof. apply (run_snoc _ [] NewOutgoingChannelLoadBalancer); [constructor | apply step_add]. Qed.

Lemma channel_lookup_witness : exists c d,
  GetChannelOrDefault w1 "blocks" = Some c /\ GetChannelOrDefault w1 defaultSendChannel = Some d /\ c ∉ closed w1.
Proof.
  destruct (channel_lookup [Call] w1 "blocks" execution_w1) as [(c & d & H1 & _ & H2 & H3 & _) _].
  exists c, d. split_and!; assumption.
Defined.

Definition w2 : world := set_goroutine w1 1 (Forwarding (Some "b1")).
Lemma execution_w2 : execution [Call; Sent 1 "b1"] w2.
Proof.
  apply (run_snoc _ [Call] w1); [exact execution_w1|]. apply step_send; [done | simpl; set_solver].
Qed.

Lemma channel_fifo_witness :
  collected_from 1 [Call; Sent 1 "b1"] ++ held w2 1 = ["b1"].
Proof. exact (channel_fifo _ w2 1 execution_w2). Defined.

Lemma RemoveChannel_nil_flood_witness :
  exists es' w', run (RemoveChannel w2 "blocks").2 es' w' /\ nils_collected es' = 1000.
Proof.
  destruct (RemoveChannel_nil_flood _ w2 "blocks" 1 execution_w2 ltac:(done) ltac:(done) ltac:(done)) as [_ P].
  destruct (P 1000) as (es' & w' & R & N & _). exists es', w'. split; assumption.
Defined.

End Witness.
