(* ===== verification/SendQueue.v ===== *)
(** * SendQueue: no channel of the load balancer starves ([libp2p/outgoingChannelLoadBalancer.go])

    [LoadBalancer.step] lets [CollectOneElementFromChannels] take the object of
    any goroutine that waits for the main channel.  Here the waiting goroutines
    are in the queue of the senders blocked on the channel, which is served in
    order of arrival.  This is a refinement of [LoadBalancer], so what is proved
    there holds for it, and it bounds the wait of every object. *)

From S2P Require Import Prelude Errors Interfaces LoadBalancer.
From Stdlib Require Import ZArith Lia String.
From stdpp Require Import prelude gmap strings list sets.

Section SendQueue.

Context {SendableData : Type}.
Implicit Types (w : world (SendableData := SendableData)) (c : nat) (q : list nat).

Record qworld : Type := mkQ {
  balancer : world (SendableData := SendableData);
  sendq : list nat
}.

Inductive qevent : Type :=
| Event (e : event (SendableData := SendableData))
| Queued (c : nat).

Definition is_collection (e : event (SendableData := SendableData)) : bool :=
  match e with Collected _ _ => true | _ => false end.

(** A goroutine that received an object arrives at [oplb.mainChan <- obj] and is
    queued; a collection takes the object of the first in the queue. *)
Inductive qstep : qworld -> qevent -> qworld -> Prop :=
| qstep_other w e w' q :
    step w e w' -> is_collection e = false -> qstep (mkQ w q) (Event e) (mkQ w' q)
| qstep_queue w c obj q :
    goroutines w !! c = Some (Forwarding obj) -> c ∉ q -> qstep (mkQ w q) (Queued c) (mkQ w (q ++ [c]))
| qstep_collect w c obj w' q :
    step w (Collected c obj) w' -> qstep (mkQ w (c :: q)) (Event (Collected c obj)) (mkQ w' q).

Inductive qrun : qworld -> list qevent -> qworld -> Prop :=
| qrun_nil s : qrun s [] s
| qrun_snoc s es s' e s'' : qrun s es s' -> qstep s' e s'' -> qrun s (es ++ [e]) s''.

Definition new_queue : qworld := mkQ NewOutgoingChannelLoadBalancer [].

Definition reachable (s : qworld) : Prop := exists es, qrun new_queue es s.

(** ** Simulation by the load balancer *)

Definition observed (es : list qevent) : list event :=
  omap (fun e => match e with Event e => Some e | Queued _ => None end) es.

Lemma qstep_simulated s e s' :
  qstep s e s' ->
  match e with
  | Event e => step (balancer s) e (balancer s')
  | Queued _ => balancer s' = balancer s
  end.
Proof. by destruct 1. Qed.

Lemma qrun_simulated s es s' : qrun s es s' -> run (balancer s) (observed es) (balancer s').
Proof.
  induction 1 as [s|s es s' e s'' R IH Hs]; [constructor|].
  unfold observed in *. rewrite omap_app. apply qstep_simulated in Hs. destruct e; simpl.
  - by eapply run_snoc.
  - by rewrite app_nil_r, Hs.
Qed.

(** ** The queue *)

(** The queued goroutines are different and each holds an object. *)
Record queue_ok (s : qworld) : Prop := {
  queue_wf : LoadBalancer.wf (balancer s);
  queue_nodup : NoDup (sendq s);
  queue_forwarding c : c ∈ sendq s -> exists obj, goroutines (balancer s) !! c = Some (Forwarding obj)
}.

(** A goroutine keeps its object until the object is collected. *)
Lemma step_forwarding w e w' c obj :
  LoadBalancer.wf w -> step w e w' -> goroutines w !! c = Some (Forwarding obj) ->
  (e = Collected c obj) \/ goroutines w' !! c = Some (Forwarding obj).
Proof.
  intros Hwf Hs Hg. destruct Hs as [w channel|w channel|w|w c' o Hc' _|w c' _|w c' Hc' _|w c' o Hc'|w _|w c' Hc' _];
    simpl; auto; try (right; destruct (decide (c' = c)) as [->|]; simplify_map_eq; done).
  - right. destruct (AddChannel_cases w channel) as [->|[_ ->]]; [done|]. simpl.
    rewrite lookup_insert_ne; [done|]. intros E. apply (Nat.lt_irrefl c). rewrite <- E at 2.
    apply (wf_next w Hwf). right; right. by eexists.
  - right. destruct (decide (channel = defaultSendChannel)) as [->|Hne].
    { unfold RemoveChannel. by rewrite decide_True. }
    destruct (decide (channel ∈ names (oplb w))) as [Hin|Hn].
    + by destruct (RemoveChannel_listed w channel Hwf Hne Hin) as (? & ? & ? & ? & ? & _ & _ & _ & _ & ->).
    + unfold RemoveChannel. rewrite decide_False by done. by rewrite (proj2 (indexOf_None _ _) Hn).
  - destruct (decide (c' = c)) as [->|Hne]; [left; congruence | right; by simplify_map_eq].
Qed.

Lemma collect_inv w c obj w' :
  step w (Collected c obj) w' ->
  goroutines w !! c = Some (Forwarding obj) /\ w' = set_goroutine w c Receiving.
Proof. by inversion 1. Qed.

Lemma queue_ok_step s e s' : queue_ok s -> qstep s e s' -> queue_ok s'.
Proof.
  intros [Hwf Hnd Hf] Hs. destruct Hs as [w e w' q Hs He|w c obj q Hg Hn|w c obj w' q Hs]; simpl in *.
  - constructor; simpl; [by eapply wf_step | done|]. intros c Hc. destruct (Hf c Hc) as [obj Hg].
    destruct (step_forwarding w e w' c obj Hwf Hs Hg) as [->|?]; [done | by exists obj].
  - constructor; simpl; [done | | set_solver]. apply NoDup_app. split_and!; [done | set_solver | apply NoDup_singleton].
  - apply NoDup_cons in Hnd as [Hn Hnd]. constructor; simpl; [by eapply wf_step | done|].
    apply collect_inv in Hs as [_ ->]. intros c' Hc'. simpl.
    rewrite lookup_insert_ne by (by intros ->). apply Hf. by right.
Qed.

Lemma queue_ok_reachable s : reachable s -> queue_ok s.
Proof.
  intros [es R]. remember new_queue as s0 eqn:E0. induction R as [s|s es s' e s'' R IH Hs].
  - subst. constructor; simpl; [apply wf_new | constructor | set_solver].
  - by eapply queue_ok_step; [apply IH|].
Qed.

(** There are never more waiting goroutines than channels were added. *)
Lemma queue_length s : queue_ok s -> length (sendq s) <= next_chan (oplb (balancer s)).
Proof.
  intros [Hwf Hnd Hf]. rewrite <- (length_seq (next_chan (oplb (balancer s))) 0).
  apply submseteq_length, NoDup_submseteq; [done|]. intros c Hc. apply elem_of_seq. split; [lia|].
  apply (wf_next _ Hwf). right; right. destruct (Hf c Hc) as [obj ->]. by eexists.
Qed.

(** One step of a waiting goroutine: it advances by one at every collection. *)
Lemma qstep_position s e s' c obj k :
  queue_ok s -> qstep s e s' ->
  goroutines (balancer s) !! c = Some (Forwarding obj) -> sendq s !! k = Some c ->
  (k = 0 /\ e = Event (Collected c obj)) \/
  (goroutines (balancer s') !! c = Some (Forwarding obj) /\
   sendq s' !! (match e with Event e => if is_collection e then pred k else k | _ => k end) = Some c /\
   (forall e', e = Event e' -> is_collection e' = true -> 0 < k)).
Proof.
  intros [Hwf Hnd Hf] Hs Hg Hk. destruct Hs as [w e w' q Hs He|w c' obj' q Hg' Hn|w c' obj' w' q Hs]; simpl in *.
  - right. rewrite He. destruct (step_forwarding w e w' c obj Hwf Hs Hg) as [->|?]; [done|].
    split_and!; [done..|]. intros e' [= <-]. by rewrite He.
  - right. split_and!; [done | by apply lookup_app_l_Some | done].
  - apply collect_inv in Hs as [Hg' ->]. destruct k as [|k]; simpl in Hk.
    + injection Hk as ->. left. split; [done|]. congruence.
    + right. split_and!; [|done|intros; lia]. apply NoDup_cons in Hnd as [Hn _]. simpl.
      rewrite lookup_insert_ne; [done|]. intros ->. by apply Hn, (list_elem_of_lookup_2 _ k).
Qed.

(** The objects collected in a run, with their channels, in order. *)
Definition collections (es : list qevent) : list (nat * option SendableData) :=
  omap (fun e => match e with Event (Collected c obj) => Some (c, obj) | _ => None end) es.

Lemma collections_snoc es e :
  collections (es ++ [e]) =
  collections es ++ match e with Event (Collected c obj) => [(c, obj)] | _ => [] end.
Proof. unfold collections. rewrite omap_app. by destruct e as [[]|]. Qed.

Lemma waiting_position s es s' c obj k :
  queue_ok s -> goroutines (balancer s) !! c = Some (Forwarding obj) -> sendq s !! k = Some c ->
  qrun s es s' ->
  queue_ok s' /\
  (if decide (k < length (collections es)) then collections es !! k = Some (c, obj)
   else goroutines (balancer s') !! c = Some (Forwarding obj) /\
        sendq s' !! (k - length (collections es)) = Some c).
Proof.
  intros Hok Hg Hk. induction 1 as [s|s es s' e s'' R IH Hs].
  { split; [done|]. cbn. rewrite decide_False by lia. by rewrite Nat.sub_0_r. }
  destruct (IH Hok Hg Hk) as [Hok' IH']. split; [by eapply queue_ok_step|]. rewrite collections_snoc, length_app.
  destruct (decide (k < length (collections es))) as [Hlt|Hge].
  { rewrite decide_True by lia. by rewrite lookup_app_l. }
  destruct IH' as [Hg' Hk']. pose proof (qstep_position s' e s'' c obj _ Hok' Hs Hg' Hk') as P.
  destruct e as [[]|]; simpl in P |- *; rewrite ?app_nil_r, ?Nat.add_0_r;
    try (rewrite decide_False by lia; by destruct P as [[_ [=]]|(? & ? & _)]).
  destruct P as [[E0 [= -> ->]]|(P1 & P2 & P3)].
  - rewrite decide_True by lia. rewrite lookup_app_r by lia. by rewrite E0.
  - pose proof (P3 _ eq_refl eq_refl). rewrite decide_False by lia.
    split; [done|]. rewrite <- P2. f_equal. lia.
Qed.

(** [C28] Bounded waiting.  A goroutine that waits at position [k] of the queue of the
    main channel is served by the [k]-th next collection, counted from zero,
    whatever the clients and the other goroutines do meanwhile; before that its
    object stays where it is; and the queue is never longer than the number of
    channels that were added. *)
Theorem bounded_waiting s es s' c k :
  reachable s -> sendq s !! k = Some c -> qrun s es s' ->
  k < next_chan (oplb (balancer s)) /\
  exists obj, goroutines (balancer s) !! c = Some (Forwarding obj) /\
    (k < length (collections es) -> collections es !! k = Some (c, obj)) /\
    (length (collections es) <= k ->
       goroutines (balancer s') !! c = Some (Forwarding obj) /\ sendq s' !! (k - length (collections es)) = Some c).
Proof.
  intros Hr%queue_ok_reachable Hk R. split.
  { apply lookup_lt_Some in Hk. pose proof (queue_length s Hr). lia. }
  destruct (queue_forwarding s Hr c) as [obj Hg]; [by eapply list_elem_of_lookup_2|].
  exists obj. split; [done|]. destruct (waiting_position s es s' c obj k Hr Hg Hk R) as [_ P].
  case_decide; split; intros; [done | lia | lia | done].
Qed.

(** ** Fair executions *)

Section Fair.

(** An infinite execution: the states and the events between them. *)
Variables (st : nat -> qworld) (ev : nat -> qevent).

Record fair_execution : Prop := {
  fair_start : st 0 = new_queue;
  fair_step i : qstep (st i) (ev i) (st (S i));
  (* a goroutine that received an object reaches the send on the main channel *)
  fair_goroutines i c obj :
    goroutines (balancer (st i)) !! c = Some (Forwarding obj) -> c ∉ sendq (st i) ->
    exists j, i <= j /\ ev j = Queued c;
  (* the goroutine that collects does not stop while an object waits *)
  fair_collector i : sendq (st i) ≠ [] -> exists j c obj, i <= j /\ ev j = Event (Collected c obj)
}.

Hypothesis Hfair : fair_execution.

Lemma fair_ok i : queue_ok (st i).
Proof.
  induction i as [|i IH].
  - apply queue_ok_reachable. rewrite (fair_start Hfair). exists []. constructor.
  - by eapply queue_ok_step; [|apply (fair_step Hfair)].
Qed.

(** Until its collection an object stays with its goroutine. *)
Lemma fair_holds i n c obj :
  goroutines (balancer (st i)) !! c = Some (Forwarding obj) ->
  (exists j, i <= j < i + n /\ ev j = Event (Collected c obj)) \/
  goroutines (balancer (st (i + n))) !! c = Some (Forwarding obj).
Proof.
  intros Hg. induction n as [|n [(j & Hj & Ej)|IH]].
  - right. by rewrite Nat.add_0_r.
  - left. exists j. split; [lia | done].
  - rewrite Nat.add_succ_r. pose proof (fair_step Hfair (i + n)) as Hs.
    pose proof (fair_ok (i + n)) as Hok. destruct (ev (i + n)) as [e|c'] eqn:Ee.
    + apply qstep_simulated in Hs. apply (step_forwarding _ _ _ c obj (queue_wf _ Hok)) in Hs; [|done].
      destruct Hs as [->|?]; [left; exists (i + n); split; [lia | done] | by right].
    + apply qstep_simulated in Hs. right. by rewrite Hs.
Qed.

Lemma fair_advances i n c obj k :
  goroutines (balancer (st i)) !! c = Some (Forwarding obj) -> sendq (st i) !! k = Some c ->
  (exists j, i <= j < i + n /\ ev j = Event (Collected c obj)) \/
  (goroutines (balancer (st (i + n))) !! c = Some (Forwarding obj) /\
   exists k', k' <= k /\ sendq (st (i + n)) !! k' = Some c).
Proof.
  intros Hg Hk. induction n as [|n [(j & Hj & Ej)|(IHg & k' & Hle & IHk)]].
  - right. rewrite Nat.add_0_r. eauto.
  - left. exists j. split; [lia | done].
  - rewrite Nat.add_succ_r.
    destruct (qstep_position _ _ _ c obj k' (fair_ok (i + n)) (fair_step Hfair (i + n)) IHg IHk) as [[_ E]|(P1 & P2 & _)].
    + left. exists (i + n). split; [lia | done].
    + right. split; [done|]. eexists. split; [|exact P2]. repeat case_match; lia.
Qed.

Lemma fair_queued k : forall i c obj,
  goroutines (balancer (st i)) !! c = Some (Forwarding obj) -> sendq (st i) !! k = Some c ->
  exists j, i <= j /\ ev j = Event (Collected c obj).
Proof.
  induction k as [k IHk] using lt_wf_ind. intros i c obj Hg Hk.
  destruct (fair_collector Hfair i) as (j & c' & obj' & Hj & Ej); [by intros E; rewrite E in Hk|].
  destruct (fair_advances i (j - i) c obj k Hg Hk) as [(j' & Hj' & Ej')|(Hg' & k' & Hle & Hk')].
  { exists j'. split; [lia | done]. }
  replace (i + (j - i)) with j in * by lia.
  destruct (qstep_position _ _ _ c obj k' (fair_ok j) (fair_step Hfair j) Hg' Hk') as [[_ E]|(P1 & P2 & P3)].
  { by exists j. }
  rewrite Ej in P2, P3. simpl in P2. pose proof (P3 _ eq_refl eq_refl).
  destruct (IHk (pred k') ltac:(lia) (S j) c obj P1 P2) as (j' & Hj' & Ej'). exists j'. split; [lia | done].
Qed.

Lemma fair_forwarding i c obj :
  goroutines (balancer (st i)) !! c = Some (Forwarding obj) ->
  exists j, i <= j /\ ev j = Event (Collected c obj).
Proof.
  intros Hg. destruct (decide (c ∈ sendq (st i))) as [[k Hk]%list_elem_of_lookup|Hn].
  { by eapply fair_queued. }
  destruct (fair_goroutines Hfair i c obj Hg Hn) as (j & Hj & Ej).
  destruct (fair_holds i (j - i) c obj Hg) as [(j' & Hj' & Ej')|Hg'].
  { exists j'. split; [lia | done]. }
  replace (i + (j - i)) with j in Hg' by lia.
  pose proof (fair_step Hfair j) as Hs. rewrite Ej in Hs. pose proof (qstep_simulated _ _ _ Hs) as Eb.
  simpl in Eb. assert (c ∈ sendq (st (S j))) as [k Hk]%list_elem_of_lookup by (inversion Hs; simpl; set_solver).
  destruct (fair_queued k (S j) c obj) as (j' & Hj' & Ej'); [by rewrite Eb | done|].
  exists j'. split; [lia | done].
Qed.

End Fair.

(** [C8] Every object is delivered.  In every infinite execution in which goroutines
    are scheduled fairly and the collecting goroutine does not stop while an
    object waits, every object that a client sends on a channel is eventually
    collected, whatever other clients send and whatever channels are added or
    removed. *)
Theorem sent_objects_collected st ev i c obj :
  fair_execution st ev -> ev i = Event (Sent c obj) ->
  exists j, i < j /\ ev j = Event (Collected c (Some obj)).
Proof.
  intros Hf Ei. pose proof (fair_step st ev Hf i) as Hs. rewrite Ei in Hs. apply qstep_simulated in Hs.
  simpl in Hs. inversion Hs as [| | |? ? ? Hg Hc Ew Ee Ew'| | | | |]; subst.
  destruct (fair_forwarding st ev Hf (S i) c (Some obj)) as (j & Hj & Ej).
  - rewrite <- Ew'. simpl. by simplify_map_eq.
  - exists j. split; [lia | done].
Qed.

End SendQueue.

Module Witness.

Abbreviation queue := (qworld (SendableData := string)).

(** Two goroutines wait, the one of [blocks] behind the one of the default channel. *)
Definition w1 : world (SendableData := string) := (AddChannel NewOutgoingChannelLoadBalancer "blocks").2.
Definition w2 : world (SendableData := string) := set_goroutine w1 0 (Forwarding (Some "tx")).
Definition w3 : world (SendableData := string) := set_goroutine w2 1 (Forwarding (Some "b1")).
Definition s3 : queue := mkQ w3 [0; 1].
Definition s5 : queue := mkQ (set_goroutine (set_goroutine w3 0 Receiving) 1 Receiving) [].

Lemma reachable_s3 : reachable s3.
Proof.
  exists ([] ++ [Event Call] ++ [Event (Sent 0 "tx")] ++ [Event (Sent 1 "b1")] ++ [Queued 0] ++ [Queued 1]).
  rewrite !app_assoc.
  apply (qrun_snoc _ _ (mkQ w3 [0])); [|apply (qstep_queue w3 1 (Some "b1") [0]); [done | set_solver]].
  apply (qrun_snoc _ _ (mkQ w3 [])); [|apply (qstep_queue w3 0 (Some "tx") []); [done | set_solver]].
  apply (qrun_snoc _ _ (mkQ w2 [])); [|apply qstep_other; [|done]; apply step_send; [done | simpl; set_solver]].
  apply (qrun_snoc _ _ (mkQ w1 [])); [|apply qstep_other; [|done]; apply step_send; [done | simpl; set_solver]].
  apply (qrun_snoc _ _ new_queue); [constructor|]. apply qstep_other; [apply step_add | done].
Qed.

Definition es35 : list (qevent (SendableData := string)) :=
  [Event (Collected 0 (Some "tx")); Event (Collected 1 (Some "b1"))].

Lemma run_s3_s5 : qrun s3 es35 s5.
Proof.
  apply (qrun_snoc _ [Event (Collected 0 (Some "tx"))] (mkQ (set_goroutine w3 0 Receiving) [1])).
  - apply (qrun_snoc _ [] s3); [constructor|]. apply qstep_collect, step_collect. done.
  - apply qstep_collect, step_collect. done.
Qed.

Lemma bounded_waiting_witness : collections es35 !! 1 = Some (1, Some "b1").
Proof.
  destruct (bounded_waiting s3 es35 s5 1 1 reachable_s3 eq_refl run_s3_s5) as (_ & obj & Hg & P & _).
  vm_compute in Hg. injection Hg as <-. apply P. cbn. lia.
Defined.

(** One client sends the same object again and again. *)
Definition u0 : world (SendableData := string) := NewOutgoingChannelLoadBalancer.
Definition u1 : world (SendableData := string) := set_goroutine u0 0 (Forwarding (Some "tx")).
Definition st (i : nat) : queue :=
  match i mod 3 with 0 => mkQ u0 [] | 1 => mkQ u1 [] | _ => mkQ u1 [0] end.
Definition ev (i : nat) : qevent (SendableData := string) :=
  match i mod 3 with 0 => Event (Sent 0 "tx") | 1 => Queued 0 | _ => Event (Collected 0 (Some "tx")) end.

Lemma mod3 i : exists m r, i = 3 * m + r /\ r < 3 /\ i mod 3 = r.
Proof.
  exists (i / 3), (i mod 3). pose proof (Nat.div_mod_eq i 3). pose proof (Nat.mod_upper_bound i 3). lia.
Qed.
Lemma mod3_at m r : r < 3 -> (3 * m + r) mod 3 = r.
Proof. intros Hr. symmetry. by apply (Nat.mod_unique _ _ m). Qed.

Lemma st_step i : qstep (st i) (ev i) (st (S i)).
Proof.
  destruct (mod3 i) as (m & r & Ei & Hr & Em). unfold st, ev. rewrite Em.
  destruct r as [|[|[|r]]]; [| | |lia].
  - replace (S i) with (3 * m + 1) by lia. rewrite mod3_at by lia.
    apply qstep_other; [|done]. apply step_send; [done | simpl; set_solver].
  - replace (S i) with (3 * m + 2) by lia. rewrite mod3_at by lia.
    apply (qstep_queue u1 0 (Some "tx") []); [done | set_solver].
  - replace (S i) with (3 * (S m) + 0) by lia. rewrite mod3_at by lia.
    replace u0 with (set_goroutine u1 0 Receiving) by (vm_compute; reflexivity).
    apply qstep_collect, step_collect. done.
Qed.

Lemma fair : fair_execution st ev.
Proof.
  constructor.
  - done.
  - exact st_step.
  - intros i c obj. destruct (mod3 i) as (m & r & Ei & Hr & Em). unfold st. rewrite Em.
    destruct r as [|[|[|r]]]; [| | |lia]; simpl.
    + destruct (decide (c = 0)) as [->|]; by simplify_map_eq.
    + destruct (decide (c = 0)) as [->|Hc]; [|by simplify_map_eq].
      intros _ _. exists i. split; [done|]. unfold ev. by rewrite Em.
    + intros Hg Hn. destruct (decide (c = 0)) as [->|Hc]; [set_solver | by simplify_map_eq].
  - intros i Hne. destruct (mod3 i) as (m & r & Ei & Hr & Em).
    exists (3 * m + 2), 0, (Some "tx"). split; [lia|]. unfold ev. rewrite mod3_at by lia. done.
Qed.

Lemma sent_objects_collected_witness : exists j, 0 < j /\ ev j = Event (Collected 0 (Some "tx")).
Proof. exact (sent_objects_collected st ev 0 0 "tx" fair eq_refl). Defined.

End Witness.
