(* ===== verification/Message.v ===== *)
(** * Message: pubsub messages and the messages given to processors
      ([libp2p/message.go], [message/message.go])

    A pubsub message carries a marshalled topic message as its data; [NewMessage]
    checks it and builds the [Message] the processors see.  The structs of the
    pubsub library are records with optional byte fields (protobuf distinguishes
    a nil field from an empty one); [peer.IDFromBytes] is a parameter; the
    marshaller is used through its interface, which the generated codec
    implements as the proto marshaller does. *)

From S2P Require Import Prelude Errors Interfaces Wire TopicMessage.
From Stdlib Require Import ZArith Lia String Strings.Byte.
From stdpp Require Import prelude list strings pretty.

Local Open Scope Z_scope.

(** ** The structs *)

(** [pubsubPb.Message]. *)
Record pb_Message : Type := mkPb {
  pb_From : option bytes;
  pb_Data : option bytes;
  pb_Seqno : option bytes;
  pb_Topic : option string;
  pb_Signature : option bytes;
  pb_Key : option bytes
}.

#[export] Instance pb_Message_eq_dec : EqDecision pb_Message.
Proof. solve_decision. Defined.

(** The content of a byte field, [GetFrom] and the like: nil reads as empty. *)
Definition get_bytes (f : option bytes) : bytes := default [] f.

Record Message : Type := mkMessage {
  FromField : option bytes;
  DataField : bytes;
  PayloadField : option bytes;
  SeqNoField : option bytes;
  TopicField : string;
  SignatureField : option bytes;
  KeyField : option bytes;
  PeerField : PeerID;
  TimestampField : Z
}.

#[export] Instance Message_eq_dec : EqDecision Message.
Proof. solve_decision. Defined.

(** The origin of a message as it is printed; [Pretty] is the base58 form. *)
Definition MessageOriginatorPid (Pretty : PeerID -> string) (msg : Message) : string :=
  PeerIdToShortString Pretty (PeerField msg).

Definition MessageOriginatorSeq (msg : Message) : string := hex_EncodeToString (default [] (SeqNoField msg)).

(** ** The marshaller *)

Class Marshalizer (M : Type) : Type := {
  mz_Marshal : M -> TopicMessage -> result bytes;
  mz_Unmarshal : M -> bytes -> result TopicMessage
}.

(** A marshaller reads back what it wrote. *)
Class MarshalizerLaws (M : Type) `{Marshalizer M} : Prop := {
  mz_Marshal_ok mz m : wf m -> exists b, mz_Marshal mz m = Ok b;
  mz_Marshal_Unmarshal mz m b : wf m -> mz_Marshal mz m = Ok b -> mz_Unmarshal mz b = Ok m
}.

(** The proto marshaller calls the generated methods, after a [Reset]; on a
    message of the Go type the generated [Marshal] does not panic. *)
Definition proto_Marshal (m : TopicMessage) : result bytes :=
  match TopicMessage.Marshal m with Ret b => Ok b | Panic => Err (ErrText "panic") end.
Definition proto_Unmarshal (b : bytes) : result TopicMessage := TopicMessage.Unmarshal Reset b.

#[export] Instance proto_Marshalizer : Marshalizer unit := {
  mz_Marshal _ := proto_Marshal;
  mz_Unmarshal _ := proto_Unmarshal
}.

Lemma proto_Marshal_encode m : wf m -> proto_Marshal m = Ok (encode m).
Proof. intros W. unfold proto_Marshal. by rewrite Marshal_encode. Qed.

Lemma proto_Unmarshal_encode m : wf m -> proto_Unmarshal (encode m) = Ok m.
Proof. apply Unmarshal_encode. Qed.

#[export] Instance proto_MarshalizerLaws : MarshalizerLaws unit.
Proof.
  constructor; intros mz m.
  - intros W. exists (encode m). by apply proto_Marshal_encode.
  - intros b W. simpl. rewrite proto_Marshal_encode by done. intros [= <-]. by apply proto_Unmarshal_encode.
Qed.

(** ** NewMessage *)

Definition currentTopicMessageVersion : Z := 1.

Section NewMessage.

Context {M : Type} `{Marshalizer M} (peer_IDFromBytes : bytes -> result PeerID).

Definition NewMessage (msg : option pb_Message) (marshalizer : option M) : result Message :=
  match marshalizer with
  | None => Err ErrNilMarshalizer
  | Some marshalizer =>
  match msg with
  | None => Err ErrNilMessage
  | Some msg =>
  match pb_Topic msg with
  | None => Err ErrNilTopic
  | Some topic =>
  match mz_Unmarshal marshalizer (get_bytes (pb_Data msg)) with
  | Err err => Err (ErrWrap ErrMessageUnmarshalError (" error: " +:+ Error err))
  | Ok topicMessage =>
      if negb (Version topicMessage =? currentTopicMessageVersion) then
        Err (ErrWrap ErrUnsupportedMessageVersion
               (", supported " +:+ pretty currentTopicMessageVersion
                  +:+ ", got " +:+ pretty (Version topicMessage)))
      else if len (SignatureOnPid topicMessage) + len (Pk topicMessage) >? 0 then
        Err (ErrWrap ErrUnsupportedFields " for topicMessage.SignatureOnPid and topicMessage.Pk")
      else
        let? id := peer_IDFromBytes (get_bytes (pb_From msg)) in
        Ok (mkMessage (pb_From msg) (Payload topicMessage) (pb_Data msg) (pb_Seqno msg) topic
              (pb_Signature msg) (pb_Key msg) id (Timestamp topicMessage))
  end end end end.

(** The topic messages [NewMessage] accepts: the fields it keeps are the payload
    and the timestamp. *)
Definition plain (payload : bytes) (timestamp : Z) : TopicMessage :=
  TopicMessage.mk currentTopicMessageVersion payload timestamp [] [].

Lemma NewMessage_Ok_inv msg mz m :
  NewMessage (Some msg) (Some mz) = Ok m ->
  pb_Topic msg = Some (TopicField m) /\
  mz_Unmarshal mz (get_bytes (pb_Data msg)) = Ok (plain (DataField m) (TimestampField m)) /\
  peer_IDFromBytes (get_bytes (pb_From msg)) = Ok (PeerField m) /\
  FromField m = pb_From msg /\ PayloadField m = pb_Data msg /\ SeqNoField m = pb_Seqno msg /\
  SignatureField m = pb_Signature msg /\ KeyField m = pb_Key msg.
Proof.
  unfold NewMessage. destruct (pb_Topic msg) as [topic|]; [|done].
  destruct (mz_Unmarshal _ _) as [tm|]; [|done].
  destruct (Z.eqb_spec (Version tm) currentTopicMessageVersion) as [Ev|]; [|done]. simpl negb.
  rewrite Z.gtb_ltb. destruct (Z.ltb_spec 0 (len (SignatureOnPid tm) + len (Pk tm))) as [|Hl]; [done|].
  destruct (peer_IDFromBytes _) as [id|]; [|done]. intros [= <-]. simpl.
  split_and!; try done. f_equal. destruct tm as [v p t k s]; simpl in *. subst v.
  destruct k; [|simpl in Hl; lia]. destruct s; [done | simpl in Hl; lia].
Qed.

Lemma NewMessage_plain msg mz topic payload timestamp id :
  pb_Topic msg = Some topic ->
  mz_Unmarshal mz (get_bytes (pb_Data msg)) = Ok (plain payload timestamp) ->
  peer_IDFromBytes (get_bytes (pb_From msg)) = Ok id ->
  NewMessage (Some msg) (Some mz) =
    Ok (mkMessage (pb_From msg) payload (pb_Data msg) (pb_Seqno msg) topic
          (pb_Signature msg) (pb_Key msg) id timestamp).
Proof. intros Et Eu Ei. unfold NewMessage. rewrite Et, Eu, Ei. done. Qed.

(** Building a message.  A pubsub message is turned into a message exactly
    when it has a topic, its data unmarshals to a topic message of version 1
    without signature and key, and its origin is a peer identifier; the message
    then has the payload and the timestamp of the topic message as its data and
    timestamp and every other field of the pubsub message. *)
Theorem NewMessage_spec msg mz m :
  NewMessage (Some msg) (Some mz) = Ok m <->
  exists topic payload timestamp id,
    pb_Topic msg = Some topic /\
    mz_Unmarshal mz (get_bytes (pb_Data msg)) = Ok (plain payload timestamp) /\
    peer_IDFromBytes (get_bytes (pb_From msg)) = Ok id /\
    m = mkMessage (pb_From msg) payload (pb_Data msg) (pb_Seqno msg) topic
          (pb_Signature msg) (pb_Key msg) id timestamp.
Proof.
  split.
  - intros (Et & Eu & Ei & E1 & E2 & E3 & E4 & E5)%NewMessage_Ok_inv.
    exists (TopicField m), (DataField m), (TimestampField m), (PeerField m). split_and!; try done.
    destruct m; simpl in *. by subst.
  - intros (topic & payload & timestamp & id & Et & Eu & Ei & ->). by apply NewMessage_plain.
Qed.

End NewMessage.
