(* ===== verification/DirectSender.v ===== *)
(** * DirectSender: direct messages between connected peers ([libp2p/directSender.go])

    Sending picks a connection and a stream to the peer and writes one signed
    message; receiving checks a message, rejects it when it was seen before and
    hands it to the messenger.  The network (connections, streams and what they
    answer), the protobuf encoding of pubsub messages and the signing prefix are
    parameters; the signer, the time cache and the mutex cache are used through
    their interfaces.  The clock reading of a call is an argument. *)

From S2P Require Import Prelude Errors Interfaces Cacher MutexHolder Wire TopicMessage Message.
From Stdlib Require Import ZArith Lia String Strings.Byte.
From stdpp Require Import prelude gmap list strings pretty.

Local Open Scope Z_scope.

(** ** The time cache of seen messages *)

(** [whyrusleeping/timecache]: a set whose elements are forgotten some time after
    they were added, [tc_span] at the earliest. *)
Class TimeCache (T : Type) : Type := {
  tc_Has : T -> Z -> string -> bool;
  tc_Add : T -> Z -> string -> T;
  tc_span : T -> Z;
  tc_added : T -> string -> option Z
}.

Class TimeCacheLaws (T : Type) `{TimeCache T} : Prop := {
  Has_added t now k t0 : tc_added t k = Some t0 -> now <= t0 + tc_span t -> tc_Has t now k = true;
  Has_only_added t now k : tc_Has t now k = true -> is_Some (tc_added t k);
  added_Add_eq t now k : tc_added (tc_Add t now k) k = Some now;
  added_Add_ne t now k k' : k ≠ k' ->
    tc_added (tc_Add t now k) k' = tc_added t k' \/
    (tc_added (tc_Add t now k) k' = None /\ exists t0, tc_added t k' = Some t0 /\ t0 + tc_span t < now);
  span_Add t now k : tc_span (tc_Add t now k) = tc_span t
}.

(** A map from keys to the time they were added, swept by each addition. *)
Module SweepCache.

Record t : Type := mk { span : Z; entries : gmap string Z }.

Definition sweep (now span : Z) (m : gmap string Z) : gmap string Z :=
  filter (fun kv => now <= kv.2 + span) m.

#[global] Instance timeCache : TimeCache t := {
  tc_Has c _ k := bool_decide (is_Some (entries c !! k));
  tc_Add c now k := mk (span c) (<[k := now]> (sweep now (span c) (entries c)));
  tc_span := span;
  tc_added c k := entries c !! k
}.

#[global] Instance laws : TimeCacheLaws t.
Proof.
  constructor; intros; simpl in *.
  - rewrite bool_decide_eq_true. by eexists.
  - by rewrite bool_decide_eq_true in *.
  - by simplify_map_eq.
  - simplify_map_eq. unfold sweep. destruct (entries t0 !! k') as [u|] eqn:E.
    + destruct (decide (now <= u + span t0)) as [Hle|Hgt].
      * left. by apply map_lookup_filter_Some.
      * right. split; [|exists u; split; [done | lia]].
        apply map_lookup_filter_None. right. intros v E'. simplify_eq. simpl. lia.
    + left. apply map_lookup_filter_None. by left.
  - done.
Qed.

End SweepCache.

(** ** Constants *)

Definition timeSeenMessages : Z := 120 * 1000000000.
Definition maxMutexes : Z := 10000.
Definition sequenceNumberSize : Z := 8.
Definition messageHeader : Z := 64 * 1024.
Definition maxSendBuffSize : Z := 2 ^ 21 - messageHeader.
Definition DirectSendID : string := "/drt/directsend/1.0.0".

(** ** The network *)

Record stream : Type := mkStream { stream_id : nat; Protocol : string; DirOutbound : bool }.
#[export] Instance stream_eq_dec : EqDecision stream.
Proof. solve_decision. Defined.
Record conn : Type := mkConn {
  conn_id : nat; GetStreams : list stream; LocalPeer : PeerID; RemotePeer : PeerID
}.

(** What the host answers during a call. *)
Record network : Type := mkNetwork {
  ConnsToPeer : PeerID -> list conn;
  NewStream : PeerID -> string -> result stream;
  WriteMsg : stream -> pb_Message -> option error;
  Flush : stream -> option error
}.

(** The calls made on a stream. *)
Inductive stream_event : Type :=
| Written (s : stream) (msg : pb_Message)
| Flushed (s : stream)
| ResetStream (s : stream)
| CloseStream (s : stream).

(** [binary.BigEndian.PutUint64]. *)
Definition PutUint64 (v : Z) : bytes :=
  (fun s => z2b (Z.shiftr v s)) <$> [56; 48; 40; 32; 24; 16; 8; 0].

Section DirectSender.

Context {T C S H : Type} `{TimeCache T} `{Cacher C} `{SignerVerifier S}.
(** The state [H] of the client and its [messageHandler]. *)
Context (messageHandler : H -> pb_Message -> PeerID -> option error * H).
Context (pb_Marshal : pb_Message -> result bytes) (SignPrefix : bytes).

Record directSender : Type := mk {
  counter : Z;
  seenMessages : T;
  mutexForPeer : MutexHolder C;
  signer : S
}.

Implicit Types (ds : directSender) (h : H).

Definition set_counter v ds := mk v (seenMessages ds) (mutexForPeer ds) (signer ds).
Definition set_seen v ds := mk (counter ds) v (mutexForPeer ds) (signer ds).
Definition set_mutexes v ds := mk (counter ds) (seenMessages ds) v (signer ds).

(** The arguments that may be nil are tested for presence only; the second
    component of the result is the protocol whose streams the sender handles
    from now on.  [now] is [time.Now().UnixNano()]. *)
Definition NewDirectSender (ctx host handler : option unit) (signer : option S)
    (NewCache : Z -> result C) (NewTimeCache : Z -> T) (now : Z) : result (directSender * string) :=
  match host, ctx, handler, signer with
  | None, _, _, _ => Err ErrNilHost
  | _, None, _, _ => Err ErrNilContext
  | _, _, None, _ => Err ErrNilDirectSendMessageHandler
  | _, _, _, None => Err ErrNilP2PSigner
  | Some _, Some _, Some _, Some signer =>
      let? mutexForPeer := NewMutexHolder NewCache maxMutexes in
      Ok (mk (u64 now) (NewTimeCache timeSeenMessages) mutexForPeer signer, DirectSendID)
  end.

(** ** Receiving *)

Definition withSignPrefix (b : bytes) : bytes := SignPrefix ++ b.

Definition msgId (msg : pb_Message) : string :=
  string_of_bytes (get_bytes (pb_From msg)) +:+ string_of_bytes (get_bytes (pb_Seqno msg)).

Definition checkAndSetSeenMessage ds (now : Z) (msg : pb_Message) : bool * directSender :=
  let msgId := msgId msg in
  if tc_Has (seenMessages ds) now msgId then (true, ds)
  else (false, set_seen (tc_Add (seenMessages ds) now msgId) ds).

(** The copy of a message that is signed. *)
Definition unsigned (m : pb_Message) : pb_Message :=
  mkPb (pb_From m) (pb_Data m) (pb_Seqno m) (pb_Topic m) None None.

Definition checkSig ds (message : pb_Message) : option error :=
  if len (get_bytes (pb_Signature message)) =? 0 then None
  else match pb_Marshal (unsigned message) with
  | Err err => Some err
  | Ok buff =>
      sv_Verify (signer ds) (withSignPrefix buff)
        (string_of_bytes (get_bytes (pb_From message))) (get_bytes (pb_Signature message))
  end.

Definition processReceivedDirectMessage ds h (now : Z) (message : option pb_Message)
    (fromConnectedPeer : PeerID) : option error * directSender * H :=
  match message with
  | None => (Some (ErrSentinel ErrNilMessage), ds, h)
  | Some message =>
  match pb_Topic message with
  | None => (Some (ErrSentinel ErrNilTopic), ds, h)
  | Some _ =>
      if negb (bool_decide (get_bytes (pb_From message) = bytes_of_string fromConnectedPeer)) then
        (Some (ErrWrap ErrInvalidValue " mismatch between From and fromConnectedPeer values"), ds, h)
      else if bool_decide (is_Some (pb_Key message)) then
        (Some (ErrWrap ErrInvalidValue " for Key field as the node accepts only nil on this field"), ds, h)
      else if len (get_bytes (pb_Seqno message)) >? sequenceNumberSize then
        (Some (ErrWrap ErrInvalidValue (" for SeqNo field as the node accepts only a maximum "
                 +:+ pretty sequenceNumberSize +:+ " bytes")), ds, h)
      else
        let '(seen, ds) := checkAndSetSeenMessage ds now message in
        if (seen : bool) then (Some (ErrSentinel ErrAlreadySeenMessage), ds, h)
        else match checkSig ds message with
        | Some err => (Some err, ds, h)
        | None => let '(err, h) := messageHandler h message fromConnectedPeer in (err, ds, h)
        end
  end end.

(** What [ReadMsg] returns on the stream: a message, the end of the stream, or an
    error. *)
Inductive read : Type :=
| ReadMsg (now : Z) (msg : pb_Message)
| ReadEOF
| ReadError (err : error).

(** The goroutine that serves a stream; it stops at the first read that fails. *)
Fixpoint directStreamHandler ds h (s : stream) (remotePeer : PeerID) (reads : list read) :
    directSender * H * list stream_event :=
  match reads with
  | [] => (ds, h, [])
  | ReadEOF :: _ => (ds, h, [CloseStream s])
  | ReadError _ :: _ => (ds, h, [ResetStream s])
  | ReadMsg now msg :: reads =>
      let '(_, ds, h) := processReceivedDirectMessage ds h now (Some msg) remotePeer in
      directStreamHandler ds h s remotePeer reads
  end.

(** ** Sending *)

Definition NextSequenceNumber ds : bytes * directSender :=
  let newVal := u64 (counter ds + 1) in
  (PutUint64 newVal, set_counter newVal ds).

(** The connection with the most streams, the last one of those. *)
Fixpoint bestConn (lStreams : Z) (best : option conn) (conns : list conn) : option conn :=
  match conns with
  | [] => best
  | c :: conns =>
      let length := len (GetStreams c) in
      if length >=? lStreams then bestConn length (Some c) conns else bestConn lStreams best conns
  end.

Definition getConnection (net : network) (p : PeerID) : result conn :=
  match ConnsToPeer net p with
  | [] => Err ErrPeerNotDirectlyConnected
  | conns =>
      match bestConn 0 None conns with
      | Some conn => Ok conn
      | None => Err ErrPeerNotDirectlyConnected
      end
  end.

Definition isSendable (s : stream) : bool := bool_decide (Protocol s = DirectSendID) && DirOutbound s.

Definition getOrCreateStream (net : network) (conn : conn) : result stream :=
  match list_find isSendable (GetStreams conn) with
  | Some (_, s) => Ok s
  | None => NewStream net (RemotePeer conn) DirectSendID
  end.

Definition createMessage ds (topic : string) (buff : bytes) (conn : conn) :
    result pb_Message * directSender :=
  let '(seqno, ds) := NextSequenceNumber ds in
  let mes := mkPb (Some (bytes_of_string (LocalPeer conn))) (Some buff) (Some seqno) (Some topic) None None in
  match pb_Marshal mes with
  | Err err => (Err err, ds)
  | Ok buff =>
      match sv_Sign (signer ds) (withSignPrefix buff) with
      | Err err => (Err err, ds)
      | Ok sig => (Ok (mkPb (pb_From mes) (pb_Data mes) (pb_Seqno mes) (pb_Topic mes) (Some sig) None), ds)
      end
  end.

Definition Send ds (net : network) (topic : string) (buff : bytes) (peer : PeerID) :
    option error * directSender * list stream_event :=
  if len buff >=? maxSendBuffSize then
    (Some (ErrWrap ErrMessageTooLarge (", to be sent: " +:+ pretty (len buff)
             +:+ ", maximum: " +:+ pretty maxSendBuffSize)), ds, [])
  else
    let '(_, mutexes) := MutexHolder.Get (mutexForPeer ds) peer in
    let ds := set_mutexes mutexes ds in
    match getConnection net peer with
    | Err err => (Some err, ds, [])
    | Ok conn =>
    match getOrCreateStream net conn with
    | Err err => (Some err, ds, [])
    | Ok stream =>
        let '(msg, ds) := createMessage ds topic buff conn in
        match msg with
        | Err err => (Some err, ds, [])
        | Ok msg =>
        match WriteMsg net stream msg with
        | Some err => (Some err, ds, [Written stream msg; ResetStream stream; CloseStream stream])
        | None =>
        match Flush net stream with
        | Some err => (Some err, ds, [Written stream msg; Flushed stream; ResetStream stream; CloseStream stream])
        | None => (None, ds, [Written stream msg; Flushed stream])
        end end end
    end end.

End DirectSender.
Arguments directSender : clear implicits.
Arguments mk {T C S}.
#[global] Arguments processReceivedDirectMessage : simpl never.

(** ** Sequence numbers *)

(** Two integers that agree above a byte and on the byte agree. *)
Lemma shift_byte_eq v w s :
  0 <= s -> Z.shiftr v (s + 8) = Z.shiftr w (s + 8) ->
  z2b (Z.shiftr v s) = z2b (Z.shiftr w s) -> Z.shiftr v s = Z.shiftr w s.
Proof.
  intros Hs E Eb. apply (f_equal b2z) in Eb. rewrite !b2z_z2b in Eb.
  rewrite <- !Z.shiftr_shiftr in E by lia. rewrite !(Z.shiftr_div_pow2 _ 8) in E by lia.
  change (2 ^ 8) with 256 in E.
  rewrite (Z.div_mod (Z.shiftr v s) 256), (Z.div_mod (Z.shiftr w s) 256) by done. congruence.
Qed.

Lemma PutUint64_inj v w : in_u64 v -> in_u64 w -> PutUint64 v = PutUint64 w -> v = w.
Proof.
  unfold PutUint64. intros Hv Hw E. injection E as E7 E6 E5 E4 E3 E2 E1 E0.
  assert (forall x, in_u64 x -> Z.shiftr x (56 + 8) = 0) as H0.
  { intros x Hx. rewrite Z.shiftr_div_pow2 by lia. by apply Z.div_small. }
  assert (Z.shiftr v (56 + 8) = Z.shiftr w (56 + 8)) as E8 by (by rewrite !H0).
  pose proof (shift_byte_eq v w 56 ltac:(lia) E8 E7) as F7.
  pose proof (shift_byte_eq v w 48 ltac:(lia) F7 E6) as F6.
  pose proof (shift_byte_eq v w 40 ltac:(lia) F6 E5) as F5.
  pose proof (shift_byte_eq v w 32 ltac:(lia) F5 E4) as F4.
  pose proof (shift_byte_eq v w 24 ltac:(lia) F4 E3) as F3.
  pose proof (shift_byte_eq v w 16 ltac:(lia) F3 E2) as F2.
  pose proof (shift_byte_eq v w 8 ltac:(lia) F2 E1) as F1.
  exact (shift_byte_eq v w 0 ltac:(lia) F1 E0).
Qed.

Lemma length_PutUint64 v : length (PutUint64 v) = 8%nat.
Proof. done. Qed.

Section Correctness.

Context {T C S H : Type} `{TimeCacheLaws T} `{CacherLaws C} `{SignerVerifier S}.
Context (messageHandler : H -> pb_Message -> PeerID -> option error * H).
Context (pb_Marshal : pb_Message -> result bytes) (SignPrefix : bytes).

Abbreviation process := (processReceivedDirectMessage messageHandler pb_Marshal SignPrefix).
Implicit Types (ds : directSender T C S) (h : H).

(** The sequence numbers of [n] calls in a row. *)
Fixpoint sequenceNumbers (n : nat) ds : list bytes :=
  match n with
  | O => []
  | Datatypes.S n => let '(s, ds) := NextSequenceNumber ds in s :: sequenceNumbers n ds
  end.

Lemma sequenceNumbers_lookup n i ds :
  (i < n)%nat -> sequenceNumbers n ds !! i = Some (PutUint64 (u64 (counter ds + 1 + Z.of_nat i))).
Proof.
  revert i ds. induction n as [|n IH]; intros [|i] ds Hi; [lia..| |]; simpl.
  - by rewrite Z.add_0_r.
  - rewrite IH by lia. simpl. do 2 f_equal. unfold u64.
    rewrite <- Z.add_assoc, Zplus_mod_idemp_l. f_equal. lia.
Qed.

(** Sequence numbers.  Any run of at most 2^64 messages sent by a node carries
    pairwise different sequence numbers of eight bytes, so the receivers never
    take a later message for an earlier one. *)
Theorem sequence_numbers_distinct n ds :
  Z.of_nat n <= 2 ^ 64 ->
  NoDup (sequenceNumbers n ds) /\ Forall (fun s => len s = sequenceNumberSize) (sequenceNumbers n ds).
Proof.
  intros Hn.
  assert (length (sequenceNumbers n ds) = n) as Hlen.
  { clear Hn. revert ds. induction n as [|n IH]; intros ds; simpl; [done|]. by rewrite IH. }
  split.
  - apply NoDup_alt. intros i j s Hi Hj.
    pose proof (lookup_lt_Some _ _ _ Hi) as Li. pose proof (lookup_lt_Some _ _ _ Hj) as Lj.
    rewrite sequenceNumbers_lookup in Hi, Hj by lia. rewrite <- Hj in Hi. apply (inj Some) in Hi.
    apply PutUint64_inj in Hi as E; [| apply u64_range..]. unfold u64 in E.
    assert (((counter ds + 1 + Z.of_nat i) - (counter ds + 1 + Z.of_nat j)) mod 2 ^ 64 = 0) as E'
      by (rewrite Zminus_mod, E, Z.sub_diag; done).
    apply Z.mod_divide in E' as [q E']; [|done]. nia.
  - apply Forall_lookup. intros i s Hi. pose proof (lookup_lt_Some _ _ _ Hi) as Li.
    rewrite sequenceNumbers_lookup in Hi by lia. by apply (inj Some) in Hi as <-.
Qed.

(** ** Receiving *)

(** The checks on the fields of a message. *)
Definition well_addressed (message : pb_Message) (from : PeerID) : Prop :=
  is_Some (pb_Topic message) /\ get_bytes (pb_From message) = bytes_of_string from /\
  pb_Key message = None /\ len (get_bytes (pb_Seqno message)) <= sequenceNumberSize.

Lemma process_well_addressed ds h now message from :
  well_addressed message from ->
  process ds h now (Some message) from =
    if tc_Has (seenMessages ds) now (msgId message) then (Some (ErrSentinel ErrAlreadySeenMessage), ds, h)
    else
      let ds' := set_seen (tc_Add (seenMessages ds) now (msgId message)) ds in
      match checkSig pb_Marshal SignPrefix ds' message with
      | Some err => (Some err, ds', h)
      | None => let '(err, h) := messageHandler h message from in (err, ds', h)
      end.
Proof.
  intros ([topic Et] & Ef & Ek & Es). unfold processReceivedDirectMessage.
  rewrite Et, bool_decide_eq_true_2 by done. rewrite Ek, bool_decide_eq_false_2 by (by intros [? ?]).
  rewrite Z.gtb_ltb, (proj2 (Z.ltb_ge _ _)) by done. unfold checkAndSetSeenMessage. simpl.
  by destruct (tc_Has _ _ _).
Qed.

Lemma process_rejected ds h now message from :
  ~ well_addressed message from ->
  exists err, process ds h now (Some message) from = (Some err, ds, h) /\
    (errors_Is err ErrInvalidValue = true \/ err = ErrNilTopic).
Proof.
  intros Hn. unfold processReceivedDirectMessage.
  destruct (pb_Topic message) as [topic|] eqn:Et; [|eauto].
  destruct (bool_decide_reflect (get_bytes (pb_From message) = bytes_of_string from)) as [Ef|]; [|eauto]. simpl negb.
  destruct (bool_decide_reflect (is_Some (pb_Key message))) as [|Ek%eq_None_not_Some]; [eauto|].
  rewrite Z.gtb_ltb. destruct (Z.ltb_spec sequenceNumberSize (len (get_bytes (pb_Seqno message)))) as [|Hs]; [eauto|].
  exfalso. apply Hn. unfold well_addressed. rewrite Et. split_and!; done.
Qed.

Lemma process_cases ds h now message from err ds' h' :
  process ds h now (Some message) from = (err, ds', h') ->
  (~ well_addressed message from /\ is_Some err /\ ds' = ds /\ h' = h) \/
  (well_addressed message from /\ tc_Has (seenMessages ds) now (msgId message) = true /\
   err = Some (ErrSentinel ErrAlreadySeenMessage) /\ ds' = ds /\ h' = h) \/
  (well_addressed message from /\ tc_Has (seenMessages ds) now (msgId message) = false /\
   ds' = set_seen (tc_Add (seenMessages ds) now (msgId message)) ds /\
   match checkSig pb_Marshal SignPrefix ds message with
   | Some e => err = Some e /\ h' = h
   | None => (err, h') = messageHandler h message from
   end).
Proof.
  intros E.
  assert (well_addressed message from \/ ~ well_addressed message from) as [W|W].
  { unfold well_addressed. destruct (pb_Topic message); [|right; by intros ([? ?] & _)].
    destruct (decide (get_bytes (pb_From message) = bytes_of_string from)); [|tauto].
    destruct (pb_Key message); [right; intros (_ & _ & ? & _); done|].
    destruct (decide (len (get_bytes (pb_Seqno message)) <= sequenceNumberSize)); [left | tauto].
    by split_and!. }
  - right. rewrite process_well_addressed in E by done.
    destruct (tc_Has _ _ _) eqn:Eh; [left; by simplify_eq|]. right.
    cbn zeta in E. change (checkSig pb_Marshal SignPrefix (set_seen _ ds) message)
      with (checkSig pb_Marshal SignPrefix ds message) in E.
    split_and!; try done; destruct (checkSig _ _ _ _); try (by simplify_eq);
      destruct (messageHandler h message from); by simplify_eq.
  - left. destruct (process_rejected ds h now message from W) as (e & E' & _).
    rewrite E' in E. simplify_eq. by split_and!.
Qed.

(** Receiving, on every branch.  The messenger's handler is called exactly for
    the messages that carry a topic, whose origin is the peer at the other end
    of the stream, that have no key and a sequence number of at most eight
    bytes, that were not seen, and whose signature, if there is one, verifies for
    the origin.  A message that fails the checks on its fields leaves no trace;
    one that fails only the signature is remembered as seen. *)
Theorem processReceivedDirectMessage_spec ds h now message from err ds' h' :
  process ds h now (Some message) from = (err, ds', h') ->
  (~ well_addressed message from /\ is_Some err /\ ds' = ds /\ h' = h) \/
  (well_addressed message from /\ tc_Has (seenMessages ds) now (msgId message) = true /\
   err = Some (ErrSentinel ErrAlreadySeenMessage) /\ ds' = ds /\ h' = h) \/
  (well_addressed message from /\ tc_Has (seenMessages ds) now (msgId message) = false /\
   ds' = set_seen (tc_Add (seenMessages ds) now (msgId message)) ds /\
   match checkSig pb_Marshal SignPrefix ds message with
   | Some e => err = Some e /\ h' = h
   | None => (err, h') = messageHandler h message from
   end).
Proof. apply process_cases. Qed.

(** A history: messages received one after the other, with the clock readings. *)
Fixpoint receive ds h (l : list (Z * pb_Message * PeerID)) : directSender T C S * H :=
  match l with
  | [] => (ds, h)
  | (now, message, from) :: l =>
      let '(_, ds, h) := process ds h now (Some message) from in receive ds h l
  end.

(** The message was added to the cache at [t0] or later. *)
Definition remembered ds (k : string) (t0 : Z) : Prop :=
  exists t, tc_added (seenMessages ds) k = Some t /\ t0 <= t.

Lemma process_remembers ds h now message from k t0 :
  remembered ds k t0 -> now <= t0 + tc_span (seenMessages ds) ->
  let ds' := (process ds h now (Some message) from).1.2 in
  remembered ds' k t0 /\ tc_span (seenMessages ds') = tc_span (seenMessages ds).
Proof.
  intros (t & Et & Hle) Hnow ds'. unfold ds'.
  destruct (process ds h now (Some message) from) as [[err ds1] h'] eqn:E. simpl.
  apply process_cases in E as
    [(_ & _ & -> & _)|[(_ & _ & _ & -> & _)|(_ & Eh & -> & _)]];
    [by split; [exists t|] | by split; [exists t|] |].
  simpl. split; [|apply span_Add]. unfold remembered. simpl.
  destruct (decide (msgId message = k)) as [Ek|Hne].
  - rewrite <- Ek in Et. rewrite (Has_added _ now _ _ Et) in Eh; [done | lia].
  - exists t. destruct (added_Add_ne (seenMessages ds) now _ _ Hne) as [->|(_ & t1 & Et1 & Hlt)]; [done|].
    simplify_eq. lia.
Qed.

Lemma receive_remembers ds h l k t0 :
  remembered ds k t0 -> Forall (fun r => r.1.1 <= t0 + tc_span (seenMessages ds)) l ->
  let ds' := (receive ds h l).1 in
  remembered ds' k t0 /\ tc_span (seenMessages ds') = tc_span (seenMessages ds).
Proof.
  revert ds h. induction l as [|[[now m] p] l IH]; intros ds h R F; [done|].
  apply Forall_cons in F as [F1 F2]. simpl in F1 |- *.
  destruct (process_remembers ds h now m p k t0 R F1) as [R1 S1].
  destruct (process ds h now (Some m) p) as [[err ds1] h1]. simpl in R1, S1.
  rewrite <- S1 in F2 |- *. exact (IH ds1 h1 R1 F2).
Qed.

(** No replay.  Once a well-addressed message that was not seen has been
    processed, a message with the same origin and sequence number is rejected
    as already seen, whatever its content, for the whole life span of the cache,
    and whatever messages of any peers are received in between; the messenger
    does not get it. *)
Theorem no_replay ds h now m from history now' m' :
  well_addressed m from -> well_addressed m' from -> pb_Seqno m' = pb_Seqno m ->
  tc_Has (seenMessages ds) now (msgId m) = false ->
  Forall (fun r => r.1.1 <= now + tc_span (seenMessages ds)) history ->
  now' <= now + tc_span (seenMessages ds) ->
  let '(ds1, h1) := receive ds h ((now, m, from) :: history) in
  process ds1 h1 now' (Some m') from = (Some (ErrSentinel ErrAlreadySeenMessage), ds1, h1).
Proof.
  intros W W' Es Eh F Hnow.
  destruct (receive ds h ((now, m, from) :: history)) as [ds1 h1] eqn:E. simpl in E.
  destruct (process ds h now (Some m) from) as [[err ds0] h0] eqn:E0.
  apply process_cases in E0
    as [(Hn & _)|[(_ & Eh' & _)|(_ & _ & -> & _)]]; [done | congruence |].
  set (ds0 := set_seen _ ds) in E.
  assert (remembered ds0 (msgId m) now) as R0.
  { exists now. unfold ds0. simpl. by rewrite added_Add_eq. }
  assert (tc_span (seenMessages ds0) = tc_span (seenMessages ds)) as S0 by apply span_Add.
  pose proof (receive_remembers ds0 h0 history (msgId m) now R0) as P. rewrite S0 in P.
  destruct (P F) as [(t & Et & Ht) S1]. rewrite E in Et, S1. simpl in Et, S1.
  assert (msgId m' = msgId m) as Em.
  { unfold msgId. destruct W as (_ & Ef & _), W' as (_ & Ef' & _). by rewrite Ef, Ef', Es. }
  rewrite process_well_addressed by done. rewrite Em.
  by rewrite (Has_added _ now' _ _ Et) by (rewrite S1; lia).
Qed.

(** ** Sending *)

Lemma createMessage_Ok ds topic buff conn msg ds' :
  createMessage pb_Marshal SignPrefix ds topic buff conn = (Ok msg, ds') ->
  exists b sig,
    pb_Marshal (unsigned msg) = Ok b /\ sv_Sign (signer ds) (withSignPrefix SignPrefix b) = Ok sig /\
    msg = mkPb (Some (bytes_of_string (LocalPeer conn))) (Some buff)
               (Some (PutUint64 (u64 (counter ds + 1)))) (Some topic) (Some sig) None /\
    ds' = set_counter (u64 (counter ds + 1)) ds.
Proof.
  unfold createMessage, NextSequenceNumber. simpl.
  destruct (pb_Marshal _) as [b|] eqn:Eb; [|done].
  destruct (sv_Sign _ _) as [sig|] eqn:Es; [|done]. intros [= <- <-]. by exists b, sig.
Qed.

Lemma well_addressed_created ds topic buff conn msg ds' :
  createMessage pb_Marshal SignPrefix ds topic buff conn = (Ok msg, ds') ->
  well_addressed msg (LocalPeer conn).
Proof.
  intros (b & sig & _ & _ & -> & _)%createMessage_Ok. by split_and!.
Qed.

Lemma process_created ds topic buff conn msg ds' (receiver : directSender T C S) h now :
  (forall b sig, sv_Sign (signer ds) b = Ok sig -> sv_Verify (signer receiver) b (LocalPeer conn) sig = None) ->
  createMessage pb_Marshal SignPrefix ds topic buff conn = (Ok msg, ds') ->
  tc_Has (seenMessages receiver) now (msgId msg) = false ->
  pb_Topic msg = Some topic /\ pb_Data msg = Some buff /\
  process receiver h now (Some msg) (LocalPeer conn) =
    (let '(err, h') := messageHandler h msg (LocalPeer conn) in
     (err, set_seen (tc_Add (seenMessages receiver) now (msgId msg)) receiver, h')).
Proof.
  intros Hsig Ec Eh. pose proof (well_addressed_created _ _ _ _ _ _ Ec) as W.
  apply createMessage_Ok in Ec as (b & sig & Eb & Es & Em & _).
  split_and!; [by rewrite Em.. |]. rewrite process_well_addressed, Eh by done. cbn zeta.
  assert (checkSig pb_Marshal SignPrefix (set_seen (tc_Add (seenMessages receiver) now (msgId msg)) receiver) msg = None)
    as ->; [|done].
  unfold checkSig. case_match; [done|]. rewrite Eb. rewrite Em. cbn [pb_From pb_Signature get_bytes default from_option].
  simpl. rewrite string_of_bytes_of_string. by apply Hsig.
Qed.

(** Delivery.  A message that a node creates for a connection is accepted at
    the other end of the connection, provided the receiver's signer verifies
    what the sender's signer signs for the sender's identity and the message was
    not received before: the receiver's messenger gets it with the topic and the
    data that were sent. *)
Theorem direct_message_delivered ds topic buff conn msg ds' (receiver : directSender T C S) h now :
  (forall b sig, sv_Sign (signer ds) b = Ok sig -> sv_Verify (signer receiver) b (LocalPeer conn) sig = None) ->
  createMessage pb_Marshal SignPrefix ds topic buff conn = (Ok msg, ds') ->
  tc_Has (seenMessages receiver) now (msgId msg) = false ->
  pb_Topic msg = Some topic /\ pb_Data msg = Some buff /\
  process receiver h now (Some msg) (LocalPeer conn) =
    (let '(err, h') := messageHandler h msg (LocalPeer conn) in
     (err, set_seen (tc_Add (seenMessages receiver) now (msgId msg)) receiver, h')).
Proof. apply process_created. Qed.

Lemma bestConn_spec lStreams best conns c :
  bestConn lStreams best conns = Some c ->
  (best = Some c \/ c ∈ conns) /\
  (forall c', c' ∈ conns -> best = None \/ lStreams <= len (GetStreams c) -> len (GetStreams c') <= len (GetStreams c)) /\
  (best = None \/ (forall b, best = Some b -> len (GetStreams b) = lStreams) -> best = Some c \/ lStreams <= len (GetStreams c)).
Proof.
  revert lStreams best. induction conns as [|c0 conns IH]; intros lStreams best; simpl.
  - intros ->. split_and!; [by left | set_solver | by left].
  - rewrite Z.geb_leb. destruct (Z.leb_spec lStreams (len (GetStreams c0))) as [Hle|Hlt]; intros E.
    + destruct (IH _ _ E) as (I1 & I2 & I3). destruct I3 as [[= ->]|I3].
      { right. intros b [= ->]. done. }
      * split_and!; [set_solver | | by right].
        intros c' [->|Hin]%elem_of_cons _; [done|]. apply I2; [done | by right].
      * split_and!; [| | right; lia].
        -- destruct I1 as [[= ->]|I1]; set_solver.
        -- intros c' [->|Hin]%elem_of_cons _; [lia|]. apply I2; [done | by right].
    + destruct (IH _ _ E) as (I1 & I2 & I3). split_and!; [set_solver | | done].
      intros c' [->|Hin]%elem_of_cons Hb; [|by apply I2].
      destruct Hb as [->|Hb]; [|lia]. destruct I3 as [?|?]; [by left | done | lia].
Qed.

Lemma getConnection_Ok net p c :
  getConnection net p = Ok c ->
  c ∈ ConnsToPeer net p /\ forall c', c' ∈ ConnsToPeer net p -> len (GetStreams c') <= len (GetStreams c).
Proof.
  unfold getConnection. destruct (ConnsToPeer net p) as [|c0 conns]; [done|].
  destruct (bestConn 0 None (c0 :: conns)) as [c1|] eqn:E; [|done]. intros [= ->].
  destruct (bestConn_spec _ _ _ _ E) as ([?|Hin] & Hmax & _); [done|]. auto.
Qed.

Lemma getOrCreateStream_Ok net c s :
  getOrCreateStream net c = Ok s ->
  (s ∈ GetStreams c /\ isSendable s = true) \/
  (Forall (fun s => isSendable s = false) (GetStreams c) /\ NewStream net (RemotePeer c) DirectSendID = Ok s).
Proof.
  unfold getOrCreateStream. destruct (list_find _ _) as [[i s']|] eqn:E.
  - apply list_find_Some in E as (Hi & Hs & _). intros [= <-]. left.
    split; [by eapply list_elem_of_lookup_2 | by apply Is_true_true].
  - intros En. right. split; [|done]. apply list_find_None in E. eapply Forall_impl; [exact E|].
    intros x Hx. apply not_true_is_false. intros Hx'. apply Hx. by apply Is_true_true.
Qed.

(** Sending.  When [Send] succeeds, the buffer was below the size limit, and
    exactly one message was written and flushed: on the direct-send stream that
    was already open on the connection to the peer with the most streams, or on
    a new stream when that connection had none; the message carries the topic,
    the data, the local identity and the next sequence number.  When it fails,
    no message reached the peer's stream unless the stream is then reset and
    closed. *)
Theorem Send_spec ds net topic buff peer err ds' events :
  Send pb_Marshal SignPrefix ds net topic buff peer = (err, ds', events) ->
  match err with
  | None =>
      exists c s msg, len buff < maxSendBuffSize /\
        c ∈ ConnsToPeer net peer /\
        (forall c', c' ∈ ConnsToPeer net peer -> len (GetStreams c') <= len (GetStreams c)) /\
        ((s ∈ GetStreams c /\ isSendable s = true) \/
         (Forall (fun s => isSendable s = false) (GetStreams c) /\
          NewStream net (RemotePeer c) DirectSendID = Ok s)) /\
        events = [Written s msg; Flushed s] /\
        pb_Topic msg = Some topic /\ pb_Data msg = Some buff /\
        pb_From msg = Some (bytes_of_string (LocalPeer c)) /\
        pb_Seqno msg = Some (PutUint64 (counter ds')) /\ counter ds' = u64 (counter ds + 1)
  | Some _ => events = [] \/
      exists s msg l, events = Written s msg :: l ++ [ResetStream s; CloseStream s]
  end.
Proof.
  unfold Send. rewrite Z.geb_leb. destruct (Z.leb_spec maxSendBuffSize (len buff)); [intros; simplify_eq; by left|].
  destruct (MutexHolder.Get _ _) as [mu mutexes].
  destruct (getConnection net peer) as [c|] eqn:Ec; [|intros; simplify_eq; by left].
  destruct (getOrCreateStream net c) as [s|] eqn:Es; [|intros; simplify_eq; by left].
  destruct (createMessage _ _ _ _ _ _) as [msg ds1] eqn:Em.
  destruct msg as [msg|]; [|intros; simplify_eq; by left].
  destruct (WriteMsg net s msg); [intros; simplify_eq; right; by exists s, msg, []|].
  destruct (Flush net s); [intros; simplify_eq; right; by exists s, msg, [Flushed s]|].
  intros [= <- <- <-]. exists c, s, msg.
  destruct (getConnection_Ok _ _ _ Ec) as [Hin Hmax].
  apply createMessage_Ok in Em as (b & sig & _ & _ & Emsg & Eds). subst msg ds1. simpl.
  split_and!; try done. by apply getOrCreateStream_Ok.
Qed.

End Correctness.

Module Witness.

(** A signer whose signature of a buffer is the buffer, and an encoding that keeps
    the origin and the data. *)
#[local] Instance echo_signer : SignerVerifier unit := {
  sv_Sign _ b := Ok b;
  sv_Verify _ b _ sig := if decide (sig = b) then None else Some (ErrText "bad signature")
}.
Definition enc (m : pb_Message) : result bytes :=
  Ok (get_bytes (pb_From m) ++ get_bytes (pb_Data m) ++ get_bytes (pb_Seqno m)).
Definition handler (h : list pb_Message) (m : pb_Message) (p : PeerID) : option error * list pb_Message :=
  (None, m :: h).

Definition ds0 : directSender SweepCache.t LruCache.t unit :=
  mk 41 (SweepCache.mk timeSeenMessages ∅) (MutexHolder.mk (LruCache.empty 4) 0) tt.

Definition open_stream : stream := mkStream 7 DirectSendID true.
Definition conn0 : conn := mkConn 1 [] "alice" "bob".
Definition conn1 : conn := mkConn 2 [mkStream 3 "/other" true; open_stream] "alice" "bob".
Definition net : network :=
  mkNetwork (fun p => if decide (p = "bob") then [conn1; conn0] else []) (fun _ _ => Ok open_stream)
    (fun _ _ => None) (fun _ => None).

Definition sent : (option error * directSender SweepCache.t LruCache.t unit) * list stream_event :=
  Send enc [] ds0 net "blocks" [x61] "bob".

Definition msg0 : pb_Message :=
  mkPb (Some (bytes_of_string "alice")) (Some [x61]) (Some (PutUint64 42)) (Some "blocks")
       (Some (bytes_of_string "alice" ++ [x61] ++ PutUint64 42)) None.

Lemma sent_ok : sent = (None, sent.1.2, sent.2).
Proof. vm_compute. reflexivity. Qed.

Lemma Send_spec_witness : exists c s msg,
  c ∈ ConnsToPeer net "bob" /\ sent.2 = [Written s msg; Flushed s] /\ pb_Data msg = Some [x61].
Proof.
  destruct (Send_spec enc [] ds0 net "blocks" [x61] "bob" None sent.1.2 sent.2 sent_ok)
    as (c & s & msg & _ & Hc & _ & _ & Ee & _ & Ed & _).
  exists c, s, msg. split_and!; assumption.
Defined.

Lemma sequence_numbers_distinct_witness : NoDup (sequenceNumbers 3 ds0).
Proof. exact (proj1 (sequence_numbers_distinct 3 ds0 ltac:(lia))). Defined.

Lemma echo_ok b sig p : sv_Sign (signer ds0) b = Ok sig -> sv_Verify (signer ds0) b p sig = None.
Proof. intros E. simpl in E. injection E as ->. simpl. by rewrite decide_True. Qed.

Lemma direct_message_delivered_witness :
  (processReceivedDirectMessage handler enc [] ds0 [] 5 (Some msg0) "alice").2 = [msg0].
Proof.
  destruct (direct_message_delivered handler enc [] ds0 "blocks" [x61] conn1 msg0 (set_counter 42 ds0) ds0 [] 5
    (fun b sig => echo_ok b sig _) ltac:(vm_compute; reflexivity) ltac:(reflexivity))
    as (_ & _ & E).
  change "alice" with (LocalPeer conn1). rewrite E. reflexivity.
Defined.

Definition processed := processReceivedDirectMessage handler enc [] ds0 [] 5 (Some msg0) "alice".

Lemma processed_ok : processed = (None, processed.1.2, [msg0]).
Proof. vm_compute. reflexivity. Qed.

Lemma processReceivedDirectMessage_spec_witness :
  well_addressed msg0 "alice" /\ (None, [msg0]) = handler [] msg0 "alice".
Proof.
  destruct (processReceivedDirectMessage_spec handler enc [] ds0 [] 5 msg0 "alice" _ _ _ processed_ok)
    as [(_ & [? E] & _)|[(_ & _ & E & _)|(W & _ & _ & E)]]; [discriminate E | discriminate E |].
  split; [exact W | exact E].
Defined.

Lemma no_replay_witness :
  let '(ds1, h1) := receive handler enc [] ds0 [] [(5, msg0, "alice"); (6, msg0, "carol")] in
  processReceivedDirectMessage handler enc [] ds1 h1 100 (Some msg0) "alice" =
    (Some (ErrSentinel ErrAlreadySeenMessage), ds1, h1).
Proof.
  refine (no_replay handler enc [] ds0 [] 5 msg0 "alice" [(6, msg0, "carol")] 100 msg0 _ _ eq_refl eq_refl _ _).
  - by split_and!.
  - by split_and!.
  - repeat constructor. simpl. unfold timeSeenMessages. lia.
  - simpl. unfold timeSeenMessages. lia.
Defined.

End Witness.
