(* ===== verification/DirectSends.v ===== *)
(** * DirectSends: concurrent direct messages ([libp2p/directSender.go], [libp2p/mutexHolder.go])

    [Send] may be called from many goroutines.  Each takes the mutex of its peer
    from the mutex holder, and only the code between [Lock] and the deferred
    [Unlock] looks for a stream, numbers the message and writes it.  Here a call
    is a goroutine of atomic steps, and the calls interleave in every order.
    Theorems: no two calls for one peer are ever between [Lock] and [Unlock], so
    the writes of different messages to a peer never mix and its messages are
    written in the order of their sequence numbers, as long as the holder has
    room for the peers (it may forget a mutex in use); a call by itself does what
    [DirectSender.Send] says; the calls never deadlock. *)

From S2P Require Import Prelude Errors Interfaces Cacher MutexHolder Wire TopicMessage Message DirectSender.
From Stdlib Require Import ZArith Lia String Sorted.
From stdpp Require Import prelude gmap list strings pretty sorting.

Local Open Scope Z_scope.

Record request : Type := mkRequest { req_topic : string; req_buff : bytes; req_peer : PeerID }.

(** Where a call is: before [Get]; before [Lock]; locked; with a connection; with a
    stream; with its message; the message written; before [Unlock] with the
    error to return; returned. *)
Inductive phase : Type :=
| Arrived
| Waiting (mut : nat)
| Locked (mut : nat)
| Connected (mut : nat) (c : conn)
| Streaming (mut : nat) (c : conn) (s : stream)
| Ready (mut : nat) (s : stream) (msg : pb_Message)
| Wrote (mut : nat) (s : stream)
| Leaving (mut : nat) (err : option error)
| Returned (err : option error).

Section DirectSends.

Context {T C N : Type} `{TimeCache T} `{Cacher C} `{SignerVerifier N}.
Context (pb_Marshal : pb_Message -> result bytes) (SignPrefix : bytes).

(** The sender, the mutexes that are locked, the calls in the order in which
    they began, and the calls on streams made so far, with who made them. *)
Record state : Type := mk {
  sender : directSender T C N;
  locked : gset nat;
  calls : list (request * phase);
  trace : list (nat * stream_event)
}.

Implicit Types (s : state) (ds : directSender T C N) (ph : phase) (i : nat) (p : PeerID) (held : gset nat).

(** The next step of a call, with the answers of the network to it; [None] when it
    must wait or has returned. *)
Definition advance (net : network) ds held (r : request) ph :
    option (directSender T C N * gset nat * phase * list stream_event) :=
  match ph with
  | Arrived =>
      if len (req_buff r) >=? maxSendBuffSize then
        Some (ds, held, Returned (Some (ErrWrap ErrMessageTooLarge (", to be sent: " +:+ pretty (len (req_buff r))
                                    +:+ ", maximum: " +:+ pretty maxSendBuffSize))), [])
      else
        let '(mut, mutexes) := MutexHolder.Get (mutexForPeer ds) (req_peer r) in
        Some (set_mutexes mutexes ds, held, Waiting mut, [])
  | Waiting mut => if decide (mut ∈ held) then None else Some (ds, {[mut]} ∪ held, Locked mut, [])
  | Locked mut =>
      Some (ds, held, match getConnection net (req_peer r) with
                      | Err err => Leaving mut (Some err)
                      | Ok c => Connected mut c
                      end, [])
  | Connected mut c =>
      Some (ds, held, match getOrCreateStream net c with
                      | Err err => Leaving mut (Some err)
                      | Ok st => Streaming mut c st
                      end, [])
  | Streaming mut c st =>
      let '(msg, ds) := createMessage pb_Marshal SignPrefix ds (req_topic r) (req_buff r) c in
      Some (ds, held, match msg with
                      | Err err => Leaving mut (Some err)
                      | Ok msg => Ready mut st msg
                      end, [])
  | Ready mut st msg =>
      match WriteMsg net st msg with
      | Some err => Some (ds, held, Leaving mut (Some err), [Written st msg; ResetStream st; CloseStream st])
      | None => Some (ds, held, Wrote mut st, [Written st msg])
      end
  | Wrote mut st =>
      match Flush net st with
      | Some err => Some (ds, held, Leaving mut (Some err), [Flushed st; ResetStream st; CloseStream st])
      | None => Some (ds, held, Leaving mut None, [Flushed st])
      end
  | Leaving mut err => Some (ds, held ∖ {[mut]}, Returned err, [])
  | Returned _ => None
  end.

(** A call begins; a call advances; a received message changes what was seen. *)
Inductive step s : state -> Prop :=
| begins r : step s (mk (sender s) (locked s) (calls s ++ [(r, Arrived)]) (trace s))
| advances i net r ph ds held ph' evs :
    calls s !! i = Some (r, ph) -> advance net (sender s) (locked s) r ph = Some (ds, held, ph', evs) ->
    step s (mk ds held (<[i := (r, ph')]> (calls s)) (trace s ++ ((i,.) <$> evs)))
| receives seen : step s (mk (set_seen seen (sender s)) (locked s) (calls s) (trace s)).

Inductive reach s0 : state -> Prop :=
| reach_start : reach s0 s0
| reach_step s s' : reach s0 s -> step s s' -> reach s0 s'.

(** A sender to which nobody sends yet. *)
Definition start ds : state := mk ds ∅ [] [].

(** ** The critical section *)

Definition mutex_of ph : option nat :=
  match ph with
  | Arrived | Returned _ => None
  | Waiting mut | Locked mut | Connected mut _ | Streaming mut _ _ | Ready mut _ _ | Wrote mut _ | Leaving mut _ => Some mut
  end.

(** Between [Lock] and [Unlock]. *)
Definition critical ph : option nat := match ph with Waiting _ => None | _ => mutex_of ph end.

Definition requested s : gset PeerID := list_to_set ((req_peer ∘ fst) <$> calls s).

Lemma critical_mutex ph mut : critical ph = Some mut -> mutex_of ph = Some mut.
Proof. by destruct ph. Qed.

(** A step of a call: too large; taking a mutex from the holder; locking; inside;
    unlocking. *)
Lemma advance_cases net ds held r ph ds' held' ph' evs :
  advance net ds held r ph = Some (ds', held', ph', evs) ->
  (ph = Arrived /\ mutex_of ph' = None /\ ds' = ds /\ held' = held) \/
  (ph = Arrived /\ ph' = Waiting (MutexHolder.Get (mutexForPeer ds) (req_peer r)).1 /\
   ds' = set_mutexes (MutexHolder.Get (mutexForPeer ds) (req_peer r)).2 ds /\ held' = held) \/
  (exists mut, ph = Waiting mut /\ ph' = Locked mut /\ mut ∉ held /\ held' = {[mut]} ∪ held /\ ds' = ds) \/
  (exists mut, critical ph = Some mut /\ critical ph' = Some mut /\ held' = held /\ mutexForPeer ds' = mutexForPeer ds) \/
  (exists mut, critical ph = Some mut /\ mutex_of ph' = None /\ held' = held ∖ {[mut]} /\ ds' = ds).
Proof.
  destruct ph as [|mut|mut|mut c|mut c st|mut st msg|mut st|mut err|err]; cbn [advance critical mutex_of].
  - case_match; [intros [= <- <- <- <-]; by left|]. destruct (MutexHolder.Get _ _) as [mut ms].
    intros [= <- <- <- <-]. by right; left.
  - case_decide; [done|]. intros [= <- <- <- <-]. right; right; left. by exists mut.
  - intros [= <- <- <- <-]. right; right; right; left. exists mut. by destruct (getConnection _ _).
  - intros [= <- <- <- <-]. right; right; right; left. exists mut. by destruct (getOrCreateStream _ _).
  - destruct (createMessage _ _ _ _ _ _) as [msg ds1] eqn:E. intros [= <- <- <- <-].
    right; right; right; left. exists mut. split_and!; [done | by destruct msg | done|].
    unfold createMessage, NextSequenceNumber in E. repeat case_match; by simplify_eq.
  - intros E. right; right; right; left. exists mut. destruct (WriteMsg _ _ _); by simplify_eq.
  - intros E. right; right; right; left. exists mut. destruct (Flush _ _); by simplify_eq.
  - intros [= <- <- <- <-]. right; right; right; right. by exists mut.
  - done.
Qed.

End DirectSends.
Arguments state : clear implicits.

(** ** Mutual exclusion *)

Section Correctness.

Context {T C N : Type} `{TimeCache T} `{CacherLaws C} `{!CacherRoom C} `{SignerVerifier N}.
Context (pb_Marshal : pb_Message -> result bytes) (SignPrefix : bytes).
Implicit Types (s : state T C N) (ds : directSender T C N) (ph : phase) (i j : nat) (p : PeerID).

Abbreviation step := (step pb_Marshal SignPrefix).
Abbreviation reach := (reach pb_Marshal SignPrefix).
Abbreviation advance := (advance pb_Marshal SignPrefix).

(** A call that is where [critical] or [mutex_of] say. *)
Lemma insert_call (l : list (request * phase)) i r ph ph' j r' ph'' :
  l !! i = Some (r, ph) -> <[i := (r, ph')]> l !! j = Some (r', ph'') ->
  (j = i /\ r' = r /\ ph'' = ph') \/ (j ≠ i /\ l !! j = Some (r', ph'')).
Proof.
  intros Hi. rewrite list_lookup_insert. case_decide as E; [|intros Hj].
  - destruct E as [-> _]. intros [= <- <-]. by left.
  - right. split; [|done]. intros ->. apply E. split; [done|]. by eapply lookup_lt_Some.
Qed.

Lemma append_call (l : list (request * phase)) r j r' ph :
  (l ++ [(r, Arrived)]) !! j = Some (r', ph) -> l !! j = Some (r', ph) \/ ph = Arrived.
Proof. intros [Hj|[_ Hj]]%lookup_app_Some; [by left|]. apply list_lookup_singleton_Some in Hj as [_ [= _ <-]]. by right. Qed.

(** A locked mutex is held by exactly one call. *)
Record locks_ok s : Prop := {
  lk_held m : m ∈ locked s -> exists i r ph, calls s !! i = Some (r, ph) /\ critical ph = Some m;
  lk_critical i r ph m : calls s !! i = Some (r, ph) -> critical ph = Some m -> m ∈ locked s;
  lk_unique i j ri rj phi phj m : calls s !! i = Some (ri, phi) -> calls s !! j = Some (rj, phj) ->
    critical phi = Some m -> critical phj = Some m -> i = j
}.

Lemma insert_lookup (l : list (request * phase)) i x y :
  l !! i = Some x -> <[i := y]> l !! i = Some y.
Proof. intros Hi. apply list_lookup_insert_eq. by eapply lookup_lt_Some. Qed.

(** One call changes its phase: what it holds before and after decides. *)
Lemma locks_ok_insert s i r ph ph' ds held tr :
  locks_ok s -> calls s !! i = Some (r, ph) ->
  (forall m, m ∈ held <-> (m ∈ locked s /\ critical ph ≠ Some m) \/ critical ph' = Some m) ->
  (forall m, critical ph' = Some m -> critical ph = Some m \/ m ∉ locked s) ->
  locks_ok (mk ds held (<[i := (r, ph')]> (calls s)) tr).
Proof.
  intros [Hh Hc Hu] Hi Hheld Hnew.
  assert (forall j rj phj m, j ≠ i -> calls s !! j = Some (rj, phj) -> critical phj = Some m -> critical ph' ≠ Some m) as Hex.
  { intros j rj phj m Hne Hj Hcj Hci. destruct (Hnew m Hci) as [Hp|Hn]; [by eapply Hne, Hu|]. eapply Hn, Hc; done. }
  constructor; cbn [DirectSends.locked DirectSends.calls].
  - intros m [[Hm Hp]|Hm]%Hheld; [|exists i, r, ph'; split; [by eapply insert_lookup | done]].
    destruct (Hh m Hm) as (j & rj & phj & Hj & Hcj). exists j, rj, phj. split; [|done].
    rewrite list_lookup_insert_ne; [done|]. intros ->. simplify_eq.
  - intros j rj phj m Hj Hcj. apply Hheld. destruct (insert_call _ _ _ _ _ _ _ _ Hi Hj) as [(-> & -> & ->)|[Hne Hj']]; [by right|].
    left. split; [by eapply Hc|]. intros Hp. eapply Hne, Hu; done.
  - intros j k rj rk phj phk m Hj Hk Hcj Hck.
    destruct (insert_call _ _ _ _ _ _ _ _ Hi Hj) as [(-> & -> & ->)|[Hne Hj']],
      (insert_call _ _ _ _ _ _ _ _ Hi Hk) as [(-> & -> & ->)|[Hne' Hk']]; [done|..].
    + by destruct (Hex k rk phk m Hne' Hk' Hck).
    + by destruct (Hex j rj phj m Hne Hj' Hcj).
    + by eapply Hu.
Qed.

Lemma locks_step s s' : locks_ok s -> step s s' -> locks_ok s'.
Proof.
  intros Hok Hst. destruct Hst as [r|i net r ph ds held ph' evs Hi Ha|seen].
  - destruct Hok as [Hh Hc Hu]. constructor; cbn [locked calls].
    + intros m Hm. destruct (Hh m Hm) as (i & r' & ph & Hi & Hp). exists i, r', ph. split; [|done]. by apply lookup_app_l_Some.
    + intros j r' ph m [Hj| ->]%append_call Hp; [by eapply Hc | done].
    + intros j k rj rk phj phk m [Hj| ->]%append_call [Hk| ->]%append_call Hp Hp'; [by eapply Hu | done..].
  - apply advance_cases in Ha as
      [(-> & Hm & -> & ->)|[(-> & -> & -> & ->)|[(mut & -> & -> & Hn & -> & ->)|
       [(mut & Hc & Hc' & -> & _)|(mut & Hc & Hm & -> & ->)]]]];
      (eapply locks_ok_insert; [done | exact Hi | |]); intros m.
    + destruct ph'; try done; naive_solver.
    + by destruct ph'.
    + naive_solver.
    + done.
    + cbn. rewrite elem_of_union, elem_of_singleton. split; [|naive_solver]. intros [->|?]; [by right | by left].
    + intros [= ->]. by right.
    + rewrite Hc'. pose proof (lk_critical _ Hok i r ph mut Hi Hc). rewrite Hc. split; [|naive_solver].
      intros ?. destruct (decide (mut = m)) as [->|]; [by right | left; split; [done | congruence]].
    + rewrite Hc, Hc'. by left.
    + rewrite Hc. rewrite elem_of_difference, elem_of_singleton. destruct ph'; try done; cbn; naive_solver.
    + by destruct ph'.
  - by destruct Hok.
Qed.

Lemma locks_reach ds s : reach (start ds) s -> locks_ok s.
Proof. induction 1 as [|s s' _ IH Hst]; [by constructor|]. by eapply locks_step. Qed.

(** Every call has the mutex that the holder has for its peer. *)
Record mutexes_ok ds s : Prop := {
  mx_wf : MutexHolder.wf (mutexForPeer (sender s));
  mx_ok : cache_ok (mutexes (mutexForPeer (sender s)));
  mx_room : room (mutexes (mutexForPeer (sender s))) = room (mutexes (mutexForPeer ds));
  mx_stored : stored (mutexes (mutexForPeer (sender s))) ⊆ requested s;
  mx_entry i r ph m : calls s !! i = Some (r, ph) -> mutex_of ph = Some m ->
    entry (mutexes (mutexForPeer (sender s))) (req_peer r) = Some (IfMutex m)
}.

(** A sender without mutexes. *)
Definition fresh_mutexes ds : Prop :=
  MutexHolder.wf (mutexForPeer ds) /\ cache_ok (mutexes (mutexForPeer ds)) /\ stored (mutexes (mutexForPeer ds)) ≡ ∅.

Lemma elem_of_requested s p : p ∈ requested s <-> exists i r ph, calls s !! i = Some (r, ph) /\ req_peer r = p.
Proof.
  unfold requested. rewrite elem_of_list_to_set, list_elem_of_fmap. split.
  - intros ([r ph] & -> & [i Hi]%list_elem_of_lookup). by exists i, r, ph.
  - intros (i & r & ph & Hi & <-). exists (r, ph). split; [done | by eapply list_elem_of_lookup_2].
Qed.

Lemma requested_step s s' : step s s' -> requested s ⊆ requested s'.
Proof.
  intros Hst p. rewrite !elem_of_requested. intros (i & r & ph & Hi & Hp).
  destruct Hst as [r'|j net rj phj ds held ph' evs Hj Ha|seen]; cbn [calls].
  - exists i, r, ph. split; [by apply lookup_app_l_Some | done].
  - destruct (decide (j = i)) as [->|Hne]; [|exists i, r, ph; by rewrite list_lookup_insert_ne].
    simplify_eq. exists i, rj, ph'. split; [by eapply insert_lookup | done].
  - by exists i, r, ph.
Qed.

Lemma mutexes_step ds s s' :
  (size (requested s') <= room (mutexes (mutexForPeer ds)))%nat -> mutexes_ok ds s -> step s s' -> mutexes_ok ds s'.
Proof.
  intros Hs Hok Hst. pose proof (requested_step s s' Hst) as Hsub. destruct Hok as [Hwf Hc Hr Hd He].
  destruct Hst as [r|i net r ph ds1 held ph' evs Hi Ha|seen].
  - constructor; cbn [sender]; [done..|by etrans|]. intros j r' ph m [Hj| ->]%append_call Hm; [by eapply He | done].
  - assert (forall j r' ph2 m, <[i := (r, ph')]> (calls s) !! j = Some (r', ph2) -> mutex_of ph2 = Some m ->
              (mutex_of ph' = Some m -> mutex_of ph = Some m) ->
              entry (mutexes (mutexForPeer (sender s))) (req_peer r') = Some (IfMutex m)) as Hold.
    { intros j r' ph2 m Hj Hm Hp. destruct (insert_call _ _ _ _ _ _ _ _ Hi Hj) as [(-> & -> & ->)|[_ Hj']]; eapply He; eauto. }
    apply advance_cases in Ha as
      [(-> & Hm' & -> & ->)|[(-> & -> & -> & ->)|[(mut & -> & -> & _ & _ & ->)|
       [(mut & Hcr & Hcr' & _ & Eds)|(mut & Hcr & Hm' & _ & ->)]]]].
    + constructor; cbn [sender]; [done..|by etrans|]. intros j r' ph2 m Hj Hm. eapply Hold; [exact Hj | exact Hm | congruence].
    + destruct (Get_room (mutexForPeer (sender s)) (req_peer r) Hc) as (Hc' & Hr' & Hd').
      assert (req_peer r ∈ requested s) as Hin by (apply elem_of_requested; eauto).
      assert (size ({[req_peer r]} ∪ stored (mutexes (mutexForPeer (sender s)))) <=
              room (mutexes (mutexForPeer (sender s))))%nat as Hsize.
      { rewrite Hr. etrans; [|exact Hs]. apply subseteq_size. set_solver. }
      constructor; cbn [sender set_mutexes mutexForPeer]; [by apply wf_Get | done | by rewrite Hr' | set_solver|].
      intros j r' ph2 m Hj Hm. destruct (insert_call _ _ _ _ _ _ _ _ Hi Hj) as [(-> & -> & ->)|[_ Hj']].
      * injection Hm as <-. destruct (Get_entry_cases (mutexForPeer (sender s)) (req_peer r))
          as [(a & Ea & E1 & _ & Ee)|(_ & E1 & _ & E2 & _)]; rewrite E1; [by rewrite Ee | done].
      * apply Get_keeps; [done..|]. by eapply He.
    + constructor; cbn [sender]; [done..|by etrans|]. intros j r' ph2 m Hj Hm. eapply Hold; [exact Hj | exact Hm | done].
    + constructor; cbn [sender]; rewrite ?Eds; [done..|by etrans|]. intros j r' ph2 m Hj Hm.
      eapply Hold; [exact Hj | exact Hm |]. apply critical_mutex in Hcr, Hcr'. congruence.
    + constructor; cbn [sender]; [done..|by etrans|]. intros j r' ph2 m Hj Hm. eapply Hold; [exact Hj | exact Hm | congruence].
  - constructor; done.
Qed.

Lemma mutexes_reach ds s :
  fresh_mutexes ds -> reach (start ds) s -> (size (requested s) <= room (mutexes (mutexForPeer ds)))%nat -> mutexes_ok ds s.
Proof.
  intros (Hwf & Hc & Hd). induction 1 as [|s s' Hr IH Hst]; intros Hs.
  - constructor; cbn; [done..|set_solver|]. intros i r ph m Hi. done.
  - eapply mutexes_step; [exact Hs | | exact Hst]. apply IH. etrans; [|exact Hs]. by apply subseteq_size, requested_step.
Qed.

Lemma same_peer_same_call ds s i j ri rj phi phj mi mj :
  fresh_mutexes ds -> reach (start ds) s -> (size (requested s) <= room (mutexes (mutexForPeer ds)))%nat ->
  calls s !! i = Some (ri, phi) -> calls s !! j = Some (rj, phj) -> req_peer ri = req_peer rj ->
  critical phi = Some mi -> critical phj = Some mj -> i = j.
Proof.
  intros Hf Hr Hs Hi Hj Ep Hci Hcj. pose proof (mutexes_reach ds s Hf Hr Hs) as Hok.
  pose proof (mx_entry _ _ Hok i ri phi mi Hi (critical_mutex _ _ Hci)) as Ei.
  pose proof (mx_entry _ _ Hok j rj phj mj Hj (critical_mutex _ _ Hcj)) as Ej.
  rewrite Ep, Ej in Ei. injection Ei as ->. by eapply (lk_unique _ (locks_reach ds s Hr)).
Qed.

(** One sender per peer.  While the holder has room for the peers that are sent to, no two
    calls of [Send] for the same peer are between [Lock] and [Unlock] at the same time,
    whatever the interleaving; and a call waits only for a call to its own peer. *)
Theorem one_sender_per_peer ds s i j ri rj phi phj :
  fresh_mutexes ds -> reach (start ds) s -> (size (requested s) <= room (mutexes (mutexForPeer ds)))%nat ->
  calls s !! i = Some (ri, phi) -> calls s !! j = Some (rj, phj) ->
  (req_peer ri = req_peer rj -> is_Some (critical phi) -> is_Some (critical phj) -> i = j) /\
  (forall m, phi = Waiting m -> m ∈ locked s -> critical phj = Some m -> req_peer rj = req_peer ri).
Proof.
  intros Hf Hr Hs Hi Hj. split.
  - intros Ep [mi Hci] [mj Hcj]. by eapply same_peer_same_call.
  - intros m -> Hm Hcj. pose proof (mutexes_reach ds s Hf Hr Hs) as Hok.
    eapply (wf_inj _ (mx_wf _ _ Hok)).
    + eapply (mx_entry _ _ Hok); [exact Hj | by apply critical_mutex].
    + by eapply (mx_entry _ _ Hok).
Qed.

(** ** No deadlock *)

(** What a call has still to do. *)
Definition steps_left ph : nat :=
  match ph with
  | Arrived => 8 | Waiting _ => 7 | Locked _ => 6 | Connected _ _ => 5 | Streaming _ _ _ => 4
  | Ready _ _ _ => 3 | Wrote _ _ => 2 | Leaving _ _ => 1 | Returned _ => 0
  end.

Lemma advance_decreases net ds held r ph ds' held' ph' evs :
  advance net ds held r ph = Some (ds', held', ph', evs) -> (steps_left ph' < steps_left ph)%nat.
Proof.
  destruct ph; cbn [DirectSends.advance]; intros E; repeat case_match; simplify_eq; cbn; lia.
Qed.

Lemma advance_blocked net ds held r ph :
  advance net ds held r ph = None -> (exists m, ph = Waiting m /\ m ∈ held) \/ exists err, ph = Returned err.
Proof.
  destruct ph; cbn [DirectSends.advance]; intros E; repeat case_match; simplify_eq; eauto.
Qed.

(** [C22] No deadlock.  Even when the holder forgets mutexes: as long as a call has not
    returned some call can go on, whatever the network answers; every step takes
    a call closer to its end, of which it has at most eight before it; and [Unlock] finds
    its mutex locked. *)
Theorem sends_progress ds s :
  reach (start ds) s ->
  (forall net, (exists i r ph, calls s !! i = Some (r, ph) /\ forall err, ph ≠ Returned err) ->
     exists j r ph ds' held ph' evs, calls s !! j = Some (r, ph) /\
       advance net (sender s) (locked s) r ph = Some (ds', held, ph', evs)) /\
  (forall net i r ph ds' held ph' evs, calls s !! i = Some (r, ph) ->
     advance net (sender s) (locked s) r ph = Some (ds', held, ph', evs) -> (steps_left ph' < steps_left ph <= 8)%nat) /\
  (forall i r m err, calls s !! i = Some (r, Leaving m err) -> m ∈ locked s).
Proof.
  intros Hr. pose proof (locks_reach ds s Hr) as Hok. split_and!.
  - intros net (i & r & ph & Hi & Hne).
    destruct (advance net (sender s) (locked s) r ph) as [[[[ds' held] ph'] evs]|] eqn:E; [by eexists _, _, _, _, _, _, _|].
    apply advance_blocked in E as [(m & -> & Hm)|[err ->]]; [|by destruct (Hne err)].
    destruct (lk_held _ Hok m Hm) as (j & rj & phj & Hj & Hcj).
    destruct (advance net (sender s) (locked s) rj phj) as [[[[ds' held] ph'] evs]|] eqn:E; [by eexists _, _, _, _, _, _, _|].
    apply advance_blocked in E as [(m' & -> & _)|[err ->]]; done.
  - intros net i r ph ds' held ph' evs Hi E. split; [by eapply advance_decreases|]. destruct ph; cbn; lia.
  - intros i r m err Hi. by eapply (lk_critical _ Hok).
Qed.

(** ** A call by itself *)

(** The steps of one call with one network, from where it is to its end. *)
Fixpoint run_alone (fuel : nat) (net : network) ds (held : gset nat) (r : request) ph (evs : list stream_event) :
    option (option error * directSender T C N * gset nat * list stream_event) :=
  match ph, fuel with
  | Returned err, _ => Some (err, ds, held, evs)
  | _, O => None
  | _, S fuel =>
      match advance net ds held r ph with
      | Some (ds, held, ph, evs') => run_alone fuel net ds held r ph (evs ++ evs')
      | None => None
      end
  end.

Lemma run_step n net ds held r ph evs ds' held' ph' evs' :
  advance net ds held r ph = Some (ds', held', ph', evs') ->
  run_alone (S n) net ds held r ph evs = run_alone n net ds' held' r ph' (evs ++ evs').
Proof. intros E. cbn [run_alone]. rewrite E. by destruct ph. Qed.

Lemma run_done n net ds held r err evs : run_alone n net ds held r (Returned err) evs = Some (err, ds, held, evs).
Proof. by destruct n. Qed.

(** One more step of the run, computed with the equations at hand. *)
Ltac run_on :=
  erewrite run_step by
    (cbn [DirectSends.advance req_peer req_topic req_buff];
     rewrite ?decide_False by done;
     repeat match goal with E : ?x = _ |- context [?x] => rewrite E end; reflexivity);
  cbn [app].

(** A call by itself.  When the mutex of the peer is free, the eight steps of a
    call, taken in a row, are the method [Send]: the same answer, the same sender, the
    same calls on the stream; and the mutex is free again. *)
Theorem alone_is_Send ds net held topic buff peer :
  (MutexHolder.Get (mutexForPeer ds) peer).1 ∉ held ->
  let '(err, ds', evs) := Send pb_Marshal SignPrefix ds net topic buff peer in
  exists held', held' ≡ held /\ run_alone 8 net ds held (mkRequest topic buff peer) Arrived [] = Some (err, ds', held', evs).
Proof.
  intros Hfree. unfold Send. destruct (len buff >=? maxSendBuffSize) eqn:El.
  { eexists. split; [|run_on; apply run_done]. done. }
  destruct (MutexHolder.Get (mutexForPeer ds) peer) as [m ms] eqn:Em. cbn [fst] in Hfree.
  assert (({[m]} ∪ held) ∖ {[m]} ≡ held) as Hh by set_solver.
  do 2 run_on. destruct (getConnection net peer) as [c|] eqn:Ec; [|eexists; split; [exact Hh | by do 2 run_on]].
  run_on. destruct (getOrCreateStream net c) as [st|] eqn:Es; [|eexists; split; [exact Hh | by do 2 run_on]].
  run_on. destruct (createMessage _ _ _ _ _ _) as [[msg|] ds1] eqn:Ecm; [|eexists; split; [exact Hh | by do 2 run_on]].
  run_on. destruct (WriteMsg net st msg) eqn:Ew; [eexists; split; [exact Hh | by do 2 run_on]|].
  run_on. destruct (Flush net st) eqn:Ef; eexists; (split; [exact Hh | by do 2 run_on]).
Qed.

(** ** The messages of a peer *)

Definition peer_of s i : option PeerID := (req_peer ∘ fst) <$> calls s !! i.
(** What a call did to its stream. *)
Definition events_of s i : list stream_event := of_thread i (trace s).
(** What was done to the streams by the calls for a peer. *)
Definition events_to s p : list (nat * stream_event) := filter (fun e => peer_of s e.1 = Some p) (trace s).

(** No message is written after the first event of a call. *)
Definition quiet (evs : list stream_event) : Prop := forall st msg, Written st msg ∉ evs.

(** The call has written the message numbered [v]. *)
Definition wrote_number s (i : nat) (v : Z) : Prop :=
  exists st msg evs, events_of s i = Written st msg :: evs /\ quiet evs /\ pb_Seqno msg = Some (PutUint64 v).

Definition unnumbered ph : Prop :=
  match ph with Arrived | Waiting _ | Locked _ | Connected _ _ | Streaming _ _ _ => True | _ => False end.
#[local] Instance unnumbered_dec ph : Decision (unnumbered ph).
Proof. destruct ph; cbn; apply _. Defined.

(** The calls that have not written yet. *)
Definition unwritten ph : Prop := unnumbered ph \/ exists m st msg, ph = Ready m st msg.

Definition numbered_calls s : nat := length (filter (fun c => ~ unnumbered c.2) (calls s)).

(** The counter has been increased by the calls that are numbered. *)
Record numbers_ok ds s : Prop := {
  nb_start : 0 <= counter ds;
  nb_counter : counter ds <= counter (sender s) <= counter ds + Z.of_nat (numbered_calls s);
  nb_unwritten i r ph : calls s !! i = Some (r, ph) -> unwritten ph -> events_of s i = [];
  nb_known e : e ∈ trace s -> is_Some (calls s !! e.1)
}.

(** The writes to [p] in their order: the calls and their numbers. *)
Record order_ok s p (order : list (nat * Z)) : Prop := {
  or_events : events_to s p = order ≫= fun iv => (iv.1,.) <$> events_of s iv.1;
  or_calls : NoDup order.*1;
  or_sorted : StronglySorted Z.lt order.*2;
  or_wrote i v : (i, v) ∈ order -> peer_of s i = Some p /\ wrote_number s i v /\ 0 <= v <= counter (sender s);
  or_last i r m st : calls s !! i = Some (r, Wrote m st) -> req_peer r = p -> exists o v, order = o ++ [(i, v)];
  or_next i r m st msg : calls s !! i = Some (r, Ready m st msg) -> req_peer r = p ->
    exists v, pb_Seqno msg = Some (PutUint64 v) /\ 0 <= v <= counter (sender s) /\ Forall (fun w => w < v) order.*2
}.

(** What a step of a call does to the counter, the message and the stream. *)
Lemma advance_events net ds held r ph ds' held' ph' evs :
  advance net ds held r ph = Some (ds', held', ph', evs) ->
  (evs = [] /\ counter ds' = counter ds /\ (unwritten ph' -> unwritten ph) /\ (~ unnumbered ph -> ~ unnumbered ph') /\
   (forall m st msg, ph' ≠ Ready m st msg) /\ (forall m st, ph' ≠ Wrote m st)) \/
  (unnumbered ph /\ ~ unnumbered ph' /\ evs = [] /\ counter ds' = u64 (counter ds + 1) /\ (forall m st, ph' ≠ Wrote m st) /\
   forall m st msg, ph' = Ready m st msg -> pb_Seqno msg = Some (PutUint64 (counter ds'))) \/
  (exists m st msg evs', ph = Ready m st msg /\ ds' = ds /\ evs = Written st msg :: evs' /\ quiet evs' /\
   ~ unwritten ph') \/
  (exists m st, ph = Wrote m st /\ ds' = ds /\ quiet evs /\ ~ unwritten ph' /\ (forall m st, ph' ≠ Wrote m st)).
Proof.
  assert (forall m err, ~ unwritten (Leaving m err)) as Hl by (intros m err [[]|(? & ? & ? & [=])]).
  assert (forall m st, ~ unwritten (Wrote m st)) as Hw by (intros m st [[]|(? & ? & ? & [=])]).
  assert (forall err, ~ unwritten (Returned err)) as Hd by (intros err [[]|(? & ? & ? & [=])]).
  destruct ph as [|mut|mut|mut c|mut c st|mut st msg|mut st|mut err|err]; cbn [DirectSends.advance].
  - case_match; [|destruct (MutexHolder.Get _ _)]; intros [= <- <- <- <-]; left; split_and!; try done; by left.
  - case_decide; [done|]. intros [= <- <- <- <-]. left. split_and!; try done. by left.
  - intros [= <- <- <- <-]. left. destruct (getConnection _ _); split_and!; try done; by left.
  - intros [= <- <- <- <-]. left. destruct (getOrCreateStream _ _); split_and!; try done; by left.
  - destruct (createMessage _ _ _ _ _ _) as [msg ds1] eqn:E. intros [= <- <- <- <-]. right; left.
    assert (counter ds1 = u64 (counter ds + 1)) as Ec.
    { unfold createMessage, NextSequenceNumber in E. repeat case_match; by simplify_eq. }
    split_and!; [done | destruct msg; intros [] | done | done | by destruct msg|].
    intros m st' msg'. destruct msg as [msg|]; [|done]. intros [= <- <- <-].
    apply createMessage_Ok in E as (b & sig & _ & _ & -> & ->). done.
  - intros E. right; right; left. exists mut, st, msg.
    destruct (WriteMsg _ _ _); injection E as <- <- <- <-; eexists; (split_and!; [done..| |done]).
    + intros st' msg'. set_solver.
    + intros st' msg'. set_solver.
  - intros E. right; right; right. exists mut, st.
    destruct (Flush _ _); injection E as <- <- <- <-; (split_and!; [done..| |done|done]); intros st' msg'; set_solver.
  - intros [= <- <- <- <-]. left. split_and!; try done. intros ?%Hd. done.
  - done.
Qed.

Lemma peer_of_step s s' i p : step s s' -> peer_of s i = Some p -> peer_of s' i = Some p.
Proof.
  unfold peer_of. intros Hst Hi. destruct (calls s !! i) as [[r ph]|] eqn:E; [|done]. cbn in Hi. injection Hi as <-.
  destruct Hst as [r'|j net rj phj ds held ph' evs Hj Ha|seen]; cbn [calls].
  - by rewrite (lookup_app_l_Some _ _ _ _ E).
  - destruct (decide (j = i)) as [->|Hne]; [|by rewrite list_lookup_insert_ne, E].
    simplify_eq. by rewrite (insert_lookup _ _ _ _ Hj).
  - by rewrite E.
Qed.

Lemma peer_of_insert (l : list (request * phase)) i r ph ph' j :
  l !! i = Some (r, ph) -> (req_peer ∘ fst) <$> <[i := (r, ph')]> l !! j = (req_peer ∘ fst) <$> l !! j.
Proof.
  intros Hi. destruct (decide (i = j)) as [->|Hne]; [|by rewrite list_lookup_insert_ne].
  by rewrite (insert_lookup _ _ _ _ Hi), Hi.
Qed.

Lemma numbered_insert (l : list (request * phase)) i r ph ph' :
  l !! i = Some (r, ph) -> (~ unnumbered ph -> ~ unnumbered ph') ->
  (length (filter (fun c => ~ unnumbered c.2) l) + (if decide (unnumbered ph /\ ~ unnumbered ph') then 1 else 0) =
   length (filter (fun c => ~ unnumbered c.2) (<[i := (r, ph')]> l)))%nat.
Proof.
  intros Hi Hmono. rewrite insert_take_drop by (by eapply lookup_lt_Some).
  rewrite <- (take_drop_middle l i (r, ph) Hi) at 1. rewrite !filter_app, !filter_cons, !length_app. cbn [snd].
  repeat case_decide; cbn [length]; lia || tauto.
Qed.

(** A call that advances adds its events. *)
Lemma events_of_advance ds held s i r ph' evs j :
  events_of (mk ds held (<[i := (r, ph')]> (calls s)) (trace s ++ ((i,.) <$> evs))) j =
  events_of s j ++ if decide (i = j) then evs else [].
Proof. apply of_thread_app. Qed.

Lemma events_to_advance ds held s i r ph ph' evs p :
  calls s !! i = Some (r, ph) ->
  events_to (mk ds held (<[i := (r, ph')]> (calls s)) (trace s ++ ((i,.) <$> evs))) p =
  events_to s p ++ if decide (req_peer r = p) then (i,.) <$> evs else [].
Proof.
  intros Hi. unfold events_to, peer_of. cbn [calls trace]. rewrite filter_app. f_equal.
  - apply list_filter_iff. intros e. by rewrite (peer_of_insert _ _ _ _ _ _ Hi).
  - destruct (decide (req_peer r = p)) as [E|E].
    + apply filter_all_true. intros ? (ev & -> & _)%list_elem_of_fmap. cbn [fst].
      rewrite (insert_lookup _ _ _ _ Hi). cbn. by rewrite E.
    + apply filter_all_false. intros ? (ev & -> & _)%list_elem_of_fmap. cbn [fst].
      rewrite (insert_lookup _ _ _ _ Hi). cbn. congruence.
Qed.

Lemma numbers_step ds s s' :
  counter ds + len (calls s') < 2 ^ 64 -> numbers_ok ds s -> step s s' -> numbers_ok ds s'.
Proof.
  intros Hlt [Hpos Hc Hu Hk] Hst. unfold numbered_calls in *. destruct Hst as [r|i net r ph ds1 held ph' evs Hi Ha|seen].
  - constructor; unfold numbered_calls; cbn [sender calls trace]; [done|..].
    + rewrite filter_app, length_app. lia.
    + intros j r' ph [Hj|[Hlen Hj]]%lookup_app_Some Hph; [by eapply Hu|].
      apply list_lookup_singleton_Some in Hj as [Ej _]. unfold events_of, of_thread. cbn [trace].
      rewrite filter_all_false; [done|]. intros e He Ee. destruct (Hk e He) as [? Hl%lookup_lt_Some]. lia.
    + intros e He. destruct (Hk e He) as [x Hx]. exists x. by apply lookup_app_l_Some.
  - assert (forall evs, (forall e, e ∈ trace s ++ ((i,.) <$> evs) -> is_Some (<[i := (r, ph')]> (calls s) !! e.1))) as Hk'.
    { intros evs' e He. apply lookup_lt_is_Some. rewrite length_insert. apply lookup_lt_is_Some.
      apply elem_of_app in He as [He|(ev & -> & _)%list_elem_of_fmap]; [by apply Hk | by exists (r, ph)]. }
    assert (forall evs, (unwritten ph' -> evs = [] /\ unwritten ph) -> forall j r' ph2,
              <[i := (r, ph')]> (calls s) !! j = Some (r', ph2) -> unwritten ph2 ->
              events_of (mk ds1 held (<[i := (r, ph')]> (calls s)) (trace s ++ ((i,.) <$> evs))) j = []) as Hu'.
    { intros evs' Hev j r' ph2 Hj Hph. rewrite events_of_advance.
      destruct (insert_call _ _ _ _ _ _ _ _ Hi Hj) as [(-> & -> & ->)|[Hne Hj']].
      - destruct (Hev Hph) as [-> Hph']. rewrite (Hu _ _ _ Hi Hph'). by case_decide.
      - rewrite decide_False, (Hu _ _ _ Hj' Hph) by congruence. done. }
    cbn [calls] in Hlt. rewrite length_insert in Hlt.
    pose proof (numbered_insert (calls s) i r ph ph' Hi) as Hn.
    pose proof (length_filter (fun c => ~ unnumbered c.2) (<[i := (r, ph')]> (calls s))) as Hle. rewrite length_insert in Hle.
    apply advance_events in Ha as
      [(-> & Ec & Hw & Hm & _)|[(Hn1 & Hn2 & -> & Ec & _)|[(m & st & msg & evs' & -> & -> & -> & _ & Hnw)|(m & st & -> & -> & _ & Hnw & _)]]];
      (constructor; unfold numbered_calls; cbn [sender calls trace]; [done| | |by apply Hk']).
    + rewrite <- Hn by done. rewrite Ec. lia.
    + apply Hu'. auto.
    + rewrite <- Hn in * by done. rewrite decide_True in * by done. rewrite Ec. unfold u64. rewrite Z.mod_small; lia.
    + apply Hu'. intros _. split; [done | by left].
    + rewrite <- Hn by (intros _ ?; apply Hnw; by left). lia.
    + apply Hu'. intros ?. done.
    + rewrite <- Hn by (intros _ ?; apply Hnw; by left). lia.
    + apply Hu'. intros ?. done.
  - constructor; unfold numbered_calls; cbn [sender calls trace set_seen counter]; [done..|]. done.
Qed.

Lemma numbers_bound ds s : numbers_ok ds s -> counter (sender s) <= counter ds + len (calls s).
Proof.
  intros Hok. pose proof (nb_counter _ _ Hok) as Hc. unfold numbered_calls in Hc.
  pose proof (length_filter (fun c => ~ unnumbered c.2) (calls s)). lia.
Qed.

(** What a step leaves of the order of a peer to which it writes nothing. *)
Lemma order_ok_frame s s' p order :
  order_ok s p order -> events_to s' p = events_to s p ->
  (forall i v, (i, v) ∈ order -> events_of s' i = events_of s i /\ peer_of s' i = peer_of s i) ->
  0 <= counter (sender s) <= counter (sender s') ->
  (forall i r m st, calls s' !! i = Some (r, Wrote m st) -> req_peer r = p -> calls s !! i = Some (r, Wrote m st)) ->
  (forall i r m st msg, calls s' !! i = Some (r, Ready m st msg) -> req_peer r = p ->
     calls s !! i = Some (r, Ready m st msg) \/
     (pb_Seqno msg = Some (PutUint64 (counter (sender s'))) /\ counter (sender s) < counter (sender s'))) ->
  order_ok s' p order.
Proof.
  intros [He Hnd Hs Hw Hl Hn] Eto Eof Hc Hwr Hre. constructor; [|done|done|..].
  - rewrite Eto, He. apply Forall_bind_ext, Forall_forall. intros [i v] Hin. cbn. by destruct (Eof i v Hin) as [-> _].
  - intros i v Hin. destruct (Hw i v Hin) as (Hp & (st & msg & evs & E & Hq & Hsq) & Hv), (Eof i v Hin) as [E1 E2].
    split_and!; [by rewrite E2 | exists st, msg, evs; by rewrite E1 | lia..].
  - intros i r m st Hi Hp. eapply Hl; eauto.
  - intros i r m st msg Hi Hp. destruct (Hre i r m st msg Hi Hp) as [Hi'|[Hsq Hlt]].
    + destruct (Hn i r m st msg Hi' Hp) as (v & ? & ? & ?). exists v. split_and!; [done | lia | lia | done].
    + exists (counter (sender s')). split_and!; [done | lia | lia|]. apply Forall_forall. intros w (iv & -> & Hin)%list_elem_of_fmap.
      destruct iv as [i' v]. destruct (Hw i' v Hin) as (_ & _ & ?). cbn. lia.
Qed.

(** The calls for a peer that are between [Lock] and [Unlock] are one. *)
Definition exclusive s p : Prop :=
  forall i j ri rj phi phj, calls s !! i = Some (ri, phi) -> calls s !! j = Some (rj, phj) ->
    req_peer ri = p -> req_peer rj = p -> is_Some (critical phi) -> is_Some (critical phj) -> i = j.

(** The message of [i] is written. *)
Lemma order_written ds s i r m st msg ph' held evs order :
  numbers_ok ds s -> exclusive s (req_peer r) -> order_ok s (req_peer r) order ->
  calls s !! i = Some (r, Ready m st msg) -> quiet evs -> ~ unwritten ph' ->
  exists v, order_ok (mk (sender s) held (<[i := (r, ph')]> (calls s)) (trace s ++ ((i,.) <$> (Written st msg :: evs))))
              (req_peer r) (order ++ [(i, v)]).
Proof.
  intros Hnb Hx [He Hnd Hs Hw Hl Hn] Hi Hq Hph.
  destruct (Hn i r m st msg Hi eq_refl) as (v & Hsq & Hv & Hall). exists v.
  assert (events_of s i = []) as Ei by (eapply (nb_unwritten _ _ Hnb); [exact Hi | right; eauto]).
  assert (forall j w, (j, w) ∈ order -> i ≠ j) as Hni.
  { intros j w Hin ->. destruct (Hw j w Hin) as (_ & (st' & msg' & evs' & E & _) & _). congruence. }
  assert (forall j rj phj, j ≠ i -> calls s !! j = Some (rj, phj) -> req_peer rj = req_peer r -> critical phj = None) as Hout.
  { intros j rj phj Hne Hj Hp. apply eq_None_not_Some. intros Hc. apply Hne. eapply Hx; [exact Hj | exact Hi | done.. | by eexists]. }
  constructor.
  - rewrite (events_to_advance _ _ _ _ _ _ _ _ _ Hi), decide_True by done. rewrite bind_app, He. f_equal.
    + apply Forall_bind_ext, Forall_forall. intros [j w] Hin. cbn [fst].
      rewrite events_of_advance, decide_False by (by eapply Hni). by rewrite app_nil_r.
    + cbn [mbind list_bind fst]. rewrite events_of_advance, decide_True, Ei, app_nil_r by done. done.
  - rewrite fmap_app, NoDup_app. split_and!; [done| |apply NoDup_singleton].
    intros j ([j' w] & -> & Hin)%list_elem_of_fmap E%list_elem_of_singleton. by eapply Hni.
  - rewrite fmap_app. apply StronglySorted_app. split_and!; [|done|repeat constructor].
    intros w v' Hwin ->%list_elem_of_singleton. rewrite Forall_forall in Hall. by apply Hall.
  - intros j w [Hin|[= -> ->]%list_elem_of_singleton]%elem_of_app.
    + destruct (Hw j w Hin) as (Hp & (st' & msg' & evs' & E & Hq' & Hsq') & Hw').
      split_and!; [|exists st', msg', evs'; split_and!; [|done..]|cbn; lia..].
      * unfold peer_of. cbn [calls]. by rewrite (peer_of_insert _ _ _ _ _ _ Hi).
      * rewrite events_of_advance, decide_False by (by eapply Hni). by rewrite app_nil_r.
    + split_and!; [|exists st, msg, evs; split_and!; [|done..]|cbn; lia..].
      * unfold peer_of. cbn [calls]. by rewrite (insert_lookup _ _ _ _ Hi).
      * by rewrite events_of_advance, decide_True, Ei by done.
  - intros j rj m' st' Hj Hp. destruct (insert_call _ _ _ _ _ _ _ _ Hi Hj) as [(-> & -> & _)|[Hne Hj']]; [by eexists order, _|].
    by pose proof (Hout _ _ _ Hne Hj' Hp).
  - intros j rj m' st' msg' Hj Hp. destruct (insert_call _ _ _ _ _ _ _ _ Hi Hj) as [(-> & -> & E)|[Hne Hj']].
    + destruct Hph. right. rewrite <- E. eauto.
    + by pose proof (Hout _ _ _ Hne Hj' Hp).
Qed.

(** The call that wrote last goes on. *)
Lemma order_flushed s i r m st ph' held evs order :
  exclusive s (req_peer r) -> order_ok s (req_peer r) order ->
  calls s !! i = Some (r, Wrote m st) -> quiet evs -> ~ unwritten ph' -> (forall m st, ph' ≠ Wrote m st) ->
  order_ok (mk (sender s) held (<[i := (r, ph')]> (calls s)) (trace s ++ ((i,.) <$> evs))) (req_peer r) order.
Proof.
  intros Hx [He Hnd Hs Hw Hl Hn] Hi Hq Hph Hph'.
  destruct (Hl i r m st Hi eq_refl) as (o & v & ->).
  assert (forall j w, (j, w) ∈ o -> i ≠ j) as Hni.
  { rewrite fmap_app, NoDup_app in Hnd. destruct Hnd as (_ & Hnd & _). intros j w Hin ->.
    apply (Hnd j); [apply list_elem_of_fmap; by exists (j, w) | by left]. }
  assert (forall j rj phj, j ≠ i -> calls s !! j = Some (rj, phj) -> req_peer rj = req_peer r -> critical phj = None) as Hout.
  { intros j rj phj Hne Hj Hp. apply eq_None_not_Some. intros Hc. apply Hne. eapply Hx; [exact Hj | exact Hi | done.. | by eexists]. }
  constructor; [|done|done|..].
  - rewrite (events_to_advance _ _ _ _ _ _ _ _ _ Hi), decide_True by done. rewrite He, !bind_app, <- app_assoc. f_equal.
    + apply Forall_bind_ext, Forall_forall. intros [j w] Hin. cbn [fst].
      rewrite events_of_advance, decide_False by (by eapply Hni). by rewrite app_nil_r.
    + cbn [mbind list_bind fst]. rewrite events_of_advance, decide_True, !app_nil_r, fmap_app by done. done.
  - intros j w Hin. destruct (Hw j w Hin) as (Hp & (st' & msg' & evs' & E & Hq' & Hsq') & Hw').
    split_and!; [| |cbn; lia..]; [unfold peer_of; cbn [calls]; by rewrite (peer_of_insert _ _ _ _ _ _ Hi)|].
    exists st', msg', (evs' ++ if decide (i = j) then evs else []). split_and!; [|case_decide|done].
    + by rewrite events_of_advance, E.
    + intros s1 m1. rewrite elem_of_app. intros [?|?]; [by eapply Hq' | by eapply Hq].
    + by rewrite app_nil_r.
  - intros j rj m' st' Hj Hp. destruct (insert_call _ _ _ _ _ _ _ _ Hi Hj) as [(-> & -> & E)|[Hne Hj']]; [by destruct (Hph' m' st')|].
    by pose proof (Hout _ _ _ Hne Hj' Hp).
  - intros j rj m' st' msg' Hj Hp. destruct (insert_call _ _ _ _ _ _ _ _ Hi Hj) as [(-> & -> & E)|[Hne Hj']].
    + destruct Hph. right. rewrite <- E. eauto.
    + by pose proof (Hout _ _ _ Hne Hj' Hp).
Qed.

(** A call that writes nothing to [p]. *)
Lemma order_untouched s i r ph ph' ds held evs p order :
  order_ok s p order -> calls s !! i = Some (r, ph) -> (evs = [] \/ req_peer r ≠ p) ->
  0 <= counter (sender s) <= counter ds ->
  (req_peer r = p -> forall m st, ph' ≠ Wrote m st) ->
  (req_peer r = p -> forall m st msg, ph' = Ready m st msg ->
     pb_Seqno msg = Some (PutUint64 (counter ds)) /\ counter (sender s) < counter ds) ->
  order_ok (mk ds held (<[i := (r, ph')]> (calls s)) (trace s ++ ((i,.) <$> evs))) p order.
Proof.
  intros Hok Hi Hev Hc Hw Hr. apply (order_ok_frame s); [done|..|done| |].
  - rewrite (events_to_advance _ _ _ _ _ _ _ _ _ Hi). destruct Hev as [->|Hp]; [|rewrite decide_False by done];
      [by case_decide; rewrite app_nil_r | by rewrite app_nil_r].
  - intros j v Hin. split; [|unfold peer_of; cbn [calls]; by rewrite (peer_of_insert _ _ _ _ _ _ Hi)].
    rewrite events_of_advance. destruct Hev as [->|Hp]; [by case_decide; rewrite app_nil_r|].
    rewrite decide_False; [by rewrite app_nil_r|]. intros ->.
    destruct (or_wrote _ _ _ Hok _ _ Hin) as [Hj _]. unfold peer_of in Hj. rewrite Hi in Hj. by injection Hj.
  - intros j rj m st Hj Hp. destruct (insert_call _ _ _ _ _ _ _ _ Hi Hj) as [(-> & -> & E)|[_ Hj']]; [|done].
    by destruct (Hw Hp m st).
  - intros j rj m st msg Hj Hp. destruct (insert_call _ _ _ _ _ _ _ _ Hi Hj) as [(-> & -> & E)|[_ Hj']]; [|by left].
    right. by apply (Hr Hp m st).
Qed.

Lemma numbered_lt s i r ph : calls s !! i = Some (r, ph) -> unnumbered ph -> (numbered_calls s < length (calls s))%nat.
Proof.
  intros Hi Hu. unfold numbered_calls.
  pose proof (numbered_insert (calls s) i r ph (Returned None) Hi ltac:(by intros ? [])) as E.
  rewrite decide_True in E by (split; [done | by intros []]).
  pose proof (length_filter (fun c => ~ unnumbered c.2) (<[i := (r, Returned None)]> (calls s))) as Hle.
  rewrite length_insert in Hle. lia.
Qed.

Lemma order_begins s p order r :
  (forall e, e ∈ trace s -> is_Some (calls s !! e.1)) -> 0 <= counter (sender s) -> order_ok s p order ->
  order_ok (mk (sender s) (locked s) (calls s ++ [(r, Arrived)]) (trace s)) p order.
Proof.
  intros Hk Hpos Hok.
  assert (forall j x, calls s !! j = Some x -> (calls s ++ [(r, Arrived)]) !! j = Some x) as Happ by (intros; by apply lookup_app_l_Some).
  apply (order_ok_frame s); [done|..|cbn; lia| |].
  - apply filter_iff_in. intros e He. unfold peer_of. cbn [calls]. destruct (Hk e He) as [x Hx]. by rewrite (Happ _ _ Hx), Hx.
  - intros i v Hin. split; [done|]. destruct (or_wrote _ _ _ Hok i v Hin) as [Hp _]. unfold peer_of in *. cbn [calls].
    destruct (calls s !! i) as [x|] eqn:E; [|done]. by rewrite (Happ _ _ E).
  - intros i r' m st [Hi|[=]]%append_call Hp. done.
  - intros i r' m st msg [Hi|[=]]%append_call Hp. by left.
Qed.

Lemma order_step ds s s' p order :
  counter ds + len (calls s') < 2 ^ 64 -> numbers_ok ds s -> (forall q, exclusive s q) -> order_ok s p order -> step s s' ->
  exists order', order_ok s' p order'.
Proof.
  intros Hlt Hnb Hx Hok Hst. destruct Hst as [r|i net r ph ds1 held ph' evs Hi Ha|seen].
  - pose proof (nb_counter _ _ Hnb). pose proof (nb_start _ _ Hnb).
    exists order. by apply order_begins; [apply (nb_known _ _ Hnb) | lia |].
  - cbn [calls] in Hlt. rewrite length_insert in Hlt.
    pose proof (nb_counter _ _ Hnb) as Hc. pose proof (nb_start _ _ Hnb) as Hpos.
    apply advance_events in Ha as
      [(-> & Ec & _ & _ & Hr & Hw)|[(Hn1 & Hn2 & -> & Ec & Hw & Hr)|
       [(m & st & msg & evs' & -> & -> & -> & Hq & Hnw)|(m & st & -> & -> & Hq & Hnw & Hw)]]].
    + exists order. eapply order_untouched; [done | exact Hi | by left | lia | done|]. intros _ m st msg E. by destruct (Hr m st msg).
    + pose proof (numbered_lt s i r ph Hi Hn1) as Hl. unfold u64 in Ec. rewrite Z.mod_small in Ec by lia.
      exists order. eapply order_untouched; [done | exact Hi | by left | lia | done|].
      intros _ m st msg E. split; [by eapply Hr | lia].
    + destruct (decide (req_peer r = p)) as [<-|Hne].
      { edestruct order_written as [v Hv]; [exact Hnb | apply Hx | exact Hok | exact Hi | exact Hq | exact Hnw|]. by eexists. }
      exists order. eapply order_untouched; [done | exact Hi | by right | lia | done..].
    + exists order. destruct (decide (req_peer r = p)) as [<-|Hne]; [by eapply order_flushed|].
      eapply order_untouched; [done | exact Hi | by right | lia | done..].
  - pose proof (nb_counter _ _ Hnb). pose proof (nb_start _ _ Hnb).
    exists order. apply (order_ok_frame s); auto. cbn. lia.
Qed.

Lemma calls_step s s' : step s s' -> (length (calls s) <= length (calls s'))%nat.
Proof. destruct 1; cbn [calls]; rewrite ?length_app, ?length_insert; lia. Qed.

Lemma numbers_reach ds s :
  0 <= counter ds -> reach (start ds) s -> counter ds + len (calls s) < 2 ^ 64 -> numbers_ok ds s.
Proof.
  intros Hpos. induction 1 as [|s s' Hr IH Hst]; intros Hlt.
  - constructor; cbn; [done | lia | done | set_solver].
  - eapply numbers_step; [exact Hlt | | exact Hst]. apply IH. pose proof (calls_step _ _ Hst). lia.
Qed.

Lemma order_reach ds s p :
  0 <= counter ds -> fresh_mutexes ds -> reach (start ds) s ->
  (size (requested s) <= room (mutexes (mutexForPeer ds)))%nat -> counter ds + len (calls s) < 2 ^ 64 ->
  exists order, order_ok s p order.
Proof.
  intros Hpos Hf. induction 1 as [|s s' Hr IH Hst]; intros Hs Hlt.
  - exists []. constructor; cbn; try done; [constructor | constructor | set_solver].
  - pose proof (calls_step _ _ Hst) as Hl. assert (counter ds + len (calls s) < 2 ^ 64) as Hlt' by lia.
    assert (size (requested s) <= room (mutexes (mutexForPeer ds)))%nat as Hs'
      by (etrans; [by apply subseteq_size, requested_step | exact Hs]).
    destruct (IH Hs' Hlt') as [order Hok]. eapply order_step; [exact Hlt | by apply numbers_reach | | exact Hok | exact Hst].
    intros q i j ri rj phi phj Hi Hj <- Ej [mi Hmi] [mj Hmj]. by eapply same_peer_same_call.
Qed.

(** The messages of a peer.  While the holder has room for the peers that are sent
    to and the counter does not wrap around: whatever the interleaving, what is
    done to the streams of a peer is one call after the other, never mixed; every
    call that did something wrote exactly one message, first; and the messages
    were written in the order of their sequence numbers. *)
Theorem messages_in_order ds s p :
  0 <= counter ds -> fresh_mutexes ds -> reach (start ds) s ->
  (size (requested s) <= room (mutexes (mutexForPeer ds)))%nat -> counter ds + len (calls s) < 2 ^ 64 ->
  exists order : list (nat * Z),
    events_to s p = order ≫= (fun iv => (iv.1,.) <$> events_of s iv.1) /\
    NoDup order.*1 /\ StronglySorted Z.lt order.*2 /\
    forall i v, (i, v) ∈ order -> peer_of s i = Some p /\ wrote_number s i v.
Proof.
  intros Hpos Hf Hr Hs Hlt. destruct (order_reach ds s p Hpos Hf Hr Hs Hlt) as [order Hok]. exists order.
  split_and!; [apply Hok..|]. intros i v Hin. by destruct (or_wrote _ _ _ Hok i v Hin) as (? & ? & _).
Qed.

End Correctness.

(** ** The room that is needed *)

Section Tight.

Context {T N : Type} `{TimeCache T} `{SignerVerifier N}.
Context (pb_Marshal : pb_Message -> result bytes) (SignPrefix : bytes).
Context (n : nat) (p : PeerID) (q : nat -> PeerID) (q_inj : forall i j, q i = q j -> i = j) (q_p : forall i, q i ≠ p).
Implicit Types (s : state T LruCache.t N) (ds : directSender T LruCache.t N).

Abbreviation reach := (reach pb_Marshal SignPrefix).

(** The holder after calls for [p] and for [q 0], ..., [q (k - 1)]. *)
Definition holder (k : nat) : MutexHolder LruCache.t :=
  MutexHolder.mk (LruCache.mk n (((fun i => (q i, IfMutex (S i))) <$> reverse (seq 0 k)) ++ [(p, IfMutex 0)])) (S k).

Definition quick (peer : PeerID) : request := mkRequest "" [] peer.

Lemma find_none (l : list (string * iface)) k : k ∉ l.*1 -> LruCache.find l k = None.
Proof. intros Hk. apply eq_None_not_Some. by rewrite LruRoom.find_elem. Qed.

Lemma others_none (l : list (string * iface)) k : k ∉ l.*1 -> LruCache.others l k = l.
Proof.
  intros Hk. apply filter_all_true. intros x Hx E. apply Hk. rewrite <- E. apply list_elem_of_fmap. by exists x.
Qed.

Lemma Get_miss (mh : MutexHolder LruCache.t) k :
  k ∉ (LruCache.items (mutexes mh)).*1 ->
  MutexHolder.Get mh k = (next_addr mh,
    MutexHolder.mk (LruCache.mk (LruCache.capacity (mutexes mh))
      ((k, IfMutex (next_addr mh)) :: take (LruCache.capacity (mutexes mh)) (LruCache.items (mutexes mh)))) (S (next_addr mh))).
Proof.
  intros Hk. unfold MutexHolder.Get. cbn [Cacher.Get LruCache.cacher]. unfold LruCache.touch. rewrite find_none by done.
  unfold newMutex. cbn. by rewrite others_none.
Qed.

Lemma holder_keys k x : x ∈ (LruCache.items (mutexes (holder k))).*1 <-> x = p \/ exists i, (i < k)%nat /\ x = q i.
Proof.
  unfold holder. cbn [mutexes LruCache.items]. rewrite fmap_app, elem_of_app, <- list_fmap_compose.
  rewrite list_elem_of_fmap. cbn. rewrite list_elem_of_singleton. split.
  - intros [(i & -> & Hi)| ->]; [right; exists i; rewrite elem_of_reverse, elem_of_seq in Hi; split; [lia | done] | by left].
  - intros [->|(i & Hi & ->)]; [by right | left; exists i; rewrite elem_of_reverse, elem_of_seq; split; [done | lia]].
Qed.

Lemma Get_next k : MutexHolder.Get (holder k) (q k) = (S k,
  MutexHolder.mk (LruCache.mk n ((q k, IfMutex (S k)) :: take n (LruCache.items (mutexes (holder k))))) (S (S k))).
Proof.
  apply Get_miss. rewrite holder_keys. intros [E|(i & Hi & E)]; [by eapply q_p | apply q_inj in E; lia].
Qed.

Lemma holder_items_length k : length (LruCache.items (mutexes (holder k))) = S k.
Proof. unfold holder. cbn [mutexes LruCache.items]. rewrite length_app, length_fmap, length_reverse, length_seq. cbn. lia. Qed.

Lemma holder_S k : (k < n)%nat -> (MutexHolder.Get (holder k) (q k)).2 = holder (S k).
Proof.
  intros Hk. rewrite Get_next. cbn [snd]. unfold holder at 2. rewrite take_ge by (rewrite holder_items_length; lia).
  unfold holder. cbn [mutexes LruCache.items]. by rewrite seq_S, reverse_app, fmap_app.
Qed.

(** A call begins and takes its mutex from the holder. *)
Lemma reach_Get ds s peer :
  reach (start ds) s ->
  reach (start ds) (mk (set_mutexes (MutexHolder.Get (mutexForPeer (sender s)) peer).2 (sender s)) (locked s)
    (calls s ++ [(quick peer, Waiting (MutexHolder.Get (mutexForPeer (sender s)) peer).1)]) (trace s)).
Proof.
  intros Hr. eapply reach_step; [eapply reach_step; [exact Hr | apply (begins _ _ s (quick peer))]|].
  set (s1 := mk (sender s) (locked s) (calls s ++ [(quick peer, Arrived)]) (trace s)).
  assert (calls s1 !! length (calls s) = Some (quick peer, Arrived)) as Hi.
  { cbn [s1 calls]. by rewrite lookup_app_r, Nat.sub_diag. }
  destruct (MutexHolder.Get (mutexForPeer (sender s)) peer) as [mut ms] eqn:E.
  pose proof (advances pb_Marshal SignPrefix s1 (length (calls s)) (mkNetwork (fun _ => []) (fun _ _ => Err (ErrText ""))
    (fun _ _ => None) (fun _ => None)) _ _ (set_mutexes ms (sender s)) (locked s) (Waiting mut) [] Hi) as Hst.
  cbn [s1 calls trace fst snd fmap list_fmap] in *. rewrite app_nil_r in Hst.
  rewrite insert_app_r_alt, Nat.sub_diag in Hst by done. apply Hst. unfold s1. cbn [advance quick req_buff req_peer sender]. by rewrite E.
Qed.

(** A waiting call whose mutex is free locks it. *)
Lemma reach_Lock ds s i r mut :
  reach (start ds) s -> calls s !! i = Some (r, Waiting mut) -> mut ∉ locked s ->
  reach (start ds) (mk (sender s) ({[mut]} ∪ locked s) (<[i := (r, Locked mut)]> (calls s)) (trace s)).
Proof.
  intros Hr Hi Hm. eapply reach_step; [exact Hr|].
  pose proof (advances pb_Marshal SignPrefix s i (mkNetwork (fun _ => []) (fun _ _ => Err (ErrText ""))
    (fun _ _ => None) (fun _ => None)) r _ (sender s) ({[mut]} ∪ locked s) (Locked mut) [] Hi) as Hst.
  cbn [fmap list_fmap] in Hst. rewrite app_nil_r in Hst. apply Hst. cbn [advance]. by rewrite decide_False.
Qed.

Lemma reach_fill ds k :
  mutexForPeer ds = MutexHolder.mk (LruCache.empty n) 0 -> (k <= n)%nat ->
  exists s, reach (start ds) s /\ mutexForPeer (sender s) = holder k /\ locked s = {[0%nat]} /\
    calls s !! 0%nat = Some (quick p, Locked 0) /\ (forall x, x ∈ requested s -> x = p \/ exists i, (i < k)%nat /\ x = q i).
Proof.
  intros Hds. induction k as [|k IH]; intros Hk.
  - pose proof (reach_Get ds (start ds) p (reach_start _ _ _)) as Hr. cbn [start sender locked calls trace app] in Hr.
    rewrite Hds, Get_miss in Hr by (cbn; apply not_elem_of_nil).
    cbn [fst snd next_addr] in Hr.
    eapply (reach_Lock _ _ 0 (quick p) 0) in Hr; [|reflexivity | set_solver]. eexists. split; [exact Hr|]. cbn [sender set_mutexes mutexForPeer locked calls].
    cbn [mutexes LruCache.empty LruCache.capacity LruCache.items]. rewrite take_nil. split_and!; [done | set_solver | done|]. intros x. cbn. set_solver.
  - destruct (IH ltac:(lia)) as (s & Hr & Hm & Hl & H0' & Hreq). pose proof (reach_Get ds s (q k) Hr) as Hr'. rewrite Hm in Hr'.
    eexists. split; [exact Hr'|]. cbn [sender set_mutexes mutexForPeer locked calls]. split_and!; [|done| |].
    + apply holder_S. lia.
    + by apply lookup_app_l_Some.
    + intros x. rewrite elem_of_requested. cbn [calls]. intros (i & r & ph & [Hi|[_ Hi]]%lookup_app_Some & <-).
      * destruct (Hreq (req_peer r)) as [?|(j & ? & ?)]; [apply elem_of_requested; eauto | by left | right; exists j; split; [lia | done]].
      * apply list_lookup_singleton_Some in Hi as [_ [= <- _]]. right. exists k. split; [lia | done].
Qed.

(** The holder forgets mutexes in use.  One peer more than it has room for is
    enough: after calls for [p] and for [n + 1] other peers, with [p]'s call still
    between [Lock] and [Unlock], a second call for [p] gets another mutex and is let in. *)
Theorem mutex_forgotten ds :
  mutexForPeer ds = MutexHolder.mk (LruCache.empty n) 0 ->
  exists s i j mi mj, reach (start ds) s /\
    (size (requested s) <= S (room (mutexes (mutexForPeer ds))))%nat /\ i ≠ j /\
    calls s !! i = Some (quick p, Locked mi) /\ calls s !! j = Some (quick p, Locked mj).
Proof.
  intros Hds. destruct (reach_fill ds n Hds (le_n n)) as (s & Hr & Hm & Hl & Hp & Hreq).
  pose proof (reach_Get ds s (q n) Hr) as Hr1. rewrite Hm, Get_next in Hr1. cbn [fst snd] in Hr1.
  pose proof (reach_Get ds _ p Hr1) as Hr2. cbn [sender set_mutexes mutexForPeer] in Hr2.
  assert (p ∉ ((q n, IfMutex (S n)) :: take n (LruCache.items (mutexes (holder n)))).*1) as Hp'.
  { unfold holder. cbn [mutexes LruCache.items]. rewrite take_app_length' by (by rewrite length_fmap, length_reverse, length_seq).
    cbn [fmap list_fmap fst]. rewrite elem_of_cons. intros [E|Hin]; [by eapply q_p|].
    rewrite <- list_fmap_compose in Hin. apply list_elem_of_fmap in Hin as (i & E & _). by eapply q_p. }
  rewrite Get_miss in Hr2 by exact Hp'. cbn [fst snd next_addr sender set_mutexes mutexForPeer locked calls trace] in Hr2.
  set (l := (calls s ++ [(quick (q n), Waiting (S n))]) ++ [(quick p, Waiting (S (S n)))]) in Hr2.
  assert (l !! length (calls s ++ [(quick (q n), Waiting (S n))]) = Some (quick p, Waiting (S (S n)))) as Hj.
  { unfold l. by rewrite lookup_app_r, Nat.sub_diag. }
  eapply reach_Lock in Hr2; [|exact Hj | rewrite Hl; set_solver]. cbn [sender locked calls trace] in Hr2.
  assert (l !! 0%nat = Some (quick p, Locked 0)) as Hi by (unfold l; by do 2 apply lookup_app_l_Some).
  eexists _, 0%nat, (length (calls s ++ [(quick (q n), Waiting (S n))])), 0%nat, (S (S n)). split; [exact Hr2|]. cbn [calls]. split_and!.
  - rewrite Hds. cbn [room LruRoom.lru_room mutexes LruCache.empty LruCache.capacity].
    transitivity (size (list_to_set (p :: (q <$> seq 0 (S n))) : gset PeerID)).
    + apply subseteq_size. intros x. rewrite elem_of_requested. cbn [calls]. intros (i & r & ph & Hx & <-).
      assert (req_peer r = p \/ exists i, (i < S n)%nat /\ req_peer r = q i) as [->|(i' & Hi' & ->)];
        [|apply elem_of_list_to_set; by left|].
      * destruct (insert_call _ _ _ _ _ _ _ _ Hj Hx) as [(_ & -> & _)|[_ Hx']]; [by left|].
        unfold l in Hx'. apply lookup_app_Some in Hx' as [Hx'|[_ Hx']];
          [|apply list_lookup_singleton_Some in Hx' as [_ [= <- _]]; by left].
        apply lookup_app_Some in Hx' as [Hx'|[_ Hx']];
          [|apply list_lookup_singleton_Some in Hx' as [_ [= <- _]]; right; exists n; split; [lia | done]].
        destruct (Hreq (req_peer r)) as [?|(j & ? & ?)]; [apply elem_of_requested; eauto | by left | right; exists j; split; [lia | done]].
      * apply elem_of_list_to_set. right. apply list_elem_of_fmap. exists i'. split; [done | apply elem_of_seq; lia].
    + rewrite size_list_to_set; [cbn [length]; by rewrite length_fmap, length_seq|].
      apply NoDup_cons. split; [intros (i & E & _)%list_elem_of_fmap; by eapply q_p|].
      apply NoDup_fmap_2; [intros ? ?; apply q_inj | apply NoDup_seq].
  - rewrite length_app. cbn. lia.
  - rewrite list_lookup_insert_ne; [exact Hi | rewrite length_app; cbn; lia].
  - eapply insert_lookup, Hj.
Qed.

End Tight.

(** Two calls for one peer and one for another, interleaved. *)
Module Witness.

#[local] Existing Instance DirectSender.Witness.echo_signer.
Abbreviation state0 := (state SweepCache.t LruCache.t unit).
Abbreviation enc := DirectSender.Witness.enc.
Abbreviation ds0 := DirectSender.Witness.ds0.
Abbreviation net := DirectSender.Witness.net.

Inductive action : Type := Begin (r : request) | Go (i : nat).

Fixpoint exec (s : state0) (l : list action) : option state0 :=
  match l with
  | [] => Some s
  | Begin r :: l => exec (mk (sender s) (locked s) (calls s ++ [(r, Arrived)]) (trace s)) l
  | Go i :: l =>
      '(r, ph) ← calls s !! i;
      '(ds, held, ph', evs) ← advance enc [] net (sender s) (locked s) r ph;
      exec (mk ds held (<[i := (r, ph')]> (calls s)) (trace s ++ ((i,.) <$> evs))) l
  end.

Lemma exec_reach s0 s l s' : reach enc [] s0 s -> exec s l = Some s' -> reach enc [] s0 s'.
Proof.
  revert s. induction l as [|[r|i] l IH]; intros s Hr; cbn [exec]; [by intros [= <-]|..].
  - apply IH. eapply reach_step; [exact Hr | constructor].
  - destruct (calls s !! i) as [[r ph]|] eqn:E; [|done]. cbn [mbind option_bind].
    destruct (advance _ _ _ _ _ _ _) as [[[[ds held] ph'] evs]|] eqn:Ea; [|done]. cbn [mbind option_bind].
    apply IH. eapply reach_step; [exact Hr | by econstructor].
Qed.

Definition to_bob (b : Byte.byte) : request := mkRequest "t" [b] "bob".

(** The second call for bob waits; the one for carol, who is not connected, leaves. *)
Definition schedule : list action :=
  [Begin (to_bob Byte.x01); Begin (to_bob Byte.x02); Begin (mkRequest "t" [Byte.x03] "carol");
   Go 0; Go 1; Go 2; Go 1; Go 2; Go 1; Go 2; Go 1; Go 2; Go 1; Go 1; Go 1; Go 1; Go 0; Go 0; Go 0; Go 0; Go 0].
Definition s1 : state0 := default (start ds0) (exec (start ds0) schedule).

Lemma s1_exec : exec (start ds0) schedule = Some s1.
Proof. unfold s1. by destruct (exec (start ds0) schedule) eqn:E; [|vm_compute in E]. Qed.
Lemma s1_reach : reach enc [] (start ds0) s1.
Proof. eapply exec_reach; [apply reach_start | exact s1_exec]. Qed.
Lemma ds0_fresh : fresh_mutexes ds0.
Proof. split_and!; [by constructor | constructor | done]. Qed.
Lemma s1_room : (size (requested s1) <= room (mutexes (mutexForPeer ds0)))%nat.
Proof. apply Nat.leb_le. vm_compute. reflexivity. Qed.

Lemma one_sender_per_peer_witness : exists ri phi rj phj,
  calls s1 !! 0%nat = Some (ri, phi) /\ calls s1 !! 1%nat = Some (rj, phj) /\ is_Some (critical phi) /\
  ~ is_Some (critical phj).
Proof.
  eexists _, _, _, _. split; [vm_compute; reflexivity|]. split; [vm_compute; reflexivity|]. split; [by eexists|].
  intros Hc. assert (0 = 1)%nat as E; [|discriminate E].
  eapply (one_sender_per_peer enc [] ds0 s1 0 1); [exact ds0_fresh | exact s1_reach | exact s1_room | vm_compute; reflexivity
    | vm_compute; reflexivity | reflexivity | by eexists | exact Hc].
Defined.

Lemma sends_progress_witness : exists j r ph ds' held ph' evs,
  calls s1 !! j = Some (r, ph) /\ advance enc [] net (sender s1) (locked s1) r ph = Some (ds', held, ph', evs).
Proof.
  apply (proj1 (sends_progress enc [] ds0 s1 s1_reach) net). exists 0%nat. eexists _, _. split; [vm_compute; reflexivity | done].
Defined.

Lemma alone_is_Send_witness : exists held' err ds' evs,
  run_alone enc [] 8 net ds0 ∅ (to_bob Byte.x01) Arrived [] = Some (err, ds', held', evs) /\ evs ≠ [].
Proof.
  pose proof (alone_is_Send enc [] ds0 net ∅ "t" [Byte.x01] "bob" ltac:(set_solver)) as P.
  destruct (Send enc [] ds0 net "t" [Byte.x01] "bob") as [[err ds'] evs] eqn:E. destruct P as (held' & _ & P).
  exists held', err, ds', evs. split; [exact P|]. intros ->. vm_compute in E. discriminate E.
Defined.

Lemma messages_in_order_witness : exists order : list (nat * Z),
  events_to s1 "bob" = order ≫= (fun iv => (iv.1,.) <$> events_of s1 iv.1) /\ StronglySorted Z.lt order.*2.
Proof.
  destruct (messages_in_order enc [] ds0 s1 "bob") as (order & P1 & _ & P2 & _);
    [vm_compute; discriminate | exact ds0_fresh | exact s1_reach | exact s1_room | vm_compute; reflexivity|].
  exists order. split; [exact P1 | exact P2].
Defined.

Lemma mutex_forgotten_witness : exists s i j mi mj, reach enc [] (start ds0) s /\ i ≠ j /\
  calls s !! i = Some (quick "bob", Locked mi) /\ calls s !! j = Some (quick "bob", Locked mj).
Proof.
  destruct (mutex_forgotten (T := SweepCache.t) (N := unit) enc [] 4 "bob" (fun i => "x" +:+ pretty i)) with (ds := ds0)
    as (s & i & j & mi & mj & P1 & _ & P2 & P3 & P4).
  - intros i j E. by apply (inj pretty), (inj (String.append "x")).
  - intros i E. discriminate E.
  - reflexivity.
  - exists s, i, j, mi, mj. split_and!; [exact P1 | exact P2 | exact P3 | exact P4].
Defined.

End Witness.
