(* ===== verification/DirectReceives.v ===== *)
(** * DirectReceives: direct messages read from many streams ([libp2p/directSender.go])

    [directStreamHandler] leaves a goroutine per stream, which reads the messages of
    its stream one after the other and processes each.  Here each goroutine takes
    atomic steps, and the goroutines, the clock and the calls of [Send] interleave
    in every order; what they share is the cache of seen messages, behind its mutex.
    Theorems: the steps of one message taken in a row are
    [DirectSender.processReceivedDirectMessage]; messages with one origin and sequence
    number are handed over once per life span of the cache, on whatever streams they
    arrive at the same time; and, together with DirectSends, what concurrent calls of
    [Send] write to the streams of a peer is handed over at the peer: all of it, once,
    in order. *)

From S2P Require Import Prelude Errors Interfaces Cacher MutexHolder Wire TopicMessage Message DirectSender DirectSends.
From Stdlib Require Import ZArith Lia String Sorted.
From stdpp Require Import prelude gmap list strings pretty sorting.

Local Open Scope Z_scope.

(** ** The goroutines *)

(** Where the goroutine of a stream is: in [ReadMsg]; in [processReceivedDirectMessage]
    before the cache, after it, and in the handler of the messenger; returned. *)
Inductive position : Type :=
| Reading
| Got (msg : pb_Message)
| Fresh (msg : pb_Message)
| Handling (msg : pb_Message)
| Stopped.

Record goroutine : Type := mkGoroutine { serves : stream; remote : PeerID; at_ : position }.

(** What a goroutine does: a message read, added to the cache at a time, handed to
    the messenger; the answer of [processReceivedDirectMessage]; a call on the stream. *)
Inductive event : Type :=
| DidRead (msg : pb_Message)
| Added (time : Z) (msg : pb_Message)
| Handed (msg : pb_Message)
| Answered (msg : pb_Message) (err : option error)
| OnStream (ev : stream_event).

Definition read_msgs : list event -> list pb_Message := omap (fun e => match e with DidRead m => Some m | _ => None end).
Definition added_msgs : list event -> list pb_Message := omap (fun e => match e with Added _ m => Some m | _ => None end).
Definition handed_msgs : list event -> list pb_Message := omap (fun e => match e with Handed m => Some m | _ => None end).
Definition on_stream : list event -> list stream_event := omap (fun e => match e with OnStream ev => Some ev | _ => None end).

(** The checks on the fields of a message, as [processReceivedDirectMessage] begins. *)
Definition refused (message : pb_Message) (fromConnectedPeer : PeerID) : option error :=
  match pb_Topic message with
  | None => Some (ErrSentinel ErrNilTopic)
  | Some _ =>
      if negb (bool_decide (get_bytes (pb_From message) = bytes_of_string fromConnectedPeer)) then
        Some (ErrWrap ErrInvalidValue " mismatch between From and fromConnectedPeer values")
      else if bool_decide (is_Some (pb_Key message)) then
        Some (ErrWrap ErrInvalidValue " for Key field as the node accepts only nil on this field")
      else if len (get_bytes (pb_Seqno message)) >? sequenceNumberSize then
        Some (ErrWrap ErrInvalidValue (" for SeqNo field as the node accepts only a maximum "
                +:+ pretty sequenceNumberSize +:+ " bytes"))
      else None
  end.

Section DirectReceives.

Context {T C N : Type} `{TimeCache T} `{Cacher C} `{SignerVerifier N}.
Context (pb_Marshal : pb_Message -> result bytes) (SignPrefix : bytes).

(** The sender of the node, which receives too; the time; the goroutines in the order
    of their streams; what they did. *)
Record state : Type := mk {
  receiver : directSender T C N;
  clock : Z;
  goroutines : list goroutine;
  history : list (nat * event)
}.

Implicit Types (s : state) (ds : directSender T C N) (g : goroutine) (i j : nat) (p : PeerID).

(** The next step of a goroutine at time [now]: [answer] is what [ReadMsg] returns,
    [handled] what the handler of the messenger returns. *)
Definition proceed ds (now : Z) (answer : read) (handled : option error) g :
    option (directSender T C N * position * list event) :=
  match at_ g with
  | Reading =>
      match answer with
      | ReadMsg _ msg => Some (ds, Got msg, [DidRead msg])
      | ReadEOF => Some (ds, Stopped, [OnStream (CloseStream (serves g))])
      | ReadError _ => Some (ds, Stopped, [OnStream (ResetStream (serves g))])
      end
  | Got msg =>
      match refused msg (remote g) with
      | Some err => Some (ds, Reading, [Answered msg (Some err)])
      | None =>
          let '(seen, ds) := checkAndSetSeenMessage ds now msg in
          if (seen : bool) then Some (ds, Reading, [Answered msg (Some (ErrSentinel ErrAlreadySeenMessage))])
          else Some (ds, Fresh msg, [Added now msg])
      end
  | Fresh msg =>
      match checkSig pb_Marshal SignPrefix ds msg with
      | Some err => Some (ds, Reading, [Answered msg (Some err)])
      | None => Some (ds, Handling msg, [Handed msg])
      end
  | Handling msg => Some (ds, Reading, [Answered msg handled])
  | Stopped => None
  end.

(** The network opens a stream; a goroutine goes on; time passes; a call of [Send]
    changes the counter and the mutexes. *)
Inductive step s : state -> Prop :=
| opens st p : step s (mk (receiver s) (clock s) (goroutines s ++ [mkGoroutine st p Reading]) (history s))
| proceeds i g answer handled ds ph evs :
    goroutines s !! i = Some g -> proceed (receiver s) (clock s) answer handled g = Some (ds, ph, evs) ->
    step s (mk ds (clock s) (<[i := mkGoroutine (serves g) (remote g) ph]> (goroutines s)) (history s ++ ((i,.) <$> evs)))
| ticks now : clock s <= now -> step s (mk (receiver s) now (goroutines s) (history s))
| sends ds : seenMessages ds = seenMessages (receiver s) -> signer ds = signer (receiver s) ->
    step s (mk ds (clock s) (goroutines s) (history s)).

Inductive reach s0 : state -> Prop :=
| reach_start : reach s0 s0
| reach_step s s' : reach s0 s -> step s s' -> reach s0 s'.

(** A receiver with no streams yet. *)
Definition start ds (now : Z) : state := mk ds now [] [].

Definition of_goroutine s i : list event := of_thread i (history s).

(** The messages a goroutine read, found new, and handed to the messenger. *)
Definition reads_of s i : list pb_Message := read_msgs (of_goroutine s i).
Definition added_of s i : list pb_Message := added_msgs (of_goroutine s i).
Definition handed_of s i : list pb_Message := handed_msgs (of_goroutine s i).

End DirectReceives.
Arguments state : clear implicits.

Lemma refused_None message from : refused message from = None <-> well_addressed message from.
Proof.
  unfold refused, well_addressed. split.
  - destruct (pb_Topic message) as [topic|]; [|done].
    destruct (bool_decide_reflect (get_bytes (pb_From message) = bytes_of_string from)) as [Ef|]; [cbn [negb]|done].
    destruct (bool_decide_reflect (is_Some (pb_Key message))) as [|Ek%eq_None_not_Some]; [done|].
    rewrite Z.gtb_ltb. destruct (Z.ltb_spec sequenceNumberSize (len (get_bytes (pb_Seqno message)))) as [|Hs]; [done|].
    intros _. by split_and!.
  - intros ([topic ->] & Ef & -> & Es). rewrite bool_decide_eq_true_2 by done. cbn.
    rewrite Z.gtb_ltb, (proj2 (Z.ltb_ge _ _)) by done. done.
Qed.

(** ** A stream by itself *)

Section Alone.

Context {T C N H : Type} `{TimeCache T} `{Cacher C} `{SignerVerifier N}.
Context (messageHandler : H -> pb_Message -> PeerID -> option error * H).
Context (pb_Marshal : pb_Message -> result bytes) (SignPrefix : bytes).
Implicit Types (ds : directSender T C N) (h : H) (g : goroutine).

Abbreviation proceed := (proceed pb_Marshal SignPrefix).
Abbreviation process := (processReceivedDirectMessage messageHandler pb_Marshal SignPrefix).

Definition move g ph : goroutine := mkGoroutine (serves g) (remote g) ph.

(** The steps of one goroutine at time [t], while it has something to do: [reads] are
    what [ReadMsg] returns, each with the time at which it returns. *)
Fixpoint run_alone (fuel : nat) ds h (t : Z) g (reads : list read) (evs : list event) :
    option (directSender T C N * H * list event) :=
  match fuel with
  | O => None
  | S fuel =>
      match at_ g, reads with
      | Stopped, _ | Reading, [] => Some (ds, h, evs)
      | Reading, r :: reads =>
          let t := match r with ReadMsg now _ => now | _ => t end in
          '(ds, ph, evs') ← proceed ds t r None g;
          run_alone fuel ds h t (move g ph) reads (evs ++ evs')
      | Handling msg, _ =>
          let '(err, h) := messageHandler h msg (remote g) in
          '(ds, ph, evs') ← proceed ds t ReadEOF err g;
          run_alone fuel ds h t (move g ph) reads (evs ++ evs')
      | _, _ =>
          '(ds, ph, evs') ← proceed ds t ReadEOF None g;
          run_alone fuel ds h t (move g ph) reads (evs ++ evs')
      end
  end.

Lemma refused_Some message from err :
  refused message from = Some err ->
  forall ds h now, process ds h now (Some message) from = (Some err, ds, h).
Proof. unfold refused. intros E ds h now. unfold processReceivedDirectMessage. by repeat case_match; simplify_eq. Qed.

(** The message that was just read, until the next [ReadMsg]. *)
Lemma run_message ds h t st from msg reads evs :
  let '(err, ds', h') := process ds h t (Some msg) from in
  exists k evs', (k <= 3)%nat /\ on_stream evs' = [] /\ forall n,
    run_alone (k + n) ds h t (mkGoroutine st from (Got msg)) reads evs =
    run_alone n ds' h' t (mkGoroutine st from Reading) reads (evs ++ evs' ++ [Answered msg err]).
Proof.
  destruct (refused msg from) as [err|] eqn:Er.
  - rewrite (refused_Some _ _ _ Er). exists 1%nat, []. split_and!; [lia | done|]. intros n.
    cbn [Nat.add run_alone at_]. unfold DirectReceives.proceed. cbn [at_ remote]. by rewrite Er.
  - rewrite process_well_addressed by by apply refused_None.
    destruct (tc_Has (seenMessages ds) t (msgId msg)) eqn:Eh.
    + exists 1%nat, []. split_and!; [lia | done|]. intros n. cbn [Nat.add run_alone at_].
      unfold DirectReceives.proceed. cbn [at_ remote]. rewrite Er. unfold checkAndSetSeenMessage. by rewrite Eh.
    + cbn zeta. set (ds1 := set_seen _ _).
      destruct (checkSig pb_Marshal SignPrefix ds1 msg) as [err|] eqn:Ec.
      * exists 2%nat, [Added t msg]. split_and!; [lia | done|]. intros n. cbn [Nat.add run_alone at_].
        unfold DirectReceives.proceed. cbn [at_ remote]. rewrite Er. unfold checkAndSetSeenMessage. rewrite Eh.
        cbn [mbind option_bind at_ move serves remote]. fold ds1. rewrite Ec. cbn [mbind option_bind].
        by rewrite <- app_assoc.
      * destruct (messageHandler h msg from) as [err h'] eqn:Em. exists 3%nat, [Added t msg; Handed msg].
        split_and!; [lia | done|]. intros n. cbn [Nat.add run_alone at_].
        unfold DirectReceives.proceed. cbn [at_ remote]. rewrite Er. unfold checkAndSetSeenMessage. rewrite Eh.
        cbn [mbind option_bind at_ move serves remote]. fold ds1. rewrite Ec. cbn [mbind option_bind at_ move serves remote].
        rewrite Em. cbn [mbind option_bind]. unfold move. cbn [serves remote]. by rewrite <- !app_assoc.
Qed.

Lemma run_stream st from reads : forall n ds h t evs0,
  (4 * length reads < n)%nat ->
  let '(ds', h', evs) := directStreamHandler messageHandler pb_Marshal SignPrefix ds h st from reads in
  exists log, run_alone n ds h t (mkGoroutine st from Reading) reads evs0 = Some (ds', h', evs0 ++ log) /\
    on_stream log = evs.
Proof.
  induction reads as [|r reads IH]; intros n ds h t evs0 Hn; (destruct n as [|n]; [lia|]).
  { exists []. by rewrite app_nil_r. }
  cbn [length] in Hn. destruct r as [now msg| |err]; cbn [directStreamHandler].
  - cbn [run_alone at_]. unfold DirectReceives.proceed at 1. cbn [at_ mbind option_bind move serves remote].
    pose proof (run_message ds h now st from msg reads (evs0 ++ [DidRead msg])) as Hm.
    destruct (processReceivedDirectMessage _ _ _ _ _ _ _ _) as [[err ds1] h1].
    destruct Hm as (k & evs' & Hk & Hs & E). replace n with (k + (n - k))%nat by lia. rewrite E.
    pose proof (IH (n - k)%nat ds1 h1 now ((evs0 ++ [DidRead msg]) ++ evs' ++ [Answered msg err]) ltac:(lia)) as Hr.
    destruct (directStreamHandler _ _ _ _ _ _ _ _) as [[ds' h'] evs]. destruct Hr as (log & -> & <-).
    exists ([DidRead msg] ++ evs' ++ [Answered msg err] ++ log). split; [by rewrite !app_assoc|].
    unfold on_stream in *. rewrite !omap_app, Hs. done.
  - destruct n as [|n]; [lia|]. eexists. split; [reflexivity|]. done.
  - destruct n as [|n]; [lia|]. eexists. split; [reflexivity|]. done.
Qed.

(** A stream by itself.  When the other goroutines do nothing, the steps of a
    goroutine are the method [directStreamHandler]: whatever [ReadMsg] returns, four
    steps per message and one more leave the same sender, the same state of the
    messenger and the same calls on the stream. *)
Theorem alone_is_directStreamHandler ds h t st from reads :
  let '(ds', h', evs) := directStreamHandler messageHandler pb_Marshal SignPrefix ds h st from reads in
  exists log, run_alone (S (4 * length reads)) ds h t (mkGoroutine st from Reading) reads [] = Some (ds', h', log) /\
    on_stream log = evs.
Proof.
  pose proof (run_stream st from reads (S (4 * length reads)) ds h t [] ltac:(lia)) as Hn.
  destruct (directStreamHandler _ _ _ _ _ _ _ _) as [[ds' h'] evs]. exact Hn.
Qed.

End Alone.

(** ** Many streams *)

Section Correctness.

Context {T C N : Type} `{TimeCacheLaws T} `{Cacher C} `{SignerVerifier N}.
Context (pb_Marshal : pb_Message -> result bytes) (SignPrefix : bytes).
Implicit Types (s : state T C N) (ds : directSender T C N) (g : goroutine) (i j : nat) (p : PeerID).

Abbreviation step := (step pb_Marshal SignPrefix).
Abbreviation reach := (reach pb_Marshal SignPrefix).
Abbreviation proceed := (proceed pb_Marshal SignPrefix).
Abbreviation checkSig := (checkSig pb_Marshal SignPrefix).

(** The steps of a goroutine, case by case. *)
Inductive goes ds (now : Z) g : directSender T C N -> position -> list event -> Prop :=
| goes_read msg : at_ g = Reading -> goes ds now g ds (Got msg) [DidRead msg]
| goes_stop ev : at_ g = Reading -> goes ds now g ds Stopped [OnStream ev]
| goes_refused msg err : at_ g = Got msg -> refused msg (remote g) = Some err ->
    goes ds now g ds Reading [Answered msg (Some err)]
| goes_seen msg err : at_ g = Got msg -> well_addressed msg (remote g) ->
    tc_Has (seenMessages ds) now (msgId msg) = true -> goes ds now g ds Reading [Answered msg (Some err)]
| goes_added msg : at_ g = Got msg -> well_addressed msg (remote g) ->
    tc_Has (seenMessages ds) now (msgId msg) = false ->
    goes ds now g (set_seen (tc_Add (seenMessages ds) now (msgId msg)) ds) (Fresh msg) [Added now msg]
| goes_bad msg err : at_ g = Fresh msg -> checkSig ds msg = Some err -> goes ds now g ds Reading [Answered msg (Some err)]
| goes_handed msg : at_ g = Fresh msg -> checkSig ds msg = None -> goes ds now g ds (Handling msg) [Handed msg]
| goes_returned msg err : at_ g = Handling msg -> goes ds now g ds Reading [Answered msg err].

Lemma proceed_goes ds now answer handled g ds' ph evs :
  proceed ds now answer handled g = Some (ds', ph, evs) -> goes ds now g ds' ph evs.
Proof.
  unfold DirectReceives.proceed. destruct (at_ g) as [|msg|msg|msg|] eqn:E; [..|done].
  - destruct answer; intros [= <- <- <-]; by constructor.
  - destruct (refused msg (remote g)) as [err|] eqn:Er; [intros [= <- <- <-]; by eapply goes_refused|].
    apply refused_None in Er. unfold checkAndSetSeenMessage.
    destruct (tc_Has _ _ _) eqn:Eh; intros [= <- <- <-]; [by eapply goes_seen | by apply goes_added].
  - destruct (DirectSender.checkSig _ _ _ _) as [err|] eqn:Ec; intros [= <- <- <-]; [by eapply goes_bad | by apply goes_handed].
  - intros [= <- <- <-]. by apply goes_returned.
Qed.

(** What the goroutine has under way. *)
Definition reading ph : list pb_Message := match ph with Got m | Fresh m | Handling m => [m] | _ => [] end.
Definition adding ph : list pb_Message := match ph with Fresh m | Handling m => [m] | _ => [] end.
Definition handing ph : list pb_Message := match ph with Handling m => [m] | _ => [] end.

(** Before that, in the order in which they were read: what was handed over is part of
    what was new, which is part of what was read. *)
Definition progress ph (l : list event) : Prop :=
  exists rs ads hs, read_msgs l = rs ++ reading ph /\ added_msgs l = ads ++ adding ph /\ handed_msgs l = hs ++ handing ph /\
    hs `sublist_of` ads /\ ads `sublist_of` rs.

Lemma msgs_app l evs :
  read_msgs (l ++ evs) = read_msgs l ++ read_msgs evs /\ added_msgs (l ++ evs) = added_msgs l ++ added_msgs evs /\
  handed_msgs (l ++ evs) = handed_msgs l ++ handed_msgs evs.
Proof. unfold read_msgs, added_msgs, handed_msgs. by rewrite !omap_app. Qed.

Lemma progress_goes ds now g ds' ph evs l :
  goes ds now g ds' ph evs -> progress (at_ g) l -> progress ph (l ++ evs).
Proof.
  intros Hg (rs & ads & hs & Er & Ea & Eh & Hh & Ha). destruct (msgs_app l evs) as (E1 & E2 & E3).
  unfold progress. rewrite E1, E2, E3, Er, Ea, Eh. clear E1 E2 E3.
  destruct Hg as [msg E|ev E|msg err E _|msg err E _ _|msg E _ _|msg err E _|msg E _|msg err E]; rewrite E;
    cbn [reading adding handing].
  - exists rs, ads, hs. by rewrite !app_nil_r.
  - exists rs, ads, hs. by rewrite !app_nil_r.
  - exists (rs ++ [msg]), ads, hs. rewrite !app_nil_r. split_and!; auto using sublist_inserts_r.
  - exists (rs ++ [msg]), ads, hs. rewrite !app_nil_r. split_and!; auto using sublist_inserts_r.
  - exists rs, ads, hs. rewrite !app_nil_r. by split_and!.
  - exists (rs ++ [msg]), (ads ++ [msg]), hs. rewrite !app_nil_r. split_and!; auto using sublist_inserts_r, sublist_app.
  - exists rs, ads, hs. rewrite !app_nil_r. by split_and!.
  - exists (rs ++ [msg]), (ads ++ [msg]), (hs ++ [msg]). rewrite !app_nil_r. split_and!; auto using sublist_app.
Qed.

(** Each goroutine is where its part of the history says, and only added messages
    whose fields it had checked. *)
Record streams_ok s : Prop := {
  st_progress i g : goroutines s !! i = Some g -> progress (at_ g) (of_goroutine s i);
  st_known e : e ∈ history s -> is_Some (goroutines s !! e.1);
  st_added i g t m : goroutines s !! i = Some g -> (i, Added t m) ∈ history s -> well_addressed m (remote g) /\ t <= clock s
}.

Lemma of_goroutine_app s ds now gs i evs j :
  of_goroutine (mk ds now gs (history s ++ ((i,.) <$> evs))) j = of_goroutine s j ++ if decide (i = j) then evs else [].
Proof. apply of_thread_app. Qed.

Lemma insert_goroutine (l : list goroutine) i g ph j g' :
  l !! i = Some g -> <[i := mkGoroutine (serves g) (remote g) ph]> l !! j = Some g' ->
  (j = i /\ g' = mkGoroutine (serves g) (remote g) ph) \/ (j ≠ i /\ l !! j = Some g').
Proof.
  intros Hi. rewrite list_lookup_insert. case_decide as E; [|intros Hj].
  - destruct E as [-> _]. intros [= <-]. by left.
  - right. split; [|done]. intros ->. apply E. split; [done|]. by eapply lookup_lt_Some.
Qed.

Lemma goes_added_event ds now g ds' ph evs i j t m :
  goes ds now g ds' ph evs -> (j, Added t m) ∈ ((i,.) <$> evs) ->
  j = i /\ t = now /\ evs = [Added t m] /\ well_addressed m (remote g) /\
  tc_Has (seenMessages ds) now (msgId m) = false /\ ds' = set_seen (tc_Add (seenMessages ds) now (msgId m)) ds.
Proof.
  intros Hg (ev & E & Hin)%list_elem_of_fmap. injection E as -> <-.
  destruct Hg; apply list_elem_of_singleton in Hin; simplify_eq; by split_and!.
Qed.

Lemma streams_step s s' : streams_ok s -> step s s' -> streams_ok s'.
Proof.
  intros [Hp Hk Ha] Hst. destruct Hst as [st p|i g answer handled ds ph evs Hi Hg%proceed_goes|now Hle|ds _ _].
  - constructor; cbn [goroutines history clock].
    + intros i g [Hi|[Hl Hi]]%lookup_app_Some; [by apply Hp|]. apply list_lookup_singleton_Some in Hi as [Ei <-].
      unfold of_goroutine, of_thread. cbn [history]. rewrite filter_all_false; [by exists [], [], []|].
      intros e He E. destruct (Hk e He) as [x Hx%lookup_lt_Some]. lia.
    + intros e He. destruct (Hk e He) as [x Hx]. exists x. by apply lookup_app_l_Some.
    + intros i g t m [Hi|[Hl Hi]]%lookup_app_Some He; [by eapply Ha|]. destruct (Hk _ He) as [x Hx%lookup_lt_Some]. cbn in Hx. lia.
  - constructor; cbn [goroutines history clock].
    + intros j g' Hj. rewrite of_goroutine_app. destruct (insert_goroutine _ _ _ _ _ _ Hi Hj) as [[-> ->]|[Hne Hj']].
      * rewrite decide_True by done. eapply progress_goes; [exact Hg|]. by apply Hp.
      * rewrite decide_False, app_nil_r by done. by apply Hp.
    + intros e He. apply lookup_lt_is_Some. rewrite length_insert. apply lookup_lt_is_Some.
      apply elem_of_app in He as [He|(ev & -> & _)%list_elem_of_fmap]; [by apply Hk | by exists g].
    + intros j g' t m Hj [He|He]%elem_of_app.
      * destruct (insert_goroutine _ _ _ _ _ _ Hi Hj) as [[-> ->]|[Hne Hj']]; [by apply (Ha i g) | by apply (Ha j g')].
      * destruct (goes_added_event _ _ _ _ _ _ _ _ _ _ Hg He) as (-> & -> & _ & Hw & _).
        destruct (insert_goroutine _ _ _ _ _ _ Hi Hj) as [[_ ->]|[Hne _]]; [|done]. split; [done | lia].
  - constructor; cbn [goroutines history clock]; [exact Hp | done|].
    intros i g t m Hi He. destruct (Ha i g t m Hi He). split; [done | lia].
  - by constructor.
Qed.

Lemma streams_reach ds now s : reach (start ds now) s -> streams_ok s.
Proof.
  induction 1 as [|s s' _ IH Hst]; [|by eapply streams_step].
  constructor; cbn; [done | set_solver | set_solver].
Qed.

(** The cache remembers what was added, for its span, and nothing else. *)
Definition apart (span : Z) (e e' : nat * event) : Prop :=
  match e.2, e'.2 with
  | Added t m, Added t' m' => msgId m = msgId m' -> t + span < t'
  | _, _ => True
  end.

Record seen_ok ds0 s : Prop := {
  sn_span : tc_span (seenMessages (receiver s)) = tc_span (seenMessages ds0);
  sn_signer : signer (receiver s) = signer ds0;
  sn_only k : is_Some (tc_added (seenMessages (receiver s)) k) ->
    is_Some (tc_added (seenMessages ds0) k) \/ exists i t m, (i, Added t m) ∈ history s /\ msgId m = k;
  sn_kept i t m : (i, Added t m) ∈ history s ->
    t + tc_span (seenMessages ds0) < clock s \/ exists t', tc_added (seenMessages (receiver s)) (msgId m) = Some t' /\ t <= t';
  sn_apart : StronglySorted (apart (tc_span (seenMessages ds0))) (history s)
}.

Lemma apart_not_added span e i ev : (forall t m, ev ≠ Added t m) -> apart span e (i, ev).
Proof. unfold apart. intros Hne. destruct e as [? []]; try done. destruct ev as [|t m| | |]; try done. by destruct (Hne t m). Qed.

Lemma goes_other ds now g ds' ph evs :
  goes ds now g ds' ph evs ->
  (exists m, evs = [Added now m] /\ tc_Has (seenMessages ds) now (msgId m) = false /\ ds' = set_seen (tc_Add (seenMessages ds) now (msgId m)) ds) \/
  (exists ev, evs = [ev] /\ ds' = ds /\ forall t m, ev ≠ Added t m).
Proof.
  destruct 1; try (right; eexists; split_and!; [reflexivity | reflexivity | done]).
  left. eexists. by split_and!.
Qed.

(** A message that was not in the cache is added. *)
Lemma seen_added ds0 s i g m gs :
  streams_ok s -> seen_ok ds0 s -> goroutines s !! i = Some g ->
  tc_Has (seenMessages (receiver s)) (clock s) (msgId m) = false ->
  seen_ok ds0 (mk (set_seen (tc_Add (seenMessages (receiver s)) (clock s) (msgId m)) (receiver s)) (clock s) gs
                 (history s ++ [(i, Added (clock s) m)])).
Proof.
  intros Hs [Hsp Hsg Ho Hk Hap] Hi Eh. set (now := clock s) in *.
  assert (forall j t m', (j, Added t m') ∈ history s -> t <= now) as Hle.
  { intros j t m' He. destruct (st_known _ Hs _ He) as [g' Hj]. by destruct (st_added _ Hs j g' t m' Hj He). }
  constructor; cbn [receiver clock history set_seen seenMessages signer]; [by rewrite span_Add | done|..].
  - intros k Hin. destruct (decide (msgId m = k)) as [<-|Hne].
    { right. exists i, now, m. split; [|done]. apply elem_of_app. right. by apply list_elem_of_singleton. }
    destruct (added_Add_ne (seenMessages (receiver s)) now _ _ Hne) as [E|[E _]]; rewrite E in Hin; [|by destruct Hin].
    destruct (Ho k Hin) as [?|(j & t & m' & He & Ek)]; [by left|].
    right. exists j, t, m'. split; [|done]. apply elem_of_app. by left.
  - intros j t m' [He|[= -> -> ->]%list_elem_of_singleton]%elem_of_app.
    2:{ right. exists now. by rewrite added_Add_eq. }
    destruct (Hk j t m' He) as [?|(t' & Et & Ht)]; [by left|].
    destruct (decide (msgId m = msgId m')) as [Eid|Hne].
    { right. exists now. rewrite <- Eid, added_Add_eq. split; [done | by eapply Hle]. }
    destruct (added_Add_ne (seenMessages (receiver s)) now _ _ Hne) as [->|(_ & t0 & Et0 & Hlt)]; [right; eauto|].
    left. simplify_eq. rewrite Hsp in Hlt. lia.
  - apply StronglySorted_app. split_and!; [|done | repeat constructor].
    intros [j ev] e2 He ->%list_elem_of_singleton. destruct ev as [|t m'| | |]; try done.
    unfold apart. cbn. intros Eid. destruct (Hk j t m' He) as [?|(t' & Et & Ht)]; [done|].
    rewrite Eid in Et. apply Z.lt_nge. intros Hge. rewrite (Has_added _ now _ _ Et) in Eh; [done | rewrite Hsp; lia].
Qed.

Lemma seen_step ds0 s s' : streams_ok s -> seen_ok ds0 s -> step s s' -> seen_ok ds0 s'.
Proof.
  intros Hs Hok Hst. destruct Hst as [st p|i g answer handled ds ph evs Hi Hg%proceed_goes|now Hle|ds Es Eg].
  - by destruct Hok.
  - apply goes_other in Hg as [(m & -> & Eh & ->)|(ev & -> & -> & Hne)]; cbn [fmap list_fmap]; [by eapply seen_added|].
    assert (forall j t m, (j, Added t m) ∈ history s ++ [(i, ev)] -> (j, Added t m) ∈ history s) as Hold.
    { intros j t m [He|[= -> <-]%list_elem_of_singleton]%elem_of_app; [done|]. by destruct (Hne t m). }
    destruct Hok as [Hsp Hsg Ho Hk Hap]. constructor; cbn [receiver clock history]; [done|done|..].
    + intros k Hin. destruct (Ho k Hin) as [?|(j & t & m & He & Ek)]; [by left|].
      right. exists j, t, m. split; [|done]. apply elem_of_app. by left.
    + intros j t m He. by apply (Hk j t m), Hold.
    + apply StronglySorted_app. split_and!; [|done | repeat constructor].
      intros e e2 _ ->%list_elem_of_singleton. by apply apart_not_added.
  - destruct Hok as [Hsp Hsg Ho Hk Hap]. constructor; cbn [receiver clock history]; [done..| |done].
    intros j t m He. destruct (Hk j t m He) as [?|?]; [left; lia | by right].
  - destruct Hok as [Hsp Hsg Ho Hk Hap]. constructor; cbn [receiver clock history]; rewrite ?Es, ?Eg; done.
Qed.

Lemma seen_reach ds now s : reach (start ds now) s -> seen_ok ds s.
Proof.
  induction 1 as [|s s' Hr IH Hst]; [|by eapply seen_step; [eapply streams_reach | |]].
  constructor; cbn; [done | done | by left | set_solver | constructor].
Qed.

(** [C10] Once per message, whatever the interleaving.  Messages with one origin and
    sequence number that arrive on many streams at once: of those that pass the
    cache, any two are further apart than its life span; and a goroutine hands over
    only messages that passed the cache, one for one, in the order in which it read
    them. *)
Theorem handed_once ds now s i g :
  reach (start ds now) s -> goroutines s !! i = Some g ->
  StronglySorted (apart (tc_span (seenMessages ds))) (history s) /\
  handed_of s i `sublist_of` added_of s i /\ added_of s i `sublist_of` reads_of s i /\
  forall m, m ∈ added_of s i -> well_addressed m (remote g) /\ exists t, (i, Added t m) ∈ history s.
Proof.
  intros Hr Hi. split; [by eapply sn_apart, seen_reach|]. pose proof (streams_reach _ _ _ Hr) as Hs.
  destruct (st_progress _ Hs i g Hi) as (rs & ads & hs & Er & Ea & Eh & Hh & Ha).
  unfold handed_of, added_of, reads_of. rewrite Er, Ea, Eh. split_and!.
  - apply sublist_app; [done|]. destruct (at_ g); cbn; auto using sublist_nil_l.
  - apply sublist_app; [done|]. destruct (at_ g); cbn; auto using sublist_nil_l.
  - rewrite <- Ea. intros m Hm. unfold added_msgs in Hm. apply list_elem_of_omap in Hm as (ev & Hin & Em).
    destruct ev as [|t m'| | |]; try done. injection Em as ->. apply elem_of_thread in Hin.
    destruct (st_added _ Hs i g t m Hi Hin) as [? _]. eauto.
Qed.

(** ** An honest peer *)

Section Honest.

Context (alice : PeerID).

(** What the peer sent: its fields and its signature are right. *)
Definition authentic ds m : Prop :=
  well_addressed m alice /\ len (get_bytes (pb_Seqno m)) = sequenceNumberSize /\ checkSig ds m = None.

(** The messages read from the peer are its own and have different sequence numbers. *)
Record honest ds s : Prop := {
  ho_authentic i g m : goroutines s !! i = Some g -> remote g = alice -> m ∈ reads_of s i -> authentic ds m;
  ho_distinct i j gi gj a b m m' :
    goroutines s !! i = Some gi -> remote gi = alice -> goroutines s !! j = Some gj -> remote gj = alice ->
    reads_of s i !! a = Some m -> reads_of s j !! b = Some m' ->
    get_bytes (pb_Seqno m) = get_bytes (pb_Seqno m') -> i = j /\ a = b
}.

(** No other identity begins with the one of the peer: identities are multihashes,
    which begin with their length. *)
Definition prefix_free s : Prop :=
  forall i g, goroutines s !! i = Some g -> bytes_of_string alice `prefix_of` bytes_of_string (remote g) -> remote g = alice.

Lemma step_goroutine s s' i g :
  step s s' -> goroutines s !! i = Some g ->
  exists g', goroutines s' !! i = Some g' /\ remote g' = remote g /\ serves g' = serves g /\
    reads_of s i `prefix_of` reads_of s' i.
Proof.
  intros Hst Hi. destruct Hst as [st p|j gj answer handled ds ph evs Hj _|now Hle|ds _ _]; cbn [goroutines].
  - exists g. split_and!; [by apply lookup_app_l_Some | done..].
  - assert (reads_of s i `prefix_of` reads_of (mk ds (clock s) (<[j := mkGoroutine (serves gj) (remote gj) ph]> (goroutines s))
      (history s ++ ((j,.) <$> evs))) i) as Hp.
    { unfold reads_of. rewrite of_goroutine_app, (proj1 (msgs_app _ _)). by apply prefix_app_r. }
    destruct (decide (j = i)) as [->|Hne].
    + simplify_eq. eexists. split_and!; [apply list_lookup_insert_eq; by eapply lookup_lt_Some | done..].
    + exists g. split_and!; [by rewrite list_lookup_insert_ne | done..].
  - by exists g.
  - by exists g.
Qed.

Lemma honest_step ds s s' : step s s' -> honest ds s' -> honest ds s.
Proof.
  intros Hst [Ha Hd]. constructor.
  - intros i g m Hi Hg Hm. destruct (step_goroutine _ _ _ _ Hst Hi) as (g' & Hi' & Er & _ & [l El]).
    eapply Ha; [exact Hi' | congruence |]. rewrite El. apply elem_of_app. by left.
  - intros i j gi gj a b m m' Hi Hgi Hj Hgj Hm Hm'.
    destruct (step_goroutine _ _ _ _ Hst Hi) as (gi' & Hi' & Ei & _ & [l El]),
      (step_goroutine _ _ _ _ Hst Hj) as (gj' & Hj' & Ej & _ & [l' El']).
    eapply Hd; [exact Hi' | congruence | exact Hj' | congruence | rewrite El | rewrite El']; by apply lookup_app_l_Some.
Qed.

Lemma prefix_free_step s s' : step s s' -> prefix_free s' -> prefix_free s.
Proof.
  intros Hst Hp i g Hi. destruct (step_goroutine _ _ _ _ Hst Hi) as (g' & Hi' & <- & _). by eapply Hp.
Qed.

Lemma msgId_bytes m : bytes_of_string (msgId m) = get_bytes (pb_From m) ++ get_bytes (pb_Seqno m).
Proof. unfold msgId. by rewrite bytes_of_string_app, !bytes_of_string_of_bytes. Qed.

(** Two messages with one id, when one is from the peer. *)
Lemma msgId_peer p m m' :
  well_addressed m alice -> len (get_bytes (pb_Seqno m)) = sequenceNumberSize -> well_addressed m' p ->
  msgId m' = msgId m ->
  bytes_of_string alice `prefix_of` bytes_of_string p /\
  (p = alice -> get_bytes (pb_Seqno m') = get_bytes (pb_Seqno m)).
Proof.
  intros (_ & Ef & _ & _) El (_ & Ef' & _ & El') E. apply (f_equal bytes_of_string) in E.
  rewrite !msgId_bytes, Ef, Ef' in E. split; [|intros ->; by apply app_inv_head in E].
  assert (length (bytes_of_string alice) <= length (bytes_of_string p))%nat as Hle.
  { apply (f_equal length) in E. rewrite !length_app in E. lia. }
  exists (drop (length (bytes_of_string alice)) (bytes_of_string p)).
  apply (f_equal (take (length (bytes_of_string alice)))) in E.
  rewrite take_app_le, take_app_length in E by done. rewrite <- E at 1. by rewrite take_drop.
Qed.

(** Where a message that was added was read. *)
Lemma added_read s g j m : streams_ok s -> goroutines s !! j = Some g -> m ∈ added_of s j ->
  exists b, reads_of s j !! b = Some m /\ forall m', at_ g = Got m' -> (S b < length (reads_of s j))%nat.
Proof.
  intros Hs Hj Hm. destruct (st_progress _ Hs j g Hj) as (rs & ads & hs & Er & Ea & _ & _ & Ha).
  unfold added_of in Hm. unfold reads_of. rewrite Ea in Hm. rewrite Er.
  assert (m ∈ rs \/ m ∈ adding (at_ g)) as [Hin|Hin].
  { apply elem_of_app in Hm as [Hm|Hm]; [left | by right]. by eapply elem_of_sublist. }
  - apply list_elem_of_lookup in Hin as [b Hb]. exists b. split; [by apply lookup_app_l_Some|].
    intros m' ->. rewrite length_app. apply lookup_lt_Some in Hb. cbn. lia.
  - destruct (at_ g) as [|x|x|x|]; cbn in Hin; try by apply not_elem_of_nil in Hin.
    all: apply list_elem_of_singleton in Hin as ->; exists (length rs); (split; [by rewrite lookup_app_r, Nat.sub_diag | done]).
Qed.

(** The cache has nothing at first. *)
Definition fresh_cache ds : Prop := forall k, tc_added (seenMessages ds) k = None.

(** A message of the peer that a goroutine got is not in the cache. *)
Lemma got_not_seen ds s i g msg :
  streams_ok s -> seen_ok ds s -> fresh_cache ds -> honest ds s -> prefix_free s ->
  goroutines s !! i = Some g -> remote g = alice -> at_ g = Got msg ->
  tc_Has (seenMessages (receiver s)) (clock s) (msgId msg) = false.
Proof.
  intros Hs Hsn Hf [Ha Hd] Hp Hi Hr Hg. apply not_true_is_false. intros Hin%Has_only_added.
  destruct (sn_only _ _ Hsn _ Hin) as [[t Et]|(j & t & m & He & Eid)]; [by rewrite Hf in Et|].
  destruct (st_known _ Hs _ He) as [gj Hj]. cbn in Hj. destruct (st_added _ Hs j gj t m Hj He) as [Hw _].
  assert (m ∈ added_of s j) as Hm by (apply list_elem_of_omap; exists (Added t m); split; [by apply elem_of_thread | done]).
  destruct (added_read s gj j m Hs Hj Hm) as (b & Hb & Hlt).
  destruct (st_progress _ Hs i g Hi) as (rs & ads & hs & Er & _). rewrite Hg in Er. cbn in Er.
  assert (reads_of s i !! length rs = Some msg) as Hl by (unfold reads_of; by rewrite Er, lookup_app_r, Nat.sub_diag).
  destruct (Ha i g msg Hi Hr) as (Hwm & Hlen & _); [by eapply list_elem_of_lookup_2|].
  destruct (msgId_peer (remote gj) msg m Hwm Hlen Hw Eid) as [Hpre Hsq]. apply (Hp j gj Hj) in Hpre as Hrj.
  destruct (Hd j i gj g b (length rs) m msg) as [-> ->]; [done.. | by apply Hsq |].
  replace gj with g in Hlt by congruence. specialize (Hlt _ Hg). unfold reads_of in Hlt. rewrite Er, length_app in Hlt. cbn in Hlt. lia.
Qed.

(** What a goroutine has read and not handed over yet. *)
Definition waiting ph : list pb_Message := match ph with Got m | Fresh m => [m] | _ => [] end.

(** All that was read from the peer is handed over. *)
Definition complete s : Prop :=
  forall i g, goroutines s !! i = Some g -> remote g = alice -> handed_of s i ++ waiting (at_ g) = reads_of s i.

Lemma checkSig_signer ds ds' m : signer ds = signer ds' -> checkSig ds m = checkSig ds' m.
Proof. unfold DirectSender.checkSig. by intros ->. Qed.

Lemma complete_step ds s s' :
  streams_ok s -> seen_ok ds s -> fresh_cache ds -> honest ds s' -> prefix_free s -> complete s -> step s s' -> complete s'.
Proof.
  intros Hs Hsn Hf Hh' Hp Hc Hst. pose proof (honest_step _ _ _ Hst Hh') as Hh.
  destruct Hst as [st p|i g answer handled ds' ph evs Hi Hg%proceed_goes|now Hle|ds' _ _]; [|..|exact Hc|exact Hc].
  - intros j gj [Hj|[Hl Hj]]%lookup_app_Some Hr; [by apply Hc|].
    apply list_lookup_singleton_Some in Hj as [_ <-]. unfold handed_of, reads_of, of_goroutine, of_thread. cbn [history at_ waiting].
    rewrite filter_all_false; [done|]. intros e He E. destruct (st_known _ Hs e He) as [x Hx%lookup_lt_Some]. lia.
  - intros j gj Hj Hr. unfold handed_of, reads_of. rewrite of_goroutine_app. destruct (msgs_app (of_goroutine s j)
      (if decide (i = j) then evs else [])) as (-> & _ & ->).
    destruct (insert_goroutine _ _ _ _ _ _ Hi Hj) as [[-> ->]|[Hne Hj']].
    2:{ rewrite decide_False by done. cbn. rewrite !app_nil_r. by apply Hc. }
    rewrite decide_True by done. cbn [at_ remote] in *. pose proof (Hc i g Hi Hr) as Hci. unfold handed_of, reads_of in Hci.
    assert (forall msg, waiting (at_ g) = [msg] -> authentic ds msg) as Hauth.
    { intros msg E. eapply (ho_authentic _ _ Hh); [exact Hi | done|]. unfold reads_of. rewrite <- Hci, E.
      apply elem_of_app. right. by apply list_elem_of_singleton. }
    rewrite <- Hci. destruct Hg as [msg E|ev E|msg err E Er|msg err E _ Eh|msg E _ _|msg err E Ec|msg E _|msg err E];
      rewrite E in *; cbn [waiting] in *; rewrite ?app_nil_r; try done.
    + destruct (Hauth msg eq_refl) as (Hw & _). rewrite <- Hr in Hw. apply refused_None in Hw. congruence.
    + rewrite (got_not_seen ds s i g msg) in Eh; done.
    + destruct (Hauth msg eq_refl) as (_ & _ & Hsig). rewrite (checkSig_signer _ ds) in Ec by apply Hsn. congruence.
Qed.

Lemma complete_reach ds now s :
  fresh_cache ds -> reach (start ds now) s -> honest ds s -> prefix_free s -> complete s.
Proof.
  intros Hf. induction 1 as [|s s' Hr IH Hst]; intros Hh Hp; [done|].
  pose proof (honest_step _ _ _ Hst Hh). pose proof (prefix_free_step _ _ Hst Hp).
  eapply complete_step; [by eapply streams_reach | by eapply seen_reach | done | exact Hh | done | by apply IH | exact Hst].
Qed.

End Honest.

End Correctness.

(** A message of alice that arrives on two streams at once, and one of carol. *)
Module Witness.

#[local] Existing Instance DirectSender.Witness.echo_signer.
Abbreviation state0 := (state SweepCache.t LruCache.t unit).
Abbreviation enc := DirectSender.Witness.enc.
Abbreviation ds0 := DirectSender.Witness.ds0.
Abbreviation msg0 := DirectSender.Witness.msg0.
Abbreviation open_stream := DirectSender.Witness.open_stream.

Inductive action : Type := Open (st : stream) (p : PeerID) | Go (i : nat) (answer : read).

Fixpoint exec (s : state0) (l : list action) : option state0 :=
  match l with
  | [] => Some s
  | Open st p :: l => exec (mk (receiver s) (clock s) (goroutines s ++ [mkGoroutine st p Reading]) (history s)) l
  | Go i answer :: l =>
      g ← goroutines s !! i;
      '(ds, ph, evs) ← proceed enc [] (receiver s) (clock s) answer None g;
      exec (mk ds (clock s) (<[i := mkGoroutine (serves g) (remote g) ph]> (goroutines s)) (history s ++ ((i,.) <$> evs))) l
  end.

Lemma exec_readers_reach s0 s l s' : reach enc [] s0 s -> exec s l = Some s' -> reach enc [] s0 s'.
Proof.
  revert s. induction l as [|[st p|i answer] l IH]; intros s Hr; cbn [exec]; [by intros [= <-]|..].
  - apply IH. eapply reach_step; [exact Hr | constructor].
  - destruct (goroutines s !! i) as [g|] eqn:E; [|done]. cbn [mbind option_bind].
    destruct (proceed _ _ _ _ _ _ _) as [[[ds ph] evs]|] eqn:Ea; [|done]. cbn [mbind option_bind].
    apply IH. eapply reach_step; [exact Hr | by econstructor].
Qed.

Definition to_read (m : pb_Message) : read := ReadMsg 0 m.

(** Both goroutines have read the message before either looks into the cache. *)
Definition schedule : list action :=
  [Open open_stream "alice"; Open open_stream "alice"; Open open_stream "carol";
   Go 0 (to_read msg0); Go 1 (to_read msg0); Go 2 (to_read msg0);
   Go 0 ReadEOF; Go 1 ReadEOF; Go 2 ReadEOF; Go 0 ReadEOF; Go 0 ReadEOF].
Definition readers1 : state0 := default (start ds0 5) (exec (start ds0 5) schedule).

Lemma readers_reach : reach enc [] (start ds0 5) readers1.
Proof.
  eapply exec_readers_reach; [apply reach_start|]. unfold readers1.
  destruct (exec (start ds0 5) schedule) eqn:E; [exact E | vm_compute in E; discriminate E].
Qed.

Lemma handed_once_witness :
  handed_of readers1 0 = [msg0] /\ handed_of readers1 1 = [] /\ handed_of readers1 0 `sublist_of` added_of readers1 0.
Proof.
  split_and!; [vm_compute; reflexivity..|].
  destruct (handed_once enc [] ds0 5 readers1 0 (mkGoroutine open_stream "alice" Reading) readers_reach ltac:(vm_compute; reflexivity))
    as (_ & P & _). exact P.
Defined.

Lemma alone_is_directStreamHandler_witness : exists log,
  run_alone DirectSender.Witness.handler enc [] 9 ds0 [] 5 (mkGoroutine open_stream "alice" Reading)
    [to_read msg0; ReadEOF] [] =
  Some ((directStreamHandler DirectSender.Witness.handler enc [] ds0 [] open_stream "alice" [to_read msg0; ReadEOF]).1.1, [msg0], log) /\
  on_stream log = [CloseStream open_stream].
Proof.
  pose proof (alone_is_directStreamHandler DirectSender.Witness.handler enc [] ds0 [] 5 open_stream "alice"
    [to_read msg0; ReadEOF]) as P.
  destruct (directStreamHandler _ _ _ _ _ _ _ _) as [[ds' h'] evs] eqn:E. vm_compute in E. injection E as <- <- <-. exact P.
Defined.

End Witness.
