(* ===== verification/DirectDelivery.v ===== *)
(** * DirectDelivery: direct messages from [Send] to the handler of the messenger

    DirectSends and DirectReceives together: a node whose goroutines call [Send], in
    every interleaving, and a node that reads the streams of all its peers, in every
    interleaving.  Theorem: what the calls for the peer write to its streams is handed
    to its messenger once, in the order of the sequence numbers, each message with the
    topic and the data of one call, whatever other peers send. *)

From S2P Require Import Prelude Errors Interfaces Cacher MutexHolder Wire TopicMessage Message DirectSender DirectSends DirectReceives.
From Stdlib Require Import ZArith Lia String Sorted.
From stdpp Require Import prelude gmap list strings pretty sorting.

Local Open Scope Z_scope.

Section Sent.

Context {T C N : Type} `{TimeCache T} `{CacherLaws C} `{!CacherRoom C} `{SignerVerifier N}.
Context (pb_Marshal : pb_Message -> result bytes) (SignPrefix : bytes).
Implicit Types (s : DirectSends.state T C N) (ds : directSender T C N) (i : nat) (p : PeerID).

Abbreviation step := (DirectSends.step pb_Marshal SignPrefix).
Abbreviation reach := (DirectSends.reach pb_Marshal SignPrefix).
Abbreviation advance := (DirectSends.advance pb_Marshal SignPrefix).

(** The message that a call of [Send] for [r] makes with the signer [sg]. *)
Definition written_for (sg : N) (r : request) (msg : pb_Message) : Prop :=
  pb_Topic msg = Some (req_topic r) /\ pb_Data msg = Some (req_buff r) /\ pb_Key msg = None /\
  exists c b sig, pb_From msg = Some (bytes_of_string (LocalPeer c)) /\ pb_Marshal (unsigned msg) = Ok b /\
    sv_Sign sg (withSignPrefix SignPrefix b) = Ok sig /\ pb_Signature msg = Some sig.

Lemma createMessage_written_for ds r c msg ds' :
  createMessage pb_Marshal SignPrefix ds (req_topic r) (req_buff r) c = (Ok msg, ds') -> written_for (signer ds) r msg.
Proof.
  intros (b & sig & Hb & Hs & -> & _)%createMessage_Ok. unfold written_for. split_and!; [done..|].
  by exists c, b, sig.
Qed.

(** What a step of a call does to the signer, and the messages it makes and writes. *)
Lemma advance_written net ds held r ph ds' held' ph' evs :
  advance net ds held r ph = Some (ds', held', ph', evs) ->
  signer ds' = signer ds /\
  (forall m st msg, ph' = Ready m st msg -> written_for (signer ds) r msg) /\
  (forall st msg, Written st msg ∈ evs -> exists m, ph = Ready m st msg).
Proof.
  destruct ph as [|mut|mut|mut c|mut c st|mut st msg|mut st|mut err|err]; cbn [DirectSends.advance].
  - case_match; [|destruct (MutexHolder.Get _ _)]; intros [= <- <- <- <-]; (split_and!; [done|done|set_solver]).
  - case_decide; [done|]. intros [= <- <- <- <-]. split_and!; [done|done|set_solver].
  - intros [= <- <- <- <-]. split_and!; [done|by destruct (getConnection _ _)|set_solver].
  - intros [= <- <- <- <-]. split_and!; [done|by destruct (getOrCreateStream _ _)|set_solver].
  - destruct (createMessage _ _ _ _ _ _) as [[msg|] ds1] eqn:E; intros [= <- <- <- <-].
    + split_and!; [by apply createMessage_Ok in E as (? & ? & _ & _ & _ & ->) | | set_solver].
      intros m st' msg' [= <- <- <-]. by eapply createMessage_written_for.
    + split_and!; [|done|set_solver]. unfold createMessage, NextSequenceNumber in E. repeat case_match; by simplify_eq.
  - destruct (WriteMsg _ _ _); intros [= <- <- <- <-]; (split_and!; [done|done|]); intros st' msg' Hin;
      repeat (apply elem_of_cons in Hin as [[=]|Hin]); try (by apply not_elem_of_nil in Hin); subst; by eexists.
  - destruct (Flush _ _); intros [= <- <- <- <-]; (split_and!; [done|done|]); intros st' msg' Hin;
      repeat (apply elem_of_cons in Hin as [[=]|Hin]); by apply not_elem_of_nil in Hin.
  - intros [= <- <- <- <-]. split_and!; [done|done|set_solver].
  - done.
Qed.

(** Every message is of the call that has it or wrote it. *)
Record contents_ok ds s : Prop := {
  ct_signer : signer (sender s) = signer ds;
  ct_ready i r m st msg : calls s !! i = Some (r, Ready m st msg) -> written_for (signer ds) r msg;
  ct_written i st msg : (i, Written st msg) ∈ trace s ->
    exists r ph, calls s !! i = Some (r, ph) /\ written_for (signer ds) r msg
}.

Lemma contents_step ds s s' : contents_ok ds s -> step s s' -> contents_ok ds s'.
Proof.
  intros [Hs Hr Hw] Hst. destruct Hst as [r|i net r ph ds1 held ph' evs Hi Ha|seen].
  - constructor; cbn [sender calls trace]; [done|..].
    + intros i r' m st msg [Hi|[=]]%append_call. by eapply Hr.
    + intros i st msg Hin. destruct (Hw i st msg Hin) as (r' & ph & Hi & ?). exists r', ph. split; [by apply lookup_app_l_Some | done].
  - apply advance_written in Ha as (Es & Hnew & Hev). rewrite Hs in Es, Hnew. constructor; cbn [sender calls trace]; [done|..].
    + intros j r' m st msg Hj. destruct (insert_call _ _ _ _ _ _ _ _ Hi Hj) as [(-> & -> & E)|[_ Hj']]; [|by eapply Hr].
      by eapply Hnew.
    + intros j st msg [Hin|(ev & [= -> <-] & Hin)%list_elem_of_fmap]%elem_of_app.
      * destruct (Hw j st msg Hin) as (r' & ph2 & Hj & Hf). destruct (decide (i = j)) as [->|Hne].
        -- rewrite Hi in Hj. injection Hj as <- <-. exists r, ph'. split; [by eapply insert_lookup | done].
        -- exists r', ph2. by rewrite list_lookup_insert_ne.
      * destruct (Hev st msg Hin) as [m ->]. exists r, ph'. split; [by eapply insert_lookup | by eapply Hr].
  - by constructor.
Qed.

Lemma contents_reach ds s : reach (DirectSends.start ds) s -> contents_ok ds s.
Proof.
  induction 1 as [|s s' _ IH Hst]; [|by eapply contents_step].
  constructor; cbn; [done | done | set_solver].
Qed.

(** ** The messages of a stream, in order *)

(** The messages that were written, with their streams. *)
Definition writes (evs : list (nat * stream_event)) : list (stream * pb_Message) :=
  omap (fun e => match e.2 with Written st msg => Some (st, msg) | _ => None end) evs.

(** The messages that the calls for [p] wrote to [st], in their order. *)
Definition written_on s p st : list pb_Message := (filter (fun w => w.1 = st) (writes (events_to s p))).*2.

(** In the order of their sequence numbers. *)
Definition precedes (m m' : pb_Message) : Prop :=
  exists v w, pb_Seqno m = Some (PutUint64 v) /\ pb_Seqno m' = Some (PutUint64 w) /\ 0 <= v < w /\ w < 2 ^ 64.

Lemma precedes_ne m m' : precedes m m' -> pb_Seqno m ≠ pb_Seqno m'.
Proof.
  intros (v & w & -> & -> & Hvw & Hw) E. apply (inj Some), PutUint64_inj in E; unfold in_u64; lia.
Qed.

Lemma writes_quiet i evs : quiet evs -> writes ((i,.) <$> evs) = [].
Proof.
  unfold writes. induction evs as [|ev evs IH]; intros Hq; [done|]. cbn.
  destruct ev as [st msg| | |]; [by destruct (Hq st msg); left|..]; apply IH; intros st msg Hin; eapply Hq; by right.
Qed.

(** Every call of the order wrote one message, with its number. *)
Lemma writes_order s order :
  (forall i v, (i, v) ∈ order -> wrote_number s i v /\ 0 <= v < 2 ^ 64) ->
  Forall2 (fun v m => pb_Seqno m = Some (PutUint64 v) /\ 0 <= v < 2 ^ 64) order.*2
    (writes (order ≫= fun iv => (iv.1,.) <$> events_of s iv.1)).*2.
Proof.
  induction order as [|[i v] order IH]; intros Ho; [constructor|]. cbn [mbind list_bind fst snd fmap list_fmap].
  destruct (Ho i v ltac:(by left)) as [(st & msg & evs & -> & Hq & Hsq) Hv].
  unfold writes. rewrite omap_app. fold (writes ((i,.) <$> (Written st msg :: evs))).
  assert (writes ((i,.) <$> (Written st msg :: evs)) = [(st, msg)]) as ->.
  { cbn. f_equal. by apply writes_quiet. }
  cbn [app fmap list_fmap snd]. constructor; [done|]. apply IH. intros j w Hin. apply Ho. by right.
Qed.

(** The state after concurrent calls from a new sender, with room in the mutex holder
    and no wrap-around of the counter. *)
Record run ds s : Prop := {
  run_counter : 0 <= counter ds;
  run_mutexes : fresh_mutexes ds;
  run_reach : reach (DirectSends.start ds) s;
  run_room : (size (requested s) <= room (mutexes (mutexForPeer ds)))%nat;
  run_numbers : counter ds + len (calls s) < 2 ^ 64
}.

Lemma run_order ds s p :
  run ds s -> exists order, order_ok s p order /\ forall i v, (i, v) ∈ order -> wrote_number s i v /\ 0 <= v < 2 ^ 64.
Proof.
  intros [Hpos Hf Hr Hs Hlt]. destruct (order_reach pb_Marshal SignPrefix ds s p Hpos Hf Hr Hs Hlt) as [order Hok].
  exists order. split; [done|]. intros i v Hin. destruct (or_wrote _ _ _ Hok i v Hin) as (_ & Hw & Hv).
  pose proof (numbers_bound ds s (numbers_reach pb_Marshal SignPrefix ds s Hpos Hr Hlt)). split; [done | lia].
Qed.

Lemma writes_sorted ds s p : run ds s -> StronglySorted precedes (writes (events_to s p)).*2.
Proof.
  intros Hrun. destruct (run_order ds s p Hrun) as (order & Hok & Ho). rewrite (or_events _ _ _ Hok).
  eapply StronglySorted_Forall2; [|by apply writes_order | exact (or_sorted _ _ _ Hok)].
  cbn. intros v w m m' [Em Hv] [Em' Hw] Hvw. exists v, w. split_and!; [done | done | lia..].
Qed.

Lemma written_on_sublist s p st : written_on s p st `sublist_of` (writes (events_to s p)).*2.
Proof. unfold written_on. apply fmap_sublist, sublist_filter. Qed.

Lemma written_number ds s p st m : run ds s -> m ∈ written_on s p st -> exists v, pb_Seqno m = Some (PutUint64 v).
Proof.
  intros Hrun Hin. eapply elem_of_sublist in Hin; [|apply written_on_sublist].
  destruct (run_order ds s p Hrun) as (order & Hok & Ho). rewrite (or_events _ _ _ Hok) in Hin.
  apply list_elem_of_lookup in Hin as [a Ha].
  destruct (Forall2_lookup_r _ _ _ _ _ (writes_order s order Ho) Ha) as (v & _ & Hv & _). by exists v.
Qed.

(** A call writes one message. *)
Lemma one_write ds s p k st m st' m' :
  run ds s -> peer_of s k = Some p -> (k, Written st m) ∈ trace s -> (k, Written st' m') ∈ trace s -> st' = st /\ m' = m.
Proof.
  intros Hrun Hk Hin Hin'. destruct (run_order ds s p Hrun) as (order & Hok & Ho).
  assert ((k, Written st m) ∈ events_to s p) as Hev by (by apply list_elem_of_filter).
  rewrite (or_events _ _ _ Hok) in Hev. apply list_elem_of_bind in Hev as ([k' v] & (ev & E & _)%list_elem_of_fmap & Hv).
  injection E as E _. cbn in E. subst k'. destruct (Ho k v Hv) as [(st0 & msg0 & evs & E & Hq & _) _].
  apply elem_of_thread in Hin, Hin'. fold (events_of s k) in Hin, Hin'. rewrite E in Hin, Hin'.
  apply elem_of_cons in Hin as [[= -> ->]|Hin]; [|by destruct (Hq _ _ Hin)].
  apply elem_of_cons in Hin' as [[= -> ->]|Hin']; [done | by destruct (Hq _ _ Hin')].
Qed.

End Sent.

(** ** From one node to the other *)

Section Delivery.

Context {T C N : Type} `{TimeCacheLaws T} `{CacherLaws C} `{!CacherRoom C} `{SignerVerifier N}.
Context (pb_Marshal : pb_Message -> result bytes) (SignPrefix : bytes).
(** The two nodes; the stream of the sender that a goroutine of the receiver reads. *)
Context (alice bob : PeerID) (out : nat -> stream).
Implicit Types (sent : DirectSends.state T C N) (received : DirectReceives.state T C N) (ds : directSender T C N) (i j k : nat).

(** What the network does with the streams from [alice] to [bob]: a goroutine that
    serves [alice] has read a beginning of what was written on its stream, each reads
    another stream, and the local identity of the connections is [alice]. *)
Record linked sent received : Prop := {
  ln_reads i g : goroutines received !! i = Some g -> remote g = alice ->
    reads_of received i `prefix_of` written_on sent bob (out i);
  ln_streams i j gi gj : goroutines received !! i = Some gi -> remote gi = alice ->
    goroutines received !! j = Some gj -> remote gj = alice -> out i = out j -> i = j;
  ln_identity k st msg : (k, Written st msg) ∈ events_to sent bob -> pb_From msg = Some (bytes_of_string alice)
}.

Lemma elem_of_written sent st m :
  m ∈ written_on sent bob st -> exists k, (k, Written st m) ∈ events_to sent bob.
Proof.
  unfold written_on. intros ([st' m'] & -> & [E Hin]%list_elem_of_filter)%list_elem_of_fmap. cbn in E. subst st'.
  apply list_elem_of_omap in Hin as ([k ev] & Hin & E). exists k. destruct ev; cbn in E; by simplify_eq.
Qed.

Lemma elem_of_events_to sent k ev :
  (k, ev) ∈ events_to sent bob <-> peer_of sent k = Some bob /\ (k, ev) ∈ trace sent.
Proof. unfold events_to. by rewrite list_elem_of_filter. Qed.

(** Two writes with one sequence number are one. *)
Lemma same_write dsA sent st st' a b m m' :
  run pb_Marshal SignPrefix dsA sent -> written_on sent bob st !! a = Some m -> written_on sent bob st' !! b = Some m' ->
  pb_Seqno m = pb_Seqno m' -> st = st' /\ a = b.
Proof.
  intros Hrun Ha Hb E. pose proof (writes_sorted pb_Marshal SignPrefix dsA sent bob Hrun) as Hs.
  assert (st = st') as <-.
  { apply list_elem_of_lookup_2, list_elem_of_fmap in Ha as ([st1 m1] & -> & [E1 Hin1]%list_elem_of_filter),
      Hb as ([st2 m2] & -> & [E2 Hin2]%list_elem_of_filter). cbn in *. subst st1 st2.
    apply list_elem_of_lookup in Hin1 as [x Hx], Hin2 as [y Hy].
    assert (x = y) as ->; [|congruence].
    destruct (lt_eq_lt_dec x y) as [[Hlt| ->]|Hlt]; [|done|].
    - exfalso. eapply precedes_ne; [|exact E]. eapply (StronglySorted_lookup _ _ x y); [exact Hs | done | by rewrite list_lookup_fmap, Hx | by rewrite list_lookup_fmap, Hy].
    - exfalso. eapply precedes_ne; [|symmetry; exact E]. eapply (StronglySorted_lookup _ _ y x); [exact Hs | done | by rewrite list_lookup_fmap, Hy | by rewrite list_lookup_fmap, Hx]. }
  split; [done|]. pose proof (StronglySorted_sublist _ _ _ (written_on_sublist sent bob st) Hs) as Hs'.
  destruct (lt_eq_lt_dec a b) as [[Hlt| ->]|Hlt]; [|done|].
  - exfalso. eapply precedes_ne; [|exact E]. by eapply (StronglySorted_lookup _ _ a b).
  - exfalso. eapply precedes_ne; [|symmetry; exact E]. by eapply (StronglySorted_lookup _ _ b a).
Qed.

(** What [bob] reads from [alice] is what she sent. *)
Lemma linked_honest dsA dsB sent received :
  run pb_Marshal SignPrefix dsA sent -> linked sent received ->
  (forall b sig, sv_Sign (signer dsA) b = Ok sig -> sv_Verify (signer dsB) b alice sig = None) ->
  honest pb_Marshal SignPrefix alice dsB received.
Proof.
  intros Hrun Hl Hsig. pose proof (contents_reach pb_Marshal SignPrefix dsA sent (run_reach _ _ _ _ Hrun)) as Hct.
  constructor.
  - intros i g m Hi Hr Hm. destruct (ln_reads _ _ Hl i g Hi Hr) as [l El].
    assert (m ∈ written_on sent bob (out i)) as Hw by (rewrite El; apply elem_of_app; by left).
    assert (len (get_bytes (pb_Seqno m)) = sequenceNumberSize) as Hlen.
    { by destruct (written_number pb_Marshal SignPrefix dsA sent bob (out i) m Hrun Hw) as [v ->]. }
    destruct (elem_of_written _ _ _ Hw) as [k Hk]. pose proof (ln_identity _ _ Hl _ _ _ Hk) as Ef.
    apply elem_of_events_to in Hk as [_ Hk].
    destruct (ct_written _ _ _ _ Hct k _ _ Hk) as (r & ph & _ & Et & _ & Ekey & c & b & sig & _ & Eb & Es & Esig).
    unfold authentic, well_addressed. rewrite Et, Ef, Ekey, Hlen. split_and!; [by eexists | done..|].
    unfold checkSig. case_match; [done|]. rewrite Eb, Ef, Esig.
    replace (string_of_bytes (get_bytes (Some (bytes_of_string alice)))) with alice by (symmetry; apply string_of_bytes_of_string).
    by apply Hsig.
  - intros i j gi gj a b m m' Hi Hgi Hj Hgj Hm Hm' E.
    destruct (ln_reads _ _ Hl i gi Hi Hgi) as [l El], (ln_reads _ _ Hl j gj Hj Hgj) as [l' El'].
    assert (written_on sent bob (out i) !! a = Some m) as Ha by (rewrite El; by apply lookup_app_l_Some).
    assert (written_on sent bob (out j) !! b = Some m') as Hb by (rewrite El'; by apply lookup_app_l_Some).
    destruct (same_write dsA sent (out i) (out j) a b m m') as [Eo ->]; [done..| |split; [by eapply (ln_streams _ _ Hl) | done]].
    destruct (written_number pb_Marshal SignPrefix dsA sent bob (out i) m Hrun) as [v Ev]; [by eapply list_elem_of_lookup_2|].
    destruct (written_number pb_Marshal SignPrefix dsA sent bob (out j) m' Hrun) as [w Ew]; [by eapply list_elem_of_lookup_2|].
    rewrite Ev, Ew in *. cbn in E. by f_equal.
Qed.

(** The two nodes after their steps. *)
Record delivery dsA dsB (now : Z) sent received : Prop := {
  dl_run : run pb_Marshal SignPrefix dsA sent;
  dl_cache : fresh_cache dsB;
  dl_reach : DirectReceives.reach pb_Marshal SignPrefix (DirectReceives.start dsB now) received;
  dl_prefix_free : prefix_free alice received;
  dl_linked : linked sent received;
  dl_signers b sig : sv_Sign (signer dsA) b = Ok sig -> sv_Verify (signer dsB) b alice sig = None
}.

Section Nodes.

Context dsA dsB (now : Z) sent received (D : delivery dsA dsB now sent received).

Lemma handed_complete : complete alice received.
Proof.
  destruct D as [Hrun Hf Hr Hp Hl Hsig]. eapply complete_reach; [exact Hf | exact Hr | | exact Hp]. by eapply linked_honest.
Qed.

Lemma handed_prefix i g : goroutines received !! i = Some g -> remote g = alice ->
  handed_of received i `prefix_of` written_on sent bob (out i).
Proof.
  intros Hi Hg. etrans; [|by eapply (ln_reads _ _ (dl_linked _ _ _ _ _ D))].
  rewrite <- (handed_complete i g Hi Hg). by apply prefix_app_r.
Qed.

Lemma handed_written i g a m : goroutines received !! i = Some g -> remote g = alice ->
  handed_of received i !! a = Some m -> written_on sent bob (out i) !! a = Some m.
Proof. intros Hi Hg Ha. destruct (handed_prefix i g Hi Hg) as [l ->]. by apply lookup_app_l_Some. Qed.

(** [m], handed over by goroutine [i] at position [a], is the message of call [k] for
    [r], and nothing else that was handed over is. *)
Definition message_of_call i (a : nat) m k r : Prop :=
  (exists ph, calls sent !! k = Some (r, ph)) /\ req_peer r = bob /\
  pb_Topic m = Some (req_topic r) /\ pb_Data m = Some (req_buff r) /\ pb_From m = Some (bytes_of_string alice) /\
  (k, Written (out i) m) ∈ trace sent /\
  forall j gj b st' m', goroutines received !! j = Some gj -> remote gj = alice ->
    handed_of received j !! b = Some m' -> (k, Written st' m') ∈ trace sent -> j = i /\ b = a.

Lemma handed_message i g a m : goroutines received !! i = Some g -> remote g = alice ->
  handed_of received i !! a = Some m -> exists k r, message_of_call i a m k r.
Proof.
  intros Hi Hg Ha. pose proof (handed_written i g a m Hi Hg Ha) as Hw. pose proof (dl_run _ _ _ _ _ D) as Hrun.
  destruct (elem_of_written sent (out i) m) as [k Hk]; [by eapply list_elem_of_lookup_2|].
  pose proof (ln_identity _ _ (dl_linked _ _ _ _ _ D) _ _ _ Hk) as Ef. apply elem_of_events_to in Hk as [Hpk Hk].
  destruct (ct_written _ _ _ _ (contents_reach pb_Marshal SignPrefix dsA sent (run_reach _ _ _ _ Hrun)) k _ _ Hk)
    as (r & ph & Hck & Et & Ed & _).
  assert (req_peer r = bob) as Hb by (unfold peer_of in Hpk; rewrite Hck in Hpk; by injection Hpk).
  exists k, r. unfold message_of_call. split_and!; [by exists ph | done..|]. intros j gj b st' m' Hj Hgj Hb' Hk'.
  destruct (one_write pb_Marshal SignPrefix dsA sent bob k (out i) m st' m' Hrun Hpk Hk Hk') as [-> ->].
  pose proof (handed_written j gj b m Hj Hgj Hb') as Hw'.
  destruct (same_write dsA sent (out i) (out j) a b m m Hrun Hw Hw' eq_refl) as [Eo <-].
  split; [|done]. by eapply (ln_streams _ _ (dl_linked _ _ _ _ _ D)).
Qed.

End Nodes.

(** [C6] Direct messages, end to end.  The sender's goroutines call [Send] in every
    interleaving, while its mutex holder has room and its counter does not wrap around;
    the receiver, whose cache was empty, reads the streams of [alice] and of any other
    peers in every interleaving.  Then every goroutine that serves [alice] has handed to
    the messenger all that it has read but the message it works on: a beginning of what
    was written on its stream, in the order of the sequence numbers.  Each message
    handed over carries the topic and the data of one call of [Send] for [bob], and no
    call's message is handed over twice, on this stream or another. *)
Theorem sent_and_handed dsA dsB now sent received i g :
  delivery dsA dsB now sent received -> goroutines received !! i = Some g -> remote g = alice ->
  handed_of received i ++ waiting (at_ g) = reads_of received i /\
  handed_of received i `prefix_of` written_on sent bob (out i) /\
  StronglySorted precedes (handed_of received i) /\
  forall a m, handed_of received i !! a = Some m -> exists k r, message_of_call sent received i a m k r.
Proof.
  intros D Hi Hg. pose proof (handed_prefix dsA dsB now sent received D i g Hi Hg) as Hpre.
  split_and!; [by eapply handed_complete | done | | intros a m; by eapply handed_message].
  eapply StronglySorted_sublist; [|exact (writes_sorted pb_Marshal SignPrefix dsA sent bob (dl_run _ _ _ _ _ D))].
  etrans; [|apply (written_on_sublist sent bob (out i))]. destruct Hpre as [l ->]. by apply sublist_inserts_r.
Qed.

End Delivery.

(** alice's two calls for bob of DirectSends; bob reads their messages while carol
    sends him one of alice's. *)
Module Witness.

#[local] Existing Instance DirectSender.Witness.echo_signer.
Abbreviation enc := DirectSender.Witness.enc.
Abbreviation ds0 := DirectSender.Witness.ds0.
Abbreviation open_stream := DirectSender.Witness.open_stream.
Abbreviation sent1 := DirectSends.Witness.s1.
Import DirectReceives.Witness.

Definition written1 : list pb_Message := written_on sent1 "bob" open_stream.

Definition reading1 : list action :=
  Open open_stream "alice" :: Open open_stream "carol" ::
  (written1 ≫= fun m => [Go 0 (to_read m); Go 1 (to_read m); Go 1 ReadEOF; Go 0 ReadEOF; Go 0 ReadEOF; Go 0 ReadEOF]).
Definition received1 : state0 := default (start ds0 5) (exec (start ds0 5) reading1).

Lemma written1_two : length written1 = 2%nat.
Proof. vm_compute. reflexivity. Qed.

Lemma received1_reach : DirectReceives.reach enc [] (start ds0 5) received1.
Proof.
  eapply exec_readers_reach; [apply DirectReceives.reach_start|]. unfold received1.
  destruct (exec (start ds0 5) reading1) eqn:E; [exact E | vm_compute in E; discriminate E].
Qed.

Lemma run1 : run enc [] ds0 sent1.
Proof.
  constructor; [vm_compute; discriminate | exact DirectSends.Witness.ds0_fresh | exact DirectSends.Witness.s1_reach
    | exact DirectSends.Witness.s1_room | vm_compute; reflexivity].
Qed.

Lemma received1_goroutines : goroutines received1 = [mkGoroutine open_stream "alice" Reading; mkGoroutine open_stream "carol" Reading].
Proof. vm_compute. reflexivity. Qed.

Lemma received1_alice i g : goroutines received1 !! i = Some g -> remote g = "alice" -> i = 0%nat.
Proof. rewrite received1_goroutines. destruct i as [|[|i]]; cbn; [done | by intros [= <-] | done]. Qed.

Lemma received1_prefix_free : prefix_free "alice" received1.
Proof.
  intros i g. rewrite received1_goroutines. destruct i as [|[|i]]; cbn; [by intros [= <-] | | done].
  intros [= <-] [l E]. discriminate E.
Qed.

Lemma linked1 : linked "alice" "bob" (fun _ => open_stream) sent1 received1.
Proof.
  constructor.
  - intros i g Hi Hr. rewrite (received1_alice i g Hi Hr). exists []. vm_compute. reflexivity.
  - intros i j gi gj Hi Hgi Hj Hgj _. by rewrite (received1_alice i gi), (received1_alice j gj).
  - assert (Forall (fun w => pb_From w.2 = Some (bytes_of_string "alice")) (writes (events_to sent1 "bob"))) as F.
    { vm_compute. repeat constructor. }
    intros k st msg Hin. rewrite Forall_forall in F. apply (F (st, msg)). apply list_elem_of_omap.
    by exists (k, Written st msg).
Qed.

Lemma delivery1 : delivery enc [] "alice" "bob" (fun _ => open_stream) ds0 ds0 5 sent1 received1.
Proof.
  constructor; [exact run1 | exact (fun k => lookup_empty k) | exact received1_reach | exact received1_prefix_free
    | exact linked1 | exact (fun b sig => DirectSender.Witness.echo_ok b sig _)].
Qed.

Lemma sent_and_handed_witness :
  handed_of received1 0 = written1 /\ handed_of received1 0 `prefix_of` written1 /\
  StronglySorted precedes (handed_of received1 0).
Proof.
  split; [vm_compute; reflexivity|].
  destruct (sent_and_handed enc [] "alice" "bob" (fun _ => open_stream) ds0 ds0 5 sent1 received1 0
    (mkGoroutine open_stream "alice" Reading) delivery1 ltac:(vm_compute; reflexivity) eq_refl) as (_ & P & Q & _).
  split; [exact P | exact Q].
Defined.

End Witness.
