(* ===== verification/MessageVerifier.v ===== *)
(** * MessageVerifier: checking, storing and reading back messages
      ([messageCheck/messageVerifier.go])

    The verifier rebuilds the pubsub message of a message to check its
    signature, and serialises lists of messages as a batch.  The protobuf codec
    of pubsub messages, the batch type of the core package and the signing prefix
    are parameters, with the documented laws of the codecs. *)

From S2P Require Import Prelude Errors Interfaces Wire TopicMessage Message DirectSender.
From Stdlib Require Import ZArith Lia String Strings.Byte.
From stdpp Require Import prelude list strings pretty.

Local Open Scope Z_scope.

(** The marshaller of the verifier also writes batches, lists of byte slices. *)
Class BatchMarshalizer (M : Type) : Type := {
  bm_Marshal : M -> list bytes -> result bytes;
  bm_Unmarshal : M -> bytes -> result (list bytes)
}.

(** A batch is read back; the empty slice is the empty batch. *)
Class BatchMarshalizerLaws (M : Type) `{BatchMarshalizer M} : Prop := {
  bm_Marshal_Unmarshal mz l b : bm_Marshal mz l = Ok b -> bm_Unmarshal mz b = Ok l;
  bm_Unmarshal_nil mz : bm_Unmarshal mz [] = Ok []
}.

Section MessageVerifier.

Context {M S : Type} `{Marshalizer M} `{BatchMarshalizer M} `{SignerVerifier S}.
Context (peer_IDFromBytes : bytes -> result PeerID).
Context (pb_Marshal : pb_Message -> result bytes) (pb_Unmarshal : bytes -> result pb_Message).
Context (SignPrefix : bytes).

Record ArgsMessageVerifier : Type := mkArgs { Marshaller : option M; P2PSigner : option S }.
Record messageVerifier : Type := mk { marshaller : M; p2pSigner : S }.

Implicit Types (v : messageVerifier) (msg : option Message).

Definition checkArgs (args : ArgsMessageVerifier) : option error :=
  match Marshaller args, P2PSigner args with
  | None, _ => Some (ErrSentinel ErrNilMarshalizer)
  | Some _, None => Some (ErrSentinel ErrNilP2PSigner)
  | Some _, Some _ => None
  end.

Definition NewMessageVerifier (args : ArgsMessageVerifier) : result messageVerifier :=
  match checkArgs args with
  | Some err => Err err
  | None =>
      match Marshaller args, P2PSigner args with
      | Some m, Some s => Ok (mk m s)
      | _, _ => Err ErrNilMarshalizer
      end
  end.

Definition convertP2PMessagetoPubSubMessage msg : result pb_Message :=
  match msg with
  | None => Err ErrNilMessage
  | Some msg =>
      Ok (mkPb (FromField msg) (PayloadField msg) (SeqNoField msg) (Some (TopicField msg))
               (SignatureField msg) (KeyField msg))
  end.

Definition preparePubSubMessagePayload msg : result bytes :=
  let? pubsubMsg := convertP2PMessagetoPubSubMessage msg in
  let xm := unsigned pubsubMsg in
  let? pubsubMsgBytes := pb_Marshal xm in
  Ok (withSignPrefix SignPrefix pubsubMsgBytes).

Definition Verify v msg : option error :=
  match msg with
  | None => Some (ErrSentinel ErrNilMessage)
  | Some m =>
      match preparePubSubMessagePayload msg with
      | Err err => Some err
      | Ok payload => sv_Verify (p2pSigner v) payload (PeerField m) (get_bytes (SignatureField m))
      end
  end.

Definition convertPubSubMessagestoP2PMessage (msg : option pb_Message) (marshaller : M) : result Message :=
  match msg with
  | None => Err ErrNilMessage
  | Some msg =>
      NewMessage peer_IDFromBytes
        (Some (mkPb (pb_From msg) (pb_Data msg) (pb_Seqno msg) (pb_Topic msg) (pb_Signature msg) (pb_Key msg)))
        (Some marshaller)
  end.

(** The loop of [Serialize]: nil messages are skipped, an encoding error stops. *)
Fixpoint serializeAll (messages : list (option Message)) : result (list bytes) :=
  match messages with
  | [] => Ok []
  | msg :: messages =>
      match convertP2PMessagetoPubSubMessage msg with
      | Err _ => serializeAll messages
      | Ok pubsubMsg =>
          let? pubsubMsgBytes := pb_Marshal pubsubMsg in
          let? rest := serializeAll messages in
          Ok (pubsubMsgBytes :: rest)
      end
  end.

Definition Serialize v (messages : list (option Message)) : result bytes :=
  let? pubsubMessages := serializeAll messages in
  match pubsubMessages with
  | [] => Ok []
  | _ => bm_Marshal (marshaller v) pubsubMessages
  end.

(** The loop of [Deserialize]: messages that do not convert are skipped, a
    decoding error stops. *)
Fixpoint deserializeAll v (pubsubMessagesBytes : list bytes) : result (list Message) :=
  match pubsubMessagesBytes with
  | [] => Ok []
  | pubsubMessageBytes :: l =>
      let? pubsubMsg := pb_Unmarshal pubsubMessageBytes in
      let? rest := deserializeAll v l in
      match convertPubSubMessagestoP2PMessage (Some pubsubMsg) (marshaller v) with
      | Err _ => Ok rest
      | Ok p2pMsg => Ok (p2pMsg :: rest)
      end
  end.

Definition Deserialize v (messagesBytes : bytes) : result (list Message) :=
  let? pubsubMessagesBytes := bm_Unmarshal (marshaller v) messagesBytes in
  deserializeAll v pubsubMessagesBytes.

End MessageVerifier.
Arguments messageVerifier : clear implicits.
Arguments mk {M S}.

Section Correctness.

Context {M S : Type} `{Marshalizer M} `{BatchMarshalizerLaws M} `{SignerVerifier S}.
Context (peer_IDFromBytes : bytes -> result PeerID).
Context (pb_Marshal : pb_Message -> result bytes) (pb_Unmarshal : bytes -> result pb_Message).
Context (SignPrefix : bytes).
(** The protobuf codec reads back what it wrote. *)
Context (pb_Marshal_Unmarshal : forall m b, pb_Marshal m = Ok b -> pb_Unmarshal b = Ok m).

Implicit Types (v : messageVerifier M S).

(** A message that [NewMessage] built from a pubsub message. *)
Definition received v (m : Message) : Prop :=
  exists pb, NewMessage peer_IDFromBytes (Some pb) (Some (marshaller v)) = Ok m.

Lemma convert_received v pb m :
  NewMessage peer_IDFromBytes (Some pb) (Some (marshaller v)) = Ok m ->
  convertP2PMessagetoPubSubMessage (Some m) = Ok pb.
Proof.
  intros (Et & _ & _ & E1 & E2 & E3 & E4 & E5)%NewMessage_Ok_inv.
  unfold convertP2PMessagetoPubSubMessage. rewrite E1, E2, E3, E4, E5, <- Et. by destruct pb.
Qed.

Lemma convert_back v m pb :
  received v m -> convertP2PMessagetoPubSubMessage (Some m) = Ok pb ->
  convertPubSubMessagestoP2PMessage peer_IDFromBytes (Some pb) (marshaller v) = Ok m.
Proof.
  intros [pb' E] Ec. rewrite (convert_received _ _ _ E) in Ec. injection Ec as ->.
  unfold convertPubSubMessagestoP2PMessage. by destruct pb.
Qed.

Lemma deserialize_serialized v messages l :
  (forall m, Some m ∈ messages -> received v m) ->
  serializeAll pb_Marshal messages = Ok l ->
  deserializeAll peer_IDFromBytes pb_Unmarshal v l = Ok (omap id messages).
Proof.
  revert l. induction messages as [|msg messages IH]; intros l Hr E; simpl in E.
  - by injection E as <-.
  - destruct msg as [m|]; [|apply IH; [set_solver | done]].
    destruct (convertP2PMessagetoPubSubMessage (Some m)) as [pb|] eqn:Ec; [|done].
    destruct (pb_Marshal pb) as [b|] eqn:Eb; [|done].
    destruct (serializeAll pb_Marshal messages) as [rest|] eqn:Er; [|done]. injection E as <-.
    cbn [deserializeAll omap list_omap id]. rewrite (pb_Marshal_Unmarshal _ _ Eb).
    rewrite (IH rest) by (done || set_solver).
    by rewrite (convert_back v m pb) by (done || (apply Hr; set_solver)).
Qed.

(** [C35] Storing messages.  A list of messages that were received is read back
    from its serialisation unchanged and in order; nil entries are dropped. *)
Theorem Deserialize_Serialize v messages b :
  (forall m, Some m ∈ messages -> received v m) ->
  Serialize pb_Marshal v messages = Ok b ->
  Deserialize peer_IDFromBytes pb_Unmarshal v b = Ok (omap id messages).
Proof.
  intros Hr. unfold Serialize, Deserialize.
  destruct (serializeAll pb_Marshal messages) as [l|] eqn:El; [|done].
  pose proof (deserialize_serialized v messages l Hr El) as P. destruct l as [|x l].
  - intros [= <-]. by rewrite bm_Unmarshal_nil.
  - intros E. by rewrite (bm_Marshal_Unmarshal _ _ _ E).
Qed.

(** [C36] End-to-end authenticity.  A message that a direct sender created and
    signed, once received through [NewMessage], is accepted by [Verify] when the
    verifier's signer accepts what the sender's signer signs for the identity of
    the message.  The signed bytes do not depend on the signature and the key. *)
Theorem Verify_direct_message {T C : Type} (ds ds' : directSender T C S) topic buff conn pb v m :
  (forall b sig, sv_Sign (signer ds) b = Ok sig -> sv_Verify (p2pSigner v) b (PeerField m) sig = None) ->
  createMessage pb_Marshal SignPrefix ds topic buff conn = (Ok pb, ds') ->
  NewMessage peer_IDFromBytes (Some pb) (Some (marshaller v)) = Ok m ->
  Verify pb_Marshal SignPrefix v (Some m) = None /\
  forall sig key, preparePubSubMessagePayload pb_Marshal SignPrefix
    (Some (mkMessage (FromField m) (DataField m) (PayloadField m) (SeqNoField m) (TopicField m)
             sig key (PeerField m) (TimestampField m))) =
    preparePubSubMessagePayload pb_Marshal SignPrefix (Some m).
Proof.
  intros Hsig Ec En. split; [|done].
  apply createMessage_Ok in Ec as (b & sig & Eb & Es & Epb & _).
  pose proof (convert_received _ _ _ En) as Econv.
  apply NewMessage_Ok_inv in En as (_ & _ & _ & _ & _ & _ & E4 & _).
  unfold Verify, preparePubSubMessagePayload. rewrite Econv, Eb, E4. rewrite Epb. simpl. by apply Hsig.
Qed.

End Correctness.

Module Witness.

(** A codec of pubsub messages for one message. *)
Definition topic_bytes : bytes := encode (plain [x61] 1700000000).
Definition pb0 : pb_Message :=
  mkPb (Some [x70]) (Some topic_bytes) (Some [x01]) (Some "blocks") (Some [x70]) None.
Definition pb_Marshal (m : pb_Message) : result bytes :=
  if decide (m = pb0) then Ok [x01] else if decide (m = unsigned pb0) then Ok [x02] else Err (ErrText "unknown").
Definition pb_Unmarshal (b : bytes) : result pb_Message :=
  if decide (b = [x01]) then Ok pb0 else if decide (b = [x02]) then Ok (unsigned pb0) else Err (ErrText "unknown").

Lemma pb_codec m b : pb_Marshal m = Ok b -> pb_Unmarshal b = Ok m.
Proof. unfold pb_Marshal. repeat case_decide; intros [= <-]; by subst. Qed.

(** A codec of batches of one message of one byte. *)
#[local] Instance batches : BatchMarshalizer unit := {
  bm_Marshal _ l := match l with [[x]] => Ok [x] | _ => Err (ErrText "one short message only") end;
  bm_Unmarshal _ b := match b with [] => Ok [] | _ => Ok [b] end
}.

#[local] Instance batches_laws : BatchMarshalizerLaws unit.
Proof.
  constructor; [|done]. intros mz l b. simpl.
  destruct l as [|[|x [|]] [|]]; try done. by intros [= <-].
Qed.

#[local] Instance echo_signer : SignerVerifier unit := {
  sv_Sign _ b := Ok b;
  sv_Verify _ b _ sig := if decide (sig = b) then None else Some (ErrText "bad signature")
}.

Definition ids (b : bytes) : result PeerID := Ok (string_of_bytes b).
Definition v0 : messageVerifier unit unit := mk tt tt.
Definition m0 : Message :=
  mkMessage (Some [x70]) [x61] (Some topic_bytes) (Some [x01]) "blocks" (Some [x70]) None "p" 1700000000.

Lemma m0_received : received ids v0 m0.
Proof. exists pb0. vm_compute. reflexivity. Qed.

Lemma Deserialize_Serialize_witness :
  Serialize pb_Marshal v0 [None; Some m0] = Ok [x01] /\
  Deserialize ids pb_Unmarshal v0 [x01] = Ok [m0].
Proof.
  split; [vm_compute; reflexivity|].
  refine (Deserialize_Serialize ids pb_Marshal pb_Unmarshal pb_codec v0 [None; Some m0] [x01] _ _).
  - intros m Hin. assert (m = m0) as -> by set_solver. exact m0_received.
  - vm_compute. reflexivity.
Defined.

(** A message sent by the direct sender of [DirectSender.Witness]. *)
Definition enc := DirectSender.Witness.enc.
Definition pb1 : pb_Message :=
  mkPb (Some (bytes_of_string "alice")) (Some topic_bytes) (Some (PutUint64 42)) (Some "blocks")
       (Some (bytes_of_string "alice" ++ topic_bytes ++ PutUint64 42)) None.
Definition m1 : Message :=
  mkMessage (pb_From pb1) [x61] (pb_Data pb1) (pb_Seqno pb1) "blocks" (pb_Signature pb1) None "alice" 1700000000.

Lemma echo_verifies b sig p : sv_Sign tt b = Ok sig -> sv_Verify tt b p sig = None.
Proof. intros E. simpl in E. injection E as ->. simpl. by rewrite decide_True. Qed.

Lemma Verify_direct_message_witness : Verify enc [] v0 (Some m1) = None.
Proof.
  refine (proj1 (Verify_direct_message ids enc [] DirectSender.Witness.ds0 _ "blocks" topic_bytes
    DirectSender.Witness.conn1 pb1 v0 m1 (fun b sig => echo_verifies b sig _) _ _));
    vm_compute; reflexivity.
Defined.

End Witness.
