(* ===== verification/Distances.v ===== *)
(** * Distances: distances between peers and sorting by distance
      ([libp2p/networksharding/listsSharder.go], [libp2p/networksharding/sorting])

    The identifier of a peer is hashed to a buffer by the parameter
    [kbucket.ConvertPeerID]; two distances on the buffers are defined, the number
    of different bits and the position of the first different bit.  Go's
    [sort.Sort] may order equal elements in any way: it is a class whose law is
    that the result is a sorted permutation. *)

From S2P Require Import Prelude Errors Interfaces Wire.
From Stdlib Require Import ZArith Lia String Strings.Byte.
From stdpp Require Import prelude list strings sorting.

Local Open Scope Z_scope.

(** ** Sorting *)

(** [sort.Sort] of a slice whose [Less] compares the distances. *)
Class SortSort : Type := {
  sort_Sort {A} (distance : A -> Z) : list A -> list A;
  sort_perm {A} (distance : A -> Z) l : sort_Sort distance l ≡ₚ l;
  sort_sorted {A} (distance : A -> Z) l :
    StronglySorted (fun a b => distance a <= distance b) (sort_Sort distance l)
}.

Definition by_distance {A} (distance : A -> Z) : relation A := fun a b => distance a <= distance b.
#[export] Instance by_distance_dec {A} (distance : A -> Z) : RelDecision (by_distance distance).
Proof. intros a b. unfold by_distance. apply _. Defined.
#[export] Instance by_distance_trans {A} (distance : A -> Z) : Transitive (by_distance distance).
Proof. intros a b c. unfold by_distance. lia. Qed.
#[export] Instance by_distance_total {A} (distance : A -> Z) : Total (by_distance distance).
Proof. intros a b. unfold by_distance. lia. Qed.

(** Merge sort is one such sort. *)
#[export] Instance merge_SortSort : SortSort.
Proof.
  refine {| sort_Sort A distance l := merge_sort (by_distance distance) l |}.
  - intros. apply merge_sort_Permutation.
  - intros. apply (StronglySorted_merge_sort (by_distance distance)).
Defined.

Record PeerDistance : Type := mkPeerDistance { ID : PeerID; Distance : Z }.

Module SortedList.

(** [sorting.SortedList]: the peers and the reference they are compared with. *)
Record SortedID : Type := mkSortedID { ID : PeerID; Key : bytes; Shard : Z; Distance : Z }.
Record SortedList : Type := mk { Ref : SortedID; Peers : list SortedID }.

Definition Less (sl : SortedList) (i j : nat) : outcome bool :=
  match Peers sl !! i, Peers sl !! j with
  | Some a, Some b => Ret (Distance a <? Distance b)
  | _, _ => Panic
  end.

Definition Swap (sl : SortedList) (i j : nat) : outcome SortedList :=
  match Peers sl !! i, Peers sl !! j with
  | Some a, Some b => Ret (mk (Ref sl) (<[i := b]> (<[j := a]> (Peers sl))))
  | _, _ => Panic
  end.

(** The receiver is sorted in place. *)
Definition SortedPeers `{SortSort} (sl : SortedList) : list PeerID * SortedList :=
  let sl := mk (Ref sl) (sort_Sort Distance (Peers sl)) in (ID <$> Peers sl, sl).

End SortedList.

(** ** Counting bits *)

(** [bits.OnesCount8]. *)
Definition OnesCount8 (x : Z) : Z :=
  foldr (fun i n => Z.b2z (Z.testbit x i) + n) 0 [0; 1; 2; 3; 4; 5; 6; 7].

Definition xor_bytes (a b : byte) : Z := Z.lxor (b2z a) (b2z b).

Definition leadingZerosCount : list Z :=
  [8; 7; 6; 6] ++ replicate 4 5 ++ replicate 8 4 ++ replicate 16 3 ++
  replicate 32 2 ++ replicate 64 1 ++ replicate 128 0.

Section Distance.

(** [kbucket.ConvertPeerID] gives buffers of one length (it is a hash). *)
Context (ConvertPeerID : PeerID -> bytes).

Fixpoint countBits (srcBuff destBuff : bytes) : Z :=
  match srcBuff, destBuff with
  | a :: srcBuff, b :: destBuff => OnesCount8 (xor_bytes a b) + countBits srcBuff destBuff
  | _, _ => 0
  end.

Definition computeDistanceByCountingBits (src dest : PeerID) : Z :=
  countBits (ConvertPeerID src) (ConvertPeerID dest).

(** The loop that adds up the leading zeros until the first different byte. *)
Fixpoint leadingZeros (srcBuff destBuff : bytes) : Z :=
  match srcBuff, destBuff with
  | a :: srcBuff, b :: destBuff =>
      let result := xor_bytes a b in
      default 0 (leadingZerosCount !! Z.to_nat result) +
      (if negb (result =? 0) then 0 else leadingZeros srcBuff destBuff)
  | _, _ => 0
  end.

Definition computeDistanceLog2Based (src dest : PeerID) : Z :=
  let srcBuff := ConvertPeerID src in
  let destBuff := ConvertPeerID dest in
  len srcBuff * 8 - leadingZeros srcBuff destBuff.

End Distance.

(** ** The bit count is a metric *)

Lemma OnesCount8_unfold x :
  OnesCount8 x = Z.b2z (Z.testbit x 0) + (Z.b2z (Z.testbit x 1) + (Z.b2z (Z.testbit x 2) +
    (Z.b2z (Z.testbit x 3) + (Z.b2z (Z.testbit x 4) + (Z.b2z (Z.testbit x 5) +
    (Z.b2z (Z.testbit x 6) + (Z.b2z (Z.testbit x 7) + 0))))))).
Proof. reflexivity. Qed.

Lemma OnesCount8_range x : 0 <= OnesCount8 x <= 8.
Proof.
  rewrite OnesCount8_unfold.
  assert (forall i, 0 <= Z.b2z (Z.testbit x i) <= 1) as P by (intros i; destruct (Z.testbit x i); simpl; lia).
  pose proof (P 0); pose proof (P 1); pose proof (P 2); pose proof (P 3).
  pose proof (P 4); pose proof (P 5); pose proof (P 6); pose proof (P 7). lia.
Qed.

Lemma b2z_xorb_triangle a b c : Z.b2z (xorb a c) <= Z.b2z (xorb a b) + Z.b2z (xorb b c).
Proof. by destruct a, b, c. Qed.

Lemma OnesCount8_triangle a b c :
  OnesCount8 (xor_bytes a c) <= OnesCount8 (xor_bytes a b) + OnesCount8 (xor_bytes b c).
Proof.
  rewrite !OnesCount8_unfold. unfold xor_bytes. rewrite !Z.lxor_spec.
  pose proof (fun i => b2z_xorb_triangle (Z.testbit (b2z a) i) (Z.testbit (b2z b) i) (Z.testbit (b2z c) i)) as P.
  pose proof (P 0); pose proof (P 1); pose proof (P 2); pose proof (P 3).
  pose proof (P 4); pose proof (P 5); pose proof (P 6); pose proof (P 7). lia.
Qed.

Lemma xor_bytes_comm a b : xor_bytes a b = xor_bytes b a.
Proof. apply Z.lxor_comm. Qed.

Lemma xor_bytes_range a b : 0 <= xor_bytes a b < 256.
Proof.
  unfold xor_bytes. pose proof (b2z_range a). pose proof (b2z_range b).
  assert (0 <= Z.lxor (b2z a) (b2z b)) by (apply Z.lxor_nonneg; lia). split; [done|].
  destruct (Z.eq_dec (Z.lxor (b2z a) (b2z b)) 0) as [->|]; [lia|].
  change 256 with (2 ^ 8). apply Z.log2_lt_pow2; [lia|].
  pose proof (Z.log2_lxor (b2z a) (b2z b) ltac:(lia) ltac:(lia)).
  assert (forall x, 0 <= x < 256 -> Z.log2 x < 8) as L.
  { intros x Hx. destruct (Z.eq_dec x 0) as [->|]; [done|]. apply Z.log2_lt_pow2; lia. }
  pose proof (L (b2z a) ltac:(lia)). pose proof (L (b2z b) ltac:(lia)). lia.
Qed.

Lemma xor_bytes_0 a b : xor_bytes a b = 0 <-> a = b.
Proof.
  unfold xor_bytes. rewrite Z.lxor_eq_0_iff. split; [apply b2z_inj | by intros ->].
Qed.

(** Checks of a property of all bytes by computation. *)
Definition all_bytes (P : Z -> bool) : bool := forallb P (seqZ 0 256).

Lemma all_bytes_spec P x : all_bytes P = true -> 0 <= x < 256 -> P x = true.
Proof.
  unfold all_bytes. rewrite forallb_forall. intros HP Hx. apply HP.
  rewrite <- list_elem_of_In, elem_of_seqZ. lia.
Qed.

Definition OnesCount8_0_ok (x : Z) : bool := negb (OnesCount8 x =? 0) || (x =? 0).

Lemma OnesCount8_0_all : all_bytes OnesCount8_0_ok = true.
Proof. vm_compute. reflexivity. Qed.

Lemma OnesCount8_0 x : 0 <= x < 256 -> OnesCount8 x = 0 -> x = 0.
Proof.
  intros Hx E. pose proof (all_bytes_spec OnesCount8_0_ok x OnesCount8_0_all Hx) as P.
  unfold OnesCount8_0_ok in P. rewrite E in P. by apply Z.eqb_eq.
Qed.

Lemma countBits_range a b : 0 <= countBits a b <= 8 * len a.
Proof.
  revert b. induction a as [|x a IH]; intros [|y b]; simpl; try lia.
  pose proof (OnesCount8_range (xor_bytes x y)). specialize (IH b). lia.
Qed.

(** The distance between peers counts the bits in which their buffers differ:
    it is a metric on the buffers, bounded by their length in bits. *)
Theorem countBits_metric a b c :
  length a = length b -> length b = length c ->
  0 <= countBits a b <= 8 * len a /\
  (countBits a b = 0 <-> a = b) /\
  countBits a b = countBits b a /\
  countBits a c <= countBits a b + countBits b c.
Proof.
  intros Hab Hbc. split; [apply countBits_range|].
  revert b c Hab Hbc. induction a as [|x a IH]; intros [|y b] [|z c] Hab Hbc; try done.
  simpl in Hab, Hbc. destruct (IH b c) as (E & S & T); [lia.. |]. cbn [countBits].
  pose proof (OnesCount8_range (xor_bytes x y)). pose proof (countBits_range a b). split_and!.
  - split.
    + intros Hz. assert (xor_bytes x y = 0) as X0%xor_bytes_0
        by (apply OnesCount8_0; [apply xor_bytes_range | lia]). subst. f_equal. apply E. lia.
    + intros [= -> ->]. rewrite (proj2 (xor_bytes_0 y y)) by done.
      change (OnesCount8 0) with 0. by rewrite (proj2 E).
  - by rewrite xor_bytes_comm, S.
  - pose proof (OnesCount8_triangle x y z). lia.
Qed.

(** ** The position of the first different bit *)

(** The buffers as one big-endian integer each: [xor_value] is their exclusive or. *)
Fixpoint xor_value (a b : bytes) : Z :=
  match a, b with
  | x :: a, y :: b => xor_bytes x y * 2 ^ (8 * len a) + xor_value a b
  | _, _ => 0
  end.

(** The number of bits of an integer. *)
Definition bit_length (x : Z) : Z := if x =? 0 then 0 else Z.log2 x + 1.

Lemma xor_value_range a b : length a = length b -> 0 <= xor_value a b < 2 ^ (8 * len a).
Proof.
  revert b. induction a as [|x a IH]; intros [|y b] L; try done. cbn [xor_value length].
  simpl in L. specialize (IH b ltac:(lia)). pose proof (xor_bytes_range x y).
  replace (8 * Z.of_nat (S (length a))) with (8 + 8 * len a) by lia.
  rewrite Z.pow_add_r by lia. change (2 ^ 8) with 256. nia.
Qed.

Definition leadingZerosCount_ok (x : Z) : bool :=
  default 0 (leadingZerosCount !! Z.to_nat x) =? 8 - bit_length x.

Lemma leadingZerosCount_all : all_bytes leadingZerosCount_ok = true.
Proof. vm_compute. reflexivity. Qed.

Lemma leadingZerosCount_spec x :
  0 <= x < 256 -> default 0 (leadingZerosCount !! Z.to_nat x) = 8 - bit_length x.
Proof. intros Hx. by apply Z.eqb_eq, (all_bytes_spec leadingZerosCount_ok x leadingZerosCount_all Hx). Qed.

Lemma bit_length_head x n r :
  0 < x -> 0 <= n -> 0 <= r < 2 ^ n -> bit_length (x * 2 ^ n + r) = bit_length x + n.
Proof.
  intros Hx Hn Hr. assert (0 < 2 ^ n) by (apply Z.pow_pos_nonneg; lia).
  unfold bit_length. rewrite !(proj2 (Z.eqb_neq _ 0)) by nia.
  destruct (Z.log2_spec x Hx) as [L1 L2]. pose proof (Z.log2_nonneg x).
  assert (Z.log2 (x * 2 ^ n + r) = Z.log2 x + n) as ->; [|lia].
  apply Z.log2_unique; [lia|]. rewrite <- Z.add_succ_l, !Z.pow_add_r by lia.
  change (Z.succ (Z.log2 x)) with (Z.log2 x + 1) in *. rewrite Z.pow_add_r in * by lia. nia.
Qed.

(** [C29] The log2 distance, computed with the table of leading zeros byte by byte,
    is the bit length of the exclusive or of the two buffers read as big-endian
    integers (Kademlia's bucket index). *)
Theorem computeDistanceLog2Based_bit_length ConvertPeerID src dest :
  length (ConvertPeerID src) = length (ConvertPeerID dest) ->
  computeDistanceLog2Based ConvertPeerID src dest =
    bit_length (xor_value (ConvertPeerID src) (ConvertPeerID dest)).
Proof.
  unfold computeDistanceLog2Based.
  generalize (ConvertPeerID src) as a, (ConvertPeerID dest) as b.
  intros a. induction a as [|x a IH]; intros [|y b] L; try done. cbn [leadingZeros xor_value length].
  simpl in L. specialize (IH b ltac:(lia)). pose proof (xor_bytes_range x y) as Hr.
  rewrite leadingZerosCount_spec by done.
  destruct (Z.eqb_spec (xor_bytes x y) 0) as [E|E]; simpl negb; cbv iota.
  - rewrite E, Z.mul_0_l, Z.add_0_l, <- IH. unfold bit_length. simpl. lia.
  - rewrite bit_length_head; [lia | lia | lia |]. apply xor_value_range. lia.
Qed.

Module Witness.

Definition conv (p : PeerID) : bytes := if decide (p = "a") then [x00; x05; xff] else [x00; x01; x00].

Lemma computeDistanceLog2Based_bit_length_witness : computeDistanceLog2Based conv "a" "b" = 11.
Proof. exact (computeDistanceLog2Based_bit_length conv "a" "b" eq_refl). Defined.

Lemma countBits_metric_witness :
  countBits [x00; x05] [x00; x01] = countBits [x00; x01] [x00; x05].
Proof. exact (proj1 (proj2 (proj2 (countBits_metric [x00; x05] [x00; x01] [xff; x00] eq_refl eq_refl)))). Defined.

End Witness.
