(* ===== verification/Sharding.v ===== *)
(** * Sharding: the sharders, which choose the connections to evict
      ([libp2p/networksharding], [libp2p/networksharding/factory])

    The lists sharder splits the connected peers into classes, keeps in each
    class as many as its bound allows, the spare places of a class being passed
    to the next, and evicts the peers farthest from the own identifier.  The one
    list sharder has one class, the nil sharder evicts nobody.  The preferred
    peers holder is shared with other components: a call takes its current
    answers. *)

From S2P Require Import Prelude Errors Config Interfaces Wire Distances.
From Stdlib Require Import ZArith Lia String Strings.Byte.
From stdpp Require Import prelude gmap list strings sorting pretty.

Local Open Scope Z_scope.

Definition minAllowedConnectedPeersListSharder : Z := 5.
Definition minAllowedValidators : Z := 1.
Definition minAllowedObservers : Z := 1.
Definition minUnknownPeers : Z := 1.
Definition minAllowedConnectedPeersOneSharder : Z := 3.

(** The classes of peers, the keys of the map of [splitPeerIds]. *)
Definition intraShardValidators : Z := 0.
Definition intraShardObservers : Z := 10.
Definition crossShardValidators : Z := 20.
Definition crossShardObservers : Z := 30.
Definition seeders : Z := 40.
Definition unknown : Z := 50.
Definition fullHistoryObservers : Z := 60.

(** ** Functions on lists of peers *)

Definition computeUsedAndSpare (existing maximum : Z) : Z * Z :=
  if existing <? maximum then (existing, maximum - existing) else (maximum, 0).

Definition has (pid : PeerID) (list : list PeerID) : bool :=
  existsb (fun p => bool_decide (p = pid)) list.

Section Evict.

Context `{SortSort}.

Definition evict (distances : list PeerDistance) (numKeep : Z) : list PeerID :=
  let numKeep := if numKeep <? 0 then 0 else numKeep in
  if numKeep >=? len distances then []
  else
    let distances := sort_Sort Distance distances in
    ID <$> drop (Z.to_nat numKeep) distances.

End Evict.

(** ** The lists sharder *)

Section ListsSharder.

Context `{SortSort} (ConvertPeerID : PeerID -> bytes) (Pretty : PeerID -> string).

(** The preferred peers holder is a reference. *)
Record ArgListsSharder : Type := mkArgListsSharder {
  PeerResolver : option PeerShardResolver;
  SelfPeerId : PeerID;
  arg_P2pConfig : P2PConfig;
  PreferredPeersHolder : option unit;
  NodeOperationMode : string
}.

Record peersConnections : Type := mkPeersConnections {
  pc_maxPeerCount : Z;
  pc_intraShardValidators : Z;
  pc_crossShardValidators : Z;
  pc_intraShardObservers : Z;
  pc_crossShardObservers : Z;
  pc_seeders : Z;
  pc_fullHistoryObservers : Z;
  pc_unknown : Z
}.

Record listsSharder : Type := mkListsSharder {
  peerShardResolver : PeerShardResolver;
  selfPeerId : PeerID;
  maxPeerCount : Z;
  maxIntraShardValidators : Z;
  maxCrossShardValidators : Z;
  maxIntraShardObservers : Z;
  maxCrossShardObservers : Z;
  maxSeeders : Z;
  maxFullHistoryObservers : Z;
  maxUnknown : Z;
  ls_seeders : list string;
  computeDistance : PeerID -> PeerID -> Z
}.

(** The conversions from [uint32] to [int] keep the value. *)
Definition processNumConnections (arg : ArgListsSharder) : result peersConnections :=
  let s := Sharding (arg_P2pConfig arg) in
  let fullArchive := bool_decide (NodeOperationMode arg = FullArchiveMode) in
  let fullHistory := if fullArchive then MaxFullHistoryObservers (AdditionalConnections s) else 0 in
  let maxPeers := TargetPeerCount s + fullHistory in
  let providedPeers := MaxIntraShardValidators s + MaxCrossShardValidators s +
    MaxIntraShardObservers s + MaxCrossShardObservers s + MaxSeeders s + fullHistory in
  if providedPeers + minUnknownPeers >? maxPeers then
    Err (ErrWrap ErrInvalidValue
           (", maxValidators + maxObservers + seeders + full archive nodes should be less than " +:+ pretty maxPeers))
  else
    Ok (mkPeersConnections maxPeers (MaxIntraShardValidators s) (MaxCrossShardValidators s)
          (MaxIntraShardObservers s) (MaxCrossShardObservers s) (MaxSeeders s) fullHistory
          (maxPeers - providedPeers)).

Definition below_minimum (field : string) (minimum : Z) : error :=
  ErrWrap ErrInvalidValue (", " +:+ field +:+ " should be at least " +:+ pretty minimum).

Definition NewListsSharder (arg : ArgListsSharder) : result listsSharder :=
  let s := Sharding (arg_P2pConfig arg) in
  match PeerResolver arg with
  | None => Err ErrNilPeerShardResolver
  | Some resolver =>
      if TargetPeerCount s <? minAllowedConnectedPeersListSharder then
        Err (below_minimum "maxPeerCount" minAllowedConnectedPeersListSharder)
      else if MaxIntraShardValidators s <? minAllowedValidators then
        Err (below_minimum "maxIntraShardValidators" minAllowedValidators)
      else if MaxCrossShardValidators s <? minAllowedValidators then
        Err (below_minimum "maxCrossShardValidators" minAllowedValidators)
      else if MaxIntraShardObservers s <? minAllowedObservers then
        Err (below_minimum "maxIntraShardObservers" minAllowedObservers)
      else if MaxCrossShardObservers s <? minAllowedObservers then
        Err (below_minimum "maxCrossShardObservers" minAllowedObservers)
      else match PreferredPeersHolder arg with
      | None => Err (ErrWrap ErrNilPreferredPeersHolder " while creating a new listsShared")
      | Some _ =>
          let? peersConn := processNumConnections arg in
          Ok (mkListsSharder resolver (SelfPeerId arg) (pc_maxPeerCount peersConn)
                (pc_intraShardValidators peersConn) (pc_crossShardValidators peersConn)
                (pc_intraShardObservers peersConn) (pc_crossShardObservers peersConn)
                (pc_seeders peersConn) (pc_fullHistoryObservers peersConn) (pc_unknown peersConn)
                [] (computeDistanceByCountingBits ConvertPeerID))
      end
  end.

Implicit Types (ls : listsSharder) (preferred : PeerID -> bool).

Definition IsSeeder ls (pid : PeerID) : bool :=
  let strPretty := Pretty pid in
  existsb (fun seeder => strings_Contains seeder strPretty) (ls_seeders ls).

Definition SetSeeders ls (addresses : list string) : listsSharder :=
  mkListsSharder (peerShardResolver ls) (selfPeerId ls) (maxPeerCount ls)
    (maxIntraShardValidators ls) (maxCrossShardValidators ls) (maxIntraShardObservers ls)
    (maxCrossShardObservers ls) (maxSeeders ls) (maxFullHistoryObservers ls) (maxUnknown ls)
    addresses (computeDistance ls).

Definition SetPeerShardResolver ls (psp : option PeerShardResolver) : option error * listsSharder :=
  match psp with
  | None => (Some (ErrSentinel ErrNilPeerShardResolver), ls)
  | Some psp =>
      (None, mkListsSharder psp (selfPeerId ls) (maxPeerCount ls)
        (maxIntraShardValidators ls) (maxCrossShardValidators ls) (maxIntraShardObservers ls)
        (maxCrossShardObservers ls) (maxSeeders ls) (maxFullHistoryObservers ls) (maxUnknown ls)
        (ls_seeders ls) (computeDistance ls))
  end.

Definition Has ls (pid : PeerID) (list : list PeerID) : bool := has pid list.

(** The lists of the map of [splitPeerIds]; a missing key reads as an empty list. *)
Abbreviation distance_lists := (gmap Z (list PeerDistance)).
Definition slice (m : distance_lists) (c : Z) : list PeerDistance := default [] (m !! c).
Definition append_to (m : distance_lists) (c : Z) (pd : PeerDistance) : distance_lists :=
  <[c := slice m c ++ [pd]]> m.

(** One round of the loop of [splitPeerIds]. *)
Definition splitPeerId ls preferred (selfPeerInfo : P2PPeerInfo) (m : distance_lists) (p : PeerID) :
    distance_lists :=
  let pd := mkPeerDistance p (computeDistance ls p (selfPeerId ls)) in
  if IsSeeder ls p then append_to m seeders pd
  else
    let peerInfo := peerShardResolver ls p in
    if preferred p then m
    else if decide (PeerType peerInfo = UnknownPeer) then append_to m unknown pd
    else if negb (ShardID peerInfo =? ShardID selfPeerInfo) then
      match PeerType peerInfo with
      | ValidatorPeer => append_to m crossShardValidators pd
      | ObserverPeer => append_to m crossShardObservers pd
      | _ => m
      end
    else
      match PeerType peerInfo with
      | ValidatorPeer => append_to m intraShardValidators pd
      | ObserverPeer =>
          if bool_decide (PeerSubType peerInfo = FullHistoryObserver) && (maxFullHistoryObservers ls >? 0)
          then append_to m fullHistoryObservers pd
          else append_to m intraShardObservers pd
      | _ => m
      end.

Definition splitPeerIds ls preferred (peers : list PeerID) : distance_lists :=
  let selfPeerInfo := peerShardResolver ls (selfPeerId ls) in
  fold_left (splitPeerId ls preferred selfPeerInfo) peers ∅.

Definition ComputeEvictionList ls preferred (pidList : list PeerID) : list PeerID :=
  let peerDistances := splitPeerIds ls preferred pidList in
  let existing c := len (slice peerDistances c) in
  let '(numIntraShardValidators, remaining) :=
    computeUsedAndSpare (existing intraShardValidators) (maxIntraShardValidators ls) in
  let '(numCrossShardValidators, remaining) :=
    computeUsedAndSpare (existing crossShardValidators) (maxCrossShardValidators ls + remaining) in
  let '(numIntraShardObservers, remaining) :=
    computeUsedAndSpare (existing intraShardObservers) (maxIntraShardObservers ls + remaining) in
  let '(numCrossShardObservers, remaining) :=
    computeUsedAndSpare (existing crossShardObservers) (maxCrossShardObservers ls + remaining) in
  let '(numSeeders, _) := computeUsedAndSpare (existing seeders) (maxSeeders ls) in
  let '(numFullHistoryObservers, _) :=
    computeUsedAndSpare (existing fullHistoryObservers) (maxFullHistoryObservers ls) in
  let '(numUnknown, _) := computeUsedAndSpare (existing unknown) (maxUnknown ls + remaining) in
  evict (slice peerDistances intraShardValidators) numIntraShardValidators ++
  evict (slice peerDistances crossShardValidators) numCrossShardValidators ++
  evict (slice peerDistances intraShardObservers) numIntraShardObservers ++
  evict (slice peerDistances crossShardObservers) numCrossShardObservers ++
  evict (slice peerDistances seeders) numSeeders ++
  evict (slice peerDistances fullHistoryObservers) numFullHistoryObservers ++
  evict (slice peerDistances unknown) numUnknown.

(** ** The one list sharder and the nil sharder *)

Record oneListSharder : Type := mkOneListSharder {
  ols_selfPeerId : PeerID;
  ols_maxPeerCount : Z;
  ols_computeDistance : PeerID -> PeerID -> Z
}.

Definition NewOneListSharder (self : PeerID) (maxPeers : Z) : result oneListSharder :=
  if maxPeers <? minAllowedConnectedPeersOneSharder then
    Err (below_minimum "maxPeerCount" minAllowedConnectedPeersOneSharder)
  else Ok (mkOneListSharder self maxPeers (computeDistanceByCountingBits ConvertPeerID)).

Definition convertList (ols : oneListSharder) (peers : list PeerID) : list PeerDistance :=
  (fun p => mkPeerDistance p (ols_computeDistance ols p (ols_selfPeerId ols))) <$> peers.

Definition ols_ComputeEvictionList (ols : oneListSharder) (pidList : list PeerID) : list PeerID :=
  evict (convertList ols pidList) (ols_maxPeerCount ols).

(** ** The sharder interface and its factory *)

Inductive sharder : Type :=
| ListsShr (ls : listsSharder)
| OneListShr (ols : oneListSharder)
| NilListShr.

Definition shr_ComputeEvictionList (s : sharder) preferred (pidList : list PeerID) : list PeerID :=
  match s with
  | ListsShr ls => ComputeEvictionList ls preferred pidList
  | OneListShr ols => ols_ComputeEvictionList ols pidList
  | NilListShr => []
  end.

Definition shr_Has (s : sharder) (pid : PeerID) (list : list PeerID) : bool :=
  match s with
  | ListsShr _ | OneListShr _ => has pid list
  | NilListShr => false
  end.

Definition shr_IsSeeder (s : sharder) (pid : PeerID) : bool :=
  match s with ListsShr ls => IsSeeder ls pid | _ => false end.

Definition shr_SetSeeders (s : sharder) (addresses : list string) : sharder :=
  match s with ListsShr ls => ListsShr (SetSeeders ls addresses) | _ => s end.

Definition shr_SetPeerShardResolver (s : sharder) (psp : option PeerShardResolver) : option error * sharder :=
  match s with
  | ListsShr ls => let '(err, l) := SetPeerShardResolver ls psp in (err, ListsShr l)
  | _ => (None, s)
  end.

(** [listSharder] of the factory. *)
Definition factory_listSharder (arg : ArgListsSharder) : result sharder :=
  if bool_decide (NodeOperationMode arg = NormalOperation) || bool_decide (NodeOperationMode arg = FullArchiveMode)
  then let? s := NewListsSharder arg in Ok (ListsShr s)
  else Err (ErrWrap ErrInvalidValue (" unknown node operation mode " +:+ NodeOperationMode arg)).

Definition factory_oneListSharder (arg : ArgListsSharder) : result sharder :=
  let? ols := NewOneListSharder (SelfPeerId arg) (TargetPeerCount (Sharding (arg_P2pConfig arg))) in
  Ok (OneListShr ols).

Definition factory_nilListSharder : result sharder := Ok NilListShr.

Definition NewSharder (arg : ArgListsSharder) : result sharder :=
  let shardingType := sharding_Type (Sharding (arg_P2pConfig arg)) in
  if decide (shardingType = ListsSharder) then factory_listSharder arg
  else if decide (shardingType = OneListSharder) then factory_oneListSharder arg
  else if decide (shardingType = NilListSharder) then factory_nilListSharder
  else Err (ErrWrap ErrInvalidValue (" when selecting sharder: unknown " +:+ shardingType +:+ " value")).

End ListsSharder.

(** ** Eviction of one class *)

Section Lemmas.

Context `{SortSort}.

(** The peers [evict] keeps and the peers it evicts. *)
Definition kept (l : list PeerDistance) (k : Z) : list PeerDistance :=
  if k >=? len l then l else take (Z.to_nat k) (sort_Sort Distance l).
Definition evicted (l : list PeerDistance) (k : Z) : list PeerDistance :=
  if k >=? len l then [] else drop (Z.to_nat k) (sort_Sort Distance l).

Lemma evict_evicted l k : 0 <= k -> evict l k = ID <$> evicted l k.
Proof.
  intros Hk. unfold evict, evicted. rewrite (proj2 (Z.ltb_ge _ _)) by done. by destruct (k >=? len l).
Qed.

Lemma kept_evicted l k : l ≡ₚ kept l k ++ evicted l k.
Proof.
  unfold kept, evicted. destruct (k >=? len l); [by rewrite app_nil_r|].
  by rewrite take_drop, sort_perm.
Qed.

Lemma length_kept l k : 0 <= k -> len (kept l k) = Z.min k (len l).
Proof.
  intros Hk. unfold kept. rewrite Z.geb_leb. destruct (Z.leb_spec (len l) k); [lia|].
  rewrite length_take, sort_perm. lia.
Qed.

Lemma StronglySorted_app_le {A} (f : A -> Z) l1 l2 a b :
  StronglySorted (fun x y => f x <= f y) (l1 ++ l2) -> a ∈ l1 -> b ∈ l2 -> f a <= f b.
Proof.
  induction l1 as [|x l1 IH]; [set_solver|]. simpl. intros [S F]%StronglySorted_inv Ha Hb.
  apply elem_of_cons in Ha as [->|Ha]; [|by apply IH].
  rewrite Forall_forall in F. apply F. rewrite elem_of_app. by right.
Qed.

Lemma kept_closer l k a b : a ∈ kept l k -> b ∈ evicted l k -> Distance a <= Distance b.
Proof.
  unfold kept, evicted. destruct (k >=? len l); [set_solver|].
  apply StronglySorted_app_le. rewrite take_drop. apply sort_sorted.
Qed.

Lemma computeUsedAndSpare_spec existing maximum :
  0 <= existing ->
  (computeUsedAndSpare existing maximum).1 = Z.min existing maximum /\
  (computeUsedAndSpare existing maximum).2 = Z.max 0 (maximum - existing).
Proof. intros. unfold computeUsedAndSpare. destruct (Z.ltb_spec existing maximum); simpl; lia. Qed.

End Lemmas.

(** ** The classes *)

Section Classes.

Context `{SortSort} (Pretty : PeerID -> string).
Implicit Types (ls : listsSharder) (preferred : PeerID -> bool).

Definition classes : list Z :=
  [intraShardValidators; crossShardValidators; intraShardObservers; crossShardObservers;
   seeders; fullHistoryObservers; unknown].

(** The class of a peer; preferred peers that are not seeders have none. *)
Definition class_of ls preferred (p : PeerID) : option Z :=
  let self := peerShardResolver ls (selfPeerId ls) in
  let info := peerShardResolver ls p in
  if IsSeeder Pretty ls p then Some seeders
  else if preferred p then None
  else match PeerType info with
  | UnknownPeer => Some unknown
  | ValidatorPeer => Some (if ShardID info =? ShardID self then intraShardValidators else crossShardValidators)
  | ObserverPeer =>
      Some (if negb (ShardID info =? ShardID self) then crossShardObservers
            else if bool_decide (PeerSubType info = FullHistoryObserver) && (maxFullHistoryObservers ls >? 0)
            then fullHistoryObservers else intraShardObservers)
  | OtherPeerType => None
  end.

Lemma class_of_classes ls preferred p c : class_of ls preferred p = Some c -> c ∈ classes.
Proof. unfold class_of, classes. intros. repeat case_match; simplify_eq; set_solver. Qed.

Definition measured ls (p : PeerID) : PeerDistance := mkPeerDistance p (computeDistance ls p (selfPeerId ls)).

Lemma slice_append_to m c pd c' :
  slice (append_to m c pd) c' = slice m c' ++ (if decide (c = c') then [pd] else []).
Proof.
  unfold slice, append_to. destruct (decide (c = c')) as [->|Hne]; simplify_map_eq; [done|].
  by rewrite app_nil_r.
Qed.

Lemma splitPeerId_class ls preferred m p :
  splitPeerId Pretty ls preferred (peerShardResolver ls (selfPeerId ls)) m p =
    match class_of ls preferred p with Some c => append_to m c (measured ls p) | None => m end.
Proof.
  unfold splitPeerId, class_of, measured. destruct (IsSeeder Pretty ls p); [done|].
  destruct (preferred p); [done|].
  destruct (PeerType (peerShardResolver ls p)); simpl; try done;
    destruct (ShardID _ =? ShardID _); simpl; try done. by destruct (_ && _).
Qed.

Lemma slice_splitPeerIds ls preferred peers c :
  slice (splitPeerIds Pretty ls preferred peers) c =
    measured ls <$> filter (fun p => class_of ls preferred p = Some c) peers.
Proof.
  unfold splitPeerIds. cbn zeta.
  assert (forall m, slice (fold_left (splitPeerId Pretty ls preferred (peerShardResolver ls (selfPeerId ls))) peers m) c =
    slice m c ++ (measured ls <$> filter (fun p => class_of ls preferred p = Some c) peers)) as P; [|apply P].
  induction peers as [|p peers IH]; intros m; cbn [fold_left]; [by rewrite app_nil_r|].
  rewrite IH, splitPeerId_class, filter_cons.
  destruct (class_of ls preferred p) as [c'|] eqn:E; [|by rewrite decide_False].
  rewrite slice_append_to. destruct (decide (c' = c)) as [->|Hne].
  - rewrite decide_True by done. by rewrite <- app_assoc.
  - rewrite decide_False by congruence. by rewrite app_nil_r.
Qed.

(** The places of each class: what it may keep of what exists. *)
Definition places ls (existing : Z -> Z) (c : Z) : Z :=
  let spare0 := Z.max 0 (maxIntraShardValidators ls - existing intraShardValidators) in
  let cap1 := maxCrossShardValidators ls + spare0 in
  let spare1 := Z.max 0 (cap1 - existing crossShardValidators) in
  let cap2 := maxIntraShardObservers ls + spare1 in
  let spare2 := Z.max 0 (cap2 - existing intraShardObservers) in
  let cap3 := maxCrossShardObservers ls + spare2 in
  let spare3 := Z.max 0 (cap3 - existing crossShardObservers) in
  if c =? intraShardValidators then Z.min (existing c) (maxIntraShardValidators ls)
  else if c =? crossShardValidators then Z.min (existing c) cap1
  else if c =? intraShardObservers then Z.min (existing c) cap2
  else if c =? crossShardObservers then Z.min (existing c) cap3
  else if c =? seeders then Z.min (existing c) (maxSeeders ls)
  else if c =? fullHistoryObservers then Z.min (existing c) (maxFullHistoryObservers ls)
  else Z.min (existing c) (maxUnknown ls + spare3).

(** The own bound of each class. *)
Definition bound ls (c : Z) : Z :=
  if c =? intraShardValidators then maxIntraShardValidators ls
  else if c =? crossShardValidators then maxCrossShardValidators ls
  else if c =? intraShardObservers then maxIntraShardObservers ls
  else if c =? crossShardObservers then maxCrossShardObservers ls
  else if c =? seeders then maxSeeders ls
  else if c =? fullHistoryObservers then maxFullHistoryObservers ls
  else maxUnknown ls.

Definition zsum (f : Z -> Z) (cs : list Z) : Z := foldr (fun c n => f c + n) 0 cs.

(** The bounds of the classes are the parts of the maximum number of peers. *)
Record sized ls : Prop := {
  sized_bound c : c ∈ classes -> 0 <= bound ls c;
  sized_total : zsum (bound ls) classes = maxPeerCount ls
}.

Lemma ComputeEvictionList_places ls preferred peers :
  sized ls ->
  let m := splitPeerIds Pretty ls preferred peers in
  let f := places ls (fun c => len (slice m c)) in
  ComputeEvictionList Pretty ls preferred peers =
    concat ((fun c => ID <$> evicted (slice m c) (f c)) <$> classes).
Proof.
  intros Hs m f.
  assert (forall c, c ∈ classes -> 0 <= f c) as Hf.
  { intros c Hc. pose proof (fun c => sized_bound _ Hs c) as B. unfold classes in Hc, B. unfold bound in B.
    pose proof (B intraShardValidators ltac:(set_solver)). pose proof (B crossShardValidators ltac:(set_solver)).
    pose proof (B intraShardObservers ltac:(set_solver)). pose proof (B crossShardObservers ltac:(set_solver)).
    pose proof (B seeders ltac:(set_solver)). pose proof (B fullHistoryObservers ltac:(set_solver)).
    pose proof (B unknown ltac:(set_solver)). simpl in *. unfold f, places. repeat case_match; lia. }
  unfold ComputeEvictionList. fold m. cbn zeta.
  repeat match goal with |- context [computeUsedAndSpare ?e ?x] =>
    let P1 := fresh in let P2 := fresh in
    destruct (computeUsedAndSpare_spec e x ltac:(lia)) as [P1 P2];
    destruct (computeUsedAndSpare e x) as [? ?]; cbn [fst snd] in P1, P2; subst end.
  change (evict (slice m intraShardValidators) _) with (evict (slice m intraShardValidators) (f intraShardValidators)).
  change (evict (slice m crossShardValidators) _) with (evict (slice m crossShardValidators) (f crossShardValidators)).
  change (evict (slice m intraShardObservers) _) with (evict (slice m intraShardObservers) (f intraShardObservers)).
  change (evict (slice m crossShardObservers) _) with (evict (slice m crossShardObservers) (f crossShardObservers)).
  change (evict (slice m seeders) _) with (evict (slice m seeders) (f seeders)).
  change (evict (slice m fullHistoryObservers) _) with (evict (slice m fullHistoryObservers) (f fullHistoryObservers)).
  change (evict (slice m unknown) _) with (evict (slice m unknown) (f unknown)).
  rewrite !evict_evicted by (apply Hf; unfold classes; set_solver).
  cbn [fmap list_fmap classes concat]. by rewrite app_nil_r.
Qed.

Lemma concat_filter_cons {A} (g : A -> option Z) x l c cs :
  g x = Some c -> NoDup cs -> c ∈ cs ->
  concat ((fun c => filter (fun y => g y = Some c) (x :: l)) <$> cs) ≡ₚ
  x :: concat ((fun c => filter (fun y => g y = Some c) l) <$> cs).
Proof.
  intros Hx. induction cs as [|c' cs IH]; intros Hnd Hin; [set_solver|].
  apply NoDup_cons in Hnd as [Hc' Hnd]. cbn [fmap list_fmap concat]. rewrite filter_cons.
  apply elem_of_cons in Hin as [<-|Hin].
  - rewrite decide_True by done. simpl. f_equiv. f_equiv.
    assert ((fun c => filter (fun y => g y = Some c) (x :: l)) <$> cs =
            (fun c => filter (fun y => g y = Some c) l) <$> cs) as ->; [|done].
    apply list_fmap_ext. intros i c' Hi. rewrite filter_cons_False; [done|].
    intros E. apply Hc'. assert (c = c') as -> by congruence. by eapply list_elem_of_lookup_2.
  - assert (c ≠ c') by (intros ->; done). rewrite decide_False by congruence.
    rewrite IH by done. by rewrite Permutation_middle.
Qed.

Lemma concat_filter_none {A} (g : A -> option Z) x l cs :
  g x = None ->
  concat ((fun c => filter (fun y => g y = Some c) (x :: l)) <$> cs) =
  concat ((fun c => filter (fun y => g y = Some c) l) <$> cs).
Proof.
  intros Hx. f_equal. apply list_fmap_ext. intros i c _. rewrite filter_cons_False; [done | congruence].
Qed.

(** Splitting by class loses only the peers without a class. *)
Lemma concat_filter_classes {A} (g : A -> option Z) l cs :
  NoDup cs -> (forall x c, g x = Some c -> c ∈ cs) ->
  filter (fun x => is_Some (g x)) l ≡ₚ concat ((fun c => filter (fun y => g y = Some c) l) <$> cs).
Proof.
  intros Hnd Hcov. induction l as [|x l IH].
  - simpl. assert (concat ((fun c => filter (fun y => g y = Some c) (@nil A)) <$> cs) = []) as ->; [|done].
    clear Hnd Hcov. by induction cs.
  - rewrite filter_cons. destruct (g x) as [c|] eqn:E.
    + rewrite decide_True by (by eexists). rewrite (concat_filter_cons g x l c) by eauto. by rewrite IH.
    + rewrite decide_False by (by intros [? ?]). by rewrite concat_filter_none.
Qed.

Lemma concat_app_permutation {A B} (f g h : A -> list B) l :
  (forall x, x ∈ l -> f x ≡ₚ g x ++ h x) -> concat (f <$> l) ≡ₚ concat (g <$> l) ++ concat (h <$> l).
Proof.
  induction l as [|x l IH]; intros Hp; [done|]. cbn [fmap list_fmap concat].
  rewrite (Hp x) by set_solver. rewrite IH by set_solver. solve_Permutation.
Qed.

Lemma NoDup_classes : NoDup classes.
Proof. apply (bool_decide_unpack (NoDup classes)). vm_compute. exact I. Qed.

Lemma places_total ls existing :
  sized ls -> (forall c, 0 <= existing c) ->
  zsum (places ls existing) classes <= maxPeerCount ls.
Proof.
  intros [B T] He. pose proof (fun c => He c) as E. unfold classes in *. simpl in T |- *.
  pose proof (B intraShardValidators ltac:(set_solver)) as B0. pose proof (B crossShardValidators ltac:(set_solver)) as B1.
  pose proof (B intraShardObservers ltac:(set_solver)) as B2. pose proof (B crossShardObservers ltac:(set_solver)) as B3.
  pose proof (B seeders ltac:(set_solver)) as B4. pose proof (B fullHistoryObservers ltac:(set_solver)) as B5.
  pose proof (B unknown ltac:(set_solver)) as B6. clear B.
  pose proof (E intraShardValidators); pose proof (E crossShardValidators); pose proof (E intraShardObservers);
  pose proof (E crossShardObservers); pose proof (E seeders); pose proof (E fullHistoryObservers);
  pose proof (E unknown). clear E He.
  unfold bound, places in *. simpl in *.
  repeat match goal with |- context [existing ?c] => generalize dependent (existing c); intros end. lia.
Qed.

Lemma places_bound ls existing c :
  c ∈ classes -> 0 <= existing c -> Z.min (existing c) (bound ls c) <= places ls existing c <= existing c.
Proof.
  intros Hc He. unfold classes in Hc. unfold places, bound.
  repeat (apply elem_of_cons in Hc as [->|Hc]; [simpl; lia|]). set_solver.
Qed.

(** The peers that stay connected. *)
Definition keptPeers ls preferred (peers : list PeerID) : list PeerID :=
  let m := splitPeerIds Pretty ls preferred peers in
  concat ((fun c => ID <$> kept (slice m c) (places ls (fun c => len (slice m c)) c)) <$> classes).

Lemma kept_evicted_peers ls preferred peers :
  sized ls ->
  filter (fun p => is_Some (class_of ls preferred p)) peers ≡ₚ
    keptPeers ls preferred peers ++ ComputeEvictionList Pretty ls preferred peers.
Proof.
  intros Hs. rewrite ComputeEvictionList_places by done. unfold keptPeers. cbn zeta.
  set (m := splitPeerIds Pretty ls preferred peers).
  rewrite <- (concat_app_permutation (fun c => ID <$> slice m c)).
  - rewrite (concat_filter_classes (class_of ls preferred) peers classes);
      [| apply NoDup_classes | intros x c; apply class_of_classes].
    erewrite list_fmap_ext; [done|]. intros i c _. unfold m. rewrite slice_splitPeerIds, <- list_fmap_compose.
    symmetry. apply list_fmap_id.
  - intros c _. rewrite <- fmap_app. apply fmap_Permutation, kept_evicted.
Qed.

Lemma kept_class ls preferred peers c pd k :
  pd ∈ kept (slice (splitPeerIds Pretty ls preferred peers) c) k \/
  pd ∈ evicted (slice (splitPeerIds Pretty ls preferred peers) c) k ->
  class_of ls preferred (ID pd) = Some c /\ Distance pd = computeDistance ls (ID pd) (selfPeerId ls).
Proof.
  intros Hpd. assert (pd ∈ slice (splitPeerIds Pretty ls preferred peers) c) as Hin.
  { rewrite (kept_evicted (slice _ _) k), elem_of_app. done. }
  rewrite slice_splitPeerIds in Hin. apply list_elem_of_fmap in Hin as (p & -> & [Hc _]%list_elem_of_filter). done.
Qed.

Lemma filter_concat_class {A} (g : A -> option Z) (h : Z -> list A) cs c :
  NoDup cs -> (forall c x, x ∈ h c -> g x = Some c) ->
  filter (fun x => g x = Some c) (concat (h <$> cs)) = if decide (c ∈ cs) then h c else [].
Proof.
  intros Hnd Hh. induction cs as [|c' cs IH].
  - done.
  - apply NoDup_cons in Hnd as [Hc' Hnd]. cbn [fmap list_fmap concat]. rewrite filter_app, IH by done.
    destruct (decide (c = c')) as [->|Hne].
    + rewrite (decide_True (P := c' ∈ c' :: cs)), decide_False by set_solver. rewrite app_nil_r.
      apply filter_all_true. intros x Hx. by apply Hh.
    + rewrite (filter_all_false _ (h c')).
      2: { intros x Hx E. apply Hh in Hx. congruence. }
      simpl. destruct (decide (c ∈ cs)); [rewrite decide_True by set_solver | rewrite decide_False by set_solver]; done.
Qed.

Lemma keptPeers_class ls preferred peers c :
  c ∈ classes ->
  let m := splitPeerIds Pretty ls preferred peers in
  filter (fun p => class_of ls preferred p = Some c) (keptPeers ls preferred peers) =
    ID <$> kept (slice m c) (places ls (fun c => len (slice m c)) c).
Proof.
  intros Hc m. unfold keptPeers. fold m. rewrite (filter_concat_class (class_of ls preferred)).
  - by rewrite decide_True.
  - apply NoDup_classes.
  - intros c' p (pd & -> & Hpd)%list_elem_of_fmap. eapply kept_class. left. exact Hpd.
Qed.

Lemma length_keptPeers ls preferred peers :
  sized ls -> len (keptPeers ls preferred peers) <= maxPeerCount ls.
Proof.
  intros Hs. set (m := splitPeerIds Pretty ls preferred peers).
  set (f := places ls (fun c => len (slice m c))).
  assert (zsum f classes <= maxPeerCount ls) as Ht by (apply places_total; [done | intros; lia]).
  assert (forall cs, (forall c, c ∈ cs -> c ∈ classes) ->
    len (concat ((fun c => ID <$> kept (slice m c) (f c)) <$> cs)) = zsum f cs) as P.
  { induction cs as [|c cs IH]; intros Hin; [done|]. cbn [fmap list_fmap concat zsum foldr].
    rewrite length_app, Nat2Z.inj_add, IH, length_fmap by set_solver. f_equal.
    pose proof (places_bound ls (fun c => len (slice m c)) c ltac:(set_solver) (Nat2Z.is_nonneg _)) as Hp.
    pose proof (sized_bound _ Hs c ltac:(set_solver)) as Hb. fold f in Hp. cbv beta in Hp.
    rewrite length_kept; lia. }
  unfold keptPeers. fold m f. rewrite P; done.
Qed.

Lemma length_class ls preferred peers c :
  len (slice (splitPeerIds Pretty ls preferred peers) c) =
  len (filter (fun p => class_of ls preferred p = Some c) peers).
Proof. by rewrite slice_splitPeerIds, length_fmap. Qed.

Lemma keptPeers_class_bound ls preferred peers c :
  sized ls -> c = seeders \/ c = fullHistoryObservers ->
  len (filter (fun p => class_of ls preferred p = Some c) (keptPeers ls preferred peers)) <= bound ls c.
Proof.
  intros Hs Hc. assert (c ∈ classes) as Hin by (unfold classes; destruct Hc as [-> | ->]; set_solver).
  rewrite keptPeers_class, length_fmap by done. pose proof (sized_bound _ Hs c Hin).
  rewrite length_kept.
  - destruct Hc as [-> | ->]; unfold places, bound; simpl; lia.
  - destruct Hc as [-> | ->]; unfold places, bound in *; simpl in *; lia.
Qed.

(** [C16] Bounds of the eviction.  The peers that have a class (all of them except
    preferred peers that are not seeders, and peers of an unnamed type) are split
    into those that stay and those that are evicted, without loss or
    duplication; at most [maxPeerCount] stay, and of every class as many as exist
    or as its own bound allows: a class is never cut below its bound, and the
    seeders and full history observers never exceed theirs. *)
Theorem eviction_bounds ls preferred peers :
  sized ls -> exists stay,
    filter (fun p => is_Some (class_of ls preferred p)) peers ≡ₚ
      stay ++ ComputeEvictionList Pretty ls preferred peers /\
    len stay <= maxPeerCount ls /\
    (forall c, c ∈ classes ->
       Z.min (len (filter (fun p => class_of ls preferred p = Some c) peers)) (bound ls c) <=
       len (filter (fun p => class_of ls preferred p = Some c) stay)) /\
    (forall c, c = seeders \/ c = fullHistoryObservers ->
       len (filter (fun p => class_of ls preferred p = Some c) stay) <= bound ls c).
Proof.
  intros Hs. exists (keptPeers ls preferred peers). split_and!.
  - by apply kept_evicted_peers.
  - by apply length_keptPeers.
  - intros c Hc. rewrite keptPeers_class, length_fmap, <- length_class by done.
    pose proof (places_bound ls (fun c => len (slice (splitPeerIds Pretty ls preferred peers) c)) c Hc (Nat2Z.is_nonneg _)).
    pose proof (sized_bound _ Hs c Hc). rewrite length_kept; simpl in *; lia.
  - intros c Hc. by apply keptPeers_class_bound.
Qed.

(** [C31] Choice of the evicted peers.  Every peer that the sharder evicts is connected,
    is a seeder if it is preferred (so no preferred peer that is not a seeder is
    evicted), and belongs to a class in which no peer that stays is farther from
    the own identifier. *)
Theorem eviction_order ls preferred peers b :
  sized ls -> b ∈ ComputeEvictionList Pretty ls preferred peers ->
  b ∈ peers /\ (preferred b = true -> IsSeeder Pretty ls b = true) /\
  exists c, class_of ls preferred b = Some c /\
    forall a, a ∈ peers -> class_of ls preferred a = Some c -> a ∉ ComputeEvictionList Pretty ls preferred peers ->
      computeDistance ls a (selfPeerId ls) <= computeDistance ls b (selfPeerId ls).
Proof.
  intros Hs Hb. pose proof (kept_evicted_peers ls preferred peers Hs) as P.
  assert (b ∈ filter (fun p => is_Some (class_of ls preferred p)) peers) as [[c Cb] Hbp]%list_elem_of_filter
    by (rewrite P, elem_of_app; by right).
  split_and!; [done| |exists c; split; [done|]].
  { intros Hp. unfold class_of in Cb. destruct (IsSeeder Pretty ls b); [done|]. by rewrite Hp in Cb. }
  intros a Ha Ca Hna. assert (a ∈ keptPeers ls preferred peers) as Hk.
  { assert (a ∈ filter (fun p => is_Some (class_of ls preferred p)) peers) as Hf
      by (apply list_elem_of_filter; split; [by eexists | done]).
    rewrite P, elem_of_app in Hf. tauto. }
  assert (c ∈ classes) as Hc by (by eapply class_of_classes).
  assert (a ∈ filter (fun p => class_of ls preferred p = Some c) (keptPeers ls preferred peers)) as Hk'
    by (by apply list_elem_of_filter).
  rewrite keptPeers_class in Hk' by done. apply list_elem_of_fmap in Hk' as (pa & -> & Hpa).
  rewrite ComputeEvictionList_places in Hb by done. apply list_elem_of_In, in_concat in Hb as (l & Hl & Hbl).
  rewrite <- list_elem_of_In in Hl. rewrite <- list_elem_of_In in Hbl. apply list_elem_of_fmap in Hl as (c' & -> & Hc').
  apply list_elem_of_fmap in Hbl as (pb & -> & Hpb).
  destruct (kept_class ls preferred peers c' pb _ (or_intror Hpb)) as [Cb' Db].
  assert (c' = c) as -> by congruence.
  destruct (kept_class ls preferred peers c pa _ (or_introl Hpa)) as [_ Da].
  rewrite <- Da, <- Db. by eapply kept_closer.
Qed.

Context (ConvertPeerID : PeerID -> bytes).

(** The unsigned fields of the configuration. *)
Definition config_ok (arg : ArgListsSharder) : Prop :=
  let s := Sharding (arg_P2pConfig arg) in
  0 <= MaxSeeders s /\ 0 <= MaxFullHistoryObservers (AdditionalConnections s).

Lemma sized_setters ls addresses psp :
  sized ls -> sized (SetSeeders ls addresses) /\ sized (SetPeerShardResolver ls psp).2.
Proof. intros [B T]. split; [by constructor|]. destruct psp; by constructor. Qed.

(** Construction.  A lists sharder is built only from bounds that leave room
    for at least one unknown peer: its class bounds are not negative and add up
    to [maxPeerCount], the configured target, raised by the full history
    observers in full archive mode and only there.  Setting the seeders or the
    resolver keeps the bounds. *)
Theorem NewListsSharder_sized arg ls addresses psp :
  config_ok arg -> NewListsSharder ConvertPeerID arg = Ok ls ->
  sized ls /\ 1 <= maxUnknown ls /\
  maxPeerCount ls = TargetPeerCount (Sharding (arg_P2pConfig arg)) +
    (if decide (NodeOperationMode arg = FullArchiveMode)
     then MaxFullHistoryObservers (AdditionalConnections (Sharding (arg_P2pConfig arg))) else 0) /\
  sized (SetSeeders ls addresses) /\ sized (SetPeerShardResolver ls psp).2.
Proof.
  intros [Hsd Hfh] E. unfold NewListsSharder in E.
  destruct (PeerResolver arg) as [resolver|]; [|done].
  repeat (match type of E with (if ?a <? ?b then _ else _) = _ => destruct (Z.ltb_spec a b); [done|] end).
  destruct (PreferredPeersHolder arg); [|done].
  unfold processNumConnections in E.
  set (s := Sharding (arg_P2pConfig arg)) in *.
  destruct (bool_decide_reflect (NodeOperationMode arg = FullArchiveMode)) as [Hm|Hm];
    [rewrite decide_True by done | rewrite decide_False by done];
    rewrite Z.gtb_ltb in E;
    match type of E with context [?a <? ?b] => destruct (Z.ltb_spec a b) as [|Hroom]; [done|] end;
    injection E as <-; cbn [maxUnknown maxPeerCount pc_unknown pc_maxPeerCount];
    unfold minUnknownPeers, minAllowedValidators, minAllowedObservers in *.
  all: match goal with |- sized ?l /\ _ => assert (sized l) as Hs end.
  1,3: constructor; [|unfold zsum, classes, bound; simpl; lia];
    intros c Hc; unfold classes in Hc; unfold bound;
    repeat (apply elem_of_cons in Hc as [->|Hc]; [simpl; lia|]); set_solver.
  all: pose proof (sized_setters _ addresses psp Hs) as [? ?]; split_and!; done || lia.
Qed.

(** The one list sharder.  Its eviction list splits the peers into those that
    stay, at most [maxPeerCount], and those evicted, none of which is closer to the
    own identifier than one that stays.  The nil sharder evicts nobody. *)
Theorem oneListSharder_eviction self maxPeers ols peers :
  NewOneListSharder ConvertPeerID self maxPeers = Ok ols -> exists stay,
    peers ≡ₚ stay ++ ols_ComputeEvictionList ols peers /\
    len stay = Z.min maxPeers (len peers) /\
    (forall a b, a ∈ stay -> b ∈ ols_ComputeEvictionList ols peers ->
       computeDistanceByCountingBits ConvertPeerID a self <= computeDistanceByCountingBits ConvertPeerID b self) /\
    forall preferred, shr_ComputeEvictionList Pretty NilListShr preferred peers = [].
Proof.
  unfold NewOneListSharder. destruct (Z.ltb_spec maxPeers minAllowedConnectedPeersOneSharder) as [|Hm]; [done|].
  unfold minAllowedConnectedPeersOneSharder in Hm. intros [= <-].
  set (d p := computeDistanceByCountingBits ConvertPeerID p self).
  set (l := (fun p => mkPeerDistance p (d p)) <$> peers).
  assert (ols_ComputeEvictionList (mkOneListSharder self maxPeers (computeDistanceByCountingBits ConvertPeerID)) peers =
    ID <$> evicted l maxPeers) as -> by (by apply evict_evicted; lia).
  assert (forall pd k, pd ∈ kept l k \/ pd ∈ evicted l k -> Distance pd = d (ID pd)) as Hd.
  { intros pd k Hin. assert (pd ∈ l) as (p & -> & _)%list_elem_of_fmap; [|done].
    by rewrite (kept_evicted l k), elem_of_app. }
  exists (ID <$> kept l maxPeers). split_and!; [| | |done].
  - rewrite <- fmap_app, <- kept_evicted. unfold l. rewrite <- list_fmap_compose.
    by rewrite list_fmap_id.
  - rewrite length_fmap, length_kept by lia. unfold l. by rewrite length_fmap.
  - intros a b (pa & -> & Hpa)%list_elem_of_fmap (pb & -> & Hpb)%list_elem_of_fmap.
    fold (d (ID pa)). fold (d (ID pb)).
    rewrite <- (Hd pa maxPeers), <- (Hd pb maxPeers) by auto. by eapply kept_closer.
Qed.

End Classes.

Module Witness.

Definition conv (p : PeerID) : bytes := bytes_of_string p.
Definition resolver : PeerShardResolver := fun p =>
  if decide (p = "self") then mkP2PPeerInfo ValidatorPeer RegularPeer 1
  else if decide (p = "val1" \/ p = "val2") then mkP2PPeerInfo ValidatorPeer RegularPeer 1
  else mkP2PPeerInfo UnknownPeer RegularPeer 0.

Definition cfg : P2PConfig :=
  mkP2PConfig
    (mkNodeConfig "0" 0 0 0 (mkTransportConfig (mkTCPProtocolConfig "" false) "" "" ""))
    (mkKadDhtPeerDiscoveryConfig false "" 0 "" [] 0 0)
    (mkShardingConfig 6 1 1 1 1 1 ListsSharder (mkAdditionalConnectionsConfig 2)).
Definition arg : ArgListsSharder :=
  mkArgListsSharder (Some resolver) "self" cfg (Some tt) NormalOperation.
Definition ls0 : listsSharder :=
  mkListsSharder resolver "self" 6 1 1 1 1 1 0 1 [] (computeDistanceByCountingBits conv).

Lemma NewListsSharder_sized_witness : sized ls0 /\ maxPeerCount ls0 = 6.
Proof.
  destruct (NewListsSharder_sized conv arg ls0 [] None ltac:(split; simpl; lia) eq_refl) as (P & _ & Q & _).
  split; [exact P | exact Q].
Defined.

Lemma ls0_sized : sized ls0.
Proof.
  constructor; [|reflexivity]. intros c Hc. unfold classes in Hc. unfold bound.
  repeat (apply elem_of_cons in Hc as [->|Hc]; [simpl; lia|]). set_solver.
Qed.

(** Four validators of the own shard for one place, with five more spare places
    that go to the other classes of the chain, and two unknown peers. *)
Definition peers : list PeerID := ["val1"; "val2"; "unkn1"; "unkn2"].

Lemma eviction_bounds_witness : exists stay,
  filter (fun p => is_Some (class_of id ls0 (fun _ => false) p)) peers ≡ₚ
    stay ++ ComputeEvictionList id ls0 (fun _ => false) peers /\ len stay <= 6.
Proof.
  destruct (eviction_bounds id ls0 (fun _ => false) peers ls0_sized) as (stay & P & Q & _).
  exists stay. split; [exact P | exact Q].
Defined.

Example evicted_example : ComputeEvictionList id ls0 (fun _ => false) peers = ["val1"].
Proof. vm_compute. reflexivity. Qed.

Lemma eviction_order_witness :
  computeDistanceByCountingBits conv "val2" "self" <= computeDistanceByCountingBits conv "val1" "self".
Proof.
  destruct (eviction_order id ls0 (fun _ => false) peers "val1" ls0_sized) as (_ & _ & c & Hc & Hle).
  - rewrite evicted_example. set_solver.
  - apply (Hle "val2"); [unfold peers; set_solver | rewrite <- Hc; reflexivity | rewrite evicted_example; set_solver].
Defined.

Definition ols0 : oneListSharder := mkOneListSharder "self" 3 (computeDistanceByCountingBits conv).

Lemma oneListSharder_eviction_witness : exists stay,
  peers ≡ₚ stay ++ ols_ComputeEvictionList ols0 peers /\ len stay = 3.
Proof.
  destruct (oneListSharder_eviction id conv "self" 3 ols0 peers eq_refl) as (stay & P & Q & _).
  exists stay. split; [exact P | exact Q].
Defined.

End Witness.
