(* ===== verification/Watcher.v ===== *)
(** * Watcher: connection metrics and connection watchers ([libp2p/metrics])

    The counters of connections and disconnections, the watcher that prints a
    new known peer once per time-to-live, the disabled watcher and their factory.
    The time cache of the storage package is used through an interface; the log
    output is the list of printed lines. *)

From S2P Require Import Prelude Errors Config Interfaces.
From Stdlib Require Import ZArith Lia Ascii String.
From stdpp Require Import prelude gmap list strings pretty.

Local Open Scope Z_scope.

(** ** Counters *)

Module Connections.

Record t : Type := mk { numConnections : Z; numDisconnections : Z }.

Definition NewConnections : t := mk 0 0.
Definition Connected (c : t) : t := mk (u32 (numConnections c + 1)) (numDisconnections c).
Definition Disconnected (c : t) : t := mk (numConnections c) (u32 (numDisconnections c + 1)).
Definition ResetNumConnections (c : t) : Z * t := (numConnections c, mk 0 (numDisconnections c)).
Definition ResetNumDisconnections (c : t) : Z * t := (numDisconnections c, mk (numConnections c) 0).

(** The notifications between two resets. *)
Definition notify (c : t) (connected : bool) : t := if connected then Connected c else Disconnected c.

Lemma notify_all c l :
  fold_left notify l (mk (u32 (numConnections c)) (u32 (numDisconnections c))) =
  mk (u32 (numConnections c + Z.of_nat (length (filter (fun b => b = true) l))))
     (u32 (numDisconnections c + Z.of_nat (length (filter (fun b => b = false) l)))).
Proof.
  revert c. induction l as [|b l IH]; intros c; [simpl; by rewrite !Z.add_0_r|].
  cbn [fold_left]. unfold notify at 2, Connected, Disconnected.
  assert (forall x, u32 (u32 x + 1) = u32 (x + 1)) as E by (intros; unfold u32; by rewrite Zplus_mod_idemp_l).
  destruct b; cbn [numConnections numDisconnections]; rewrite E.
  - pose proof (IH (mk (numConnections c + 1) (numDisconnections c))) as P. simpl in P. rewrite P.
    rewrite filter_cons_True, filter_cons_False by done. cbn [length]. f_equal; f_equal; lia.
  - pose proof (IH (mk (numConnections c) (numDisconnections c + 1))) as P. simpl in P. rewrite P.
    rewrite filter_cons_False, filter_cons_True by done. cbn [length]. f_equal; f_equal; lia.
Qed.

End Connections.

(** ** The print watcher *)

(** The time cache of the storage package: an entry lives for a duration after it
    was last upserted and is dropped by a sweep after that. *)
Class TimeCacher (T : Type) : Type := {
  tcr_Has : T -> Z -> string -> bool;
  tcr_Upsert : T -> Z -> string -> Z -> option error * T;
  tcr_Sweep : T -> Z -> T;
  tcr_expiry : T -> string -> option Z
}.

Class TimeCacherLaws (T : Type) `{TimeCacher T} : Prop := {
  tcr_Has_live t now k e : tcr_expiry t k = Some e -> now <= e -> tcr_Has t now k = true;
  tcr_Upsert_eq t now k d err t' : tcr_Upsert t now k d = (err, t') -> err = None ->
    exists e, tcr_expiry t' k = Some e /\ now + d <= e;
  tcr_Upsert_err t now k d e t' : tcr_Upsert t now k d = (Some e, t') -> t' = t;
  tcr_Upsert_ne t now k d k' : k ≠ k' -> tcr_expiry (tcr_Upsert t now k d).2 k' = tcr_expiry t k';
  tcr_Upsert_keep t now k d e : tcr_expiry t k = Some e ->
    exists e', tcr_expiry (tcr_Upsert t now k d).2 k = Some e' /\ (e <= e' \/ now + d <= e');
  tcr_Sweep_live t now k e : tcr_expiry t k = Some e -> now <= e -> tcr_expiry (tcr_Sweep t now) k = Some e
}.

Section PrintWatcher.

Context {T : Type} `{TimeCacher T} (Pretty : PeerID -> string).

Definition minTimeToLive : Z := second.

Record printConnectionsWatcher : Type := mk { timeCacher : T; timeToLive : Z; cancelled : bool }.

Implicit Types (pcw : printConnectionsWatcher).

Definition NewPrintConnectionsWatcher (NewTimeCache : Z -> T) (ttl : Z) : result printConnectionsWatcher :=
  if ttl <? minTimeToLive then
    Err (ErrWrap ErrInvalidValueForTimeToLiveParam
           (" in NewPrintConnectionsWatcher, got: " +:+ pretty ttl +:+ ", minimum: " +:+ pretty minTimeToLive))
  else Ok (mk (NewTimeCache ttl) ttl false).

(** [strings.Trim(s, " ")]. *)
Fixpoint trim_left (l : list ascii) : list ascii :=
  match l with
  | " "%char :: l' => trim_left l'
  | _ => l
  end.
Definition strings_Trim (s : string) : string :=
  string_of_list_ascii (rev (trim_left (rev (trim_left (list_ascii_of_string s))))).

(** The printed lines are returned. *)
Definition NewKnownConnection pcw (now : Z) (pid : PeerID) (connection : string) :
    list (PeerID * string) * printConnectionsWatcher :=
  let conn := strings_Trim connection in
  if bool_decide (conn = "") then ([], pcw)
  else
    let has := tcr_Has (timeCacher pcw) now (Pretty pid) in
    let '(err, tc) := tcr_Upsert (timeCacher pcw) now (Pretty pid) (timeToLive pcw) in
    let pcw := mk tc (timeToLive pcw) (cancelled pcw) in
    match err with
    | Some _ => ([], pcw)
    | None => if (has : bool) then ([], pcw) else ([(pid, conn)], pcw)
    end.

(** One round of [doSweep]: the timer fires unless the watcher was closed. *)
Definition doSweep pcw (now : Z) : option printConnectionsWatcher :=
  if cancelled pcw then None else Some (mk (tcr_Sweep (timeCacher pcw) now) (timeToLive pcw) (cancelled pcw)).

Definition Close pcw : option error * printConnectionsWatcher :=
  (None, mk (timeCacher pcw) (timeToLive pcw) true).

(** ** The watchers and their factory *)

Inductive watcher : Type :=
| PrintWatcher (pcw : printConnectionsWatcher)
| DisabledWatcher.

Definition NewConnectionsWatcher (NewTimeCache : Z -> T) (connectionsWatcherType : string) (ttl : Z) :
    result watcher :=
  if decide (connectionsWatcherType = ConnectionWatcherTypePrint) then
    match NewPrintConnectionsWatcher NewTimeCache ttl with
    | Ok pcw => Ok (PrintWatcher pcw)
    | Err err => Err err
    end
  else if decide (connectionsWatcherType = ConnectionWatcherTypeDisabled \/
                  connectionsWatcherType = ConnectionWatcherTypeEmpty) then Ok DisabledWatcher
  else Err (ErrWrap ErrUnknownConnectionWatcherType (" " +:+ connectionsWatcherType)).

Definition watcher_NewKnownConnection (w : watcher) (now : Z) (pid : PeerID) (connection : string) :
    list (PeerID * string) * watcher :=
  match w with
  | PrintWatcher pcw =>
      let '(lines, p) := NewKnownConnection pcw now pid connection in (lines, PrintWatcher p)
  | DisabledWatcher => ([], DisabledWatcher)
  end.

End PrintWatcher.
Arguments printConnectionsWatcher : clear implicits.
Arguments mk {T}.
Arguments watcher : clear implicits.

Section Correctness.

Context {T : Type} `{TimeCacherLaws T} (Pretty : PeerID -> string).
Implicit Types (pcw : printConnectionsWatcher T).

(** What happens to a watcher: a connection is reported, or its loop sweeps. *)
Inductive action : Type :=
| Report (now : Z) (pid : PeerID) (connection : string)
| Sweep (now : Z).

Definition act (s : list (PeerID * string) * printConnectionsWatcher T) (a : action) :
    list (PeerID * string) * printConnectionsWatcher T :=
  match a with
  | Report now pid connection =>
      let '(lines, pcw) := NewKnownConnection Pretty s.2 now pid connection in (s.1 ++ lines, pcw)
  | Sweep now => match doSweep s.2 now with Some pcw => (s.1, pcw) | None => s end
  end.

Definition time_of (a : action) : Z := match a with Report now _ _ | Sweep now => now end.

(** The peer is known until [e] at least. *)
Definition known pcw (pid : PeerID) (e : Z) : Prop :=
  exists e', tcr_expiry (timeCacher pcw) (Pretty pid) = Some e' /\ e <= e'.

Lemma NewKnownConnection_known pcw now pid connection :
  (NewKnownConnection Pretty pcw now pid connection).1 ≠ [] ->
  known (NewKnownConnection Pretty pcw now pid connection).2 pid (now + timeToLive pcw).
Proof.
  unfold NewKnownConnection, known. case_bool_decide; [done|].
  destruct (tcr_Upsert _ _ _ _) as [err tc] eqn:E. destruct err as [err|]; [done|].
  destruct (tcr_Has _ _ _); [done|]. intros _. simpl. by eapply tcr_Upsert_eq.
Qed.

Lemma NewKnownConnection_silent pcw now pid connection e :
  known pcw pid e -> now <= e -> (NewKnownConnection Pretty pcw now pid connection).1 = [].
Proof.
  intros (e' & Ee & Hle) Hnow. unfold NewKnownConnection. case_bool_decide; [done|].
  rewrite (tcr_Has_live _ now _ _ Ee) by lia. destruct (tcr_Upsert _ _ _ _) as [[err|] tc]; done.
Qed.

Lemma act_known s a pid e :
  known s.2 pid e -> time_of a <= e -> e <= time_of a + timeToLive s.2 ->
  known (act s a).2 pid e /\ timeToLive (act s a).2 = timeToLive s.2.
Proof.
  destruct s as [lines pcw]. intros (e' & Ee & Hle) Hnow Hd. destruct a as [now p connection|now]; simpl in *.
  - unfold NewKnownConnection. case_bool_decide; simpl; [by split; [exists e'|]|].
    destruct (tcr_Upsert _ _ _ _) as [err tc] eqn:E.
    assert (known (mk tc (timeToLive pcw) (cancelled pcw)) pid e) as K.
    { unfold known. simpl. destruct (decide (Pretty p = Pretty pid)) as [Ep|Hne].
      - rewrite <- Ep in Ee |- *.
        destruct (tcr_Upsert_keep (timeCacher pcw) now _ (timeToLive pcw) _ Ee) as (e2 & E2 & H2).
        rewrite E in E2. exists e2. split; [exact E2 | lia].
      - pose proof (tcr_Upsert_ne (timeCacher pcw) now _ (timeToLive pcw) _ Hne) as P. rewrite E in P. simpl in P.
        exists e'. by rewrite P. }
    by destruct err; [|destruct (tcr_Has _ _ _)].
  - unfold doSweep. destruct (cancelled pcw); simpl; (split; [|done]); [by exists e'|].
    exists e'. simpl. split; [by apply tcr_Sweep_live; [|lia] | done].
Qed.

(** A known peer is printed once.  When a report printed a peer, no report of
    that peer prints it again during the time-to-live that follows, whatever is
    reported and swept meanwhile; a blank connection string prints nothing. *)
Theorem NewKnownConnection_once lines pcw now pid connection actions now' connection' :
  (NewKnownConnection Pretty pcw now pid connection).1 ≠ [] ->
  Forall (fun a => now <= time_of a <= now + timeToLive pcw) actions ->
  now <= now' <= now + timeToLive pcw ->
  let s := fold_left act actions (act (lines, pcw) (Report now pid connection)) in
  (NewKnownConnection Pretty s.2 now' pid connection').1 = [] /\
  (NewKnownConnection Pretty pcw now pid "  ").1 = [].
Proof.
  intros Hp F Hnow s. split; [|done].
  pose proof (NewKnownConnection_known _ _ _ _ Hp) as K.
  set (s0 := act (lines, pcw) (Report now pid connection)) in s.
  assert (known s0.2 pid (now + timeToLive pcw) /\ timeToLive s0.2 = timeToLive pcw) as [K0 T0].
  { unfold s0, act. destruct (NewKnownConnection Pretty pcw now pid connection) as [ls pcw'] eqn:E.
    simpl in *. rewrite E. simpl. split; [done|].
    unfold NewKnownConnection in E. case_bool_decide; [by simplify_eq|].
    destruct (tcr_Upsert _ _ _ _) as [[err|] tc]; [|destruct (tcr_Has _ _ _)]; by simplify_eq. }
  apply (NewKnownConnection_silent _ _ _ _ (now + timeToLive pcw)); [|lia].
  unfold s. clear s Hp K. clearbody s0. revert s0 K0 T0. induction actions as [|a actions IH]; intros s0 K0 T0; [done|].
  apply Forall_cons in F as [Fa F]. cbn [fold_left].
  destruct (act_known s0 a pid (now + timeToLive pcw) K0) as [K1 T1]; [lia | rewrite T0; lia |].
  apply IH; [done | done | by rewrite T1].
Qed.

End Correctness.

Module Witness.

(** Expiry times in a map; a sweep drops the expired ones. *)
#[local] Instance cacher : TimeCacher (gmap string Z) := {
  tcr_Has m now k := bool_decide (is_Some (m !! k));
  tcr_Upsert m now k d := (None, <[k := now + d]> m);
  tcr_Sweep m now := filter (fun kv => now <= kv.2) m;
  tcr_expiry m k := m !! k
}.

#[local] Instance cacher_laws : TimeCacherLaws (gmap string Z).
Proof.
  constructor; simpl.
  - intros t now k e E _. apply bool_decide_eq_true. by eexists.
  - intros t now k d err t' [= <- <-] _. exists (now + d). by rewrite lookup_insert_eq.
  - by intros t now k d e t' [=].
  - intros t now k d k' Hne. by rewrite lookup_insert_ne.
  - intros t now k d e _. exists (now + d). rewrite lookup_insert_eq. split; [done | by right].
  - intros t now k e E Hle. by apply map_lookup_filter_Some.
Qed.

Definition pcw0 : printConnectionsWatcher (gmap string Z) := mk ∅ 60 false.

Lemma NewKnownConnection_once_witness :
  (NewKnownConnection id (fold_left (act id) [Sweep 20; Report 30 "q" "c"]
     (act id ([], pcw0) (Report 10 "p" " addr "))).2 40 "p" "addr2").1 = [].
Proof.
  refine (proj1 (NewKnownConnection_once id [] pcw0 10 "p" " addr " [Sweep 20; Report 30 "q" "c"] 40 "addr2" _ _ _)).
  - vm_compute. discriminate.
  - repeat constructor; simpl; lia.
  - simpl. lia.
Defined.

End Witness.
