(* ===== verification/ConnMonitor.v ===== *)
(** * ConnMonitor: reactions to connections
      ([libp2p/connectionMonitor], [libp2p/connectionMonitorWrapper.go],
       [libp2p/discovery/hostWithConnectionManagement.go], [libp2p/connectableHost.go])

    On a new connection the monitor records the address with the preferred peers
    holder and closes the peers the sharder evicts; on a disconnection it asks
    for a reconnection when too few peers are left.  The wrapper drops denied
    peers first.  The host with connection management refuses to dial a peer the
    sharder would evict.  The calls that act on the network are returned as
    events; the peers of the network are an argument of the call. *)

From S2P Require Import Prelude Errors Interfaces Wire Distances Sharding PeersHolder.
From Stdlib Require Import ZArith Lia String.
From stdpp Require Import prelude gmap list strings pretty.

Local Open Scope Z_scope.

(** A connection: its own identifier, and the peer and address at its other end. *)
Record netConn : Type := mkNetConn { conn_ID : string; RemotePeer : PeerID; RemoteMultiaddr : string }.

(** The actions on the network. *)
Inductive net_event : Type :=
| ClosePeer (pid : PeerID)
| CloseConn (conn : netConn)
| ReconnectToNetwork
| HostConnect (pid : PeerID).

#[export] Instance netConn_eq_dec : EqDecision netConn.
Proof. solve_decision. Defined.
#[export] Instance net_event_eq_dec : EqDecision net_event.
Proof. solve_decision. Defined.

(** ** The connection monitor *)

Section Monitor.

(** The preferred peers holder [P], the connections watcher [W] and the sharder
    are shared with other components. *)
Context {P W : Type} `{PreferredPeersHolderHandler P} `{SortSort} (Pretty : PeerID -> string).
Context (NewKnownConnection : W -> PeerID -> string -> W).

(** The goroutine [doReconnection]: waiting for a request, reconnecting, waiting
    between attempts, or stopped. *)
Inductive reconnection : Type := Idle | Reconnecting | Pausing | Stopped.
#[export] Instance reconnection_eq_dec : EqDecision reconnection.
Proof. solve_decision. Defined.

Record connectionMonitor : Type := mk {
  thresholdMinConnectedPeers : Z;
  preferredPeersHolder : P;
  connectionsWatcher : W;
  cm_sharder : sharder;
  loop : reconnection;
  cancelled : bool
}.

Implicit Types (lcms : connectionMonitor).

Definition set_loop r lcms :=
  mk (thresholdMinConnectedPeers lcms) (preferredPeersHolder lcms) (connectionsWatcher lcms)
     (cm_sharder lcms) r (cancelled lcms).
Definition set_holder h lcms :=
  mk (thresholdMinConnectedPeers lcms) h (connectionsWatcher lcms) (cm_sharder lcms) (loop lcms) (cancelled lcms).
Definition set_watcher w lcms :=
  mk (thresholdMinConnectedPeers lcms) (preferredPeersHolder lcms) w (cm_sharder lcms) (loop lcms) (cancelled lcms).
Definition set_threshold n lcms :=
  mk n (preferredPeersHolder lcms) (connectionsWatcher lcms) (cm_sharder lcms) (loop lcms) (cancelled lcms).

(** The reconnecter is tested for presence only. *)
Definition NewLibp2pConnectionMonitorSimple (reconnecter : option unit) (threshold : Z)
    (shr : option sharder) (holder : option P) (watcher : option W) : result connectionMonitor :=
  match reconnecter, shr, holder, watcher with
  | None, _, _, _ => Err ErrNilReconnecter
  | _, None, _, _ => Err ErrNilSharder
  | _, _, None, _ => Err ErrNilPreferredPeersHolder
  | _, _, _, None => Err ErrNilConnectionsWatcher
  | Some _, Some s, Some h, Some w => Ok (mk threshold h w s Idle false)
  end.

(** The send on [chDoReconnect] succeeds only when the goroutine is waiting for it. *)
Definition doReconn lcms : connectionMonitor * list net_event :=
  match loop lcms with
  | Idle => (set_loop Reconnecting lcms, [ReconnectToNetwork])
  | _ => (lcms, [])
  end.

Definition IsConnectedToTheNetwork lcms (peers : list PeerID) : bool :=
  len peers >=? thresholdMinConnectedPeers lcms.

Definition doReconnectionIfNeeded lcms (peers : list PeerID) : connectionMonitor * list net_event :=
  if negb (IsConnectedToTheNetwork lcms peers) then doReconn lcms else (lcms, []).

Definition evictionList lcms (peers : list PeerID) : list PeerID :=
  shr_ComputeEvictionList Pretty (cm_sharder lcms) (pph_Contains (preferredPeersHolder lcms)) peers.

Definition Connected lcms (peers : list PeerID) (conn : netConn) : connectionMonitor * list net_event :=
  let peerId := RemotePeer conn in
  let connectionStr := RemoteMultiaddr conn in
  let lcms := set_watcher (NewKnownConnection (connectionsWatcher lcms) peerId connectionStr) lcms in
  let lcms := set_holder (pph_PutConnectionAddress (preferredPeersHolder lcms) peerId connectionStr) lcms in
  (lcms, ClosePeer <$> evictionList lcms peers).

(** [core.PeerID(conn.ID())]: the identifier of the connection is converted. *)
Definition Disconnected lcms (peers : list PeerID) (conn : option netConn) :
    outcome (connectionMonitor * list net_event) :=
  match conn with
  | Some conn =>
      let! holder := pph_Remove (preferredPeersHolder lcms) (conn_ID conn) in
      Ret (doReconnectionIfNeeded (set_holder holder lcms) peers)
  | None => Ret (doReconnectionIfNeeded lcms peers)
  end.

(** [netw] is nil when there are no peers to look at. *)
Definition SetThresholdMinConnectedPeers lcms (threshold : Z) (netw : option (list PeerID)) :
    connectionMonitor * list net_event :=
  match netw with
  | None => (lcms, [])
  | Some peers => doReconnectionIfNeeded (set_threshold threshold lcms) peers
  end.

Definition ThresholdMinConnectedPeers lcms : Z := thresholdMinConnectedPeers lcms.

Definition Close lcms : option error * connectionMonitor :=
  (None, mk (thresholdMinConnectedPeers lcms) (preferredPeersHolder lcms) (connectionsWatcher lcms)
            (cm_sharder lcms) (loop lcms) true).

(** The steps of the goroutine by itself: the reconnecter returns, the pause of
    [DurationBetweenReconnectAttempts] ends, or the cancellation is seen. *)
Inductive tick : Type := ReconnectDone | PauseOver | SeeCancel.
#[export] Instance tick_eq_dec : EqDecision tick.
Proof. solve_decision. Defined.
Definition doReconnection lcms (t : tick) : option connectionMonitor :=
  match t, loop lcms with
  | ReconnectDone, Reconnecting => Some (set_loop Pausing lcms)
  | PauseOver, Pausing => Some (set_loop Idle lcms)
  | SeeCancel, Idle | SeeCancel, Pausing => if cancelled lcms then Some (set_loop Stopped lcms) else None
  | _, _ => None
  end.

(** ** The wrapper *)

Section Wrapper.

Context {D : Type} `{PeerDenialEvaluator D}.

Record connectionMonitorWrapper : Type := mkWrapper {
  inner : connectionMonitor;
  peerDenialEvaluator : D
}.

Implicit Types (cmw : connectionMonitorWrapper).

Definition newConnectionMonitorWrapper (connMonitor : connectionMonitor) (peerDenialEvaluator : D) :
    connectionMonitorWrapper := mkWrapper connMonitor peerDenialEvaluator.

Definition wrapper_PeerDenialEvaluator cmw : D := peerDenialEvaluator cmw.

Definition wrapper_Connected cmw (peers : list PeerID) (conn : netConn) :
    connectionMonitorWrapper * list net_event :=
  if pde_IsDenied (peerDenialEvaluator cmw) (RemotePeer conn) then (cmw, [CloseConn conn])
  else
    let '(m, events) := Connected (inner cmw) peers conn in
    (mkWrapper m (peerDenialEvaluator cmw), events).

Definition wrapper_Disconnected cmw (peers : list PeerID) (conn : option netConn) :
    outcome (connectionMonitorWrapper * list net_event) :=
  let! (m, events) := Disconnected (inner cmw) peers conn in
  Ret (mkWrapper m (peerDenialEvaluator cmw), events).

Definition CheckConnectionsBlocking cmw (peers : list PeerID) : list net_event :=
  ClosePeer <$> filter (fun pid => pde_IsDenied (peerDenialEvaluator cmw) pid = true) peers.

Definition SetPeerDenialEvaluator cmw (handler : option D) : option error * connectionMonitorWrapper :=
  match handler with
  | None => (Some (ErrSentinel ErrNilPeerDenialEvaluator), cmw)
  | Some d => (None, mkWrapper (inner cmw) d)
  end.

End Wrapper.

(** ** The host with connection management *)

(** [ConnectableHost.Connect] is the answer of the network. *)
Record hostWithConnectionManagement : Type := mkHost { host_sharder : sharder; host_watcher : W }.

Definition NewHostWithConnectionManagement (host : option unit) (shr : option sharder) (w : option W) :
    result hostWithConnectionManagement :=
  match host, shr, w with
  | None, _, _ => Err ErrNilHost
  | _, None, _ => Err ErrNilSharder
  | _, _, None => Err ErrNilConnectionsWatcher
  | Some _, Some s, Some w => Ok (mkHost s w)
  end.

Definition concatenateAddresses (addresses : list string) : string :=
  foldr (fun ma s => ma +:+ " " +:+ s) "" addresses.

Definition canConnectToPeer (hwcm : hostWithConnectionManagement) (preferred : PeerID -> bool)
    (peers : list PeerID) (pid : PeerID) : option error :=
  let allPeers := if negb (shr_Has (host_sharder hwcm) pid peers) then peers ++ [pid] else peers in
  let evicted := shr_ComputeEvictionList Pretty (host_sharder hwcm) preferred allPeers in
  if shr_Has (host_sharder hwcm) pid evicted
  then Some (ErrWrap ErrUnwantedPeer (", pid: " +:+ Pretty pid)) else None.

Definition Connect (hwcm : hostWithConnectionManagement) (preferred : PeerID -> bool)
    (peers : list PeerID) (hostConnect : PeerID -> option error) (pid : PeerID) (addrs : list string) :
    option error * hostWithConnectionManagement * list net_event :=
  let hwcm := mkHost (host_sharder hwcm)
                (NewKnownConnection (host_watcher hwcm) pid (concatenateAddresses addrs)) in
  match canConnectToPeer hwcm preferred peers pid with
  | Some err => (Some err, hwcm, [])
  | None => (hostConnect pid, hwcm, [HostConnect pid])
  end.

(** [Connectedness] is the answer of the network of the host. *)
Definition host_IsConnected {B : Type} `{EqDecision B} (network_Connected : B) (Connectedness : PeerID -> B) (pid : PeerID) : bool :=
  bool_decide (Connectedness pid = network_Connected).

End Monitor.

Arguments connectionMonitor : clear implicits.
Arguments mk {P W}.
Arguments connectionMonitorWrapper : clear implicits.

(** ** The connectable host *)

Section ConnectableHost.

(** [multiaddr.NewMultiaddr] and [peer.AddrInfoFromP2pAddr]. *)
Context {A I : Type} (NewMultiaddr : string -> result A) (AddrInfoFromP2pAddr : A -> result I).
Context (hostConnect : I -> option error).

(** A host becomes connectable by embedding it; the other methods are its own. *)
Definition NewConnectableHost {B : Type} (h : B) : B := h.

Definition AddressToPeerInfo (address : string) : result I :=
  let? multiAddr := NewMultiaddr address in AddrInfoFromP2pAddr multiAddr.

Definition ConnectToPeer (address : string) : option error :=
  match AddressToPeerInfo address with
  | Err err => Some err
  | Ok pInfo => hostConnect pInfo
  end.

End ConnectableHost.

(** The holder of [PeersHolder] implements the interface. *)
#[export] Instance peersHolder_PreferredPeersHolder (AllShardId : Z) : PreferredPeersHolderHandler peersHolder := {
  pph_PutConnectionAddress := PeersHolder.PutConnectionAddress AllShardId;
  pph_PutShardID := PeersHolder.PutShardID;
  pph_Get := PeersHolder.Get;
  pph_Contains := PeersHolder.Contains;
  pph_Remove := PeersHolder.Remove;
  pph_Clear := PeersHolder.Clear
}.

Section Correctness.

Context {P W : Type} `{PreferredPeersHolderHandler P} `{SortSort} (Pretty : PeerID -> string).
Context (NewKnownConnection : W -> PeerID -> string -> W).
Implicit Types (lcms : connectionMonitor P W).

Abbreviation Connected := (Connected Pretty NewKnownConnection).

(** The peers left when the network has carried out the events. *)
Definition remaining (events : list net_event) (peers : list PeerID) : list PeerID :=
  filter (fun p => ClosePeer p ∉ events) peers.

Lemma elem_of_ClosePeer p (l : list PeerID) : ClosePeer p ∈ (ClosePeer <$> l) <-> p ∈ l.
Proof. rewrite list_elem_of_fmap. split; [by intros (? & [= ->] & ?) | eauto]. Qed.

Lemma length_filter_not_in {A} `{EqDecision A} (stay ev : list A) :
  (length (filter (fun x => x ∉ ev) (stay ++ ev)) <= length stay)%nat.
Proof.
  rewrite filter_app, (filter_all_false _ ev) by (intros x Hx Hn; by apply Hn).
  rewrite app_nil_r. apply length_filter.
Qed.

(** Trimming on connection.  When a connection is made, the monitor reports it
    to the watcher and to the preferred peers holder, then closes the peers of
    the eviction list computed with the updated holder; once they are closed, at
    most [maxPeerCount] connected peers are left besides preferred peers and
    peers of an unnamed type. *)
Theorem Connected_trims lcms ls peers conn :
  cm_sharder lcms = ListsShr ls -> sized ls ->
  let '(lcms', events) := Connected lcms peers conn in
  let preferred := pph_Contains (preferredPeersHolder lcms') in
  connectionsWatcher lcms' = NewKnownConnection (connectionsWatcher lcms) (RemotePeer conn) (RemoteMultiaddr conn) /\
  preferredPeersHolder lcms' =
    pph_PutConnectionAddress (preferredPeersHolder lcms) (RemotePeer conn) (RemoteMultiaddr conn) /\
  (forall p, ClosePeer p ∈ events <-> p ∈ ComputeEvictionList Pretty ls preferred peers) /\
  len (filter (fun p => is_Some (class_of Pretty ls preferred p)) (remaining events peers)) <= maxPeerCount ls.
Proof.
  intros Es Hs. unfold ConnMonitor.Connected, evictionList. simpl. rewrite Es. simpl.
  set (preferred := pph_Contains _). split_and!; try done; [intros p; apply elem_of_ClosePeer|].
  pose proof (kept_evicted_peers Pretty ls preferred peers Hs) as Pm.
  pose proof (length_keptPeers Pretty ls preferred peers Hs) as Lk.
  set (ev := ComputeEvictionList Pretty ls preferred peers) in *.
  assert (filter (fun p => is_Some (class_of Pretty ls preferred p)) (remaining (ClosePeer <$> ev) peers) =
          filter (fun p => p ∉ ev) (filter (fun p => is_Some (class_of Pretty ls preferred p)) peers)) as ->.
  { unfold remaining. rewrite !list_filter_filter. apply list_filter_iff. intros p.
    rewrite elem_of_ClosePeer. tauto. }
  rewrite Pm. pose proof (length_filter_not_in (keptPeers Pretty ls preferred peers) ev). lia.
Qed.

(** Dialling.  A peer is dialled exactly when the sharder would not evict it
    from the connected peers together with it, so that a peer that was dialled is
    not in the eviction list the monitor computes on its connection from the same
    peers and the same preferred peers; a refused peer is reported as unwanted
    and nothing is dialled. *)
Theorem Connect_spec (hwcm : hostWithConnectionManagement (W := W)) preferred peers hostConnect pid addrs :
  let allPeers := match host_sharder hwcm with
                  | NilListShr => peers ++ [pid]
                  | _ => if decide (pid ∈ peers) then peers else peers ++ [pid]
                  end in
  let evicted := shr_ComputeEvictionList Pretty (host_sharder hwcm) preferred allPeers in
  let '(err, hwcm', events) := Connect Pretty NewKnownConnection hwcm preferred peers hostConnect pid addrs in
  host_watcher hwcm' = NewKnownConnection (host_watcher hwcm) pid (concatenateAddresses addrs) /\
  (pid ∉ evicted -> err = hostConnect pid /\ events = [HostConnect pid]) /\
  (pid ∈ evicted -> events = [] /\ exists e, err = Some e /\ errors_Is e ErrUnwantedPeer = true).
Proof.
  assert (forall (x : PeerID) l, has x l = bool_decide (x ∈ l)) as Hhas.
  { intros x l. unfold has. destruct (bool_decide_reflect (x ∈ l)) as [Hin|Hn].
    - apply existsb_exists. exists x. rewrite <- list_elem_of_In, bool_decide_eq_true. done.
    - apply not_true_is_false. rewrite existsb_exists. intros (y & Hy & E%bool_decide_eq_true).
      apply Hn. rewrite <- list_elem_of_In in Hy. by subst. }
  intros allPeers evicted. unfold Connect, canConnectToPeer. cbn [host_sharder host_watcher].
  assert ((if negb (shr_Has (host_sharder hwcm) pid peers) then peers ++ [pid] else peers) = allPeers) as Ea.
  { unfold allPeers, shr_Has. rewrite Hhas. destruct (host_sharder hwcm); [| |done];
      case_bool_decide; solve [by rewrite decide_True | by rewrite decide_False]. }
  rewrite Ea. fold evicted.
  assert (shr_Has (host_sharder hwcm) pid evicted = bool_decide (pid ∈ evicted)) as ->.
  { unfold shr_Has, evicted. destruct (host_sharder hwcm); [apply Hhas | apply Hhas |].
    by rewrite bool_decide_eq_false_2 by set_solver. }
  case_bool_decide; simpl; split_and!; try done. intros _. split; [done|]. by eexists.
Qed.

(** ** Reconnection *)

(** A label of an execution: a call, with the actions it causes, or a step of the
    goroutine. *)
Inductive label : Type :=
| LCall (events : list net_event)
| LTick (t : tick).
#[export] Instance label_eq_dec : EqDecision label.
Proof. solve_decision. Defined.

Inductive cm_step : connectionMonitor P W -> label -> connectionMonitor P W -> Prop :=
| cm_connected lcms peers conn :
    cm_step lcms (LCall (Connected lcms peers conn).2) (Connected lcms peers conn).1
| cm_disconnected lcms peers conn lcms' events :
    Disconnected lcms peers conn = Ret (lcms', events) -> cm_step lcms (LCall events) lcms'
| cm_threshold lcms n netw :
    cm_step lcms (LCall (SetThresholdMinConnectedPeers lcms n netw).2) (SetThresholdMinConnectedPeers lcms n netw).1
| cm_close lcms : cm_step lcms (LCall []) (Close lcms).2
| cm_tick lcms t lcms' : doReconnection lcms t = Some lcms' -> cm_step lcms (LTick t) lcms'.

Inductive cm_run : connectionMonitor P W -> list label -> connectionMonitor P W -> Prop :=
| cm_nil lcms : cm_run lcms [] lcms
| cm_cons lcms l lcms1 ls lcms2 : cm_step lcms l lcms1 -> cm_run lcms1 ls lcms2 -> cm_run lcms (l :: ls) lcms2.

Lemma doReconnectionIfNeeded_loop lcms peers :
  let '(lcms', events) := doReconnectionIfNeeded lcms peers in
  (loop lcms' = loop lcms /\ events = []) \/
  (loop lcms = Idle /\ loop lcms' = Reconnecting /\ events = [ReconnectToNetwork]).
Proof. unfold doReconnectionIfNeeded, doReconn. destruct (negb _); [|by left]. destruct (loop lcms) eqn:E; auto. Qed.

(** The goroutine is woken exactly when it is idle and there are too few peers. *)
Lemma doReconnectionIfNeeded_spec lcms peers :
  let '(lcms', events) := doReconnectionIfNeeded lcms peers in
  let wakes := decide (len peers < thresholdMinConnectedPeers lcms /\ loop lcms = Idle) in
  preferredPeersHolder lcms' = preferredPeersHolder lcms /\
  events = (if wakes then [ReconnectToNetwork] else []) /\
  loop lcms' = (if wakes then Reconnecting else loop lcms).
Proof.
  unfold doReconnectionIfNeeded, IsConnectedToTheNetwork, doReconn. rewrite Z.geb_leb.
  destruct (Z.leb_spec (thresholdMinConnectedPeers lcms) (len peers)); cbn [negb].
  - cbn. by rewrite !decide_False by (intros [? _]; lia).
  - destruct (loop lcms) eqn:E; cbn; rewrite ?E;
      [rewrite !decide_True by done | rewrite !decide_False by (by intros [_ ?])..]; done.
Qed.

Ltac loop_cases D :=
  destruct D as [[? ->]|(? & ? & ->)];
  [left; split; [done | apply not_elem_of_nil] | right; split_and!; [done | done | by apply list_elem_of_singleton]].

(** A call either leaves the goroutine alone or wakes it up. *)
Lemma cm_call_loop lcms events lcms' :
  cm_step lcms (LCall events) lcms' ->
  (loop lcms' = loop lcms /\ ReconnectToNetwork ∉ events) \/
  (loop lcms = Idle /\ loop lcms' = Reconnecting /\ ReconnectToNetwork ∈ events).
Proof.
  remember (LCall events) as l eqn:El. intros S. destruct S; try (injection El as El).
  - left. split; [done|]. rewrite <- El. simpl. intros (? & [=] & _)%list_elem_of_fmap.
  - unfold Disconnected in *. destruct conn as [conn|].
    + destruct (pph_Remove _ _) as [h|]; [|done].
      pose proof (doReconnectionIfNeeded_loop (set_holder h lcms) peers) as D.
      destruct (doReconnectionIfNeeded _ _). simplify_eq. loop_cases D.
    + pose proof (doReconnectionIfNeeded_loop lcms peers) as D.
      destruct (doReconnectionIfNeeded _ _). simplify_eq. loop_cases D.
  - unfold SetThresholdMinConnectedPeers in *. destruct netw as [peers|]; [|left; split; [done|]; rewrite <- El; apply not_elem_of_nil].
    pose proof (doReconnectionIfNeeded_loop (set_threshold n lcms) peers) as D.
    destruct (doReconnectionIfNeeded _ _). simpl in El. subst. loop_cases D.
  - left. split; [done|]. rewrite <- El. apply not_elem_of_nil.
  - done.
Qed.

Lemma cm_tick_loop lcms t lcms' :
  cm_step lcms (LTick t) lcms' ->
  (t = ReconnectDone /\ loop lcms = Reconnecting /\ loop lcms' = Pausing) \/
  (t = PauseOver /\ loop lcms = Pausing /\ loop lcms' = Idle) \/
  (t = SeeCancel /\ (loop lcms = Idle \/ loop lcms = Pausing) /\ loop lcms' = Stopped).
Proof.
  remember (LTick t) as l eqn:El. intros S. destruct S; try done. injection El as ->.
  unfold doReconnection in *.
  destruct t, (loop lcms) eqn:E; try destruct (cancelled lcms); simplify_eq; simpl; naive_solver.
Qed.

(** Without the end of a pause, a busy or stopped goroutine does not reconnect. *)
Lemma busy_no_reconnect lcms ls lcms' :
  loop lcms ≠ Idle -> cm_run lcms ls lcms' -> LTick PauseOver ∉ ls ->
  forall events, LCall events ∈ ls -> ReconnectToNetwork ∉ events.
Proof.
  intros Hl R. induction R as [lcms|lcms l lcms1 ls lcms2 S R IH]; [set_solver|].
  intros Hp events. rewrite not_elem_of_cons in Hp. destruct Hp as [Hp1 Hp2].
  assert (loop lcms1 ≠ Idle /\ (forall ev, l = LCall ev -> ReconnectToNetwork ∉ ev)) as [Hl1 Hev].
  { destruct l as [ev|t].
    - destruct (cm_call_loop _ _ _ S) as [[E Hn]|[? _]]; [|done]. rewrite E. split; [done | by intros ? [= <-]].
    - destruct (cm_tick_loop _ _ _ S) as [(-> & _ & E)|[(-> & _)|(-> & _ & E)]]; [| done |];
        rewrite E; split; done. }
  intros [Heq|Hin]%elem_of_cons; [by apply Hev | by apply IH].
Qed.

Lemma stopped_no_reconnect lcms ls lcms' :
  loop lcms = Stopped -> cm_run lcms ls lcms' ->
  forall events, LCall events ∈ ls -> ReconnectToNetwork ∉ events.
Proof.
  intros Hl R. induction R as [lcms|lcms l lcms1 ls lcms2 S R IH]; [set_solver|].
  assert (loop lcms1 = Stopped /\ (forall ev, l = LCall ev -> ReconnectToNetwork ∉ ev)) as [Hl1 Hev].
  { destruct l as [ev|t].
    - destruct (cm_call_loop _ _ _ S) as [[E Hn]|[? _]]; [|congruence].
      rewrite E. split; [done | by intros ? [= <-]].
    - destruct (cm_tick_loop _ _ _ S) as [(_ & E & _)|[(_ & E & _)|(_ & [E|E] & _)]]; congruence. }
  intros events [Heq|Hin]%elem_of_cons; [by apply Hev | by apply IH].
Qed.

Lemma cm_run_app lcms l1 l2 lcms' :
  cm_run lcms (l1 ++ l2) lcms' -> exists m, cm_run lcms l1 m /\ cm_run m l2 lcms'.
Proof.
  revert lcms. induction l1 as [|l l1 IH]; intros lcms R; [exists lcms; split; [constructor | done]|].
  inversion R as [|? ? lcms1 ? ? S R']; subst. destruct (IH _ R') as (m & R1 & R2).
  exists m. split; [by econstructor | done].
Qed.

(** [C18] Pauses between reconnections.  In every execution a reconnection is followed
    by another one only after the pause between attempts has ended, so requests
    made meanwhile are dropped, and never after the goroutine saw the
    cancellation.  A disconnection, of any connection or of nil, first removes
    the identifier of the connection from the preferred peers (of a nil
    connection nothing) and then starts a reconnection exactly when the network
    has fewer peers than the threshold and the goroutine is idle; it panics
    only if the removal does. *)
Theorem reconnections_are_spaced lcms l1 ev1 l2 ev2 l3 lcms' :
  cm_run lcms (l1 ++ LCall ev1 :: l2 ++ LCall ev2 :: l3) lcms' ->
  ReconnectToNetwork ∈ ev1 -> ReconnectToNetwork ∈ ev2 ->
  LTick PauseOver ∈ l2 /\ (LTick SeeCancel ∉ l1 ++ LCall ev1 :: l2) /\
  (forall m peers conn,
     match Disconnected m peers conn,
           match conn with
           | Some c => pph_Remove (preferredPeersHolder m) (conn_ID c)
           | None => Ret (preferredPeersHolder m)
           end with
     | Ret (m', events), Ret holder =>
         let wakes := decide (len peers < thresholdMinConnectedPeers m /\ loop (W := W) m = Idle) in
         preferredPeersHolder m' = holder /\
         events = (if wakes then [ReconnectToNetwork] else []) /\
         loop m' = (if wakes then Reconnecting else loop m)
     | Panic, Panic => True
     | _, _ => False
     end).
Proof.
  intros R H1 H2. split; [|split].
  - apply cm_run_app in R as (m & _ & R).
    inversion R as [|? ? m1 ? ? S R1]; subst.
    destruct (cm_call_loop _ _ _ S) as [[_ Hn]|(_ & Er & _)]; [done|].
    replace (l2 ++ LCall ev2 :: l3) with ((l2 ++ [LCall ev2]) ++ l3) in R1 by (by rewrite <- app_assoc).
    apply cm_run_app in R1 as (m2 & R1 & _).
    destruct (decide (Exists (fun l => l = LTick PauseOver) l2)) as [Hex|Hnex].
    + apply Exists_exists in Hex as (? & Hin & ->). done.
    + exfalso. refine (busy_no_reconnect m1 _ m2 _ R1 _ ev2 _ H2); [by rewrite Er | | set_solver].
      rewrite not_elem_of_app, list_elem_of_singleton. split; [|done].
      intros Hin. apply Hnex, Exists_exists. by eexists.
  - intros Hin. apply list_elem_of_split in Hin as (a & b & Ea).
    replace (l1 ++ LCall ev1 :: l2 ++ LCall ev2 :: l3) with ((l1 ++ LCall ev1 :: l2) ++ LCall ev2 :: l3) in R
      by (by rewrite <- app_assoc).
    rewrite Ea, <- app_assoc in R. apply cm_run_app in R as (m & _ & R).
    inversion R as [|? ? m1 ? ? S R1]; subst.
    destruct (cm_tick_loop _ _ _ S) as [(? & _)|[(? & _)|(_ & _ & Es)]]; [done.. |].
    refine (stopped_no_reconnect m1 _ lcms' Es R1 ev2 _ H2). set_solver.
  - intros m peers conn. unfold Disconnected. destruct conn as [c|].
    + destruct (pph_Remove _ _) as [holder|]; [|done]. cbn [preferredPeersHolder].
      pose proof (doReconnectionIfNeeded_spec (set_holder holder m) peers) as D.
      destruct (doReconnectionIfNeeded _ peers). exact D.
    + pose proof (doReconnectionIfNeeded_spec m peers) as D. destruct (doReconnectionIfNeeded _ peers). exact D.
Qed.

End Correctness.

(** ** Preferred peers and disconnections *)

Section PreferredPeers.

Context {W : Type} (AllShardId : Z).
#[local] Existing Instance peersHolder_PreferredPeersHolder.

(** Disconnection of a preferred peer.  [Disconnected] removes from the holder
    the identifier of the connection instead of that of the peer: when the
    connection identifier is not itself a preferred peer, the holder does not
    change, and the disconnected peer stays a preferred peer of its shard. *)
Theorem Disconnected_keeps_preferred (lcms : connectionMonitor peersHolder W) peers conn :
  PeersHolder.Contains (preferredPeersHolder lcms) (conn_ID conn) = false ->
  exists lcms' events,
    Disconnected (H := peersHolder_PreferredPeersHolder AllShardId) lcms peers (Some conn) = Ret (lcms', events) /\
    preferredPeersHolder lcms' = preferredPeersHolder lcms /\
    PeersHolder.Contains (preferredPeersHolder lcms') (RemotePeer conn) =
      PeersHolder.Contains (preferredPeersHolder lcms) (RemotePeer conn).
Proof.
  intros Hn. simpl. unfold PeersHolder.Contains in Hn. apply bool_decide_eq_false in Hn.
  rewrite <- eq_None_not_Some in Hn. rewrite (Remove_not_held _ _ Hn).
  destruct (doReconnectionIfNeeded _ peers) as [lcms' events] eqn:E. exists lcms', events.
  split; [done|]. assert (preferredPeersHolder lcms' = preferredPeersHolder lcms) as ->; [|done].
  unfold doReconnectionIfNeeded, doReconn in E.
  destruct (negb _); [destruct (loop _)|]; by simplify_eq.
Qed.

End PreferredPeers.

Section Denied.

Context {P W D : Type} `{PreferredPeersHolderHandler P} `{SortSort} `{PeerDenialEvaluator D}.
Context (Pretty : PeerID -> string) (NewKnownConnection : W -> PeerID -> string -> W).

(** Denied peers.  A connection with a denied peer is closed and goes
    unnoticed by the monitor; any other connection is handled by the monitor.
    Checking the connections closes exactly the denied peers. *)
Theorem denied_peers_dropped (cmw : connectionMonitorWrapper P W D) peers conn :
  (wrapper_Connected Pretty NewKnownConnection cmw peers conn =
     if pde_IsDenied (peerDenialEvaluator cmw) (RemotePeer conn) then (cmw, [CloseConn conn])
     else (mkWrapper (Connected Pretty NewKnownConnection (inner cmw) peers conn).1 (peerDenialEvaluator cmw),
           (Connected Pretty NewKnownConnection (inner cmw) peers conn).2)) /\
  (forall p, ClosePeer p ∈ CheckConnectionsBlocking cmw peers <->
     p ∈ peers /\ pde_IsDenied (peerDenialEvaluator cmw) p = true) /\
  (forall handler, (SetPeerDenialEvaluator cmw handler).1 = None <-> is_Some handler).
Proof.
  split_and!.
  - unfold wrapper_Connected. destruct (pde_IsDenied _ _); [done|]. by destruct (Connected _ _ _ _ _).
  - intros p. unfold CheckConnectionsBlocking. rewrite elem_of_ClosePeer, list_elem_of_filter. tauto.
  - intros [d|]; simpl; split; try done; by intros [? ?].
Qed.

End Denied.

Module Witness.

#[local] Instance holder : PreferredPeersHolderHandler peersHolder := peersHolder_PreferredPeersHolder 4294967280.

Definition lcms0 : connectionMonitor peersHolder nat :=
  mk 3 PeersHolder.Witness.ph2 0%nat (ListsShr Sharding.Witness.ls0) Idle false.
Definition watch (w : nat) (_ : PeerID) (_ : string) : nat := S w.
Definition conn0 : netConn := mkNetConn "conn-1" "p1" "/ip4/10.0.0.1/tcp/4000".

Lemma Disconnected_keeps_preferred_witness : exists lcms' events,
  Disconnected lcms0 ["x"] (Some conn0) = Ret (lcms', events) /\
  PeersHolder.Contains (preferredPeersHolder lcms') "p1" = true.
Proof.
  destruct (Disconnected_keeps_preferred 4294967280 lcms0 ["x"] conn0 eq_refl) as (lcms' & events & E & _ & Q).
  exists lcms', events. split; [exact E | exact Q].
Defined.

Lemma lcms0_sharder : cm_sharder lcms0 = ListsShr Sharding.Witness.ls0.
Proof. reflexivity. Qed.

Lemma Connected_trims_witness : exists lcms' events,
  Connected id watch lcms0 Sharding.Witness.peers conn0 = (lcms', events) /\
  connectionsWatcher lcms' = 1%nat /\
  len (filter (fun p => is_Some (class_of id Sharding.Witness.ls0
         (PeersHolder.Contains (preferredPeersHolder lcms')) p)) (remaining events Sharding.Witness.peers)) <= 6.
Proof.
  pose proof (Connected_trims id watch lcms0 Sharding.Witness.ls0 Sharding.Witness.peers conn0
                  lcms0_sharder Sharding.Witness.ls0_sized) as T.
  destruct (Connected id watch lcms0 Sharding.Witness.peers conn0) as [lcms' events].
  exists lcms', events. destruct T as (T1 & _ & _ & T2). split; [reflexivity | split; [exact T1 | exact T2]].
Defined.

Lemma run_two :
  cm_run id watch lcms0
    ([] ++ LCall [ReconnectToNetwork] :: [LTick ReconnectDone; LTick PauseOver] ++ LCall [ReconnectToNetwork] :: [])
    (set_loop Reconnecting lcms0).
Proof.
  apply (cm_cons _ _ _ _ (set_loop Reconnecting lcms0)); [by apply (cm_disconnected _ _ lcms0 ["x"] None)|].
  apply (cm_cons _ _ _ _ (set_loop Pausing lcms0)); [by apply cm_tick|].
  apply (cm_cons _ _ _ _ (set_loop Idle lcms0)); [by apply cm_tick|].
  apply (cm_cons _ _ _ _ (set_loop Reconnecting lcms0));
    [by apply (cm_disconnected _ _ (set_loop Idle lcms0) ["x"] None)|].
  apply cm_nil.
Qed.

Lemma reconnections_are_spaced_witness : LTick PauseOver ∈ [LTick ReconnectDone; LTick PauseOver].
Proof.
  refine (proj1 (reconnections_are_spaced id watch lcms0 [] _ _ _ [] _ run_two _ _)); set_solver.
Defined.

End Witness.
