(* ===== verification/Connections.v ===== *)
(** * Connections: how many peers stay connected
      ([libp2p/connectionMonitor], [libp2p/connectionMonitorWrapper.go],
       [libp2p/networksharding])

    The network calls [Connected] of the monitor for every new connection, in a
    goroutine of its own.  A handler looks at the connected peers, lets the sharder
    choose and closes the chosen peers one by one, while other peers connect and
    leave and other handlers run.  Theorem: whatever the interleaving, the peers with
    a connection whose handler has returned are never more than the sharder allows;
    so when no handler is pending or running, the connected peers are not.  The
    sharders are used through an interface that says what they allow. *)

From S2P Require Import Prelude Errors Interfaces Wire Distances Sharding PeersHolder ConnMonitor.
From Stdlib Require Import ZArith Lia String.
From stdpp Require Import prelude gmap list strings pretty.

Local Open Scope Z_scope.

(** ** What a sharder allows *)

(** Of the peers that count, at most [limit] are left by an eviction; a peer that
    becomes preferred does not begin to count. *)
Class EvictionLimit `{SortSort} (Pretty : PeerID -> string) (shr : sharder)
    (counted : (PeerID -> bool) -> PeerID -> bool) (limit : Z) : Prop := {
  counted_gained (preferred preferred' : PeerID -> bool) p :
    (forall q, preferred q = true -> preferred' q = true) -> counted preferred' p = true -> counted preferred p = true;
  eviction_leaves preferred peers : NoDup peers ->
    len (filter (fun p => counted preferred p = true /\ p ∉ shr_ComputeEvictionList Pretty shr preferred peers) peers) <= limit
}.

Section Limits.

Context `{SortSort} (Pretty : PeerID -> string).

(** Every peer with a class counts for the lists sharder. *)
Definition classed (ls : listsSharder) (preferred : PeerID -> bool) (p : PeerID) : bool :=
  bool_decide (is_Some (class_of Pretty ls preferred p)).
Definition in_class (ls : listsSharder) (c : Z) (preferred : PeerID -> bool) (p : PeerID) : bool :=
  bool_decide (class_of Pretty ls preferred p = Some c).

Lemma class_of_gained ls preferred preferred' p c :
  (forall q : PeerID, preferred q = true -> preferred' q = true) ->
  class_of Pretty ls preferred' p = Some c -> class_of Pretty ls preferred p = Some c.
Proof.
  intros Hq. unfold class_of. destruct (IsSeeder Pretty ls p); [done|].
  destruct (preferred p) eqn:E; [by rewrite (Hq _ E)|]. by destruct (preferred' p).
Qed.

(** The peers that stay, when no peer is listed twice, are those that are not evicted. *)
Lemma stay_not_evicted ls preferred peers stay (Q : PeerID -> Prop) `{!forall p, Decision (Q p)} :
  NoDup peers ->
  filter (fun p => is_Some (class_of Pretty ls preferred p)) peers ≡ₚ stay ++ ComputeEvictionList Pretty ls preferred peers ->
  (forall p, Q p -> is_Some (class_of Pretty ls preferred p)) ->
  (length (filter (fun p => Q p /\ p ∉ ComputeEvictionList Pretty ls preferred peers) peers) <= length (filter Q stay))%nat.
Proof.
  intros Hnd Hp HQ.
  set (ev := ComputeEvictionList Pretty ls preferred peers) in *.
  apply submseteq_length, NoDup_submseteq; [by apply NoDup_filter|].
  intros p [[Hqp Hev] Hin]%list_elem_of_filter. apply list_elem_of_filter. split; [done|].
  assert (p ∈ stay ++ ev) as [?|?]%elem_of_app; [|done|done]. rewrite <- Hp. apply list_elem_of_filter. auto.
Qed.

(** The lists sharder keeps its maximum, and in two classes the bound of the class; the
    one list sharder keeps its maximum of all peers. *)
#[export] Instance lists_limit ls : sized ls -> EvictionLimit Pretty (ListsShr ls) (classed ls) (maxPeerCount ls).
Proof.
  intros Hs. constructor.
  - unfold classed. intros preferred preferred' p Hq [c E]%bool_decide_eq_true. apply bool_decide_eq_true.
    exists c. by eapply class_of_gained.
  - intros preferred peers Hnd. pose proof (length_keptPeers Pretty ls preferred peers Hs) as Hl.
    pose proof (stay_not_evicted ls preferred peers _ (fun p => classed ls preferred p = true) Hnd
      (kept_evicted_peers Pretty ls preferred peers Hs) (fun p => proj1 (bool_decide_eq_true _))) as Hle.
    pose proof (length_filter (fun p => classed ls preferred p = true) (keptPeers Pretty ls preferred peers)).
    cbn [shr_ComputeEvictionList]. lia.
Qed.

#[export] Instance lists_class_limit ls c :
  sized ls -> c = seeders \/ c = fullHistoryObservers -> EvictionLimit Pretty (ListsShr ls) (in_class ls c) (bound ls c).
Proof.
  intros Hs Hc. constructor.
  - unfold in_class. intros preferred preferred' p Hq E%bool_decide_eq_true. apply bool_decide_eq_true.
    by eapply class_of_gained.
  - intros preferred peers Hnd. pose proof (keptPeers_class_bound Pretty ls preferred peers c Hs Hc) as Hl.
    pose proof (stay_not_evicted ls preferred peers _ (fun p => in_class ls c preferred p = true) Hnd
      (kept_evicted_peers Pretty ls preferred peers Hs)) as Hle.
    assert (forall p, in_class ls c preferred p = true <-> class_of Pretty ls preferred p = Some c) as E
      by (intros p; apply bool_decide_eq_true).
    rewrite (list_filter_iff _ (fun p => class_of Pretty ls preferred p = Some c) _ E) in Hle.
    cbn [shr_ComputeEvictionList]. etrans; [|exact Hl]. apply inj_le, Hle. intros p ->%E. by eexists.
Qed.

#[export] Instance one_list_limit ols :
  0 <= ols_maxPeerCount ols -> EvictionLimit Pretty (OneListShr ols) (fun _ _ => true) (ols_maxPeerCount ols).
Proof.
  intros Hm. constructor; [done|]. intros preferred peers Hnd. cbn [shr_ComputeEvictionList].
  unfold ols_ComputeEvictionList. rewrite evict_evicted by done. set (l := convertList ols peers).
  assert (ID <$> l = peers) as El by (unfold l, convertList; rewrite <- list_fmap_compose; apply list_fmap_id).
  pose proof (length_kept l (ols_maxPeerCount ols) Hm) as Hk.
  assert (length (filter (fun p => true = true /\ p ∉ ID <$> evicted l (ols_maxPeerCount ols)) peers) <=
          length (kept l (ols_maxPeerCount ols)))%nat as Hle; [|lia].
  rewrite <- (length_fmap ID (kept l _)). apply submseteq_length, NoDup_submseteq; [by apply NoDup_filter|].
  intros p [[_ Hev] Hin]%list_elem_of_filter. rewrite <- El, (kept_evicted l (ols_maxPeerCount ols)), fmap_app in Hin.
  by apply elem_of_app in Hin as [|].
Qed.

End Limits.

(** ** The connections of a node *)

(** Where the handler of a connection is: not called yet; called, with the calls on the
    network it has still to make; returned; or it closed the connection of a denied
    peer.  A called handler has its number, and the peers it saw that it has not
    closed. *)
Inductive handler : Type :=
| Pending
| Running (number : nat) (todo : list net_event) (seen : list PeerID)
| Done (number : nat)
| Denied.

Record link : Type := mkLink { at_end : netConn; is_open : bool; called : handler }.

Section Connections.

Context {P W D : Type} `{PreferredPeersHolderHandler P} `{PeerDenialEvaluator D} `{SortSort}.
Context (Pretty : PeerID -> string) (NewKnownConnection : W -> PeerID -> string -> W).

Record state : Type := mk {
  wrapper : connectionMonitorWrapper P W D;
  links : list link;
  numbers : nat
}.

Implicit Types (s : state) (i j : nat) (p : PeerID) (l : link).

(** [netw.Peers()]: the peers with an open connection, each once, in some order. *)
Definition Peers s (peers : list PeerID) : Prop :=
  NoDup peers /\ forall p, p ∈ peers <-> exists l, l ∈ links s /\ is_open l = true /\ RemotePeer (at_end l) = p.

Definition set_called ph l : link := mkLink (at_end l) (is_open l) ph.
Definition close l : link := mkLink (at_end l) false (called l).

(** [netw.ClosePeer]: every connection to the peer. *)
Definition closePeer p l : link := if decide (RemotePeer (at_end l) = p) then close l else l.

Definition holder_of s : P := preferredPeersHolder (inner (wrapper s)).
Definition preferred_of s : PeerID -> bool := pph_Contains (holder_of s).
Definition sharder_of s : sharder := cm_sharder (inner (wrapper s)).

Inductive step s : state -> Prop :=
(** A connection opens, in either direction; one closes, for any reason. *)
| opens conn : step s (mk (wrapper s) (links s ++ [mkLink conn true Pending]) (numbers s))
| closes i l : links s !! i = Some l -> step s (mk (wrapper s) (<[i := close l]> (links s)) (numbers s))
(** The network calls [Connected], which chooses the peers to close. *)
| calls i l peers w todo :
    links s !! i = Some l -> called l = Pending -> Peers s peers ->
    pde_IsDenied (peerDenialEvaluator (wrapper s)) (RemotePeer (at_end l)) = false ->
    wrapper_Connected Pretty NewKnownConnection (wrapper s) peers (at_end l) = (w, todo) ->
    step s (mk w (<[i := set_called (Running (numbers s) todo peers) l]> (links s)) (S (numbers s)))
(** For a denied peer it closes the connection. *)
| denies i l peers w events :
    links s !! i = Some l -> called l = Pending -> Peers s peers ->
    pde_IsDenied (peerDenialEvaluator (wrapper s)) (RemotePeer (at_end l)) = true ->
    wrapper_Connected Pretty NewKnownConnection (wrapper s) peers (at_end l) = (w, events) ->
    CloseConn (at_end l) ∈ events ->
    step s (mk w (<[i := close (set_called Denied l)]> (links s)) (numbers s))
(** A handler closes the next peer; a handler returns. *)
| evicts i l number p todo seen :
    links s !! i = Some l -> called l = Running number (ClosePeer p :: todo) seen ->
    step s (mk (wrapper s)
      (closePeer p <$> <[i := set_called (Running number todo (filter (fun q => q ≠ p) seen)) l]> (links s)) (numbers s))
| returns i l number seen :
    links s !! i = Some l -> called l = Running number [] seen ->
    step s (mk (wrapper s) (<[i := set_called (Done number) l]> (links s)) (numbers s))
(** The other methods of the monitor, and the other users of the preferred peers, of
    whom no peer loses the preference. *)
| others w : cm_sharder (inner w) = sharder_of s ->
    (forall p, preferred_of s p = true -> pph_Contains (preferredPeersHolder (inner w)) p = true) ->
    step s (mk w (links s) (numbers s)).

Inductive reach s0 : state -> Prop :=
| reach_start : reach s0 s0
| reach_step s s' : reach s0 s -> step s s' -> reach s0 s'.

(** A node without connections. *)
Definition start (w : connectionMonitorWrapper P W D) : state := mk w [] 0.

(** The peers whose connection a handler has gone over. *)
Definition settled s p : Prop :=
  exists l number, l ∈ links s /\ is_open l = true /\ called l = Done number /\ RemotePeer (at_end l) = p.

End Connections.
Arguments state : clear implicits.
Arguments mk {P W D}.

(** ** What a preferred peers holder promises *)

(** Recording an address takes no preference away. *)
Class PreferredPeersLaws (P : Type) `{PreferredPeersHolderHandler P} : Prop := {
  Contains_Put (h : P) p addr q : pph_Contains h q = true -> pph_Contains (pph_PutConnectionAddress h p addr) q = true
}.

#[export] Instance peersHolder_laws (AllShardId : Z) : @PreferredPeersLaws peersHolder (peersHolder_PreferredPeersHolder AllShardId).
Proof.
  constructor. intros h p addr q Hq. cbn in *.
  by destruct (PutConnectionAddress_cases AllShardId h p addr) as [->| ->].
Qed.

Section Correctness.

Context {P W D : Type} `{PreferredPeersLaws P} `{PeerDenialEvaluator D} `{SortSort}.
Context (Pretty : PeerID -> string) (NewKnownConnection : W -> PeerID -> string -> W).
Context (shr : sharder) (counted : (PeerID -> bool) -> PeerID -> bool) (limit : Z).
Context `{!EvictionLimit Pretty shr counted limit} (limit_nonneg : 0 <= limit).
Implicit Types (s : state P W D) (i j : nat) (p : PeerID) (l : link).

Abbreviation step := (step Pretty NewKnownConnection).
Abbreviation reach := (reach Pretty NewKnownConnection).

Definition number_of (h : handler) : option nat :=
  match h with Running n _ _ | Done n => Some n | Pending | Denied => None end.

(** The open connections whose handler was called before [n] are to peers of [ps]. *)
Definition within (ls : list link) (n : nat) (ps : list PeerID) : Prop :=
  forall l m, l ∈ ls -> is_open l = true -> number_of (called l) = Some m -> (m < n)%nat -> RemotePeer (at_end l) ∈ ps.

(** When a handler returns, few enough of the peers that it saw are left. *)
Definition running_ok s (n : nat) (todo : list net_event) (seen : list PeerID) : Prop :=
  within (links s) (S n) seen /\ NoDup seen /\
  exists ps, todo = ClosePeer <$> ps /\
    len (filter (fun p => counted (preferred_of s) p = true /\ p ∉ ps) seen) <= limit.

(** The handler that was called last of those that have returned left [rest]. *)
Definition done_ok s : Prop :=
  exists n rest, (n <= numbers s)%nat /\ NoDup rest /\ within (links s) n rest /\
    len (filter (fun p => counted (preferred_of s) p = true /\ p ∉ @nil PeerID) rest) <= limit /\
    forall l m, l ∈ links s -> called l = Done m -> (m < n)%nat.

Record inv s : Prop := {
  iv_sharder : sharder_of s = shr;
  iv_numbers l m : l ∈ links s -> number_of (called l) = Some m -> (m < numbers s)%nat;
  iv_running l n todo seen : l ∈ links s -> called l = Running n todo seen -> running_ok s n todo seen;
  iv_done : done_ok s
}.

Definition gained s s' : Prop := forall q, preferred_of s q = true -> preferred_of s' q = true.

(** The connections of [s'] were there in [s], but for a handler that is called. *)
Definition older s s' : Prop :=
  (numbers s <= numbers s')%nat /\
  forall l' m, l' ∈ links s' -> is_open l' = true -> number_of (called l') = Some m ->
    (exists l, l ∈ links s /\ is_open l = true /\ number_of (called l) = Some m /\ at_end l = at_end l') \/ m = numbers s.

Lemma within_older s s' n ps :
  older s s' -> (n <= numbers s)%nat -> within (links s) n ps -> within (links s') n ps.
Proof.
  intros [_ Ho] Hn Hw l' m Hin Hop Hm Hlt. destruct (Ho l' m Hin Hop Hm) as [(l & Hl & Hopl & Hml & <-)| ->]; [|lia].
  by eapply Hw.
Qed.

Lemma counted_later s s' (Q : PeerID -> Prop) `{!forall p, Decision (Q p)} ps :
  gained s s' -> len (filter (fun p => counted (preferred_of s) p = true /\ Q p) ps) <= limit ->
  len (filter (fun p => counted (preferred_of s') p = true /\ Q p) ps) <= limit.
Proof.
  intros Hg Hl. etrans; [|exact Hl]. apply inj_le, length_filter_impl. intros p _ [Hc HQ]. split; [|done].
  eapply (counted_gained (shr := shr)); [exact Hg | exact Hc].
Qed.

(** What a step keeps. *)
Lemma inv_frame s s' :
  inv s -> sharder_of s' = sharder_of s -> gained s s' -> older s s' ->
  (forall l' m, l' ∈ links s' -> number_of (called l') = Some m -> (m < numbers s')%nat) ->
  (forall l' n todo seen, l' ∈ links s' -> called l' = Running n todo seen ->
     (exists l, l ∈ links s /\ called l = Running n todo seen) \/ running_ok s' n todo seen) ->
  done_ok s' -> inv s'.
Proof.
  intros [Hs Hn Hr _] Es Hg Ho Hn' Hr' Hd'. constructor; [congruence | done| |done].
  intros l' n todo seen Hin Hc. destruct (Hr' l' n todo seen Hin Hc) as [(l & Hl' & Hc')|?]; [|done].
  destruct (Hr l n todo seen Hl' Hc') as (Hwl & Hndl & ps & Et & Hlen). split_and!; [|done|].
  - eapply within_older; [done | | done]. assert (n < numbers s)%nat; [|lia].
    apply (Hn l); [done | by rewrite Hc'].
  - exists ps. split; [done|]. by eapply counted_later.
Qed.

Lemma done_frame s s' :
  done_ok s -> gained s s' -> older s s' ->
  (forall l' m, l' ∈ links s' -> called l' = Done m -> exists l, l ∈ links s /\ called l = Done m) -> done_ok s'.
Proof.
  intros (n & rest & Hle & Hnd & Hw & Hl & Hd) Hg Ho Hd'. exists n, rest.
  split_and!; [destruct Ho; lia | done | by eapply within_older | by eapply counted_later|].
  intros l' m Hin Hc. destruct (Hd' l' m Hin Hc) as (l & Hl' & Hc'). by eapply Hd.
Qed.

Lemma elem_of_insert_link (ls : list link) i x l : l ∈ <[i := x]> ls -> l = x \/ l ∈ ls.
Proof.
  intros [j Hj]%list_elem_of_lookup. rewrite list_lookup_insert in Hj. case_decide; [left; by simplify_eq|].
  right. by eapply list_elem_of_lookup_2.
Qed.

Lemma gained_refl s s' : wrapper s' = wrapper s -> gained s s'.
Proof. unfold gained, preferred_of, holder_of. by intros ->. Qed.

(** Connections that are only closed, or whose handler has no number yet. *)
Lemma inv_changes s s' :
  inv s -> sharder_of s' = sharder_of s -> gained s s' -> numbers s' = numbers s ->
  (forall l', l' ∈ links s' -> number_of (called l') = None \/
     exists l, l ∈ links s /\ called l = called l' /\ at_end l = at_end l' /\ (is_open l' = true -> is_open l = true)) ->
  inv s'.
Proof.
  intros Hi Es Hg En Hl. assert (older s s') as Ho.
  { split; [lia|]. intros l' m Hin Hop Hm. destruct (Hl l' Hin) as [E|(l & Hl' & Ec & Ea & Eo)]; [congruence|].
    left. exists l. rewrite Ec. auto. }
  apply (inv_frame s); [done..| | |].
  - intros l' m Hin Hm. destruct (Hl l' Hin) as [E|(l & Hl' & Ec & _)]; [congruence|].
    rewrite En. eapply (iv_numbers _ Hi l); [done | by rewrite Ec].
  - intros l' n todo seen Hin Hc. destruct (Hl l' Hin) as [E|(l & Hl' & Ec & _)]; [by rewrite Hc in E|].
    left. exists l. by rewrite Ec.
  - apply (done_frame s); [apply Hi | done..|]. intros l' m Hin Hc.
    destruct (Hl l' Hin) as [E|(l & Hl' & Ec & _)]; [by rewrite Hc in E|]. exists l. by rewrite Ec.
Qed.

(** A handler is called: it has seen the peers of all open connections. *)
Lemma inv_calls s i l peers w todo :
  inv s -> links s !! i = Some l -> called l = Pending -> Peers s peers ->
  pde_IsDenied (peerDenialEvaluator (wrapper s)) (RemotePeer (at_end l)) = false ->
  wrapper_Connected Pretty NewKnownConnection (wrapper s) peers (at_end l) = (w, todo) ->
  inv (mk w (<[i := set_called (Running (numbers s) todo peers) l]> (links s)) (S (numbers s))).
Proof.
  intros Hi Hl Hp [Hnd Hpeers] Hde. unfold wrapper_Connected. rewrite Hde. intros [= <- <-].
  set (m' := set_holder _ _). set (s' := mk _ _ _).
  assert (gained s s') as Hg by (intros q; apply Contains_Put).
  assert (older s s') as Ho.
  { split; [cbn; lia|]. intros l' m [->|Hin]%elem_of_insert_link Hop Hm; [right; by injection Hm | left; by exists l']. }
  apply (inv_frame s); [done | done | done | done | | |].
  - intros l' m [->|Hin]%elem_of_insert_link Hm; cbn [numbers s']; [injection Hm as <-; lia|].
    pose proof (iv_numbers _ Hi l' m Hin Hm). lia.
  - intros l' n todo seen [->|Hin]%elem_of_insert_link Hc; [|left; by exists l']. right. injection Hc as <- <- <-.
    split_and!; [|done|].
    + intros l' m [->|Hin]%elem_of_insert_link Hop Hm _; apply Hpeers; [|by exists l'].
      exists l. split_and!; [by eapply list_elem_of_lookup_2 | exact Hop | done].
    + eexists. split; [reflexivity|]. unfold evictionList.
      assert (cm_sharder m' = shr) as -> by exact (iv_sharder _ Hi). by apply eviction_leaves.
  - apply (done_frame s); [apply Hi | done..|]. intros l' m [->|Hin]%elem_of_insert_link Hc; [done|]. by exists l'.
Qed.

(** A handler closes the next peer of its list. *)
Lemma inv_evicts s i l number p todo seen :
  inv s -> links s !! i = Some l -> called l = Running number (ClosePeer p :: todo) seen ->
  inv (mk (wrapper s)
    (closePeer p <$> <[i := set_called (Running number todo (filter (fun q => q ≠ p) seen)) l]> (links s)) (numbers s)).
Proof.
  intros Hi Hl Hc. apply list_elem_of_lookup_2 in Hl as Hin0. set (s' := mk _ _ _).
  assert (forall l', l' ∈ links s' -> exists l'', l'' ∈ links s /\ at_end l'' = at_end l' /\
    number_of (called l'') = number_of (called l') /\
    (is_open l' = true -> is_open l'' = true /\ RemotePeer (at_end l') ≠ p) /\
    (called l'' = called l' \/ called l' = Running number todo (filter (fun q => q ≠ p) seen))) as Hback.
  { intros l' (l1 & -> & [->|Hin]%elem_of_insert_link)%list_elem_of_fmap.
    - exists l. unfold closePeer. case_decide; cbn; rewrite Hc; by split_and!; auto.
    - exists l1. unfold closePeer. case_decide; cbn; by split_and!; auto. }
  assert (older s s') as Ho.
  { split; [done|]. intros l' m Hin Hop Hm. destruct (Hback l' Hin) as (l'' & ? & ? & En & Hopen & _).
    left. exists l''. rewrite En. split_and!; [done | by apply Hopen | done..]. }
  apply (inv_frame s); [done | done | by apply gained_refl | done | | |].
  - intros l' m Hin Hm. destruct (Hback l' Hin) as (l'' & ? & _ & En & _). rewrite <- En in Hm. by eapply (iv_numbers _ Hi).
  - intros l' n todo' seen' Hin Hc'. destruct (Hback l' Hin) as (l'' & Hin'' & _ & En & _ & [E|E]).
    { left. exists l''. by rewrite E. }
    right. rewrite Hc' in E. injection E as -> -> ->.
    destruct (iv_running _ Hi l _ _ _ Hin0 Hc) as (Hw & Hnd & ps & Et & Hlen). split_and!.
    + intros l1 m Hin1 Hop Hm Hlt. destruct (Hback l1 Hin1) as (l2 & Hin2 & Ea & En2 & Hopen & _).
      destruct (Hopen Hop) as [Hop2 Hne]. apply list_elem_of_filter. split; [done|].
      rewrite <- Ea. apply (Hw l2 m); [done | done | by rewrite En2 | done].
    + by apply NoDup_filter.
    + destruct ps as [|q ps]; [done|]. cbn in Et. injection Et as -> ->. exists ps. split; [done|].
      etrans; [|exact Hlen]. rewrite list_filter_filter. apply inj_le, length_filter_impl.
      intros x _ ([Hx Hn] & Hne). split; [done|]. by rewrite not_elem_of_cons.
  - apply (done_frame s); [apply Hi | by apply gained_refl | done|]. intros l' m Hin Hc'.
    destruct (Hback l' Hin) as (l'' & ? & _ & _ & _ & [E|E]); [exists l''; by rewrite E | by rewrite Hc' in E].
Qed.

(** A handler returns: it is the last of those that were called before it, or one that
    was called after it has returned already. *)
Lemma inv_returns s i l number seen :
  inv s -> links s !! i = Some l -> called l = Running number [] seen ->
  inv (mk (wrapper s) (<[i := set_called (Done number) l]> (links s)) (numbers s)).
Proof.
  intros Hi Hl Hc. apply list_elem_of_lookup_2 in Hl as Hin0. set (s' := mk _ _ _).
  assert (older s s') as Ho.
  { split; [done|]. intros l' m [->|Hin]%elem_of_insert_link Hop Hm; [|left; by exists l'].
    left. exists l. rewrite Hc. by split_and!. }
  assert (gained s s') as Hg by by apply gained_refl.
  assert (number < numbers s)%nat as Hlt by (apply (iv_numbers _ Hi l); [done | by rewrite Hc]).
  apply (inv_frame s); [done.. | | |].
  - intros l' m [->|Hin]%elem_of_insert_link Hm; [by injection Hm as <- | by eapply (iv_numbers _ Hi)].
  - intros l' n todo seen' [->|Hin]%elem_of_insert_link Hc'; [done|]. left. by exists l'.
  - destruct (iv_running _ Hi l _ _ _ Hin0 Hc) as (Hw & Hnd & ps & Et & Hlen).
    destruct (iv_done _ Hi) as (n0 & rest & Hle & Hndr & Hwr & Hlr & Hd).
    destruct (le_lt_dec n0 number) as [Hnew|Hold].
    + exists (S number), seen. split_and!; [cbn; lia | done | eapply within_older; [done | lia | done] | |].
      * apply (counted_later s); [done|]. by destruct ps.
      * intros l' m [->|Hin]%elem_of_insert_link Hc'; [injection Hc' as <-; lia|]. pose proof (Hd l' m Hin Hc'). lia.
    + exists n0, rest. split_and!; [done | done | by eapply within_older | by apply (counted_later s)|].
      intros l' m [->|Hin]%elem_of_insert_link Hc'; [by injection Hc' as <- | by eapply Hd].
Qed.

Lemma inv_step s s' : inv s -> step s s' -> inv s'.
Proof.
  intros Hi Hst. destruct Hst as [conn|i l Hl|i l peers w todo|i l peers w events Hl Hc [Hnd Hp] Hde Hw _|i l number p todo seen Hl Hc
    |i l number seen Hl Hc|w Es Hg].
  - apply (inv_changes s); [done | done | by apply gained_refl | done|]. intros l' [Hin| ->%list_elem_of_singleton]%elem_of_app.
    + right. by exists l'.
    + by left.
  - apply (inv_changes s); [done | done | by apply gained_refl | done|]. intros l' [->|Hin]%elem_of_insert_link; right.
    + exists l. split_and!; [by eapply list_elem_of_lookup_2 | done..].
    + by exists l'.
  - by apply inv_calls.
  - unfold wrapper_Connected in Hw. rewrite Hde in Hw. injection Hw as <- _.
    apply (inv_changes s); [done | done | by apply gained_refl | done|].
    intros l' [->|Hin]%elem_of_insert_link; [by left | right; by exists l'].
  - by apply inv_evicts.
  - by eapply inv_returns.
  - apply (inv_changes s); [done.. |]. intros l' Hin. right. by exists l'.
Qed.

Lemma inv_reach w s : cm_sharder (inner w) = shr -> reach (start w) s -> inv s.
Proof.
  intros Hs. induction 1 as [|s s' _ IH Hst]; [|by eapply inv_step].
  constructor; cbn; [done | set_solver | set_solver|].
  exists 0%nat, []. split_and!; [done | constructor | intros l m; set_solver | done | set_solver].
Qed.

(** [C17] The number of connected peers.  Whatever the interleaving of new connections,
    lost connections, handlers and calls on the network: the peers that count for the
    sharder and have a connection whose handler has returned are never more than its
    limit; so when the handler of every open connection has returned, the connected
    peers that count are not more than the limit. *)
Theorem connections_bounded w s :
  cm_sharder (inner w) = shr -> reach (start w) s ->
  (forall ps, NoDup ps -> (forall p, p ∈ ps -> settled s p /\ counted (preferred_of s) p = true) -> len ps <= limit) /\
  ((forall l, l ∈ links s -> is_open l = true -> exists number, called l = Done number) ->
   forall peers, Peers s peers -> len (filter (fun p => counted (preferred_of s) p = true) peers) <= limit).
Proof.
  intros Hs Hr. destruct (iv_done _ (inv_reach w s Hs Hr)) as (n & rest & _ & Hnd & Hw & Hlen & Hd).
  assert (forall ps, NoDup ps -> (forall p, p ∈ ps -> settled s p /\ counted (preferred_of s) p = true) -> len ps <= limit) as Hb.
  { intros ps Hps Hset. etrans; [|exact Hlen]. apply inj_le, submseteq_length, NoDup_submseteq; [done|].
    intros p Hp. destruct (Hset p Hp) as [(l & m & Hl & Hop & Hc & <-) Hcp]. apply list_elem_of_filter.
    split; [split; [done | apply not_elem_of_nil]|]. apply (Hw l m); [done | done | by rewrite Hc | by eapply Hd]. }
  split; [exact Hb|]. intros Hall peers [Hndp Hp]. apply Hb; [by apply NoDup_filter|].
  intros p [Hcp Hin]%list_elem_of_filter. split; [|done]. apply Hp in Hin as (l & Hl & Hop & Ep).
  destruct (Hall l Hl Hop) as [m Hm]. by exists l, m.
Qed.

End Correctness.

(** Validators and unknown peers connect; two handlers run at once. *)
Module Witness.

#[local] Instance holder : PreferredPeersHolderHandler peersHolder := peersHolder_PreferredPeersHolder 4294967280.
#[local] Existing Instance disabled_PeerDenialEvaluator.
Abbreviation ls0 := Sharding.Witness.ls0.
Abbreviation watch := ConnMonitor.Witness.watch.
Abbreviation state0 := (state peersHolder nat unit).

Definition w0 : connectionMonitorWrapper peersHolder nat unit := mkWrapper ConnMonitor.Witness.lcms0 tt.

Inductive action : Type := Open (p : PeerID) | Call (i : nat) | Evict (i : nat) | Return (i : nat).

Definition peers_of (s : state0) : list PeerID :=
  remove_dups ((fun l => RemotePeer (at_end l)) <$> filter (fun l => is_open l = true) (links s)).

Lemma peers_of_Peers s : Peers s (peers_of s).
Proof.
  split; [apply NoDup_remove_dups|]. intros p. unfold peers_of. rewrite elem_of_remove_dups, list_elem_of_fmap. split.
  - intros (l & -> & [Ho Hin]%list_elem_of_filter). by exists l.
  - intros (l & Hin & Ho & <-). exists l. split; [done|]. by apply list_elem_of_filter.
Qed.

Fixpoint exec (s : state0) (acts : list action) : option state0 :=
  match acts with
  | [] => Some s
  | Open p :: acts => exec (mk (wrapper s) (links s ++ [mkLink (mkNetConn ("c-" +:+ p) p ("/ip4/10.0.0.2/p2p/" +:+ p)) true Pending])
                              (numbers s)) acts
  | Call i :: acts =>
      l ← links s !! i;
      match called l with
      | Pending =>
          let '(w, todo) := wrapper_Connected id watch (wrapper s) (peers_of s) (at_end l) in
          exec (mk w (<[i := set_called (Running (numbers s) todo (peers_of s)) l]> (links s)) (S (numbers s))) acts
      | _ => None
      end
  | Evict i :: acts =>
      l ← links s !! i;
      match called l with
      | Running n (ClosePeer p :: todo) seen =>
          exec (mk (wrapper s) (closePeer p <$> <[i := set_called (Running n todo (filter (fun q => q ≠ p) seen)) l]> (links s))
                   (numbers s)) acts
      | _ => None
      end
  | Return i :: acts =>
      l ← links s !! i;
      match called l with
      | Running n [] seen => exec (mk (wrapper s) (<[i := set_called (Done n) l]> (links s)) (numbers s)) acts
      | _ => None
      end
  end.

Lemma exec_connections s0 s acts s' : reach id watch s0 s -> exec s acts = Some s' -> reach id watch s0 s'.
Proof.
  revert s. induction acts as [|[p|i|i|i] acts IH]; intros s Hr; cbn [exec]; [by intros [= <-]|..].
  - apply IH. eapply reach_step; [exact Hr | constructor].
  - destruct (links s !! i) as [l|] eqn:E; [|done]. cbn [mbind option_bind]. destruct (called l) eqn:Ec; try done.
    destruct (wrapper_Connected _ _ _ _ _) as [w todo] eqn:Ew. apply IH. eapply reach_step; [exact Hr|].
    eapply calls; [done | done | apply peers_of_Peers | done | exact Ew].
  - destruct (links s !! i) as [l|] eqn:E; [|done]. cbn [mbind option_bind]. destruct (called l) as [|n [|[p| | |] todo] seen| |] eqn:Ec; try done.
    apply IH. eapply reach_step; [exact Hr|]. by eapply evicts.
  - destruct (links s !! i) as [l|] eqn:E; [|done]. cbn [mbind option_bind]. destruct (called l) as [|n [|] seen| |] eqn:Ec; try done.
    apply IH. eapply reach_step; [exact Hr|]. by eapply returns.
Qed.

(** Three handlers run at once and all choose to close [val1]; the one called last
    returns first. *)
Definition acts1 : list action :=
  [Open "val1"; Open "val2"; Open "unkn1"; Call 1; Open "unkn2"; Call 0; Call 2; Evict 2; Return 2; Call 3; Return 3;
   Evict 1; Return 1; Evict 0; Return 0].
Definition connected1 : state0 := default (start w0) (exec (start w0) acts1).

Lemma connected1_reach : reach id watch (start w0) connected1.
Proof.
  apply (exec_connections _ (start w0) acts1); [apply reach_start|].
  assert (match exec (start w0) acts1 with Some _ => true | None => false end = true) as Hs by (vm_compute; reflexivity).
  unfold connected1. by destruct (exec (start w0) acts1).
Qed.

Lemma connections_bounded_witness : peers_of connected1 = ["val2"; "unkn1"; "unkn2"] /\
  len (filter (fun p => classed id ls0 (preferred_of connected1) p = true) (peers_of connected1)) <= maxPeerCount ls0.
Proof.
  split; [vm_compute; reflexivity|].
  pose proof (lists_limit id ls0 Sharding.Witness.ls0_sized) as L.
  apply (proj2 (connections_bounded id watch (ListsShr ls0) (classed id ls0) (maxPeerCount ls0) ltac:(vm_compute; discriminate) w0 connected1
    eq_refl connected1_reach)); [|apply peers_of_Peers].
  intros l Hl Ho. assert (Forall (fun l => is_open l = true -> exists n, called l = Done n) (links connected1)) as F.
  { vm_compute. repeat constructor; intros E; solve [discriminate E | by eexists]. }
  rewrite Forall_forall in F. by apply F.
Defined.

End Witness.
