(* ===== verification/Discovery.v ===== *)
(** * Discovery: the peer discoverers ([libp2p/discovery], [libp2p/discovery/factory])

    The continuous (legacy) discoverer dials the seeders in turn until one
    answers, then bootstraps the DHT; the optimized discoverer runs one loop that
    serves initialisation, reconnection to the seeders and peer finding.  The DHT,
    the host and the clock are parameters: the answers of the host are functions,
    and the calls to the DHT are returned as events. *)

From S2P Require Import Prelude Errors Config Interfaces Wire Distances Sharding.
From Stdlib Require Import ZArith Lia String.
From stdpp Require Import prelude gmap list strings pretty.

Local Open Scope Z_scope.

(** ** Arguments *)

(** Arguments that may be nil are optional; [KddSharder] may also be a sharder
    without the methods of [discovery.Sharder]. *)
Inductive kddSharder : Type := NilSharder | OtherSharder | DiscoverySharder (s : sharder).

Record ArgKadDht : Type := mkArgKadDht {
  arg_Context : option unit;
  arg_Host : option unit;
  PeersRefreshInterval : Z;
  SeedersReconnectionInterval : Z;
  arg_ProtocolID : string;
  InitialPeersList : list string;
  arg_BucketSize : Z;
  RoutingTableRefresh : Z;
  KddSharder : kddSharder;
  ConnectionWatcher : option unit
}.

Definition prepareArguments (arg : ArgKadDht) : result sharder :=
  match arg_Context arg, arg_Host arg, KddSharder arg, ConnectionWatcher arg with
  | None, _, _, _ => Err ErrNilContext
  | _, None, _, _ => Err ErrNilHost
  | _, _, NilSharder, _ => Err ErrNilSharder
  | _, _, _, None => Err ErrNilConnectionsWatcher
  | Some _, Some _, OtherSharder, Some _ =>
      Err (ErrWrap ErrWrongTypeAssertion " for sharder: expected discovery.Sharder type of interface")
  | Some _, Some _, DiscoverySharder s, Some _ =>
      if PeersRefreshInterval arg <? second then
        Err (ErrWrap ErrInvalidValue ", PeersRefreshInterval should have been at least 1 second")
      else if RoutingTableRefresh arg <? second then
        Err (ErrWrap ErrInvalidValue ", RoutingTableRefresh should have been at least 1 second")
      else Ok s
  end.

(** The options given to [dht.New]; both discoverers give the same ones. *)
Inductive dht_option : Type :=
| ProtocolPrefix (protocolID : string)
| RoutingTableRefreshPeriod (period : Z)
| ModeServer.

Inductive dht_event : Type :=
| NewDHT (options : list dht_option)
| DHTBootstrap
| RemoveStreamHandler (protocolID : string)
| DHTClose.

(** ** The continuous discoverer *)

Section Continuous.

Record ContinuousKadDhtDiscoverer : Type := mkContinuous {
  ck_sharder : sharder;
  ck_peersRefreshInterval : Z;
  ck_protocolID : string;
  ck_initialPeersList : list string;
  ck_bucketSize : Z;
  ck_routingTableRefresh : Z;
  (* [kadDHT != nil] and [refreshCancel != nil] *)
  ck_kadDHT : bool;
  ck_refreshCancel : bool
}.

Implicit Types (ckdd : ContinuousKadDhtDiscoverer).

(** The seeders are set in the shared sharder. *)
Definition NewContinuousKadDhtDiscoverer (arg : ArgKadDht) : result ContinuousKadDhtDiscoverer :=
  let? s := prepareArguments arg in
  let s := shr_SetSeeders s (InitialPeersList arg) in
  Ok (mkContinuous s (PeersRefreshInterval arg) (arg_ProtocolID arg) (InitialPeersList arg)
        (arg_BucketSize arg) (RoutingTableRefresh arg) false false).

Definition set_dht (kadDHT refreshCancel : bool) ckdd : ContinuousKadDhtDiscoverer :=
  mkContinuous (ck_sharder ckdd) (ck_peersRefreshInterval ckdd) (ck_protocolID ckdd)
    (ck_initialPeersList ckdd) (ck_bucketSize ckdd) (ck_routingTableRefresh ckdd) kadDHT refreshCancel.

(** The bucket size of the configuration is not among the options. *)
Definition ck_dht_options ckdd : list dht_option :=
  [ProtocolPrefix (ck_protocolID ckdd); RoutingTableRefreshPeriod (ck_routingTableRefresh ckdd); ModeServer].

(** [newDHT] is the answer of [dht.New].  On success the goroutine that connects
    to the seeders is started. *)
Definition startDHT ckdd (newDHT : option error) : option error * ContinuousKadDhtDiscoverer * list dht_event :=
  match newDHT with
  | Some err => (Some err, ckdd, [NewDHT (ck_dht_options ckdd)])
  | None => (None, set_dht true true ckdd, [NewDHT (ck_dht_options ckdd)])
  end.

Definition Bootstrap ckdd (newDHT : option error) : option error * ContinuousKadDhtDiscoverer * list dht_event :=
  if ck_kadDHT ckdd then (Some (ErrSentinel ErrPeerDiscoveryProcessAlreadyStarted), ckdd, [])
  else startDHT ckdd newDHT.

Definition stopDHT ckdd (closeDHT : option error) : option error * ContinuousKadDhtDiscoverer * list dht_event :=
  if ck_refreshCancel ckdd then
    (closeDHT, set_dht false false ckdd, [RemoveStreamHandler (ck_protocolID ckdd); DHTClose])
  else (None, ckdd, []).

(** The line written when a seeder could not be dialled: an unwanted peer is not worth
    more than a trace. *)
Inductive log_level : Type := Trace | Debug.
Definition printConnectionErrorToSeeder (peer : string) (err : error) : log_level * string * list (string * string) :=
  if errors_Is err ErrUnwantedPeer then
    (Trace, "tryConnectToSeeder: unwanted peer", [("seeder", peer); ("error", Error err)])
  else (Debug, "error connecting to seeder", [("seeder", peer); ("error", Error err)]).

(** How the dialling of the seeders ends. *)
Inductive dial : Type :=
| Connected (attempt : nat) (address : string)
| ContextDone (attempt : nat)
| StillDialling.

(** The loop of [tryConnectToSeeder] from attempt [n] on: [connect n] is the answer
    of the host at that attempt and [done n] tells whether the context is done
    after it.  The loop may run for ever: [fuel] bounds the attempts looked at. *)
Fixpoint tryConnectToSeeder (connect : nat -> string -> option error) (done : nat -> bool)
    (initialPeersList : list string) (fuel n startIndex : nat) : dial :=
  match fuel with
  | O => StillDialling
  | S fuel =>
      match initialPeersList !! startIndex with
      | None => StillDialling
      | Some initialPeer =>
          match connect n initialPeer with
          | None => Connected n initialPeer
          | Some _ =>
              let startIndex := (S startIndex mod length initialPeersList)%nat in
              if done n then ContextDone n
              else tryConnectToSeeder connect done initialPeersList fuel (S n) startIndex
          end
      end
  end.

(** [None]: the channel is filled at once, as there is nothing to dial. *)
Definition connectToOnePeerFromInitialPeersList (connect : nat -> string -> option error)
    (done : nat -> bool) (initialPeersList : list string) (fuel : nat) : option dial :=
  match initialPeersList with
  | [] => None
  | _ => Some (tryConnectToSeeder connect done initialPeersList fuel 0 0)
  end.

(** One round of [bootstrap]: a lookup failure of the DHT causes a reconnection. *)
Definition bootstrapRound ckdd (lookupFailure : bool) : list dht_event * bool :=
  if ck_kadDHT ckdd then ([DHTBootstrap], lookupFailure) else ([], false).

(** Dialling the seeders.  When the first attempt that succeeds is attempt [n]
    and the context is not done before, the discoverer connects at exactly that
    attempt, having tried the seeders in turn: attempt [i] dials seeder [i]
    modulo their number.  If the context is done first, it stops there. *)
Theorem tryConnectToSeeder_round_robin connect done seeders n fuel :
  seeders ≠ [] -> (n < fuel)%nat ->
  (forall i s, (i < n)%nat -> connect i s ≠ None) ->
  (forall i, (i < n)%nat -> done i = false) ->
  exists s, seeders !! (n mod length seeders)%nat = Some s /\
    (connect n s = None -> tryConnectToSeeder connect done seeders fuel 0 0 = Connected n s) /\
    (connect n s ≠ None -> done n = true -> tryConnectToSeeder connect done seeders fuel 0 0 = ContextDone n).
Proof.
  intros Hne Hf Hfail Hdone. assert (0 < length seeders)%nat as Hl by (destruct seeders; [done | simpl; lia]).
  assert (forall k, exists s, seeders !! (k mod length seeders)%nat = Some s) as Hs.
  { intros k. apply lookup_lt_is_Some_2, Nat.mod_upper_bound. lia. }
  assert (forall k m, (k <= n)%nat -> (n - k < m)%nat ->
    tryConnectToSeeder connect done seeders m k (k mod length seeders) =
    tryConnectToSeeder connect done seeders (m - (n - k)) n (n mod length seeders)) as Hrun.
  { intros k m Hk. remember (n - k)%nat as d eqn:Ed. revert k m Hk Ed.
    induction d as [|d IH]; intros k m Hk Ed Hm.
    - assert (k = n) as -> by lia. by rewrite Nat.sub_0_r.
    - destruct m as [|m]; [lia|]. cbn [tryConnectToSeeder].
      destruct (Hs k) as [s ->]. destruct (connect k s) as [e|] eqn:Ec; [|by apply Hfail in Ec; [|lia]].
      rewrite Hdone by lia.
      assert (S (k mod length seeders) mod length seeders = S k mod length seeders)%nat as ->.
      { rewrite <- (Nat.add_1_r (k mod _)), <- (Nat.add_1_r k). by rewrite Nat.Div0.add_mod_idemp_l. }
      rewrite IH by lia. f_equal. }
  destruct (Hs n) as [s Es]. exists s. split; [done|].
  pose proof (Hrun 0%nat fuel ltac:(lia) ltac:(lia)) as R. rewrite Nat.Div0.mod_0_l in R.
  rewrite R. destruct (fuel - (n - 0))%nat as [|m] eqn:Em; [lia|]. cbn [tryConnectToSeeder].
  rewrite Es. split; [by intros -> | intros Hc Hd; destruct (connect n s); [by rewrite Hd | done]].
Qed.

End Continuous.

(** ** The optimized discoverer *)

Section Optimized.

(** Address parsing, and the answers of the host with connection management. *)
Context {I : Type} (AddressToPeerInfo : string -> result I).
Context (IsConnected : I -> bool) (Connect : I -> option error).

Inductive discovererStatus : Type := statNotInitialized | statInitialized.
Definition minIntervalForSeedersReconnection : Z := second.

Record optimizedKadDhtDiscoverer : Type := mkOptimized {
  ok_sharder : sharder;
  ok_peersRefreshInterval : Z;
  ok_seedersReconnectionInterval : Z;
  ok_protocolID : string;
  ok_initialPeersList : list string;
  ok_bucketSize : Z;
  ok_routingTableRefresh : Z;
  ok_status : discovererStatus;
  ok_kadDHT : bool
}.

Implicit Types (okdd : optimizedKadDhtDiscoverer).

Definition NewOptimizedKadDhtDiscoverer (arg : ArgKadDht) : result optimizedKadDhtDiscoverer :=
  let? s := prepareArguments arg in
  if SeedersReconnectionInterval arg <? minIntervalForSeedersReconnection then
    Err ErrInvalidSeedersReconnectionInterval
  else
    let s := shr_SetSeeders s (InitialPeersList arg) in
    Ok (mkOptimized s (PeersRefreshInterval arg) (SeedersReconnectionInterval arg) (arg_ProtocolID arg)
          (InitialPeersList arg) (arg_BucketSize arg) (RoutingTableRefresh arg) statNotInitialized false).

Definition createChTimeSeedersReconnect okdd (isConnectedToSeeders : bool) : Z :=
  if isConnectedToSeeders then ok_seedersReconnectionInterval okdd else ok_peersRefreshInterval okdd.

(** What [createKadDht] gives to [dht.New]; the bucket size is not used here either. *)
Definition createKadDht okdd : list dht_option :=
  [ProtocolPrefix (ok_protocolID okdd); RoutingTableRefreshPeriod (ok_routingTableRefresh okdd); ModeServer].

(** [newDHT] is the answer of [createKadDhtHandler]. *)
Definition init okdd (newDHT : option error) : option error * optimizedKadDhtDiscoverer * list dht_event :=
  match ok_status okdd with
  | statInitialized => (Some (ErrSentinel ErrPeerDiscoveryProcessAlreadyStarted), okdd, [])
  | statNotInitialized =>
      match newDHT with
      | Some err => (Some err, okdd, [NewDHT (createKadDht okdd)])
      | None =>
          (None, mkOptimized (ok_sharder okdd) (ok_peersRefreshInterval okdd) (ok_seedersReconnectionInterval okdd)
                   (ok_protocolID okdd) (ok_initialPeersList okdd) (ok_bucketSize okdd)
                   (ok_routingTableRefresh okdd) statInitialized true, [NewDHT (createKadDht okdd)])
      end
  end.

(** The second component tells whether the seeder was dialled. *)
Definition connectToSeeder (seederAddress : string) : option error * bool :=
  match AddressToPeerInfo seederAddress with
  | Err err => (Some err, false)
  | Ok seederInfo => if IsConnected seederInfo then (None, false) else (Connect seederInfo, true)
  end.

(** The loop over the seeders; [done i] tells whether the context is done after the
    [i]-th of them.  The addresses tried are returned. *)
Fixpoint tryLoop (done : nat -> bool) (i : nat) (connectedToOneSeeder : bool) (seeders : list string) :
    bool * list string :=
  match seeders with
  | [] => (connectedToOneSeeder, [])
  | seederAddress :: seeders =>
      let '(err, _) := connectToSeeder seederAddress in
      let connectedToOneSeeder := match err with Some _ => connectedToOneSeeder | None => true end in
      if done i then (true, [seederAddress])
      else
        let '(res, tried) := tryLoop done (S i) connectedToOneSeeder seeders in
        (res, seederAddress :: tried)
  end.

Definition tryToReconnectAtLeastToASeeder okdd (done : nat -> bool) : bool * list string :=
  match ok_status okdd with
  | statNotInitialized => (false, [])
  | statInitialized =>
      match ok_initialPeersList okdd with
      | [] => (true, [])
      | seeders => tryLoop done 0 false seeders
      end
  end.

(** The next time of the seeders timer, and the addresses tried. *)
Definition processSeedersReconnect okdd (done : nat -> bool) : Z * list string :=
  let '(isConnectedToSeeders, tried) := tryToReconnectAtLeastToASeeder okdd done in
  (createChTimeSeedersReconnect okdd isConnectedToSeeders, tried).

Definition findPeers okdd : list dht_event :=
  match ok_status okdd with statInitialized => [DHTBootstrap] | statNotInitialized => [] end.

(** The error is what [Bootstrap] returns. *)
Definition processInit okdd (newDHT : option error) (done : nat -> bool) :
    option error * optimizedKadDhtDiscoverer * Z * list dht_event * list string :=
  let '(err, okdd, events) := init okdd newDHT in
  match err with
  | Some err => (Some err, okdd, createChTimeSeedersReconnect okdd false, events, [])
  | None =>
      let '(ch, tried) := processSeedersReconnect okdd done in
      (None, okdd, ch, events ++ findPeers okdd, tried)
  end.

(** The requests the loop serves. *)
Inductive request : Type :=
| Init (newDHT : option error)
| SeedersReconnect
| FindPeers.

(** One round of [processLoop]: the answer to [Bootstrap] if the request is one,
    the new delay of the seeders timer if it was set. *)
Definition processLoop okdd (req : request) (done : nat -> bool) :
    option (option error) * optimizedKadDhtDiscoverer * option Z * list dht_event :=
  match req with
  | Init newDHT =>
      let '(err, okdd, ch, events, _) := processInit okdd newDHT done in (Some err, okdd, Some ch, events)
  | SeedersReconnect => let '(ch, _) := processSeedersReconnect okdd done in (None, okdd, Some ch, [])
  | FindPeers => (None, okdd, None, findPeers okdd)
  end.

Fixpoint processRequests okdd (reqs : list (request * (nat -> bool))) :
    list (option (option error)) * optimizedKadDhtDiscoverer * list dht_event :=
  match reqs with
  | [] => ([], okdd, [])
  | (req, done) :: reqs =>
      let '(answer, okdd, _, events) := processLoop okdd req done in
      let '(answers, okdd, events') := processRequests okdd reqs in
      (answer :: answers, okdd, events ++ events')
  end.

Lemma tryLoop_spec done i c seeders :
  (forall j, done j = false) ->
  tryLoop done i c seeders = (c || existsb (fun s => bool_decide ((connectToSeeder s).1 = None)) seeders, seeders).
Proof.
  intros Hd. revert i c. induction seeders as [|s seeders IH]; intros i c; simpl; [by rewrite orb_false_r|].
  destruct (connectToSeeder s) as [err b]. rewrite Hd, IH. simpl.
  by destruct err, c.
Qed.

(** Seeders.  Once initialised and while the context lives, a reconnection tries
    every seeder once, in order; it counts as successful exactly when one of them
    is connected (or there are none), and the next one follows after the long
    interval in this case and after the short one otherwise.  Before the
    initialisation nothing is dialled. *)
Theorem processSeedersReconnect_spec okdd done :
  (forall j, done j = false) ->
  processSeedersReconnect okdd done =
    match ok_status okdd with
    | statNotInitialized => (ok_peersRefreshInterval okdd, [])
    | statInitialized =>
        ((if decide (ok_initialPeersList okdd = [] \/
                     Exists (fun s => (connectToSeeder s).1 = None) (ok_initialPeersList okdd))
          then ok_seedersReconnectionInterval okdd else ok_peersRefreshInterval okdd),
         ok_initialPeersList okdd)
    end.
Proof.
  intros Hd. unfold processSeedersReconnect, tryToReconnectAtLeastToASeeder.
  destruct (ok_status okdd); [done|].
  destruct (ok_initialPeersList okdd) as [|s l] eqn:El; [by rewrite decide_True by (by left)|].
  rewrite tryLoop_spec by done. cbn [orb]. f_equal. unfold createChTimeSeedersReconnect.
  destruct (decide _) as [[?|He]|Hn]; [done | |].
  - rewrite (proj2 (existsb_exists _ _)); [done|]. apply Exists_exists in He as (x & Hx & Hc).
    exists x. rewrite <- list_elem_of_In, bool_decide_eq_true. done.
  - destruct (existsb _ _) eqn:Ex; [|done]. exfalso. apply Hn. right. apply Exists_exists.
    apply existsb_exists in Ex as (x & Hx & Hc%bool_decide_eq_true). exists x. by rewrite list_elem_of_In.
Qed.

(** After the initialisation. *)
Lemma initialized_forever okdd reqs answers okdd' events :
  ok_status okdd = statInitialized -> processRequests okdd reqs = (answers, okdd', events) ->
  ok_status okdd' = statInitialized /\
  (forall a, Some a ∈ answers -> a = Some (ErrSentinel ErrPeerDiscoveryProcessAlreadyStarted)) /\
  (forall p, NewDHT p ∉ events).
Proof.
  revert answers events. induction reqs as [|[req done] reqs IH]; intros answers events Hs E; simpl in E.
  - simplify_eq. split_and!; [done | set_solver | set_solver].
  - destruct (processRequests okdd reqs) as [[as2 o2] ev2] eqn:E2.
    destruct (IH as2 ev2 Hs) as (I1 & I2 & I3).
    { destruct req; simpl in E; try (destruct (processSeedersReconnect _ _)).
      - unfold processInit, init in E. rewrite Hs, E2 in E. by simplify_eq.
      - rewrite E2 in E. by simplify_eq.
      - rewrite E2 in E. by simplify_eq. }
    assert (exists a0 ev0, processLoop okdd req done = (a0, okdd, (processLoop okdd req done).1.2, ev0) /\
      (forall a, a0 = Some a -> a = Some (ErrSentinel ErrPeerDiscoveryProcessAlreadyStarted)) /\
      (forall p, NewDHT p ∉ ev0)) as (a0 & ev0 & E0 & H1 & H2).
    { destruct req; simpl.
      - unfold processInit, init. rewrite Hs. eexists _, _. split; [done|]. split; [by intros a [= <-] | set_solver].
      - destruct (processSeedersReconnect _ _). eexists _, _. split; [done|]. split; [done | set_solver].
      - unfold findPeers. rewrite Hs. eexists _, _. split; [done|]. split; [done | set_solver]. }
    rewrite E0, E2 in E. simplify_eq. split_and!; [done | |].
    + intros a [Ha|Ha]%elem_of_cons; [by apply H1 | by apply I2].
    + intros p. rewrite elem_of_app. specialize (H2 p). specialize (I3 p). tauto.
Qed.

(** One initialisation.  Whatever requests the loop of the optimized discoverer
    serves from the start, at most one [Bootstrap] succeeds, it builds the only
    DHT, every later one is answered that the discovery was already started, and
    as long as none has succeeded the DHT is not used. *)
Theorem one_initialisation okdd reqs answers okdd' events :
  ok_status okdd = statNotInitialized -> processRequests okdd reqs = (answers, okdd', events) ->
  (exists before after, answers = before ++ Some None :: after /\
     (forall a, Some a ∈ after -> a = Some (ErrSentinel ErrPeerDiscoveryProcessAlreadyStarted)) /\
     Some None ∉ before /\ ok_status okdd' = statInitialized) \/
  (Some None ∉ answers /\ DHTBootstrap ∉ events /\ ok_status okdd' = statNotInitialized).
Proof.
  revert okdd answers events. induction reqs as [|[req done] reqs IH]; intros okdd answers events Hs E; simpl in E.
  - simplify_eq. right. split_and!; [set_solver | set_solver | done].
  - destruct req as [newDHT| |]; simpl in E.
    + unfold processInit, init in E. rewrite Hs in E. destruct newDHT as [err|].
      * destruct (processRequests okdd reqs) as [[as2 o2] ev2] eqn:E2. simplify_eq.
        destruct (IH okdd as2 ev2 Hs E2) as [(b & a & -> & Ha & Hb & Hi)|(H1 & H2 & H3)].
        -- left. exists (Some (Some err) :: b), a. split_and!; try done. set_solver.
        -- right. split_and!; [set_solver | set_solver | done].
      * destruct (processSeedersReconnect _ _) as [ch tried].
        destruct (processRequests _ reqs) as [[as2 o2] ev2] eqn:E2. simplify_eq.
        apply initialized_forever in E2 as (H1 & H2 & _); [|done].
        left. exists [], as2. split_and!; try done. set_solver.
    + destruct (processSeedersReconnect _ _) as [ch tried].
      destruct (processRequests okdd reqs) as [[as2 o2] ev2] eqn:E2. simplify_eq.
      destruct (IH okdd as2 ev2 Hs E2) as [(b & a & -> & Ha & Hb & Hi)|(H1 & H2 & H3)].
      * left. exists (None :: b), a. split_and!; try done. set_solver.
      * right. split_and!; [set_solver | set_solver | done].
    + unfold findPeers in E. rewrite Hs in E.
      destruct (processRequests okdd reqs) as [[as2 o2] ev2] eqn:E2. simplify_eq.
      destruct (IH okdd as2 ev2 Hs E2) as [(b & a & -> & Ha & Hb & Hi)|(H1 & H2 & H3)].
      * left. exists (None :: b), a. split_and!; try done. set_solver.
      * right. split_and!; [set_solver | set_solver | done].
Qed.

End Optimized.

(** ** The nil discoverer and the factory *)

Definition nilDiscoverer_Bootstrap : option error := None.
Definition kadDhtName : string := "kad-dht discovery".
Definition optimizedKadDhtName : string := "optimized kad-dht discovery".
Definition nilName : string := "no peer discovery".

Definition typeLegacy : string := "legacy".
Definition typeOptimized : string := "optimized".
Definition defaultSeedersReconnectionInterval : Z := 60 * second * 5.

Inductive discoverer : Type :=
| NilDiscoverer
| Continuous (ckdd : ContinuousKadDhtDiscoverer)
| Optimized (okdd : optimizedKadDhtDiscoverer).

Definition Name (d : discoverer) : string :=
  match d with
  | NilDiscoverer => nilName
  | Continuous _ => kadDhtName
  | Optimized _ => optimizedKadDhtName
  end.

Record ArgsPeerDiscoverer : Type := mkArgsPeerDiscoverer {
  apd_Context : option unit;
  apd_Host : option unit;
  apd_Sharder : kddSharder;
  apd_P2pConfig : P2PConfig;
  apd_ConnectionsWatcher : option unit
}.

Definition createKadDhtDiscoverer (p2pConfig : P2PConfig) (arg : ArgKadDht) : result discoverer :=
  let t := kad_Type (KadDhtPeerDiscovery p2pConfig) in
  if decide (t = typeLegacy) then
    let? d := NewContinuousKadDhtDiscoverer arg in Ok (Continuous d)
  else if decide (t = typeOptimized) then
    let? d := NewOptimizedKadDhtDiscoverer arg in Ok (Optimized d)
  else Err (ErrWrap ErrInvalidValue (" unable to select peer discoverer based on type '" +:+ t +:+ "'")).

Definition createKadDhtPeerDiscoverer (args : ArgsPeerDiscoverer) : result discoverer :=
  let k := KadDhtPeerDiscovery (apd_P2pConfig args) in
  let arg := mkArgKadDht (apd_Context args) (apd_Host args) (second * RefreshIntervalInSec k)
    defaultSeedersReconnectionInterval (ProtocolID k) (InitialPeerList k) (BucketSize k)
    (second * RoutingTableRefreshIntervalInSec k) (apd_Sharder args) (apd_ConnectionsWatcher args) in
  let t := sharding_Type (Config.Sharding (apd_P2pConfig args)) in
  if decide (t = ListsSharder \/ t = OneListSharder \/ t = NilListSharder) then
    createKadDhtDiscoverer (apd_P2pConfig args) arg
  else Err (ErrWrap ErrInvalidValue
         (" unable to select peer discoverer based on selected sharder: unknown sharder '" +:+ t +:+ "'")).

Definition NewPeerDiscoverer (args : ArgsPeerDiscoverer) : result discoverer :=
  if Enabled (KadDhtPeerDiscovery (apd_P2pConfig args)) then createKadDhtPeerDiscoverer args
  else Ok NilDiscoverer.

Module Witness.

Definition okdd0 : optimizedKadDhtDiscoverer :=
  mkOptimized NilListShr 1 300 "/drt" ["s1"; "s2"] 20 60 statNotInitialized false.
Definition okdd1 : optimizedKadDhtDiscoverer :=
  mkOptimized NilListShr 1 300 "/drt" ["s1"; "s2"] 20 60 statInitialized true.

Definition connect (n : nat) (s : string) : option error :=
  if decide (n = 3%nat) then None else Some (ErrText "refused").

Lemma tryConnectToSeeder_round_robin_witness :
  tryConnectToSeeder connect (fun _ => false) ["s1"; "s2"] 10 0 0 = Connected 3 "s2".
Proof.
  destruct (tryConnectToSeeder_round_robin connect (fun _ => false) ["s1"; "s2"] 3 10) as (s & Es & P & _);
    [done | lia | | done |].
  - intros i s Hi. unfold connect. rewrite decide_False; [done | lia].
  - vm_compute in Es. injection Es as <-. apply P. reflexivity.
Defined.

Definition info (s : string) : result string := Ok s.
Definition up (s : string) : option error := if decide (s = "s2") then None else Some (ErrText "refused").

Lemma processSeedersReconnect_spec_witness :
  processSeedersReconnect info (fun _ => false) up okdd1 (fun _ => false) = (300, ["s1"; "s2"]).
Proof. exact (processSeedersReconnect_spec info (fun _ => false) up okdd1 (fun _ => false) (fun _ => eq_refl)). Defined.

Lemma one_initialisation_witness :
  exists before after,
    [Some (Some (ErrText "no dht")); Some None; Some (Some (ErrSentinel ErrPeerDiscoveryProcessAlreadyStarted))] =
      before ++ Some (@None error) :: after.
Proof.
  destruct (one_initialisation info (fun _ => false) up okdd0
    [(Init (Some (ErrText "no dht")), fun _ => false); (Init None, fun _ => false); (Init None, fun _ => false)]
    _ _ _ eq_refl eq_refl) as [(b & a & E & _)|(H & _)].
  - exists b, a. exact E.
  - exfalso. apply H. vm_compute. set_solver.
Defined.

End Witness.
