(* ===== verification/DiscoveryLoop.v ===== *)
(** * DiscoveryLoop: the goroutines of the discoverers ([libp2p/discovery])

    [Discovery] has what one round of a discoverer does; here are the loops around
    the rounds.  The loop of the optimized discoverer serves the callers of
    [Bootstrap], the requests to reconnect and two timers, one at a time.  The
    loop of the continuous discoverer waits until a seeder is reached, calls the
    DHT, and dials the seeders again when the DHT lost its peers.  Clock readings
    never go back. *)

From S2P Require Import Prelude Errors Config Interfaces Wire Distances Sharding Discovery.
From Stdlib Require Import ZArith Lia String.
From stdpp Require Import prelude gmap list strings.

Local Open Scope Z_scope.

(** ** The optimized discoverer *)

Module OptimizedLoop.
Section Loop.

Context {I : Type} (AddressToPeerInfo : string -> result I) (IsConnected : I -> bool) (Connect : I -> option error).

Abbreviation processSeedersReconnect := (processSeedersReconnect AddressToPeerInfo IsConnected Connect).

(** In [select]; in [init], the caller waiting for the answer; dialling the
    seeders, after an initialisation or not; returned. *)
Inductive phase : Type :=
| Select
| Initialising
| Dialling (afterInit : bool)
| Ended.

Record state : Type := mk {
  disc : optimizedKadDhtDiscoverer;
  ph : phase;
  (* callers blocked at [okdd.chanInit <- struct{}{}] *)
  callers : nat;
  (* what the calls of [Bootstrap] that returned got *)
  answers : list (option error);
  chTimeSeedersReconnect : Z;
  chTimeFindPeers : Z;
  clock : Z;
  events : list dht_event
}.

Implicit Types s : state.

(** [go okdd.processLoop(arg.Context)] at time [now]. *)
Definition start (okdd : optimizedKadDhtDiscoverer) (now : Z) : state :=
  mk okdd Select 0 [] (now + ok_seedersReconnectionInterval okdd) (now + ok_peersRefreshInterval okdd) now [].

Definition at_time (t : Z) s : state :=
  mk (disc s) (ph s) (callers s) (answers s) (chTimeSeedersReconnect s) (chTimeFindPeers s) t (events s).
Definition in_phase (p : phase) s : state :=
  mk (disc s) p (callers s) (answers s) (chTimeSeedersReconnect s) (chTimeFindPeers s) (clock s) (events s).

(** The answer to a caller: with an error the round ends, and the timer is set. *)
Definition answer (t : Z) (newDHT : option error) s : state :=
  let '(err, okdd, ev) := init (disc s) newDHT in
  match err with
  | Some _ =>
      mk okdd Select (callers s) (answers s ++ [err]) (t + createChTimeSeedersReconnect okdd false)
         (chTimeFindPeers s) t (events s ++ ev)
  | None =>
      mk okdd (Dialling true) (callers s) (answers s ++ [err]) (chTimeSeedersReconnect s) (chTimeFindPeers s) t
         (events s ++ ev)
  end.

(** The end of [processSeedersReconnect]; [done] tells when the context was seen
    done.  After an initialisation peers are looked for. *)
Definition dialled (t : Z) (done : nat -> bool) (afterInit : bool) s : state :=
  let ch := (processSeedersReconnect (disc s) done).1 in
  mk (disc s) Select (callers s) (answers s) (t + ch) (chTimeFindPeers s) t
     (events s ++ if afterInit then findPeers (disc s) else []).

Definition found (t : Z) s : state :=
  mk (disc s) Select (callers s) (answers s) (chTimeSeedersReconnect s) (t + ok_peersRefreshInterval (disc s)) t
     (events s ++ findPeers (disc s)).

Definition set_callers (n : nat) s : state :=
  mk (disc s) (ph s) n (answers s) (chTimeSeedersReconnect s) (chTimeFindPeers s) (clock s) (events s).

Inductive step s : state -> Prop :=
(* a call of [Bootstrap] *)
| calls_Bootstrap : step s (set_callers (S (callers s)) s)
(* the loop receives from [chanInit] *)
| takes_init n : ph s = Select -> callers s = S n -> step s (in_phase Initialising (set_callers n s))
| answers_init t newDHT : ph s = Initialising -> clock s <= t -> step s (answer t newDHT s)
(* [ReconnectToNetwork] meets the loop in [select], or its request is dropped *)
| takes_reconnect : ph s = Select -> step s (in_phase (Dialling false) s)
| drops_reconnect : ph s ≠ Select -> step s s
(* the timers *)
| takes_seeders_timer t :
    ph s = Select -> clock s <= t -> chTimeSeedersReconnect s <= t -> step s (in_phase (Dialling false) (at_time t s))
| ends_dialling t done b : ph s = Dialling b -> clock s <= t -> step s (dialled t done b s)
| takes_find_timer t : ph s = Select -> clock s <= t -> chTimeFindPeers s <= t -> step s (found t s)
(* the context is done; [finishMainLoopProcessing] finds nobody at [errChanInit] *)
| ends : ph s = Select -> step s (in_phase Ended s)
| time_passes t : clock s <= t -> step s (at_time t s).

Inductive reach s0 : state -> Prop :=
| reach_start : reach s0 s0
| reach_step s s' : reach s0 s -> step s s' -> reach s0 s'.

(** ** Calls of Bootstrap *)

(** Once the loop has returned nothing takes or answers a call any more. *)
Lemma ended_step s s' : ph s = Ended -> step s s' -> ph s' = Ended /\ answers s' = answers s /\ (callers s <= callers s')%nat.
Proof. intros E Hs. destruct Hs; try congruence; cbn; auto. Qed.

Lemma ended_reach s s' : ph s = Ended -> reach s s' -> ph s' = Ended /\ answers s' = answers s /\ (callers s <= callers s')%nat.
Proof.
  intros E. induction 1 as [|s1 s2 _ (E1 & E2 & E3) Hs]; [done|].
  destruct (ended_step s1 s2 E1 Hs) as (F1 & F2 & F3). split_and!; [done | congruence | lia].
Qed.

(** Whether the discovery was started is what the answers say. *)
Record answers_ok s : Prop := {
  ok_init : ok_status (disc s) = statInitialized <-> None ∈ answers s;
  ok_once i j : answers s !! i = Some None -> answers s !! j = Some None -> i = j;
  ok_used : DHTBootstrap ∈ events s -> None ∈ answers s;
  ok_dialling : ph s = Dialling true -> None ∈ answers s
}.

Lemma answers_ok_same s s' :
  answers_ok s -> ok_status (disc s') = ok_status (disc s) -> answers s' = answers s ->
  (DHTBootstrap ∈ events s' -> DHTBootstrap ∈ events s \/ ok_status (disc s) = statInitialized) ->
  (ph s' = Dialling true -> ph s = Dialling true) -> answers_ok s'.
Proof.
  intros [H1 H2 H3 H4] E1 E2 He Hp. constructor; rewrite ?E1, ?E2; try done.
  - intros [?|?]%He; [auto | by apply H1].
  - auto.
Qed.

Lemma findPeers_initialized okdd : DHTBootstrap ∈ findPeers okdd -> ok_status okdd = statInitialized.
Proof. unfold findPeers. destruct (ok_status okdd); [set_solver | done]. Qed.

Lemma answers_ok_answer t newDHT s : answers_ok s -> answers_ok (answer t newDHT s).
Proof.
  intros [H1 H2 H3 H4]. unfold answer, init. destruct (ok_status (disc s)) eqn:Est.
  - assert (None ∉ answers s) as Hn by (intros ?%H1; congruence).
    destruct newDHT as [err|]; constructor; cbn.
    + rewrite Est. set_solver.
    + intros i j Hi. exfalso. apply list_elem_of_lookup_2 in Hi. set_solver.
    + set_solver.
    + done.
    + set_solver.
    + intros i j Hi Hj. apply lookup_app_Some in Hi as [Hi%list_elem_of_lookup_2|[? [Hi _]%list_lookup_singleton_Some]]; [done|].
      apply lookup_app_Some in Hj as [Hj%list_elem_of_lookup_2|[? [Hj _]%list_lookup_singleton_Some]]; [done | lia].
    + set_solver.
    + set_solver.
  - constructor; cbn.
    + rewrite Est. set_solver.
    + intros i j Hi Hj. apply lookup_app_Some in Hi as [Hi|[? [_ [=]]%list_lookup_singleton_Some]].
      apply lookup_app_Some in Hj as [Hj|[? [_ [=]]%list_lookup_singleton_Some]]. auto.
    + set_solver.
    + done.
Qed.

Lemma answers_ok_step s s' : answers_ok s -> step s s' -> answers_ok s'.
Proof.
  intros Hok Hs. destruct Hs as [|n Hp Hc|t newDHT Hp Ht|Hp|Hp|t Hp Ht Hf|t done b Hp Ht|t Hp Ht Hf|Hp|t Ht];
    try (apply (answers_ok_same s); cbn; auto; congruence).
  - by apply answers_ok_answer.
  - apply (answers_ok_same s); cbn; auto; [|done]. intros [?|He]%elem_of_app; [auto|].
    destruct b; [right; by apply findPeers_initialized | set_solver].
  - apply (answers_ok_same s); cbn; auto; [|done]. intros [?|He]%elem_of_app; [auto|].
    right. by apply findPeers_initialized.
Qed.

Lemma answers_ok_reach okdd now s :
  ok_status okdd = statNotInitialized -> reach (start okdd now) s -> answers_ok s.
Proof.
  intros E. induction 1 as [|s s' _ IH Hs]; [|by eapply answers_ok_step].
  constructor; cbn; [rewrite E; set_solver | done | set_solver | done].
Qed.

(** [C25] Calls of Bootstrap.  In every execution of the loop of the optimized
    discoverer at most one call of [Bootstrap] succeeds, and the DHT is used only
    when one has.  But a call is answered by the loop alone: once the context is
    done and the loop has returned, no call is answered any more, and every
    caller that was waiting, and every later one, waits for ever. *)
Theorem Bootstrap_answers okdd now s :
  ok_status okdd = statNotInitialized -> reach (start okdd now) s ->
  (forall i j, answers s !! i = Some None -> answers s !! j = Some None -> i = j) /\
  (DHTBootstrap ∈ events s -> None ∈ answers s) /\
  (ph s = Ended -> forall s', reach s s' -> answers s' = answers s /\ (callers s <= callers s')%nat).
Proof.
  intros E Hr. pose proof (answers_ok_reach okdd now s E Hr) as [_ Hon Hu _]. split_and!; [done..|].
  intros Hp s' Hr'. by destruct (ended_reach s s' Hp Hr') as (_ & ? & ?).
Qed.

(** ** The timers *)

(** Between the rounds both timers are set, at most one interval ahead. *)
Record timers_ok (okdd : optimizedKadDhtDiscoverer) s : Prop := {
  timers_seeders : ok_seedersReconnectionInterval (disc s) = ok_seedersReconnectionInterval okdd;
  timers_refresh : ok_peersRefreshInterval (disc s) = ok_peersRefreshInterval okdd;
  timers_first : ph s = Select ->
    chTimeSeedersReconnect s <= clock s + Z.max (ok_seedersReconnectionInterval okdd) (ok_peersRefreshInterval okdd);
  timers_find : chTimeFindPeers s <= clock s + ok_peersRefreshInterval okdd
}.

Lemma createCh_le okdd b :
  createChTimeSeedersReconnect okdd b <= Z.max (ok_seedersReconnectionInterval okdd) (ok_peersRefreshInterval okdd).
Proof. unfold createChTimeSeedersReconnect. destruct b; lia. Qed.

Lemma processSeedersReconnect_le okdd done :
  (processSeedersReconnect okdd done).1 <= Z.max (ok_seedersReconnectionInterval okdd) (ok_peersRefreshInterval okdd).
Proof.
  unfold Discovery.processSeedersReconnect. destruct (tryToReconnectAtLeastToASeeder _ _ _ _ _). apply createCh_le.
Qed.

Lemma timers_step okdd s s' : timers_ok okdd s -> step s s' -> timers_ok okdd s'.
Proof.
  intros [E1 E2 Hs Hf] Hst. destruct Hst as [|n Hp Hc|t newDHT Hp Ht|Hp|Hp|t Hp Ht Hd|t done b Hp Ht|t Hp Ht Hd|Hp|t Ht];
    try (constructor; cbn; try done; try congruence; intros; try specialize (Hs ltac:(done)); lia).
  - unfold answer, init. destruct (ok_status (disc s)), newDHT as [err|]; constructor; cbn; try done; try lia; intros _;
      rewrite E2; lia.
  - constructor; cbn; try done; [|lia]. intros _. pose proof (processSeedersReconnect_le (disc s) done) as Hle.
    rewrite E1, E2 in Hle. lia.
Qed.

(** The discoverer keeps trying.  In every execution, whenever the loop is
    between two rounds and whatever requests were dropped while it was busy, the
    next attempt at the seeders is due within the longer of the two intervals
    and the next search for peers within the refresh interval. *)
Theorem timers_armed okdd now s :
  0 <= ok_seedersReconnectionInterval okdd -> 0 <= ok_peersRefreshInterval okdd ->
  reach (start okdd now) s -> ph s = Select ->
  chTimeSeedersReconnect s <= clock s + Z.max (ok_seedersReconnectionInterval okdd) (ok_peersRefreshInterval okdd) /\
  chTimeFindPeers s <= clock s + ok_peersRefreshInterval okdd.
Proof.
  intros H1 H2 Hr Hp. assert (timers_ok okdd s) as [_ _ Hs Hf]; [|by split; [apply Hs|]].
  clear Hp. induction Hr as [|s s' _ IH Hst]; [|by eapply timers_step]. constructor; cbn; done || lia.
Qed.

End Loop.
End OptimizedLoop.

(** ** The continuous discoverer *)

Module ContinuousLoop.

(** [connectToInitialAndBootstrap] and [bootstrap]: not started; waiting for a seeder;
    at the head of the loop; in [ReconnectToNetwork]; waiting for the refresh
    interval; returned. *)
Inductive phase : Type :=
| NotStarted
| WaitSeeder
| Head
| Reconnect
| Refresh
| Ended.

(** The channel of [connectToOnePeerFromInitialPeersList] the loop waits for. *)
Inductive dialling : Type := NoDial | InProgress | Filled.

Inductive event : Type :=
| SeederReached
| DHTCall (lookupFailure : bool)
| Cancelled.

Record state : Type := mk {
  ckdd : ContinuousKadDhtDiscoverer;
  ph : phase;
  chanDone : dialling;
  (* goroutines of [tryConnectToSeeder] nobody waits for any more *)
  stale : nat;
  ctx_done : bool;
  trace : list event
}.

Implicit Types s : state.

Definition start (d : ContinuousKadDhtDiscoverer) : state := mk d NotStarted NoDial 0 false [].

(** The channel is filled at once when there are no seeders. *)
Definition new_dial (d : ContinuousKadDhtDiscoverer) : dialling :=
  match ck_initialPeersList d with [] => Filled | _ => InProgress end.

Definition set_ph (p : phase) (c : dialling) s : state := mk (ckdd s) p c (stale s) (ctx_done s) (trace s).

Definition abandon (c : dialling) (n : nat) : nat := match c with InProgress => S n | _ => n end.

Inductive step s : state -> Prop :=
| calls_Bootstrap newDHT err d ev :
    ph s = NotStarted -> Bootstrap (ckdd s) newDHT = (err, d, ev) ->
    step s (match err with
            | None => mk d WaitSeeder (new_dial d) (stale s) (ctx_done s) (trace s)
            | Some _ => mk d NotStarted (chanDone s) (stale s) (ctx_done s) (trace s)
            end)
| reaches_seeder :
    chanDone s = InProgress ->
    step s (mk (ckdd s) (ph s) Filled (stale s) (ctx_done s) (trace s ++ [SeederReached]))
| reaches_stale n :
    stale s = S n -> step s (mk (ckdd s) (ph s) (chanDone s) n (ctx_done s) (trace s ++ [SeederReached]))
| begins : ph s = WaitSeeder -> chanDone s = Filled -> step s (set_ph Head NoDial s)
| calls_DHT lookupFailure ev shouldReconnect :
    ph s = Head -> bootstrapRound (ckdd s) lookupFailure = (ev, shouldReconnect) ->
    step s (mk (ckdd s) (if shouldReconnect then Reconnect else Refresh)
               (if shouldReconnect then new_dial (ckdd s) else NoDial) (stale s) (ctx_done s)
               (trace s ++ match ev with [] => [] | _ => [DHTCall lookupFailure] end))
| reconnects : ph s = Reconnect -> chanDone s = Filled -> step s (set_ph Refresh NoDial s)
| leaves_reconnect :
    ph s = Reconnect -> ctx_done s = true ->
    step s (mk (ckdd s) Refresh NoDial (abandon (chanDone s) (stale s)) (ctx_done s) (trace s))
| refreshes : ph s = Refresh -> step s (set_ph Head NoDial s)
| ends : ph s = WaitSeeder \/ ph s = Refresh -> ctx_done s = true ->
    step s (mk (ckdd s) Ended NoDial (abandon (chanDone s) (stale s)) (ctx_done s) (trace s))
| stops closeDHT err d ev :
    stopDHT (ckdd s) closeDHT = (err, d, ev) ->
    step s (mk d (ph s) (chanDone s) (stale s) true (trace s ++ [Cancelled]))
| context_done : step s (mk (ckdd s) (ph s) (chanDone s) (stale s) true (trace s ++ [Cancelled])).

Inductive reach s0 : state -> Prop :=
| reach_start : reach s0 s0
| reach_step s s' : reach s0 s -> step s s' -> reach s0 s'.

(** ** The DHT is used when there is a peer *)

(** Whether the DHT may be called: not before a seeder was reached, nor after a
    lookup failure before another was; without limits after the end of the
    context. *)
Inductive gate : Type := Open | Closed | Free | Violated.

Definition pass (g : gate) (e : event) : gate :=
  match g, e with
  | Violated, _ => Violated
  | Free, _ => Free
  | _, Cancelled => Free
  | _, SeederReached => Open
  | Open, DHTCall false => Open
  | Open, DHTCall true => Closed
  | Closed, DHTCall _ => Violated
  end.

Definition gate_after (l : list event) : gate := foldl pass Closed l.
#[global] Arguments gate_after : simpl never.

Definition passable (g : gate) : Prop := g = Open \/ g = Free.

Record gate_ok (seeders : list string) s : Prop := {
  gate_seeders : ck_initialPeersList (ckdd s) = seeders;
  gate_trace : gate_after (trace s) ≠ Violated;
  gate_done : ctx_done s = true -> gate_after (trace s) = Free;
  gate_loop : ph s = Head \/ ph s = Refresh -> passable (gate_after (trace s));
  gate_filled : chanDone s = Filled -> passable (gate_after (trace s))
}.

Lemma gate_after_snoc l e : gate_after (l ++ [e]) = pass (gate_after l) e.
Proof. unfold gate_after. by rewrite foldl_app. Qed.

Lemma gate_reached s l :
  gate_after l ≠ Violated -> gate_after (l ++ [SeederReached]) ≠ Violated /\
  passable (gate_after (l ++ [SeederReached])) /\
  (gate_after l = Free -> gate_after (l ++ [SeederReached]) = Free).
Proof. rewrite gate_after_snoc. unfold passable. destruct (gate_after l); naive_solver. Qed.

Lemma gate_cancelled l : gate_after l ≠ Violated -> gate_after (l ++ [Cancelled]) = Free.
Proof. rewrite gate_after_snoc. destruct (gate_after l); done. Qed.

Lemma Bootstrap_seeders d newDHT err d' ev :
  Bootstrap d newDHT = (err, d', ev) -> ck_initialPeersList d' = ck_initialPeersList d.
Proof. unfold Bootstrap, startDHT. destruct (ck_kadDHT d), newDHT; intros [= <- <- <-]; done. Qed.

Lemma stopDHT_seeders d closeDHT err d' ev :
  stopDHT d closeDHT = (err, d', ev) -> ck_initialPeersList d' = ck_initialPeersList d.
Proof. unfold stopDHT. destruct (ck_refreshCancel d); intros [= <- <- <-]; done. Qed.

Lemma new_dial_seeders d : ck_initialPeersList d ≠ [] -> new_dial d = InProgress.
Proof. unfold new_dial. by destruct (ck_initialPeersList d). Qed.

Lemma gate_step seeders s s' : seeders ≠ [] -> gate_ok seeders s -> step s s' -> gate_ok seeders s'.
Proof.
  intros Hne [Es Ht Hd Hl Hf] Hst.
  destruct Hst as [newDHT err d ev Hp E|Hc|n Hn|Hp Hc|b ev r Hp E|Hp Hc|Hp Hc|Hp|Hp Hc|closeDHT err d ev E|].
  - apply Bootstrap_seeders in E. destruct err; constructor; cbn; try done; try congruence.
    + by intros [?|?].
    + by intros [?|?].
    + rewrite new_dial_seeders by congruence. done.
  - destruct (gate_reached s _ Ht) as (G1 & G2 & G3). constructor; cbn; auto.
  - destruct (gate_reached s _ Ht) as (G1 & G2 & G3). constructor; cbn; auto.
  - constructor; cbn; try done. intros _. by apply Hf.
  - specialize (Hl (or_introl Hp)). unfold bootstrapRound in E.
    destruct (ck_kadDHT (ckdd s)); injection E as <- <-; cbn.
    + constructor; cbn; rewrite ?gate_after_snoc; try done.
      * destruct Hl as [->| ->]; by destruct b.
      * intros E'. by rewrite (Hd E').
      * destruct b; [by intros [?|?]|]. intros _. unfold passable. destruct Hl as [->| ->]; auto.
      * destruct b; [by rewrite new_dial_seeders by congruence | done].
    + rewrite app_nil_r. by constructor.
  - constructor; cbn; try done. intros _. by apply Hf.
  - constructor; cbn; try done. intros _. unfold passable. auto.
  - constructor; cbn; try done. intros _. apply Hl. by right.
  - constructor; cbn; try done. by intros [?|?].
  - apply stopDHT_seeders in E. pose proof (gate_cancelled _ Ht) as G.
    constructor; cbn; rewrite ?G; unfold passable; auto; congruence.
  - pose proof (gate_cancelled _ Ht) as G.
    constructor; cbn; rewrite ?G; unfold passable; auto; congruence.
Qed.

(** [C26] No lookups without peers.  In every execution of the continuous discoverer
    with seeders, until its context is cancelled, the DHT is not asked for peers
    before a seeder was reached, nor again after a lookup failure before a
    seeder was reached again. *)
Theorem DHT_calls_gated d s :
  ck_initialPeersList d ≠ [] -> reach (start d) s -> gate_after (trace s) ≠ Violated.
Proof.
  intros Hne Hr. assert (gate_ok (ck_initialPeersList d) s) as []; [|done].
  induction Hr as [|s s' _ IH Hst]; [|by eapply gate_step].
  constructor; cbn; try done. by intros [?|?].
Qed.

End ContinuousLoop.

Module Witness.

Import OptimizedLoop.

Definition okdd0 : optimizedKadDhtDiscoverer :=
  mkOptimized NilListShr 1 300 "/drt" ["s1"; "s2"] 20 60 statNotInitialized false.

Definition resolve (a : string) : result string := Ok a.
Definition connected (a : string) : bool := false.
Definition connect (a : string) : option error := if decide (a = "s1") then Some (ErrText "refused") else None.

Abbreviation reach := (reach resolve connected connect).
Abbreviation dialled := (dialled resolve connected connect).

(** One caller is answered, another comes after the loop returned. *)
Definition s1 := in_phase Initialising (set_callers 0 (set_callers 1 (start okdd0 0))).
Definition s2 := answer 5 None s1.
Definition s3 := dialled 9 (fun _ => false) true s2.
Definition s4 := set_callers 1 (in_phase Ended s3).

Lemma loop_reach3 : reach (start okdd0 0) s3.
Proof.
  assert (reach (start okdd0 0) (set_callers 1 (start okdd0 0))) as R0
    by (eapply reach_step; [apply reach_start | exact (calls_Bootstrap _ _ _ _)]).
  assert (reach (start okdd0 0) s1) as R1
    by (eapply reach_step; [exact R0 | exact (takes_init _ _ _ (set_callers 1 (start okdd0 0)) 0 eq_refl eq_refl)]).
  assert (reach (start okdd0 0) s2) as R2.
  { eapply reach_step; [exact R1|]. apply (answers_init _ _ _ s1 5 None); [done | cbn; lia]. }
  eapply reach_step; [exact R2|]. apply (ends_dialling _ _ _ s2 9 (fun _ => false) true); [done | cbn; lia].
Qed.

Lemma loop_reach4 : reach (start okdd0 0) s4.
Proof.
  eapply reach_step; [|exact (calls_Bootstrap _ _ _ (in_phase Ended s3))].
  eapply reach_step; [exact loop_reach3 | exact (ends _ _ _ s3 eq_refl)].
Qed.

Lemma Bootstrap_answers_witness :
  callers s4 = 1%nat /\ forall s', reach s4 s' -> answers s' = [None] /\ (1 <= callers s')%nat.
Proof.
  split; [reflexivity|].
  destruct (Bootstrap_answers resolve connected connect okdd0 0 s4 eq_refl loop_reach4) as (_ & _ & P).
  exact (P eq_refl).
Defined.

Lemma timers_armed_witness : chTimeSeedersReconnect s3 <= 9 + 300 /\ chTimeFindPeers s3 <= 9 + 1.
Proof.
  exact (timers_armed resolve connected connect okdd0 0 s3 ltac:(cbn; lia) ltac:(cbn; lia) loop_reach3 eq_refl).
Defined.

Definition ckdd0 : ContinuousKadDhtDiscoverer :=
  mkContinuous NilListShr 1 "/drt" ["s1"] 20 60 false false.

(** The seeder is reached, the DHT is called and loses its peers, the loop reconnects. *)
Definition c1 := ContinuousLoop.mk (set_dht true true ckdd0) ContinuousLoop.WaitSeeder ContinuousLoop.InProgress 0 false [].
Definition c2 := ContinuousLoop.mk (set_dht true true ckdd0) ContinuousLoop.WaitSeeder ContinuousLoop.Filled 0 false
  [ContinuousLoop.SeederReached].
Definition c3 := ContinuousLoop.set_ph ContinuousLoop.Head ContinuousLoop.NoDial c2.
Definition c4 := ContinuousLoop.mk (set_dht true true ckdd0) ContinuousLoop.Reconnect ContinuousLoop.InProgress 0 false
  [ContinuousLoop.SeederReached; ContinuousLoop.DHTCall true].

Lemma creach4 : ContinuousLoop.reach (ContinuousLoop.start ckdd0) c4.
Proof.
  apply (ContinuousLoop.reach_step _ c3); [apply (ContinuousLoop.reach_step _ c2);
    [apply (ContinuousLoop.reach_step _ c1); [apply (ContinuousLoop.reach_step _ (ContinuousLoop.start ckdd0))|]|]|].
  - apply ContinuousLoop.reach_start.
  - exact (ContinuousLoop.calls_Bootstrap (ContinuousLoop.start ckdd0) None None _ _ eq_refl eq_refl).
  - exact (ContinuousLoop.reaches_seeder c1 eq_refl).
  - exact (ContinuousLoop.begins c2 eq_refl eq_refl).
  - exact (ContinuousLoop.calls_DHT c3 true _ _ eq_refl eq_refl).
Qed.

Lemma DHT_calls_gated_witness : ContinuousLoop.gate_after (ContinuousLoop.trace c4) ≠ ContinuousLoop.Violated.
Proof. exact (ContinuousLoop.DHT_calls_gated ckdd0 c4 ltac:(done) creach4). Defined.

End Witness.
