(* ===== verification/Recovery.v ===== *)
(** * Recovery: the connection monitor and the discoverer together
      ([libp2p/connectionMonitor], [libp2p/discovery/optimizedKadDhtDiscoverer.go])

    The monitor of [ConnMonitor] asks the optimized discoverer of [DiscoveryLoop] to
    reconnect when too few peers are left.  Both are goroutines with timers, and the
    request is dropped when either is busy.  Here they run together, in time:
    goroutines that can go on do so before time passes, and a round of the discoverer
    takes at most [roundTime].  Theorems: the seeders are tried again and again within
    a bounded time, whatever is lost or dropped, unless refused calls of [Bootstrap]
    put it off, and exactly how these do; every loss is followed by a request at that
    time, or was preceded by one by at most the pause; requests are a pause apart, and
    one that the discoverer takes has all seeders tried within a round. *)

From S2P Require Import Prelude Errors Config Interfaces Wire Distances Sharding ConnMonitor Discovery DiscoveryLoop.
From Stdlib Require Import ZArith Lia String Sorted.
From stdpp Require Import prelude list strings sorting.

Local Open Scope Z_scope.

Definition DurationBetweenReconnectAttempts : Z := 5 * second.

(** What happens, with its time: too few peers are left; the monitor asks the discoverer,
    which takes the request or not; a call of [Bootstrap] succeeds or is refused; a round
    of dialling ends, with the seeders it tried. *)
Inductive event : Type :=
| TooFew
| Asked (taken : bool)
| Bootstrapped
| Refused
| Tried (seeders : list string).

#[export] Instance phase_eq_dec : EqDecision OptimizedLoop.phase.
Proof. solve_decision. Defined.

Section Recovery.

Context {P W : Type} `{PreferredPeersHolderHandler P} `{SortSort} (Pretty : PeerID -> string).
Context (NewKnownConnection : W -> PeerID -> string -> W).
Context {I : Type} (AddressToPeerInfo : string -> result I) (IsConnected : I -> bool) (Connect : I -> option error).
Context (roundTime : Z).

(** [finding]: the loop of the discoverer is in [findPeers] after its timer; [entered]: when it
    began what it does; [resume]: when the pause of the monitor ends. *)
Record state : Type := mk {
  monitor : connectionMonitor P W;
  disco : OptimizedLoop.state;
  finding : bool;
  entered : Z;
  resume : Z;
  ctx_done : bool;
  trace : list (Z * event)
}.

Implicit Types (s : state) (m : connectionMonitor P W) (peers : list PeerID).

Definition clock s : Z := OptimizedLoop.clock (disco s).
Definition at_select s : Prop := OptimizedLoop.ph (disco s) = OptimizedLoop.Select /\ finding s = false.
#[export] Instance at_select_dec s : Decision (at_select s).
Proof. unfold at_select. apply _. Defined.

(** The parts of a state that a step changes. *)
Definition set_monitor m s : state := mk m (disco s) (finding s) (entered s) (resume s) (ctx_done s) (trace s).
Definition set_disco d s : state := mk (monitor s) d (finding s) (entered s) (resume s) (ctx_done s) (trace s).
(** The loop begins something now. *)
Definition enters d (find : bool) s : state := mk (monitor s) d find (clock s) (resume s) (ctx_done s) (trace s).
Definition happens (evs : list event) s : state :=
  mk (monitor s) (disco s) (finding s) (entered s) (resume s) (ctx_done s) (trace s ++ ((clock s,.) <$> evs)).

(** [ReconnectToNetwork] of the discoverer: the send on [chanConnectToSeeders] succeeds
    when the loop is at its [select]. *)
Definition ReconnectToNetwork s : state * bool :=
  if decide (at_select s) then (enters (OptimizedLoop.in_phase (OptimizedLoop.Dialling false) (disco s)) false s, true)
  else (s, false).

(** The goroutine of the monitor makes its call, which returns at once, and pauses. *)
Definition asks m s : state :=
  let '(s', taken) := ReconnectToNetwork s in
  mk m (disco s') (finding s') (entered s') (clock s + DurationBetweenReconnectAttempts) (ctx_done s)
    (trace s ++ [(clock s, Asked taken)]).

Definition lost m peers : list event := if ConnMonitor.IsConnectedToTheNetwork m peers then [] else [TooFew].

(** What the answer to a call of [Bootstrap] tells. *)
Definition answered (err : option error) : list event :=
  [match err with None => Bootstrapped | Some _ => Refused end].

(** Time passes only when no goroutine can go on, up to the next timer, and no round takes
    longer than [roundTime]. *)
Record quiet s (t : Z) : Prop := {
  q_forward : clock s <= t;
  q_select : at_select s -> OptimizedLoop.callers (disco s) = 0%nat /\ ctx_done s = false /\
    t <= OptimizedLoop.chTimeSeedersReconnect (disco s) /\ t <= OptimizedLoop.chTimeFindPeers (disco s);
  q_round : ~ at_select s -> OptimizedLoop.ph (disco s) = OptimizedLoop.Ended \/ t <= entered s + roundTime;
  q_asks : loop (monitor s) ≠ Reconnecting;
  q_pause : loop (monitor s) = Pausing -> t <= resume s
}.

Inductive step s : state -> Prop :=
(* the notifications of the network, and the calls of the monitor *)
| connects peers conn :
    step s (set_monitor (ConnMonitor.Connected Pretty NewKnownConnection (monitor s) peers conn).1 s)
| disconnects peers conn m evs :
    Disconnected (monitor s) peers conn = Ret (m, evs) -> step s (happens (lost (monitor s) peers) (set_monitor m s))
| sets_threshold n peers :
    step s (happens (lost (set_threshold n (monitor s)) peers)
              (set_monitor (SetThresholdMinConnectedPeers (monitor s) n (Some peers)).1 s))
| closes : step s (set_monitor (ConnMonitor.Close (monitor s)).2 s)
(* the goroutine of the monitor *)
| asks_discoverer m : doReconnection (monitor s) ReconnectDone = Some m -> step s (asks m s)
| resumes m : doReconnection (monitor s) PauseOver = Some m -> resume s <= clock s -> step s (set_monitor m s)
| stops m : doReconnection (monitor s) SeeCancel = Some m -> step s (set_monitor m s)
(* the loop of the discoverer *)
| calls_Bootstrap : step s (set_disco (OptimizedLoop.set_callers (S (OptimizedLoop.callers (disco s))) (disco s)) s)
| takes_init n :
    at_select s -> OptimizedLoop.callers (disco s) = S n ->
    step s (enters (OptimizedLoop.in_phase OptimizedLoop.Initialising (OptimizedLoop.set_callers n (disco s))) false s)
| answers_init newDHT :
    OptimizedLoop.ph (disco s) = OptimizedLoop.Initialising ->
    step s (happens (answered (init (disco s).(OptimizedLoop.disc) newDHT).1.1)
              (enters (OptimizedLoop.answer (clock s) newDHT (disco s)) false s))
| takes_seeders_timer :
    at_select s -> OptimizedLoop.chTimeSeedersReconnect (disco s) <= clock s ->
    step s (enters (OptimizedLoop.in_phase (OptimizedLoop.Dialling false) (disco s)) false s)
| ends_dialling done b :
    OptimizedLoop.ph (disco s) = OptimizedLoop.Dialling b -> (ctx_done s = false -> forall i, done i = false) ->
    step s (happens [Tried (processSeedersReconnect AddressToPeerInfo IsConnected Connect
                              (OptimizedLoop.disc (disco s)) done).2]
              (enters (OptimizedLoop.dialled AddressToPeerInfo IsConnected Connect (clock s) done b (disco s)) false s))
| takes_find_timer :
    at_select s -> OptimizedLoop.chTimeFindPeers (disco s) <= clock s -> step s (enters (disco s) true s)
| ends_finding :
    OptimizedLoop.ph (disco s) = OptimizedLoop.Select -> finding s = true ->
    step s (enters (OptimizedLoop.found (clock s) (disco s)) false s)
| ends :
    at_select s -> ctx_done s = true -> step s (set_disco (OptimizedLoop.in_phase OptimizedLoop.Ended (disco s)) s)
(* the context and the time *)
| cancels : step s (mk (monitor s) (disco s) (finding s) (entered s) (resume s) true (trace s))
| time_passes t : quiet s t -> step s (set_disco (OptimizedLoop.at_time t (disco s)) s).

Inductive reach s0 : state -> Prop :=
| reach_start : reach s0 s0
| reach_step s s' : reach s0 s -> step s s' -> reach s0 s'.

(** A new monitor and a new discoverer at time [now]. *)
Definition start m (okdd : optimizedKadDhtDiscoverer) (now : Z) : state :=
  mk m (OptimizedLoop.start okdd now) false now now false [].

End Recovery.
Arguments state : clear implicits.

Section Correctness.

Context {P W : Type} `{PreferredPeersHolderHandler P} `{SortSort} (Pretty : PeerID -> string).
Context (NewKnownConnection : W -> PeerID -> string -> W).
Context {I : Type} (AddressToPeerInfo : string -> result I) (IsConnected : I -> bool) (Connect : I -> option error).
Context (roundTime : Z).
Context (okdd : optimizedKadDhtDiscoverer) (now : Z).

Implicit Types (s : state P W) (m : connectionMonitor P W) (peers : list PeerID).

Abbreviation step := (step Pretty NewKnownConnection AddressToPeerInfo IsConnected Connect roundTime).
Abbreviation reach := (reach Pretty NewKnownConnection AddressToPeerInfo IsConnected Connect roundTime).

Definition longest : Z := Z.max (ok_seedersReconnectionInterval okdd) (ok_peersRefreshInterval okdd).

(** ** What a step adds to the trace *)

Definition initialised s : Prop := ok_status (OptimizedLoop.disc (disco s)) = statInitialized.

Lemma answer_status s t newDHT :
  ok_status (OptimizedLoop.disc (OptimizedLoop.answer t newDHT (disco s))) =
    match (init (OptimizedLoop.disc (disco s)) newDHT).1.1 with
    | None => statInitialized
    | Some _ => ok_status (OptimizedLoop.disc (disco s))
    end.
Proof.
  unfold OptimizedLoop.answer, init. destruct (ok_status (OptimizedLoop.disc (disco s))) eqn:E, newDHT; cbn; by rewrite ?E.
Qed.

(** What the events of a step say about it. *)
Definition event_ok s s' (e : event) : Prop :=
  match e with
  | Bootstrapped => initialised s'
  | Tried l => initialised s -> ctx_done s = false -> l = ok_initialPeersList (OptimizedLoop.disc (disco s))
  | _ => True
  end.

Lemma lost_ok s s' m peers : Forall (event_ok s s') (lost m peers).
Proof. unfold lost. case_match; by repeat constructor. Qed.

Lemma clock_answer s newDHT : OptimizedLoop.clock (OptimizedLoop.answer (clock s) newDHT (disco s)) = clock s.
Proof. unfold OptimizedLoop.answer. destruct (init _ _) as [[[err|] okdd'] ev]; done. Qed.

Lemma step_trace s s' :
  step s s' -> exists evs, trace s' = trace s ++ ((clock s,.) <$> evs) /\ Forall (event_ok s s') evs /\
    (ctx_done s = true -> ctx_done s' = true) /\ clock s <= clock s'.
Proof.
  assert (forall s1, trace s1 = trace s -> ctx_done s1 = ctx_done s \/ ctx_done s1 = true -> clock s <= clock s1 ->
            exists evs, trace s1 = trace s ++ ((clock s,.) <$> evs) /\ Forall (event_ok s s1) evs /\
              (ctx_done s = true -> ctx_done s1 = true) /\ clock s <= clock s1) as Hnone.
  { intros s1 E Hc Hle. exists []. rewrite app_nil_r. split_and!; [done|done| |done]. intros E1. by destruct Hc as [->|]. }
  intros Hs. destruct Hs; try (apply Hnone; [done | by (left + right) | done]).
  - eexists. split; [reflexivity|]. split; [apply lost_ok | done].
  - eexists. split; [reflexivity|]. split; [apply lost_ok | done].
  - unfold asks, ReconnectToNetwork. case_decide; (eexists [_]; split; [reflexivity|]; split; [by repeat constructor | done]).
  - eexists. split; [cbn [happens trace enters clock disco]; unfold clock; cbn [enters disco]; by rewrite (clock_answer s)|].
    split_and!; [|done|unfold clock; cbn [happens enters disco]; by rewrite (clock_answer s)].
    constructor; [|constructor]. cbn [answered]. destruct (init _ newDHT).1.1 eqn:E; [done|]. cbn [event_ok].
    unfold initialised. cbn [happens enters disco]. by rewrite answer_status, E.
  - eexists. split; [reflexivity|]. split; [|done]. constructor; [|constructor]. intros Hi Hc.
    rewrite processSeedersReconnect_spec by auto. by rewrite Hi.
  - apply Hnone; [done | by left|]. by destruct H1.
Qed.

Lemma reach_trace s s' :
  reach s s' -> exists tr, trace s' = trace s ++ tr /\ (forall t e, (t, e) ∈ tr -> clock s <= t <= clock s') /\
    (ctx_done s = true -> ctx_done s' = true) /\ clock s <= clock s'.
Proof.
  induction 1 as [|s1 s2 _ (tr & E & Ht & Hc & Hle) Hs].
  - exists []. rewrite app_nil_r. split_and!; [done | set_solver | done | lia].
  - destruct (step_trace s1 s2 Hs) as (evs & E' & _ & Hc' & Hle'). exists (tr ++ ((clock s1,.) <$> evs)).
    split_and!; [by rewrite E', E, app_assoc| |auto|lia].
    intros t e [Hin|(e' & [= -> ->] & _)%list_elem_of_fmap]%elem_of_app; [|lia]. apply Ht in Hin. lia.
Qed.

(** The configuration of the discoverer does not change. *)
Definition settings s : list string * Z * Z :=
  let d := OptimizedLoop.disc (disco s) in
  (ok_initialPeersList d, ok_peersRefreshInterval d, ok_seedersReconnectionInterval d).

Lemma settings_step s s' : step s s' -> settings s' = settings s.
Proof.
  intros Hs. destruct Hs; try done.
  - unfold asks, ReconnectToNetwork. by case_decide.
  - unfold settings. cbn [happens enters disco]. unfold OptimizedLoop.answer, init.
    by destruct (ok_status (OptimizedLoop.disc (disco s))), newDHT.
Qed.

Lemma settings_reach s s' : reach s s' -> settings s' = settings s.
Proof. induction 1 as [|s1 s2 _ IH Hs]; [done|]. by rewrite (settings_step s1 s2 Hs). Qed.

Lemma initialised_step s s' : initialised s -> step s s' -> initialised s'.
Proof.
  unfold initialised. intros Hi Hs. destruct Hs; try done.
  - unfold asks, ReconnectToNetwork. by case_decide.
  - cbn [happens enters disco]. rewrite answer_status. by case_match.
Qed.

Lemma initialised_reach s s' : initialised s -> reach s s' -> initialised s'.
Proof. intros Hi. induction 1 as [|s1 s2 _ IH Hs]; [done|]. by eapply initialised_step. Qed.

(** ** Calls of Bootstrap that are refused *)

(** Nothing is going on, and the timer for new peers is not due. *)
Record at_rest s : Prop := {
  ar_select : at_select s;
  ar_initialised : initialised s;
  ar_callers : OptimizedLoop.callers (disco s) = 0%nat;
  ar_context : ctx_done s = false;
  ar_monitor : loop (monitor s) = Idle;
  ar_find : clock s < OptimizedLoop.chTimeFindPeers (disco s)
}.

Lemma reach_trans s1 s2 s3 : reach s1 s2 -> reach s2 s3 -> reach s1 s3.
Proof. intros R1. induction 1; [done | by eapply reach_step]. Qed.

Lemma reach_one s s' : step s s' -> reach s s'.
Proof. intros. eapply reach_step; [apply reach_start | done]. Qed.

(** Time goes on to [t], not beyond a timer, and new peers are looked for when it is time. *)
Lemma rest_until s t :
  at_rest s -> clock s <= t < OptimizedLoop.chTimeSeedersReconnect (disco s) -> t <= OptimizedLoop.chTimeFindPeers (disco s) ->
  0 < ok_peersRefreshInterval (OptimizedLoop.disc (disco s)) ->
  exists s', reach s s' /\ at_rest s' /\ clock s' = t /\ trace s' = trace s /\
    OptimizedLoop.disc (disco s') = OptimizedLoop.disc (disco s).
Proof.
  intros [Hsel Hi Hc Hx Hm Hf] Ht Hle Hpos.
  assert (reach s (set_disco (OptimizedLoop.at_time t (disco s)) s)) as Hr.
  { apply reach_one, time_passes. constructor; [lia | intros _; split_and!; [done..|lia|lia] | done | congruence | congruence]. }
  destruct (Z.lt_ge_cases t (OptimizedLoop.chTimeFindPeers (disco s))) as [Hlt|Hge].
  - eexists. split; [exact Hr|]. split_and!; [by constructor|done..].
  - eexists. split; [eapply reach_step; [eapply reach_step; [exact Hr|]|]|].
    + by apply takes_find_timer.
    + apply ends_finding; [apply Hsel | done].
    + split_and!; [|done..]. constructor; try done. unfold clock. cbn. unfold clock. cbn. lia.
Qed.

(** A call of [Bootstrap] is refused and sets the timer for the seeders again. *)
Lemma refused_once s :
  at_rest s -> exists s', reach s s' /\ at_rest s' /\ clock s' = clock s /\
    trace s' = trace s ++ [(clock s, Refused)] /\ OptimizedLoop.disc (disco s') = OptimizedLoop.disc (disco s) /\
    OptimizedLoop.chTimeSeedersReconnect (disco s') = clock s + ok_peersRefreshInterval (OptimizedLoop.disc (disco s)).
Proof.
  intros [Hsel Hi Hc Hx Hm Hf]. unfold initialised in Hi.
  eexists. split.
  - eapply reach_step; [eapply reach_step; [apply reach_one, calls_Bootstrap|]|].
    + apply (takes_init _ _ _ _ _ _ _ 0); [done | cbn; by rewrite Hc].
    + by apply (answers_init _ _ _ _ _ _ _ None).
  - cbn [happens enters set_disco disco OptimizedLoop.in_phase OptimizedLoop.set_callers OptimizedLoop.disc].
    unfold OptimizedLoop.answer, init. cbn. rewrite Hi. by split_and!.
Qed.

(** Nothing but refused calls happens, for any length of time. *)
Lemma refused_forever s until :
  at_rest s -> 1 < ok_peersRefreshInterval (OptimizedLoop.disc (disco s)) ->
  exists s' tr, reach s s' /\ until <= clock s' /\ trace s' = trace s ++ tr /\ forall t e, (t, e) ∈ tr -> e = Refused.
Proof.
  intros Hrest Hpos. remember (Z.to_nat (until - clock s)) as n eqn:En. revert s Hrest Hpos En.
  induction n as [n IH] using lt_wf_ind. intros s Hrest Hpos En.
  destruct (Z.le_gt_cases until (clock s)) as [|Hlt].
  { exists s, []. split_and!; [apply reach_start | done | by rewrite app_nil_r | set_solver]. }
  destruct (refused_once s Hrest) as (s1 & R1 & Hrest1 & E1 & T1 & D1 & C1).
  destruct (rest_until s1 (Z.min (OptimizedLoop.chTimeFindPeers (disco s1))
                             (clock s + ok_peersRefreshInterval (OptimizedLoop.disc (disco s)) - 1)) Hrest1)
    as (s2 & R2 & Hrest2 & E2 & T2 & D2); [rewrite C1; pose proof (ar_find _ Hrest1); lia | lia | rewrite D1; lia |].
  destruct (IH (Z.to_nat (until - clock s2))) with (s := s2) as (s3 & tr & R3 & ? & T3 & Htr);
    [rewrite E2; pose proof (ar_find _ Hrest1); lia | done | rewrite D2, D1; done | done |].
  exists s3, ([(clock s, Refused)] ++ tr). split_and!; [|done| |].
  - by eapply reach_trans, reach_trans.
  - by rewrite T3, T2, T1, <- app_assoc.
  - intros t e [Hin%list_elem_of_singleton|Hin]%elem_of_app; [by injection Hin as -> -> | by eapply Htr].
Qed.

(** An initialised discoverer answers a call with a refusal, which sets the timer. *)
Lemma refusal s s' :
  initialised s -> step s s' -> OptimizedLoop.ph (disco s) = OptimizedLoop.Initialising ->
  (disco s' = disco s /\ finding s' = finding s \/ OptimizedLoop.ph (disco s') = OptimizedLoop.Initialising /\
     OptimizedLoop.chTimeSeedersReconnect (disco s') = OptimizedLoop.chTimeSeedersReconnect (disco s)) \/
  (trace s' = trace s ++ [(clock s, Refused)] /\ at_select s' /\ clock s' = clock s /\
   OptimizedLoop.chTimeSeedersReconnect (disco s') = clock s + ok_peersRefreshInterval (OptimizedLoop.disc (disco s))).
Proof.
  unfold initialised. intros Hi Hs Hp. assert (~ at_select s) as Hns by (intros [E _]; congruence).
  destruct Hs; try (left; left; done); try (left; right; done); try done; try congruence.
  - left. left. unfold asks, ReconnectToNetwork. by rewrite decide_False.
  - right. cbn [happens enters trace disco]. unfold answered, OptimizedLoop.answer, init. rewrite Hi. cbn.
    by split_and!.
Qed.

(** What the run so far says about the timer. *)
Definition timer_set s0 (tr : list (Z * event)) s : Prop :=
  let ch := OptimizedLoop.chTimeSeedersReconnect (disco s) in
  ((forall t, (t, Refused) ∉ tr) /\ ch = OptimizedLoop.chTimeSeedersReconnect (disco s0)) \/
  exists t, (t, Refused) ∈ tr /\ (forall t', (t', Refused) ∈ tr -> t' <= t) /\
    ch = t + ok_peersRefreshInterval (OptimizedLoop.disc (disco s0)).

Definition not_dialling s : Prop := forall b, OptimizedLoop.ph (disco s) ≠ OptimizedLoop.Dialling b.

(** The timer is not due at [t]: no call was refused before and it was set to later,
    or a call was refused less than the refresh interval before. *)
Definition put_off s (tr : list (Z * event)) (t : Z) : Prop :=
  ((forall t', (t', Refused) ∈ tr -> t <= t') /\ t < OptimizedLoop.chTimeSeedersReconnect (disco s)) \/
  exists t', (t', Refused) ∈ tr /\ t' < t < t' + ok_peersRefreshInterval (OptimizedLoop.disc (disco s)).

Lemma timer_frame s0 tr s s' evs :
  timer_set s0 tr s -> OptimizedLoop.chTimeSeedersReconnect (disco s') = OptimizedLoop.chTimeSeedersReconnect (disco s) ->
  (forall t, (t, Refused) ∉ evs) -> timer_set s0 (tr ++ evs) s'.
Proof.
  intros [[Hno Hch]|(t & Hin & Hle & Hch)] E Hevs; rewrite <- E in Hch; [left | right].
  - split; [|done]. intros t [?|?]%elem_of_app; [by apply (Hno t) | by apply (Hevs t)].
  - exists t. split_and!; [apply elem_of_app; by left | | done].
    intros t' [?|?]%elem_of_app; [auto | by destruct (Hevs t')].
Qed.

Lemma timer_not_due s0 tr tr' s :
  timer_set s0 tr s -> 0 < ok_peersRefreshInterval (OptimizedLoop.disc (disco s0)) ->
  (forall t e, (t, e) ∈ tr -> t <= clock s) -> (forall t e, (t, e) ∈ tr' -> clock s <= t) ->
  put_off s0 (tr ++ tr') (clock s) -> clock s < OptimizedLoop.chTimeSeedersReconnect (disco s).
Proof.
  intros Hset Hpos Hpast Hlater [[Hno Hlt]|(t & Hin & Hlt)].
  - destruct Hset as [[_ ->]|(t & Hin & _ & ->)]; [done|]. pose proof (Hno t ltac:(apply elem_of_app; by left)). lia.
  - apply elem_of_app in Hin as [Hin|Hin]; [|apply Hlater in Hin; lia].
    destruct Hset as [[Hno _]|(t' & _ & Hle & ->)]; [by apply Hno in Hin|]. apply Hle in Hin. lia.
Qed.

(** What a step does before the timer is due: a request of the monitor is taken, or the
    loop does not begin to dial, and the timer is set only by a refusal. *)
Lemma undue_step s s' :
  step s s' -> initialised s -> not_dialling s -> clock s < OptimizedLoop.chTimeSeedersReconnect (disco s) ->
  exists evs, trace s' = trace s ++ evs /\
    ((exists a, (a, Asked true) ∈ evs) \/
     (not_dialling s' /\ OptimizedLoop.chTimeSeedersReconnect (disco s') = OptimizedLoop.chTimeSeedersReconnect (disco s) /\
      forall t e, (t, e) ∈ evs -> e = TooFew \/ e = Asked false) \/
     (not_dialling s' /\ OptimizedLoop.chTimeSeedersReconnect (disco s') =
        clock s + ok_peersRefreshInterval (OptimizedLoop.disc (disco s)) /\ evs = [(clock s, Refused)])).
Proof.
  intros Hs Hi Hnd Hlt.
  assert (trace s' = trace s -> not_dialling s' ->
            OptimizedLoop.chTimeSeedersReconnect (disco s') = OptimizedLoop.chTimeSeedersReconnect (disco s) ->
            exists evs, trace s' = trace s ++ evs /\
              ((exists a, (a, Asked true) ∈ evs) \/
               (not_dialling s' /\ OptimizedLoop.chTimeSeedersReconnect (disco s') = OptimizedLoop.chTimeSeedersReconnect (disco s) /\
                forall t e, (t, e) ∈ evs -> e = TooFew \/ e = Asked false) \/
               (not_dialling s' /\ OptimizedLoop.chTimeSeedersReconnect (disco s') =
                  clock s + ok_peersRefreshInterval (OptimizedLoop.disc (disco s)) /\ evs = [(clock s, Refused)]))) as Hnone.
  { intros E ? ?. exists []. split; [by rewrite app_nil_r|]. right. left. split_and!; [done..|]. by intros ? ? ?%elem_of_nil. }
  assert (forall m peers t e, (t, e) ∈ ((clock s,.) <$> lost m peers) -> e = TooFew \/ e = Asked false) as Hlost.
  { intros m peers t e (? & [= _ ->] & Hin)%list_elem_of_fmap. unfold lost in Hin. case_match; set_solver. }
  destruct Hs; try (apply Hnone; [done | done || (by intros ?) | done]).
  - eexists. split; [reflexivity|]. right. left. split_and!; [done..|]. apply Hlost.
  - eexists. split; [reflexivity|]. right. left. split_and!; [done..|]. apply Hlost.
  - unfold asks, ReconnectToNetwork. case_decide; (eexists; split; [reflexivity|]).
    + left. eexists. by apply list_elem_of_singleton.
    + right. left. split_and!; [done..|]. intros t e [= _ ->]%list_elem_of_singleton. by right.
  - destruct (refusal s _ Hi (answers_init _ _ _ _ _ _ s newDHT H1) H1) as [[[E _]|[E _]]|(-> & [E _] & _ & Hch)].
    + exfalso. revert E. cbn [happens enters disco]. unfold OptimizedLoop.answer, init. unfold initialised in Hi. rewrite Hi.
      intros E. apply (f_equal OptimizedLoop.ph) in E. cbn in E. congruence.
    + exfalso. revert E. cbn [happens enters disco]. unfold OptimizedLoop.answer, init. unfold initialised in Hi. rewrite Hi. done.
    + eexists. split; [reflexivity|]. right. right. split_and!; [|done|done]. intros b. rewrite E. done.
  - lia.
  - by destruct (Hnd b).
Qed.

Lemma put_off_reach s s' tr :
  initialised s -> 0 < ok_peersRefreshInterval (OptimizedLoop.disc (disco s)) ->
  OptimizedLoop.ph (disco s) = OptimizedLoop.Select -> reach s s' -> trace s' = trace s ++ tr ->
  (forall a, (a, Asked true) ∉ tr) -> (forall t, clock s <= t <= clock s' -> put_off s tr t) ->
  not_dialling s' /\ timer_set s tr s' /\ forall t l, (t, Tried l) ∉ tr.
Proof.
  intros Hi Hpos Hsel Hr Etr Hask Hoff.
  cut (forall s1 tr1 tr2, reach s s1 -> reach s1 s' -> trace s1 = trace s ++ tr1 -> tr = tr1 ++ tr2 ->
         not_dialling s1 /\ timer_set s tr1 s1 /\ forall t l, (t, Tried l) ∉ tr1).
  { intros Hcut. apply (Hcut s' tr []); [done | apply reach_start | done | by rewrite app_nil_r]. }
  intros s1 tr1 tr2 Hr1. revert tr1 tr2. induction Hr1 as [|s1 s2 Hr1 IH Hs]; intros tr1 tr2 Hr2 E1 Et.
  - assert (tr1 = []) as -> by (apply (app_inv_head (trace s)); by rewrite app_nil_r). split_and!; [intros b; by rewrite Hsel | left; split; [set_solver | done] | set_solver].
  - destruct (reach_trace _ _ Hr1) as (tr0 & E0 & Hpast & _ & Hle).
    destruct (reach_trace _ _ Hr2) as (tr2' & E2 & Hlater & _ & Hle2).
    assert (tr2' = tr2) as ->.
    { rewrite E1, Etr, Et, app_assoc in E2. by apply app_inv_head in E2. }
    destruct (step_trace s1 s2 Hs) as (evs0 & Ev0 & _ & _ & Hle1).
    assert (tr1 = tr0 ++ ((clock s1,.) <$> evs0)) as ->.
    { rewrite Ev0, E0, <- app_assoc in E1. by apply app_inv_head in E1. }
    destruct (IH tr0 (((clock s1,.) <$> evs0) ++ tr2)) as (Hnd & Hset & Hno); [by eapply reach_trans; [apply reach_one|] | done | by rewrite Et, app_assoc|].
    assert (clock s1 < OptimizedLoop.chTimeSeedersReconnect (disco s1)) as Hlt.
    { apply (timer_not_due s tr0 (((clock s1,.) <$> evs0) ++ tr2)); [done|done| | |].
      - intros t e Hin. apply Hpast in Hin. lia.
      - intros t e [(? & [= -> _] & _)%list_elem_of_fmap|Hin]%elem_of_app; [lia|]. apply Hlater in Hin. lia.
      - rewrite app_assoc, <- Et. apply Hoff. lia. }
    assert (initialised s1) as Hi1 by by eapply initialised_reach.
    destruct (undue_step s1 s2 Hs Hi1 Hnd Hlt) as (evs & Ev & Hkind). rewrite Ev0 in Ev. apply app_inv_head in Ev as <-.
    destruct Hkind as [(a & Ha)|[(Hnd2 & Ech & Hall)|(Hnd2 & Ech & Ee)]]; [| |rewrite Ee].
    + exfalso. apply (Hask a). rewrite Et, !elem_of_app. auto.
    + split_and!; [done| |].
      * apply timer_frame with s1; [done..|]. intros t Hin. by destruct (Hall _ _ Hin).
      * intros t l [Hin|Hin]%elem_of_app; [by eapply Hno|]. by destruct (Hall _ _ Hin).
    + split_and!; [done| |].
      * right. exists (clock s1). split_and!; [set_solver| |].
        -- intros t' [Hin|[= ->]%list_elem_of_singleton]%elem_of_app; [apply Hpast in Hin|]; lia.
        -- rewrite Ech. pose proof (settings_reach _ _ Hr1) as Eset. unfold settings in Eset. congruence.
      * intros t l [Hin|[=]%list_elem_of_singleton]%elem_of_app. by eapply Hno.
Qed.

(** [C30] Refused calls of [Bootstrap].  When an initialised discoverer answers a call of
    [Bootstrap] it refuses it and sets the timer for the seeders again, to the
    refresh interval from then.  So in every run on which the calls are refused
    before the timer is due, and no request of the monitor is taken, the seeders
    are not dialled; and calls can go on being refused so for any length of
    time, without anything else happening. *)
Theorem refused_Bootstrap_postpones s :
  let refresh := ok_peersRefreshInterval (OptimizedLoop.disc (disco s)) in
  initialised s ->
  (forall s', step s s' -> OptimizedLoop.ph (disco s) = OptimizedLoop.Initialising ->
     OptimizedLoop.ph (disco s') ≠ OptimizedLoop.Initialising ->
     trace s' = trace s ++ [(clock s, Refused)] /\ at_select s' /\
     OptimizedLoop.chTimeSeedersReconnect (disco s') = clock s + refresh) /\
  (forall s' tr, 0 < refresh -> at_select s -> reach s s' -> trace s' = trace s ++ tr ->
     (forall a, (a, Asked true) ∉ tr) -> (forall t, clock s <= t <= clock s' -> put_off s tr t) ->
     forall t l, (t, Tried l) ∉ tr) /\
  (at_rest s -> 1 < refresh -> forall until,
     exists s' tr, reach s s' /\ until <= clock s' /\ trace s' = trace s ++ tr /\ forall t e, (t, e) ∈ tr -> e = Refused).
Proof.
  intros refresh Hi. split_and!.
  - intros s' Hs Hp Hp'. destruct (refusal s s' Hi Hs Hp) as [[[E _]|[E _]]|(? & ? & _ & ?)]; [congruence | done | done].
  - intros s' tr Hpos [Hsel _] Hr Etr Hask Hoff. by destruct (put_off_reach s s' tr Hi Hpos Hsel Hr Etr Hask Hoff) as (_ & _ & ?).
  - intros Hrest Hpos until. by apply refused_forever.
Qed.

(** ** The rounds of dialling *)

(** A call of [Bootstrap] that succeeded initialised the discoverer. *)
Lemma Bootstrapped_initialised m s t :
  reach (start m okdd now) s -> (t, Bootstrapped) ∈ trace s -> initialised s.
Proof.
  induction 1 as [|s1 s2 _ IH Hs]; [by intros ?%elem_of_nil|].
  destruct (step_trace s1 s2 Hs) as (evs & -> & Hall & _). rewrite Forall_forall in Hall.
  intros [Hin|(? & [= _ <-] & Hin)%list_elem_of_fmap]%elem_of_app; [|by apply (Hall Bootstrapped)].
  eapply initialised_step; [by apply IH | exact Hs].
Qed.

(** From an initialised state on, as long as the context lives, every round tries all seeders. *)
Lemma rounds_complete m s s' :
  reach (start m okdd now) s -> initialised s -> reach s s' -> ctx_done s' = false ->
  exists tr, trace s' = trace s ++ tr /\ forall t l, (t, Tried l) ∈ tr -> l = ok_initialPeersList okdd.
Proof.
  intros Hr0 Hi Hr. induction Hr as [|s1 s2 Hr IH Hs]; [exists []; split; [by rewrite app_nil_r | set_solver]|].
  intros Hc. destruct (step_trace s1 s2 Hs) as (evs & E & Hall & Hctx & _).
  assert (ctx_done s1 = false) as Hc1 by (destruct (ctx_done s1); [by rewrite Hctx in Hc | done]).
  destruct IH as (tr & E1 & Htr); [done|]. exists (tr ++ ((clock s1,.) <$> evs)). split; [by rewrite E, E1, app_assoc|].
  intros t l [Hin|(? & [= _ <-] & Hin)%list_elem_of_fmap]%elem_of_app; [by eapply Htr|].
  pose proof (settings_reach _ _ (reach_trans _ _ _ Hr0 Hr)) as Eset. injection Eset as <- _ _.
  rewrite Forall_forall in Hall. by apply (Hall (Tried l)); [|eapply initialised_reach|].
Qed.

Context (roundTime_pos : 0 <= roundTime).

(** ** Requests of the monitor *)

Definition pause : Z := DurationBetweenReconnectAttempts.

Lemma pause_pos : 0 < pause.
Proof. done. Qed.

(** The times at which the monitor asked. *)
Definition asked (tr : list (Z * event)) : list Z :=
  omap (fun te => match te.2 with Asked _ => Some te.1 | _ => None end) tr.

Record requests s : Prop := {
  rq_sorted : StronglySorted (fun a b => a + pause <= b) (asked (trace s));
  rq_past a : a ∈ asked (trace s) -> a <= clock s;
  rq_free a : a ∈ asked (trace s) -> loop (monitor s) = Idle \/ loop (monitor s) = Reconnecting -> a + pause <= clock s;
  rq_pausing : loop (monitor s) = Pausing -> resume s - pause ∈ asked (trace s) /\ clock s <= resume s /\
    forall a, a ∈ asked (trace s) -> a + pause <= resume s;
  rq_stopped : loop (monitor s) = Stopped -> cancelled (monitor s) = true;
  rq_lost t : (t, TooFew) ∈ trace s -> cancelled (monitor s) = false ->
    (exists a, a ∈ asked (trace s) /\ t - pause <= a <= t) \/ (loop (monitor s) = Reconnecting /\ t = clock s)
}.

Lemma asked_app tr1 tr2 : asked (tr1 ++ tr2) = asked tr1 ++ asked tr2.
Proof. apply omap_app. Qed.

Lemma elem_of_asked_snoc a tr t b : a ∈ asked (tr ++ [(t, Asked b)]) <-> a ∈ asked tr \/ a = t.
Proof. rewrite asked_app, elem_of_app. cbn. by rewrite list_elem_of_singleton. Qed.

(** A step in which the monitor does nothing and no time passes. *)
Lemma requests_frame s s' :
  requests s -> loop (monitor s') = loop (monitor s) -> cancelled (monitor s') = cancelled (monitor s) ->
  resume s' = resume s -> clock s' = clock s -> asked (trace s') = asked (trace s) ->
  (forall t, (t, TooFew) ∈ trace s' -> (t, TooFew) ∈ trace s) -> requests s'.
Proof.
  intros [R1 R2 R3 R4 R5 R6] El Ec Er Ek Ea Ht. constructor; rewrite ?El, ?Ec, ?Er, ?Ek, ?Ea; auto.
Qed.

(** A call of the monitor: it wakes the goroutine up when there are too few peers. *)
Lemma requests_call s m few :
  requests s -> cancelled m = cancelled (monitor s) ->
  (loop m = loop (monitor s) \/ (loop (monitor s) = Idle /\ loop m = Reconnecting)) ->
  (few ≠ [] -> few = [TooFew] /\ loop m ≠ Idle) ->
  requests (happens few (set_monitor m s)).
Proof.
  intros [R1 R2 R3 R4 R5 R6] Ec El Hf.
  assert (asked (trace (happens few (set_monitor m s))) = asked (trace s)) as Ea.
  { cbn [happens set_monitor trace]. rewrite asked_app. destruct few as [|e few]; [by rewrite app_nil_r|].
    destruct Hf as [[= -> ->] _]; [done|]. by rewrite app_nil_r. }
  constructor; rewrite ?Ea; change (clock (happens few (set_monitor m s))) with (clock s);
    cbn [happens set_monitor monitor resume]; rewrite ?Ec; auto.
  - intros a Ha Hl. apply R3; [done|]. destruct El as [<-|[-> _]]; auto.
  - intros Hl. apply R4. destruct El as [<-|[_ E]]; [done | congruence].
  - intros Hl. apply R5. destruct El as [<-|[_ E]]; [done | congruence].
  - intros t Hin Hc. cbn [happens set_monitor trace] in Hin. apply elem_of_app in Hin as [Hin|Hin].
    + destruct (R6 t Hin Hc) as [?|[Hl ->]]; [by left | right]. split; [|done]. destruct El as [->|[E _]]; [done | congruence].
    + destruct few as [|e few]; [by apply elem_of_nil in Hin|]. destruct Hf as [[= -> ->] Hni]; [done|].
      apply list_elem_of_singleton in Hin as [= ->]. change (clock (set_monitor m s)) with (clock s).
      destruct (loop m) eqn:Em; [done | by right | left | exfalso].
      * destruct El as [E|[_ ?]]; [|done]. destruct R4 as (Ha & Hle & _); [done|]. eexists. split; [exact Ha|].
        pose proof (R2 _ Ha). lia.
      * destruct El as [E|[_ ?]]; [|done]. rewrite R5 in Hc; done.
Qed.

(** What the calls do to the goroutine. *)
Lemma doReconnectionIfNeeded_call m peers :
  let m' := (doReconnectionIfNeeded m peers).1 in
  cancelled m' = cancelled m /\ (loop m' = loop m \/ (loop m = Idle /\ loop m' = Reconnecting)) /\
  (lost m peers ≠ [] -> lost m peers = [TooFew] /\ loop m' ≠ Idle).
Proof.
  unfold doReconnectionIfNeeded, lost, doReconn. destruct (ConnMonitor.IsConnectedToTheNetwork m peers); cbn [negb fst].
  - split_and!; [done | by left | done].
  - destruct (loop m) eqn:E; cbn [fst set_loop cancelled loop]; rewrite ?E; split_and!; auto; done.
Qed.

Lemma requests_step s s' : requests s -> step s s' -> requests s'.
Proof.
  intros Hr Hs.
  assert (forall m peers, loop m = loop (monitor s) -> cancelled m = cancelled (monitor s) ->
            requests (happens (lost m peers) (set_monitor (doReconnectionIfNeeded m peers).1 s))) as Hcall.
  { intros m peers El Ec. destruct (doReconnectionIfNeeded_call m peers) as (C1 & C2 & C3). apply requests_call; try done.
    - congruence.
    - by rewrite <- El. }
  destruct Hs; try (apply (requests_frame s); done).
  - unfold Disconnected in H1. destruct conn as [conn|].
    + destruct (pph_Remove _ _) as [h|]; [|done]. injection H1 as E. cbn in E.
      pose proof (Hcall (set_holder h (monitor s)) peers eq_refl eq_refl) as Q. by rewrite E in Q.
    + injection H1 as E. pose proof (Hcall (monitor s) peers eq_refl eq_refl) as Q. by rewrite E in Q.
  - apply (Hcall (set_threshold n (monitor s)) peers); done.
  - destruct Hr as [R1 R2 R3 R4 R5 R6]. constructor; done.
  - destruct (loop (monitor s)) eqn:El; unfold doReconnection in H1; rewrite El in H1; try done. injection H1 as <-.
    destruct Hr as [R1 R2 R3 R4 R5 R6].
    assert (asks (set_loop Pausing (monitor s)) s = mk (set_loop Pausing (monitor s)) (disco (ReconnectToNetwork s).1)
              (finding (ReconnectToNetwork s).1) (entered (ReconnectToNetwork s).1) (clock s + pause) (ctx_done s)
              (trace s ++ [(clock s, Asked (ReconnectToNetwork s).2)])) as ->.
    { unfold asks. by destruct (ReconnectToNetwork s). }
    assert (OptimizedLoop.clock (disco (ReconnectToNetwork s).1) = clock s) as Hk by (unfold ReconnectToNetwork; by case_decide).
    constructor; cbn [monitor set_loop loop resume trace cancelled];
      repeat match goal with |- context [clock (mk ?a ?b ?c ?d ?e ?f ?g)] =>
        change (clock (mk a b c d e f g)) with (OptimizedLoop.clock b) end; rewrite ?Hk; try done.
    + rewrite asked_app. apply StronglySorted_app. split_and!; [|done|repeat constructor]. intros a b Ha ->%list_elem_of_singleton. auto.
    + intros a [Ha| ->]%elem_of_asked_snoc; [auto | lia].
    + by intros a _ [|].
    + intros _. split_and!; [|pose proof pause_pos; lia|].
      * apply elem_of_asked_snoc. right. lia.
      * intros a [Ha| ->]%elem_of_asked_snoc; [|lia]. pose proof (R3 a Ha (or_intror El)). pose proof pause_pos. lia.
    + intros t [Hin|Hin%list_elem_of_singleton]%elem_of_app Hc; [|done].
      left. destruct (R6 t Hin Hc) as [(a & Ha & ?)|[_ ->]]; [exists a; split; [apply elem_of_asked_snoc; by left | done]|].
      exists (clock s). split; [apply elem_of_asked_snoc; by right|].
      pose proof pause_pos. lia.
  - destruct (loop (monitor s)) eqn:El; unfold doReconnection in H1; rewrite El in H1; try done. injection H1 as <-.
    destruct Hr as [R1 R2 R3 R4 R5 R6]. destruct (R4 El) as (_ & _ & Hle).
    constructor; cbn [set_monitor monitor set_loop loop cancelled trace]; try done.
    + intros a Ha _. pose proof (Hle a Ha). change (clock (set_monitor _ s)) with (clock s). lia.
    + intros t Hin Hc. destruct (R6 t Hin Hc) as [?|[? _]]; [by left | congruence].
  - assert (m = set_loop Stopped (monitor s) /\ cancelled (monitor s) = true) as [-> Hc].
    { unfold doReconnection in H1. destruct (loop (monitor s)), (cancelled (monitor s)); by simplify_eq. }
    destruct Hr as [R1 R2 R3 R4 R5 R6]. constructor; cbn [set_monitor monitor set_loop loop cancelled trace]; try done.
    + by intros a _ [|].
    + congruence.
  - apply (requests_frame s); try done.
    + unfold clock. cbn [happens enters disco]. by rewrite (clock_answer s).
    + cbn [happens enters trace]. rewrite asked_app. unfold answered. case_match; by rewrite app_nil_r.
    + intros t [?|(? & [= _ <-] & Hin)%list_elem_of_fmap]%elem_of_app; [done|]. unfold answered in Hin.
      apply list_elem_of_singleton in Hin. by case_match.
  - apply (requests_frame s); try done.
    + cbn [happens enters trace]. by rewrite asked_app, app_nil_r.
    + intros t [?|Hin%list_elem_of_singleton]%elem_of_app; done.
  - destruct H1 as [Q1 _ _ Q4 Q5], Hr as [R1 R2 R3 R4 R5 R6].
    constructor; cbn [set_disco monitor trace resume]; unfold clock in *; cbn [set_disco disco OptimizedLoop.at_time OptimizedLoop.clock];
      try done.
    + intros a Ha. pose proof (R2 a Ha). lia.
    + intros a Ha Hl. pose proof (R3 a Ha Hl). lia.
    + intros Hl. destruct (R4 Hl) as (? & _ & ?). auto.
    + intros t' Hin Hc. destruct (R6 t' Hin Hc) as [?|[? _]]; [by left | done].
Qed.

Lemma requests_reach m s :
  loop m = Idle -> reach (start m okdd now) s -> requests s.
Proof.
  intros El. induction 1 as [|s s' _ IH Hs]; [|by eapply requests_step].
  constructor; cbn [start trace monitor asked omap list_omap]; rewrite ?El; try done; try solve [constructor];
    by intros ? ?%elem_of_nil.
Qed.

(** A request is taken when the loop begins to dial. *)
Lemma taken_step s s' evs a :
  step s s' -> trace s' = trace s ++ evs -> (a, Asked true) ∈ evs ->
  OptimizedLoop.ph (disco s') = OptimizedLoop.Dialling false /\ entered s' = a /\ clock s' = a.
Proof.
  intros Hs E Hin.
  assert (trace s' = trace s -> False) as Hnone.
  { intros E'. assert (evs = []) as -> by (apply (app_inv_head (trace s)); by rewrite app_nil_r, <- E). by apply elem_of_nil in Hin. }
  assert (forall l, trace s' = trace s ++ l -> (a, Asked true) ∈ l) as Hl.
  { intros l E'. rewrite E in E'. by apply app_inv_head in E' as <-. }
  destruct Hs; try (destruct (Hnone eq_refl)).
  - pose proof (Hl _ eq_refl) as (? & [= _ <-] & Hx)%list_elem_of_fmap. unfold lost in Hx. case_match; set_solver.
  - pose proof (Hl _ eq_refl) as (? & [= _ <-] & Hx)%list_elem_of_fmap. unfold lost in Hx. case_match; set_solver.
  - revert Hl. unfold asks, ReconnectToNetwork. case_decide; intros Hl; pose proof (Hl _ eq_refl) as [= ->]%list_elem_of_singleton. done.
  - pose proof (Hl _ eq_refl) as (? & [= _ <-] & Hx)%list_elem_of_fmap. unfold answered in Hx. case_match; set_solver.
  - by pose proof (Hl _ eq_refl) as [=]%list_elem_of_singleton.
Qed.

(** A request that is taken starts a round, which ends in time; of the events from the
    [n]-th on. *)
Definition served (n : nat) s : Prop := (n <= length (trace s))%nat /\ forall a, (a, Asked true) ∈ drop n (trace s) ->
  (exists t l, (t, Tried l) ∈ drop n (trace s) /\ a <= t <= a + roundTime) \/
  (OptimizedLoop.ph (disco s) = OptimizedLoop.Dialling false /\ entered s = a /\ a <= clock s <= a + roundTime).

Lemma served_step n s s' : served n s -> step s s' -> served n s'.
Proof.
  intros [Hn Hsv] Hs. destruct (step_trace s s' Hs) as (evs & Etr & _ & _ & Hclock).
  split; [rewrite Etr, length_app; lia|]. rewrite Etr, drop_app_le by done.
  intros a [Ha|Ha]%elem_of_app; [|right; destruct (taken_step s s' _ a Hs Etr Ha) as (? & ? & ->); split_and!; done || lia].
  destruct (Hsv a Ha) as [(t & l & Ht & ?)|(Hp & He & Hk)]; [left; exists t, l; split; [apply elem_of_app; by left | done]|].
  assert (~ at_select s) as Hns by (intros [E _]; congruence).
  destruct Hs; try (right; split_and!; done || apply Hk); try congruence; try done.
  - right. unfold asks, ReconnectToNetwork. rewrite decide_False by done. split_and!; done || apply Hk.
  - left. cbn [happens enters trace] in Etr. apply app_inv_head in Etr. rewrite <- Etr.
    eexists (clock s), _. split; [|exact Hk]. apply elem_of_app. right. by apply list_elem_of_singleton.
  - right. destruct H1 as [Q1 _ Q3 _ _]. split_and!; [done..| |]; unfold clock in *; cbn; [lia|].
    destruct (Q3 Hns); [congruence | lia].
Qed.

Lemma served_reach s s' : reach s s' -> served (length (trace s)) s'.
Proof.
  induction 1 as [|s1 s2 _ IH Hs]; [|by eapply served_step].
  split; [done|]. intros a. rewrite drop_all. by intros ?%elem_of_nil.
Qed.

(** [C23] Losses and requests.  In every execution with an open monitor: requests are at
    least a pause apart; when too few peers are left, the monitor asks the
    discoverer before time passes, unless it has asked at most the pause before, in
    which case the loss need not be followed by a request of its own; and, once a
    call of [Bootstrap] has succeeded and as long as the context is not done, a
    request that meets the discoverer at its [select] has all seeders tried within
    the time of a round. *)
Theorem losses_answered m s :
  loop m = Idle -> reach (start m okdd now) s ->
  StronglySorted (fun a b => a + pause <= b) (asked (trace s)) /\
  (forall t, (t, TooFew) ∈ trace s -> cancelled (monitor s) = false -> t < clock s ->
     exists a, a ∈ asked (trace s) /\ t - pause <= a <= t) /\
  (forall s' t0, (t0, Bootstrapped) ∈ trace s -> reach s s' -> ctx_done s' = false ->
     exists tr, trace s' = trace s ++ tr /\
       forall a, (a, Asked true) ∈ tr -> a + roundTime < clock s' ->
         exists t, (t, Tried (ok_initialPeersList okdd)) ∈ tr /\ a <= t <= a + roundTime).
Proof.
  intros El Hr. pose proof (requests_reach m s El Hr) as [R1 _ _ _ _ R6]. split_and!; [done| |].
  - intros t Hin Hc Hlt. destruct (R6 t Hin Hc) as [?|[_ ->]]; [done | lia].
  - intros s' t0 Hb Hr' Hc. destruct (rounds_complete m s s' Hr) as (tr & E & Hl); [by eapply Bootstrapped_initialised | done..|].
    exists tr. split; [done|]. intros a Hin Hlt. destruct (served_reach s s' Hr') as [_ Hsv].
    rewrite E, drop_app_length in Hsv. destruct (Hsv a Hin) as [(t & l & Ht & ?)|(_ & _ & ?)]; [|lia].
    exists t. split; [by rewrite <- (Hl t l) | done].
Qed.

Context (seeders_pos : 0 <= ok_seedersReconnectionInterval okdd) (refresh_pos : 0 < ok_peersRefreshInterval okdd).

(** ** The next attempt *)

(** The timer for the seeders was set at [t], so that the loop gets to them in time. *)
Definition deadline s (t : Z) : Prop :=
  let chS := OptimizedLoop.chTimeSeedersReconnect (disco s) in
  let by_now d := entered s <= t + longest + d /\ clock s <= entered s + roundTime in
  t <= clock s /\
  match OptimizedLoop.ph (disco s) with
  | OptimizedLoop.Select =>
      chS <= t + longest /\
      if finding s then by_now 0
      else clock s <= chS \/ (clock s < OptimizedLoop.chTimeFindPeers (disco s) /\ clock s <= t + longest + roundTime)
  | OptimizedLoop.Initialising | OptimizedLoop.Dialling false => by_now roundTime
  | OptimizedLoop.Dialling true => by_now (2 * roundTime)
  | OptimizedLoop.Ended => ctx_done s = true
  end.

Definition rearms (e : event) : Prop := match e with Tried _ | Refused => True | _ => False end.

Definition rearmed s (t : Z) : Prop := t = now \/ exists e, (t, e) ∈ trace s /\ rearms e.

Record timing s : Prop := {
  tm_seeders : ok_seedersReconnectionInterval (OptimizedLoop.disc (disco s)) = ok_seedersReconnectionInterval okdd;
  tm_refresh : ok_peersRefreshInterval (OptimizedLoop.disc (disco s)) = ok_peersRefreshInterval okdd;
  tm_list : ok_initialPeersList (OptimizedLoop.disc (disco s)) = ok_initialPeersList okdd;
  tm_deadline : exists t, rearmed s t /\ deadline s t
}.

(** A step that leaves the loop alone. *)
Lemma timing_frame s s' :
  timing s -> disco s' = disco s -> finding s' = finding s -> entered s' = entered s ->
  (ctx_done s = true -> ctx_done s' = true) -> (forall x, x ∈ trace s -> x ∈ trace s') -> timing s'.
Proof.
  intros [H1' H2' H3' (t & Hr & Hd)] Ed Ef Ee Hc Htr. constructor; rewrite ?Ed; try done.
  exists t. split; [destruct Hr as [|(e & ? & ?)]; [by left | right; eauto]|].
  unfold deadline, clock in *. rewrite Ed, Ef, Ee. destruct Hd as [Ht Hd]. split; [done|].
  destruct (OptimizedLoop.ph (disco s)); auto.
Qed.

(** The loop leaves its [select] for something that must be done in time. *)
Lemma timing_taken s d :
  timing s -> at_select s -> OptimizedLoop.disc d = OptimizedLoop.disc (disco s) -> OptimizedLoop.clock d = clock s ->
  (OptimizedLoop.ph d = OptimizedLoop.Initialising \/ OptimizedLoop.ph d = OptimizedLoop.Dialling false) ->
  timing (enters d false s).
Proof.
  intros [E1 E2 E3 (t & Hr & Ht & Hd)] [Hp Hf] Ed Ec Hph. constructor; cbn [enters disco]; rewrite ?Ed; [done..|].
  exists t. split; [done|]. unfold deadline, clock in *. cbn [enters disco entered]. rewrite Hp, Hf in Hd. rewrite Ec.
  unfold clock. split; [done|]. destruct Hph as [-> | ->]; lia.
Qed.

(** The timer is set again. *)
Lemma timing_rearmed s s' e :
  timing s -> OptimizedLoop.ph (disco s') = OptimizedLoop.Select -> finding s' = false ->
  ok_seedersReconnectionInterval (OptimizedLoop.disc (disco s')) = ok_seedersReconnectionInterval okdd ->
  ok_peersRefreshInterval (OptimizedLoop.disc (disco s')) = ok_peersRefreshInterval okdd ->
  ok_initialPeersList (OptimizedLoop.disc (disco s')) = ok_initialPeersList okdd ->
  clock s' = clock s -> (clock s, e) ∈ trace s' -> rearms e ->
  clock s <= OptimizedLoop.chTimeSeedersReconnect (disco s') <= clock s + longest -> timing s'.
Proof.
  intros _ Hp Hf E1 E2 E3 Ec Hin He Hch. constructor; [done..|]. exists (clock s). split; [right; eauto|].
  unfold deadline. rewrite Hp, Hf, Ec. lia.
Qed.

Lemma interval_bounds d b :
  ok_seedersReconnectionInterval d = ok_seedersReconnectionInterval okdd ->
  ok_peersRefreshInterval d = ok_peersRefreshInterval okdd ->
  0 <= createChTimeSeedersReconnect d b <= longest.
Proof. intros E1 E2. unfold createChTimeSeedersReconnect, longest. destruct b; lia. Qed.

Lemma round_bounds d done :
  ok_seedersReconnectionInterval d = ok_seedersReconnectionInterval okdd ->
  ok_peersRefreshInterval d = ok_peersRefreshInterval okdd ->
  0 <= (processSeedersReconnect AddressToPeerInfo IsConnected Connect d done).1 <= longest.
Proof.
  intros E1 E2. unfold processSeedersReconnect. destruct (tryToReconnectAtLeastToASeeder _ _ _ _ _).
  by apply interval_bounds.
Qed.

Lemma timing_answer s newDHT :
  timing s -> OptimizedLoop.ph (disco s) = OptimizedLoop.Initialising ->
  timing (happens (answered (init (OptimizedLoop.disc (disco s)) newDHT).1.1)
            (enters (OptimizedLoop.answer (clock s) newDHT (disco s)) false s)).
Proof.
  intros Ht Hp. pose proof Ht as [E1 E2 E3 (t & Hr & Hle & Hd)].
  assert (forall err, timing (happens [Refused] (enters (OptimizedLoop.mk (OptimizedLoop.disc (disco s)) OptimizedLoop.Select
      (OptimizedLoop.callers (disco s)) (OptimizedLoop.answers (disco s) ++ [Some err])
      (clock s + createChTimeSeedersReconnect (OptimizedLoop.disc (disco s)) false) (OptimizedLoop.chTimeFindPeers (disco s))
      (clock s) (OptimizedLoop.events (disco s) ++ (init (OptimizedLoop.disc (disco s)) newDHT).2)) false s))) as Href.
  { intros err. apply (timing_rearmed s _ Refused); try done; [cbn; set_solver|].
    cbn [happens enters disco OptimizedLoop.chTimeSeedersReconnect]. pose proof (interval_bounds (OptimizedLoop.disc (disco s)) false E1 E2). lia. }
  unfold OptimizedLoop.answer. unfold init in *. destruct (ok_status (OptimizedLoop.disc (disco s))) eqn:Est; [|apply Href].
  destruct newDHT as [err|]; [apply Href|]. constructor; [done..|]. exists t. split.
  - destruct Hr as [|(e & ? & ?)]; [by left | right; exists e; cbn; set_solver].
  - unfold deadline, clock in *. rewrite Hp in Hd. cbn [happens enters disco OptimizedLoop.ph OptimizedLoop.clock entered].
    unfold clock. lia.
Qed.

Lemma timing_step s s' : timing s -> step s s' -> timing s'.
Proof.
  intros Ht Hs. pose proof (step_trace s s' Hs) as (evs & Etr & _ & Hctx & _).
  assert (forall x, x ∈ trace s -> x ∈ trace s') as Hin by (intros x; rewrite Etr; set_solver).
  destruct Hs; try (by apply (timing_frame s)).
  - unfold asks, ReconnectToNetwork in *. case_decide as Hsel; [|by apply (timing_frame s)].
    apply (timing_frame (enters (OptimizedLoop.in_phase (OptimizedLoop.Dialling false) (disco s)) false s)); try done.
    apply timing_taken; auto.
  - destruct Ht as [E1 E2 E3 (t & Hr & Hd)]. constructor; [done..|]. by exists t.
  - apply timing_taken; auto.
  - by apply timing_answer.
  - apply timing_taken; auto.
  - pose proof Ht as [E1 E2 E3 _].
    eapply (timing_rearmed s); try done; [apply elem_of_app; right; by apply list_elem_of_singleton | done |].
    cbn [happens enters disco OptimizedLoop.dialled OptimizedLoop.chTimeSeedersReconnect].
    pose proof (round_bounds (OptimizedLoop.disc (disco s)) done E1 E2). lia.
  - destruct Ht as [E1 E2 E3 (t & Hr & Hle & Hd)]. destruct H1 as [Hp Hf]. constructor; [done..|]. exists t. split; [done|].
    unfold deadline in *. rewrite Hp, Hf in Hd. cbn [enters disco finding entered]. rewrite Hp. unfold clock in *.
    cbn [enters disco]. unfold clock. lia.
  - destruct Ht as [E1 E2 E3 (t & Hr & Hle & Hd)]. constructor; [done..|]. exists t. split; [done|].
    unfold deadline in *. rewrite H1, H2 in Hd. cbn [enters disco finding OptimizedLoop.found OptimizedLoop.ph
      OptimizedLoop.chTimeSeedersReconnect OptimizedLoop.chTimeFindPeers]. unfold clock in *.
    cbn [enters disco OptimizedLoop.found OptimizedLoop.clock]. unfold clock. rewrite E2. lia.
  - destruct Ht as [E1 E2 E3 (t & Hr & Hle & Hd)]. constructor; [done..|]. exists t. split; [done|]. by split.
  - destruct Ht as [E1 E2 E3 (t' & Hr & Hle & Hd)]. destruct H1 as [Q1 Q2 Q3 _ _]. constructor; [done..|]. exists t'. split; [done|].
    unfold deadline, at_select, clock in *. cbn [set_disco disco OptimizedLoop.at_time OptimizedLoop.ph OptimizedLoop.clock
      finding entered OptimizedLoop.chTimeSeedersReconnect OptimizedLoop.chTimeFindPeers ctx_done].
    split; [lia|]. destruct (OptimizedLoop.ph (disco s)) as [| |b|] eqn:Ep; [destruct (finding s) eqn:Ef|..|done].
    + destruct Q3 as [|]; [by intros [_ ?] | done | lia].
    + destruct Q2 as (_ & _ & ? & ?); [done | lia].
    + destruct Q3 as [|]; [by intros [? _] | done | lia].
    + destruct Q3 as [|]; [by intros [? _] | done | destruct b; lia].
Qed.

Lemma timing_start m : timing (start m okdd now).
Proof.
  constructor; [done..|]. exists now. split; [by left|]. unfold deadline, clock, start. cbn. unfold longest. lia.
Qed.

Lemma timing_reach m s : reach (start m okdd now) s -> timing s.
Proof. induction 1; [apply timing_start | by eapply timing_step]. Qed.

(** While the context lives the clock is never far from the last time the timer was set. *)
Lemma timing_clock s : timing s -> ctx_done s = false -> exists t, rearmed s t /\ clock s <= t + longest + 3 * roundTime.
Proof.
  intros [_ _ _ (t & Hr & _ & Hd)] Hc. exists t. split; [done|]. revert Hd.
  destruct (OptimizedLoop.ph (disco s)) as [| |[]|]; [destruct (finding s)|..|congruence]; lia.
Qed.

(** [C13] The seeders are tried again.  Once a call of [Bootstrap] has succeeded and as long
    as the context is not done: every round of dialling tries all seeders, and in every
    stretch of time longer than the longer of the two intervals and three rounds there is
    such a round, or a refused call of [Bootstrap]; whatever connections are lost and
    whatever requests of the monitor are dropped meanwhile. *)
Theorem seeders_tried_again m s s' t0 :
  reach (start m okdd now) s -> (t0, Bootstrapped) ∈ trace s -> reach s s' -> ctx_done s' = false ->
  exists tr, trace s' = trace s ++ tr /\ (forall t l, (t, Tried l) ∈ tr -> l = ok_initialPeersList okdd) /\
    (clock s + longest + 3 * roundTime < clock s' ->
     exists t, clock s < t <= clock s' /\ ((t, Tried (ok_initialPeersList okdd)) ∈ tr \/ (t, Refused) ∈ tr)).
Proof.
  intros Hr0 Hb Hr Hc. pose proof (timing_reach m s Hr0) as Ht.
  destruct (rounds_complete m s s' Hr0) as (tr & E & Hl); [by eapply Bootstrapped_initialised | done..|].
  exists tr. split_and!; [done..|]. intros Hlong.
  destruct (reach_trace s s' Hr) as (tr' & E' & Htr & _). assert (tr' = tr) as -> by (rewrite E in E'; by apply app_inv_head in E').
  destruct (reach_trace _ s Hr0) as (tr0 & E0 & Htr0 & _ & Hnow). cbn [start trace app] in E0. subst tr0.
  assert (timing s') as Ht' by (clear -Ht Hr roundTime_pos seeders_pos refresh_pos; induction Hr; [done | by eapply timing_step]).
  destruct (timing_clock s' Ht' Hc) as (t & [->|(e & Hin & He)] & Hle).
  { unfold clock, start in Hnow. cbn in Hnow. unfold clock in *. lia. }
  rewrite E in Hin. apply elem_of_app in Hin as [Hin|Hin]; [apply Htr0 in Hin; lia|].
  pose proof (Htr _ _ Hin). exists t. split; [lia|]. destruct e as [| | | |l]; try done; [by right | left].
  by rewrite <- (Hl t l).
Qed.

End Correctness.

(** A node with one seeder, in seconds: the short interval is that of the peers. *)
Module Witness.

#[local] Instance holder : PreferredPeersHolderHandler PeersHolder.peersHolder := ConnMonitor.Witness.holder.

Abbreviation state0 := (state PeersHolder.peersHolder nat).
Abbreviation step0 := (step (P := PeersHolder.peersHolder) id ConnMonitor.Witness.watch Ok (fun _ => false) (fun _ => None) 1).
Abbreviation reach0 := (reach (P := PeersHolder.peersHolder) id ConnMonitor.Witness.watch Ok (fun _ => false) (fun _ => None) 1).

Definition okdd : optimizedKadDhtDiscoverer := mkOptimized NilListShr 20 10 "/p" ["seeder"] 100 100 statNotInitialized false.
Definition s0 : state0 := start ConnMonitor.Witness.lcms0 okdd 0.

(** One peer left; the goroutine of the monitor; the loop of the discoverer; time. *)
Inductive action : Type := Lose | Ask | Resume | Call | Take | Answer | SeedersTimer | EndDial | FindTimer | EndFind | Pass (t : Z).

Definition busy (s : state0) : bool :=
  match OptimizedLoop.ph (disco s) with OptimizedLoop.Ended => false | _ => true end.

Definition quietb (s : state0) (t : Z) : bool :=
  (clock s <=? t) &&
  (if decide (at_select s) then
     bool_decide (OptimizedLoop.callers (disco s) = 0%nat) && negb (ctx_done s) &&
     (t <=? OptimizedLoop.chTimeSeedersReconnect (disco s)) && (t <=? OptimizedLoop.chTimeFindPeers (disco s))
   else negb (busy s) || (t <=? entered s + 1)) &&
  match loop (monitor s) with Reconnecting => false | Pausing => t <=? resume s | _ => true end.

Lemma quietb_ok s t : quietb s t = true -> quiet 1 s t.
Proof.
  unfold quietb, busy. rewrite !andb_true_iff. intros ((Hle & Hsel) & Hm). constructor.
  - lia.
  - intros Hs. rewrite decide_True, !andb_true_iff, bool_decide_eq_true, negb_true_iff in Hsel by done. lia || (destruct Hsel as (((? & ?) & ?) & ?); split_and!; done || lia).
  - intros Hs. rewrite decide_False, orb_true_iff in Hsel by done. destruct (OptimizedLoop.ph (disco s)); auto; right; destruct Hsel; done || lia.
  - intros E. by rewrite E in Hm.
  - intros E. rewrite E in Hm. lia.
Qed.

Definition act (a : action) (s : state0) : option state0 :=
  match a with
  | Lose => match Disconnected (monitor s) ["p"] None with
            | Ret (m, _) => Some (happens (lost (monitor s) ["p"]) (set_monitor m s))
            | Panic => None
            end
  | Ask => m ← doReconnection (monitor s) ReconnectDone; Some (asks m s)
  | Resume => m ← doReconnection (monitor s) PauseOver; if resume s <=? clock s then Some (set_monitor m s) else None
  | Call => Some (set_disco (OptimizedLoop.set_callers (S (OptimizedLoop.callers (disco s))) (disco s)) s)
  | Take =>
      match OptimizedLoop.callers (disco s) with
      | S n => if decide (at_select s)
               then Some (enters (OptimizedLoop.in_phase OptimizedLoop.Initialising (OptimizedLoop.set_callers n (disco s))) false s)
               else None
      | O => None
      end
  | Answer =>
      if decide (OptimizedLoop.ph (disco s) = OptimizedLoop.Initialising)
      then Some (happens (answered (init (disco s).(OptimizedLoop.disc) None).1.1)
                   (enters (OptimizedLoop.answer (clock s) None (disco s)) false s)) else None
  | SeedersTimer =>
      if decide (at_select s /\ OptimizedLoop.chTimeSeedersReconnect (disco s) <= clock s)
      then Some (enters (OptimizedLoop.in_phase (OptimizedLoop.Dialling false) (disco s)) false s) else None
  | EndDial =>
      match OptimizedLoop.ph (disco s) with
      | OptimizedLoop.Dialling b =>
          Some (happens [Tried (processSeedersReconnect Ok (fun _ => false) (fun _ => None) (OptimizedLoop.disc (disco s)) (fun _ => false)).2]
            (enters (OptimizedLoop.dialled Ok (fun _ => false) (fun _ => None) (clock s) (fun _ => false) b (disco s)) false s))
      | _ => None
      end
  | FindTimer =>
      if decide (at_select s /\ OptimizedLoop.chTimeFindPeers (disco s) <= clock s) then Some (enters (disco s) true s) else None
  | EndFind =>
      if decide (OptimizedLoop.ph (disco s) = OptimizedLoop.Select /\ finding s = true)
      then Some (enters (OptimizedLoop.found (clock s) (disco s)) false s) else None
  | Pass t => if quietb s t then Some (set_disco (OptimizedLoop.at_time t (disco s)) s) else None
  end.

Lemma act_step a s s' : act a s = Some s' -> step0 s s'.
Proof.
  destruct a; cbn [act]; intros E.
  - destruct (Disconnected (monitor s) ["p"] None) as [[m evs]|] eqn:Ed; [|done]. injection E as <-. by eapply disconnects.
  - destruct (doReconnection _ _) eqn:Ed; [|done]. injection E as <-. by constructor.
  - destruct (doReconnection _ _) eqn:Ed; [|done]. cbn in E. destruct (Z.leb_spec (resume s) (clock s)); [|done].
    injection E as <-. by constructor.
  - injection E as <-. apply calls_Bootstrap.
  - destruct (OptimizedLoop.callers (disco s)) eqn:Ec; [done|]. case_decide; [|done]. injection E as <-. by constructor.
  - case_decide; [|done]. injection E as <-. by constructor.
  - case_decide as Hd; [|done]. injection E as <-. by destruct Hd; constructor.
  - destruct (OptimizedLoop.ph (disco s)) eqn:Ep; try done. injection E as <-. by constructor.
  - case_decide as Hd; [|done]. injection E as <-. by destruct Hd; constructor.
  - case_decide as Hd; [|done]. injection E as <-. by destruct Hd; constructor.
  - destruct (quietb s t) eqn:Eq; [|done]. injection E as <-. by constructor; apply quietb_ok.
Qed.

Definition exec (l : list action) (s : option state0) : option state0 := fold_left (fun s a => s ≫= act a) l s.

Lemma acts_reach l s s' : exec l (Some s) = Some s' -> reach0 s s'.
Proof.
  revert s. induction l as [|a l IH]; intros s; cbn [exec fold_left]; [intros [= ->]; apply reach_start|].
  fold (exec l (Some s ≫= act a)). cbn [mbind option_bind]. destruct (act a s) as [s1|] eqn:E.
  - intros Hr. eapply reach_trans; [by eapply reach_one, act_step | by apply IH].
  - intros Hn. exfalso. clear IH E. induction l; [done | auto].
Qed.

(** Bootstrap; then peers are lost, a request is made and dropped for the round of the
    timer, and another loss follows within the pause. *)
Definition boot : list action := [Call; Take; Answer; EndDial].
Definition run : list action :=
  [Pass 10; SeedersTimer; Lose; Ask; Pass 11; EndDial; Lose; Pass 20; FindTimer; EndFind; Pass 21; SeedersTimer; EndDial; Pass 31].

Definition s1 : state0 := default s0 (exec boot (Some s0)).
Definition s2 : state0 := default s0 (exec run (Some s1)).

Lemma exec_default l s : is_Some (exec l (Some s)) -> reach0 s (default s0 (exec l (Some s))).
Proof. intros [s' E]. rewrite E. by eapply acts_reach. Qed.

Lemma booted_reach : reach0 s0 s1.
Proof. apply exec_default, is_Some_alt. vm_compute. exact I. Qed.
Lemma ran_reach : reach0 s1 s2.
Proof. apply exec_default, is_Some_alt. vm_compute. exact I. Qed.

Lemma booted_trace : trace s1 = [(0, Bootstrapped); (0, Tried ["seeder"])].
Proof. vm_compute. reflexivity. Qed.
Lemma ran_trace : trace s2 =
  [(0, Bootstrapped); (0, Tried ["seeder"]); (10, TooFew); (10, Asked false); (11, Tried ["seeder"]); (11, TooFew);
   (21, Tried ["seeder"])].
Proof. vm_compute. reflexivity. Qed.

Lemma whole_reach : reach0 s0 s2.
Proof. eapply reach_trans; [exact booted_reach | exact ran_reach]. Qed.

Lemma seeders_tried_again_witness : exists t tr, trace s2 = trace s1 ++ tr /\
  ((t, Tried ["seeder"]) ∈ tr \/ (t, Refused) ∈ tr).
Proof.
  destruct (seeders_tried_again id ConnMonitor.Witness.watch Ok (fun _ => false) (fun _ => None) 1 okdd 0
              ltac:(lia) ltac:(cbn; lia) ltac:(cbn; lia) ConnMonitor.Witness.lcms0 s1 s2 0) as (tr & E & _ & Hex).
  - exact booted_reach.
  - rewrite booted_trace. left.
  - exact ran_reach.
  - vm_compute. reflexivity.
  - destruct Hex as (t & _ & Ht); [vm_compute; reflexivity|]. exists t, tr. split; [exact E | exact Ht].
Defined.

(** A request that is taken: its round is over within a second. *)
Definition run_taken : list action := [Pass 5; Lose; Ask; Pass 6; EndDial; Pass 7].
Definition s3 : state0 := default s0 (exec run_taken (Some s1)).

Lemma taken_reach : reach0 s1 s3.
Proof. apply exec_default, is_Some_alt. vm_compute. exact I. Qed.
Lemma taken_trace : trace s3 = trace s1 ++ [(5, TooFew); (5, Asked true); (6, Tried ["seeder"])].
Proof. vm_compute. reflexivity. Qed.

Lemma losses_answered_witness :
  (StronglySorted (fun a b => a + pause <= b) (asked (trace s2)) /\ exists a, a ∈ asked (trace s2) /\ 11 - pause <= a <= 11) /\
  exists tr t, trace s3 = trace s1 ++ tr /\ (t, Tried ["seeder"]) ∈ tr /\ 5 <= t <= 6.
Proof.
  split.
  - destruct (losses_answered id ConnMonitor.Witness.watch Ok (fun _ => false) (fun _ => None) 1 okdd 0
                ltac:(lia) ConnMonitor.Witness.lcms0 s2) as (P1 & P2 & _).
    + reflexivity.
    + exact whole_reach.
    + split; [exact P1|]. apply P2; [|vm_compute; reflexivity | vm_compute; reflexivity].
      rewrite ran_trace. do 5 right. left.
  - destruct (losses_answered id ConnMonitor.Witness.watch Ok (fun _ => false) (fun _ => None) 1 okdd 0
                ltac:(lia) ConnMonitor.Witness.lcms0 s1) as (_ & _ & P3).
    + reflexivity.
    + exact booted_reach.
    + destruct (P3 s3 0) as (tr & E & Htr); [rewrite booted_trace; left | exact taken_reach | vm_compute; reflexivity|].
      pose proof taken_trace as E'. rewrite E in E'. apply app_inv_head in E'. subst tr.
      destruct (Htr 5) as (t & Ht & Hle); [right; left | vm_compute; reflexivity|].
      eexists _, t. split; [exact E | split; [exact Ht | exact Hle]].
Defined.

(** Calls that are refused: two, and then for a thousand seconds. *)
Definition run_refused : list action :=
  [Pass 5; Call; Take; Answer; Pass 20; FindTimer; EndFind; Pass 22; Call; Take; Answer; Pass 30].
Definition s4 : state0 := default s0 (exec run_refused (Some s1)).

Lemma refused_reach : reach0 s1 s4.
Proof. apply exec_default, is_Some_alt. vm_compute. exact I. Qed.
Lemma refused_trace : trace s4 = trace s1 ++ [(5, Refused); (22, Refused)].
Proof. vm_compute. reflexivity. Qed.

Lemma refused_put_off t : clock s1 <= t <= clock s4 -> put_off s1 [(5, Refused); (22, Refused)] t.
Proof.
  assert (clock s1 = 0) as -> by (vm_compute; reflexivity). assert (clock s4 = 30) as -> by (vm_compute; reflexivity).
  intros Ht. unfold put_off.
  assert (OptimizedLoop.chTimeSeedersReconnect (disco s1) = 10) as -> by (vm_compute; reflexivity).
  assert (ok_peersRefreshInterval (OptimizedLoop.disc (disco s1)) = 20) as -> by (vm_compute; reflexivity).
  destruct (Z.le_gt_cases t 5); [left; split; [|lia] |right].
  - intros t' [[= ->]|[= ->]%list_elem_of_singleton]%elem_of_cons; lia.
  - destruct (Z.le_gt_cases t 22); [exists 5; split; [left | lia] | exists 22; split; [right; left | lia]].
Qed.

Lemma rest1 : at_rest s1.
Proof. constructor; try (vm_compute; reflexivity). split; vm_compute; reflexivity. Qed.

Lemma refused_Bootstrap_postpones_witness :
  (forall t l, (t, Tried l) ∉ [(5, Refused); (22, Refused)]) /\
  exists s tr, reach0 s1 s /\ 1000 <= clock s /\ trace s = trace s1 ++ tr /\ forall t e, (t, e) ∈ tr -> e = Refused.
Proof.
  destruct (refused_Bootstrap_postpones id ConnMonitor.Witness.watch Ok (fun _ => false) (fun _ => None) 1 s1) as (_ & P2 & P3).
  - exact (ar_initialised _ rest1).
  - split.
    + apply (P2 s4); [vm_compute; reflexivity | exact (ar_select _ rest1) | exact refused_reach | exact refused_trace | | exact refused_put_off].
      intros a [[=]|[=]%list_elem_of_singleton]%elem_of_cons.
    + apply P3; [exact rest1 | vm_compute; reflexivity].
Defined.

End Witness.
