(* ===== verification/Crypto.v ===== *)
(** * Crypto: the signer of the node and key conversions ([libp2p/crypto])

    The key, signature and identifier functions of the crypto packages are
    section variables.  The documented laws of those packages that the code
    relies on are the hypotheses of the last section: a signature verifies with
    the public key of the signing key, and an identifier made from a public key
    gives the key back. *)

From S2P Require Import Prelude Errors Interfaces Wire.
From Stdlib Require Import ZArith Lia String Strings.Byte.
From stdpp Require Import prelude list strings.

Local Open Scope Z_scope.

Section Crypto.

(** Keys of the crypto package and of libp2p, the single signer, the key
    generator, SHA-256 and the peer identifiers. *)
Context {PrivateKey PublicKey PrivKey PubKey : Type}.
Context (PrivateKey_ToByteArray : PrivateKey -> result bytes).
Context (PublicKey_ToByteArray : PublicKey -> result bytes).
Context (signer_Sign : PrivateKey -> bytes -> result bytes).
Context (signer_Verify : PublicKey -> bytes -> bytes -> option error).
Context (PrivateKeyFromByteArray : bytes -> result PrivateKey).
Context (PublicKeyFromByteArray : bytes -> result PublicKey).
Context (sha256_Sum256 : bytes -> bytes).
Context (UnmarshalSecp256k1PrivateKey : bytes -> result PrivKey).
Context (UnmarshalSecp256k1PublicKey : bytes -> result PubKey).
Context (GenerateSecp256k1Key : result PrivKey).
Context (PrivKey_Raw : PrivKey -> result bytes) (PrivKey_GetPublic : PrivKey -> PubKey).
Context (PubKey_Raw : PubKey -> result bytes).
Context (IDFromBytes : bytes -> result PeerID).
Context (ExtractPublicKey : PeerID -> result PubKey).
Context (IDFromPublicKey : PubKey -> result PeerID).

(** ** The signer wrapper *)

(** The signer and the key generator are tested for presence. *)
Record ArgsP2pSignerWrapper : Type := mkArgs {
  arg_PrivateKey : option PrivateKey;
  arg_Signer : option unit;
  arg_KeyGen : option unit
}.

Record p2pSignerWrapper : Type := mk { privateKey : PrivateKey }.

Definition checkArgs (args : ArgsP2pSignerWrapper) : option error :=
  match arg_PrivateKey args, arg_Signer args, arg_KeyGen args with
  | None, _, _ => Some (ErrSentinel ErrNilPrivateKey)
  | Some _, None, _ => Some (ErrSentinel ErrNilSingleSigner)
  | Some _, Some _, None => Some (ErrSentinel ErrNilKeyGenerator)
  | Some _, Some _, Some _ => None
  end.

Definition NewP2PSignerWrapper (args : ArgsP2pSignerWrapper) : result p2pSignerWrapper :=
  match checkArgs args with
  | Some err => Err err
  | None => match arg_PrivateKey args with Some sk => Ok (mk sk) | None => Err ErrNilPrivateKey end
  end.

Definition ConvertPeerIDToPublicKey (pid : PeerID) : result PublicKey :=
  let? libp2pPid := IDFromBytes (bytes_of_string pid) in
  match ExtractPublicKey libp2pPid with
  | Err err => Err (ErrText ("cannot extract signing key: " +:+ Error err))
  | Ok pubk =>
      let? pubKeyBytes := PubKey_Raw pubk in
      PublicKeyFromByteArray pubKeyBytes
  end.

Definition Sign (psw : p2pSignerWrapper) (payload : bytes) : result bytes :=
  signer_Sign (privateKey psw) (sha256_Sum256 payload).

Definition Verify (psw : p2pSignerWrapper) (payload : bytes) (pid : PeerID) (signature : bytes) : option error :=
  match ConvertPeerIDToPublicKey pid with
  | Err err => Some err
  | Ok pubKey => signer_Verify pubKey (sha256_Sum256 payload) signature
  end.

Definition SignUsingPrivateKey (psw : p2pSignerWrapper) (skBytes payload : bytes) : result bytes :=
  let? sk := PrivateKeyFromByteArray skBytes in
  signer_Sign sk (sha256_Sum256 payload).

(** ** Conversions *)

Definition ConvertPrivateKeyToLibp2pPrivateKey (privateKey : option PrivateKey) : result PrivKey :=
  match privateKey with
  | None => Err ErrNilPrivateKey
  | Some privateKey =>
      let? p2pPrivateKeyBytes := PrivateKey_ToByteArray privateKey in
      UnmarshalSecp256k1PrivateKey p2pPrivateKeyBytes
  end.

(** The identifier is empty when there is an error. *)
Definition ConvertPublicKeyToPeerID (pk : option PublicKey) : result PeerID :=
  match pk with
  | None => Err ErrNilPublicKey
  | Some pk =>
      let? pkBytes := PublicKey_ToByteArray pk in
      let? libp2pPk := UnmarshalSecp256k1PublicKey pkBytes in
      IDFromPublicKey libp2pPk
  end.

(** ** The identity generator *)

Definition emptyPrivateKeyBytes : bytes := [].

Definition CreateP2PPrivateKey (privateKeyBytes : bytes) : result PrivKey :=
  if len privateKeyBytes =? 0 then GenerateSecp256k1Key
  else UnmarshalSecp256k1PrivateKey privateKeyBytes.

Definition CreateRandomP2PIdentity : result (bytes * PeerID) :=
  let? sk := CreateP2PPrivateKey emptyPrivateKeyBytes in
  let? skBuff := PrivKey_Raw sk in
  let? pid := IDFromPublicKey (PrivKey_GetPublic sk) in
  Ok (skBuff, pid).

(** ** Correctness *)

Section Correctness.

(** The public key of a private key; the key of a byte encoding; the codecs and
    the signature scheme keep what they promise. *)
Context (public : PrivateKey -> PublicKey).
Context (Sign_Verify : forall sk b sig, signer_Sign sk b = Ok sig -> signer_Verify (public sk) b sig = None).
Context (PublicKey_codec : forall pk b, PublicKey_ToByteArray pk = Ok b -> PublicKeyFromByteArray b = Ok pk).
Context (PubKey_codec : forall b pk, UnmarshalSecp256k1PublicKey b = Ok pk -> PubKey_Raw pk = Ok b).
Context (Extract_ID : forall pk pid, IDFromPublicKey pk = Ok pid -> ExtractPublicKey pid = Ok pk).
Context (ID_bytes : forall pk pid, IDFromPublicKey pk = Ok pid -> IDFromBytes (bytes_of_string pid) = Ok pid).

Lemma Convert_back pk pid : ConvertPublicKeyToPeerID (Some pk) = Ok pid -> ConvertPeerIDToPublicKey pid = Ok pk.
Proof.
  unfold ConvertPublicKeyToPeerID, ConvertPeerIDToPublicKey.
  destruct (PublicKey_ToByteArray pk) as [b|] eqn:Eb; [|done].
  destruct (UnmarshalSecp256k1PublicKey b) as [lpk|] eqn:El; [|done]. intros Ei.
  rewrite (ID_bytes _ _ Ei), (Extract_ID _ _ Ei), (PubKey_codec _ _ El). by apply PublicKey_codec.
Qed.

(** Signatures.  The identifier made from a public key is converted back to
    that key.  A payload signed by a node with key [sk], or with the bytes of
    [sk], is verified by every node under the identifier of [sk]. *)
Theorem Sign_then_Verify sk pid (psw : p2pSignerWrapper) skBytes payload sig :
  ConvertPublicKeyToPeerID (Some (public sk)) = Ok pid ->
  ConvertPeerIDToPublicKey pid = Ok (public sk) /\
  (Sign (mk sk) payload = Ok sig -> Verify psw payload pid sig = None) /\
  (PrivateKeyFromByteArray skBytes = Ok sk ->
     SignUsingPrivateKey psw skBytes payload = Ok sig -> Verify psw payload pid sig = None).
Proof.
  intros Ep%Convert_back. split; [done|]. unfold Verify, Sign, SignUsingPrivateKey. rewrite Ep. split.
  - apply Sign_Verify.
  - intros ->. apply Sign_Verify.
Qed.

End Correctness.

End Crypto.

Arguments p2pSignerWrapper : clear implicits.

(** The wrapper implements the interface through which the messenger signs. *)
Definition p2pSigner_SignerVerifier {PrivateKey PublicKey PubKey : Type}
    (signer_Sign : PrivateKey -> bytes -> result bytes)
    (signer_Verify : PublicKey -> bytes -> bytes -> option error)
    (PublicKeyFromByteArray : bytes -> result PublicKey) (sha256_Sum256 : bytes -> bytes)
    (PubKey_Raw : PubKey -> result bytes) (IDFromBytes : bytes -> result PeerID)
    (ExtractPublicKey : PeerID -> result PubKey) : SignerVerifier (p2pSignerWrapper PrivateKey) := {|
  sv_Sign := Sign signer_Sign sha256_Sum256;
  sv_Verify := Verify signer_Verify PublicKeyFromByteArray sha256_Sum256 PubKey_Raw IDFromBytes ExtractPublicKey
|}.

Module Witness.

(** Keys are byte strings, the public key of a key is the key itself. *)
Definition sign (sk b : bytes) : result bytes := Ok (sk ++ b).
Definition verify (pk b sig : bytes) : option error :=
  if decide (sig = pk ++ b) then None else Some (ErrText "bad signature").
Definition ok (b : bytes) : result bytes := Ok b.
Definition pid_of (b : bytes) : result PeerID := Ok (string_of_bytes b).
Definition key_of (p : PeerID) : result bytes := Ok (bytes_of_string p).

Lemma sign_verify sk b sig : sign sk b = Ok sig -> verify sk b sig = None.
Proof. intros [= <-]. unfold verify. by rewrite decide_True. Qed.
Lemma ok_codec pk b : ok pk = Ok b -> ok b = Ok pk.
Proof. by intros [= ->]. Qed.
Lemma pid_key pk pid : pid_of pk = Ok pid -> key_of pid = Ok pk.
Proof. intros [= <-]. unfold key_of. by rewrite bytes_of_string_of_bytes. Qed.
Lemma pid_bytes (pk : bytes) pid : pid_of pk = Ok pid -> pid_of (bytes_of_string pid) = Ok pid.
Proof. intros [= <-]. unfold pid_of. by rewrite bytes_of_string_of_bytes. Qed.

Lemma Sign_then_Verify_witness :
  Verify verify ok id ok pid_of key_of (mk [x6b]) [x01; x02] "key" (bytes_of_string "key" ++ [x01; x02]) = None.
Proof.
  refine (proj1 (proj2 (Sign_then_Verify ok sign verify ok ok id ok ok pid_of key_of pid_of (fun sk => sk)
    sign_verify ok_codec ok_codec pid_key pid_bytes (bytes_of_string "key") "key" (mk [x6b]) [] [x01; x02]
    (bytes_of_string "key" ++ [x01; x02]) _)) _); reflexivity.
Defined.

End Witness.
