(* ===== verification/Debugger.v ===== *)
(** * Debugger: message statistics per topic ([debug/p2pDebugger.go])

    The counters of a topic, their collection, the division by the print
    interval in [float32] arithmetic and the table printed every second.  The
    rendering of a number of bytes, the drawing of a table and the conversion of a
    [float32] outside the range of the integer type are parameters. *)

From S2P Require Import Prelude Errors Interfaces.
From Stdlib Require Import ZArith Lia String Floats.SpecFloat.
From stdpp Require Import prelude gmap list strings sorting pretty.

Local Open Scope Z_scope.

(** ** float32 arithmetic *)

Definition float32 : Type := spec_float.
Definition float32_of_Z (z : Z) : float32 := binary_normalize 24 128 z 0 false.
Definition float32_div : float32 -> float32 -> float32 := SFdiv 24 128.

(** The integer part of a non-negative finite [float32]. *)
Definition float32_trunc (f : float32) : option Z :=
  match f with
  | S754_zero _ => Some 0
  | S754_finite false m e => Some (Z.shiftl (Zpos m) e)
  | _ => None
  end.

Section Debugger.

(** [float_to_uint w f]: the conversion to a [w]-bit integer when the value is
    not in its range, which the language leaves to the implementation. *)
Context (float_to_uint : Z -> float32 -> Z).

Definition uint_of_float32 (w : Z) (f : float32) : Z :=
  match float32_trunc f with
  | Some z => if z <? 2 ^ w then z else float_to_uint w f
  | None => float_to_uint w f
  end.

Definition printInterval : Z := 1000000000.
Definition time_Second : Z := 1000000000.

Record metric : Type := mkMetric {
  m_topic : string;
  incomingSize : Z;
  incomingRejectedSize : Z;
  incomingNum : Z;
  incomingRejectedNum : Z;
  outgoingSize : Z;
  outgoingRejectedSize : Z;
  outgoingNum : Z;
  outgoingRejectedNum : Z
}.

Implicit Types (m t : metric) (topic : string).

Definition divideValues m (divideValue : float32) : metric :=
  let size v := uint_of_float32 64 (float32_div (float32_of_Z v) divideValue) in
  let num v := uint_of_float32 32 (float32_div (float32_of_Z v) divideValue) in
  mkMetric (m_topic m)
    (size (incomingSize m)) (size (incomingRejectedSize m))
    (num (incomingNum m)) (num (incomingRejectedNum m))
    (size (outgoingSize m)) (size (outgoingRejectedSize m))
    (num (outgoingNum m)) (num (outgoingRejectedNum m)).

Section Display.

Context (ConvertBytes : Z -> string).

Definition stringify m : list string :=
  let cell num size := pretty num +:+ " / " +:+ ConvertBytes size +:+ "/s" in
  [ m_topic m;
    cell (incomingNum m) (incomingSize m);
    cell (incomingRejectedNum m) (incomingRejectedSize m);
    cell (outgoingNum m) (outgoingSize m);
    cell (outgoingRejectedNum m) (outgoingRejectedSize m) ].

End Display.

(** [shouldProcessData] is the answer of [shouldProcessDataFn] (the log level is
    trace). *)
Record p2pDebugger : Type := mk {
  selfPeerId : PeerID;
  data : gmap string metric;
  shouldProcessData : bool;
  cancelled : bool
}.

Implicit Types pd : p2pDebugger.

Definition NewP2PDebugger (selfPeerId : PeerID) (isLogTrace : bool) : p2pDebugger :=
  mk selfPeerId ∅ isLogTrace false.

Definition with_data pd (d : gmap string metric) : p2pDebugger :=
  mk (selfPeerId pd) d (shouldProcessData pd) (cancelled pd).

Definition new_metric topic : metric := mkMetric topic 0 0 0 0 0 0 0 0.

(** The metric of [topic] and the debugger in which it is stored. *)
Definition getMetric pd topic : metric * p2pDebugger :=
  match data pd !! topic with
  | Some m => (m, pd)
  | None => (new_metric topic, with_data pd (<[topic := new_metric topic]> (data pd)))
  end.

(** A metric is reached through a pointer: an update is stored under its topic. *)
Definition store pd topic m : p2pDebugger := with_data pd (<[topic := m]> (data pd)).

Definition add_incoming m (size : Z) (isRejected : bool) : metric :=
  mkMetric (m_topic m)
    (u64 (incomingSize m + size))
    (if isRejected then u64 (incomingRejectedSize m + size) else incomingRejectedSize m)
    (u32 (incomingNum m + 1))
    (if isRejected then u32 (incomingRejectedNum m + 1) else incomingRejectedNum m)
    (outgoingSize m) (outgoingRejectedSize m) (outgoingNum m) (outgoingRejectedNum m).

Definition add_outgoing m (size : Z) (isRejected : bool) : metric :=
  mkMetric (m_topic m)
    (incomingSize m) (incomingRejectedSize m) (incomingNum m) (incomingRejectedNum m)
    (u64 (outgoingSize m + size))
    (if isRejected then u64 (outgoingRejectedSize m + size) else outgoingRejectedSize m)
    (u32 (outgoingNum m + 1))
    (if isRejected then u32 (outgoingRejectedNum m + 1) else outgoingRejectedNum m).

Definition AddIncomingMessage pd topic (size : Z) (isRejected : bool) : p2pDebugger :=
  if negb (shouldProcessData pd) then pd
  else
    let '(m, pd) := getMetric pd topic in
    store pd topic (add_incoming m size isRejected).

Definition AddOutgoingMessage pd topic (size : Z) (isRejected : bool) : p2pDebugger :=
  if negb (shouldProcessData pd) then pd
  else
    let '(m, pd) := getMetric pd topic in
    store pd topic (add_outgoing m size isRejected).

#[export] Instance p2pDebugger_Debugger : Debugger p2pDebugger := {
  dbg_AddIncomingMessage := AddIncomingMessage;
  dbg_AddOutgoingMessage := AddOutgoingMessage
}.

(** ** Printing *)

Definition add_total t m : metric :=
  mkMetric (m_topic t)
    (u64 (incomingSize t + incomingSize m)) (u64 (incomingRejectedSize t + incomingRejectedSize m))
    (u32 (incomingNum t + incomingNum m)) (u32 (incomingRejectedNum t + incomingRejectedNum m))
    (u64 (outgoingSize t + outgoingSize m)) (u64 (outgoingRejectedSize t + outgoingRejectedSize m))
    (u32 (outgoingNum t + outgoingNum m)) (u32 (outgoingRejectedNum t + outgoingRejectedNum m)).

Definition traffic m : Z := u64 (outgoingSize m + incomingSize m).

(** [a] may come before [b]: the comparison of [sort.Slice] does not put [b]
    first. *)
Definition before : relation metric := fun a b =>
  traffic a > traffic b \/ traffic a = traffic b /\ String.le (m_topic a) (m_topic b).

#[export] Instance before_dec : RelDecision before.
Proof. intros a b. unfold before. apply _. Defined.

Definition sort_metrics (l : list metric) : list metric := merge_sort before l.

Definition header : list string :=
  [ "Topic"; "Incoming (num / size)"; "Incoming rejected (num / size)";
    "Outgoing (num / size)"; "Outgoing rejected (num / size)" ].

(** A row of the table with the flag for a line below it. *)
Definition LineData : Type := bool * list string.

Section Printing.

Context (ConvertBytes : Z -> string).
Context (CreateTableString : list string -> list LineData -> result string).
Context `{MapRange}.

Definition metric_lines (metrics : list metric) : list LineData :=
  imap (fun idx m => (Z.of_nat idx =? Z.of_nat (length metrics) - 1, stringify ConvertBytes m)) metrics.

Definition statsToString pd (divideSeconds : float32) : string * p2pDebugger :=
  let metrics := (fun '(_, m) => divideValues m divideSeconds) <$> go_range (data pd) in
  let total := foldl add_total (new_metric "TOTAL") metrics in
  let lines := metric_lines (sort_metrics metrics) ++ [(false, stringify ConvertBytes total)] in
  let pd := with_data pd ∅ in
  match CreateTableString header lines with
  | Err err => ("error creating p2p stats table: " +:+ Error err, pd)
  | Ok tab => (tab, pd)
  end.

Definition divideSeconds : float32 := float32_div (float32_of_Z printInterval) (float32_of_Z time_Second).

(** One round of the go routine: [None] when it stops, otherwise the printed
    text and the new state. *)
Definition continuouslyPrintStatistics pd : option (option string * p2pDebugger) :=
  if cancelled pd then None
  else if negb (shouldProcessData pd) then Some (None, pd)
  else let '(str, pd) := statsToString pd divideSeconds in Some (Some str, pd).

End Printing.

Definition Close pd : option error * p2pDebugger :=
  (None, mk (selfPeerId pd) (data pd) (shouldProcessData pd) true).

(** ** float32 is exact below 2^24 *)

Lemma digits2_pos_log2 p : Zpos (digits2_pos p) = Z.log2 (Zpos p) + 1.
Proof.
  induction p as [p IH|p IH|]; [..|done]; cbn [digits2_pos]; rewrite Pos2Z.inj_succ, IH.
  - rewrite (Pos2Z.inj_xI p), Z.log2_succ_double by lia. lia.
  - rewrite (Pos2Z.inj_xO p), Z.log2_double by lia. lia.
Qed.

Lemma Zdigits2_log2 z : 0 < z -> Zdigits2 z = Z.log2 z + 1.
Proof. destruct z as [|p|p]; [lia| |lia]. intros _. apply digits2_pos_log2. Qed.

Lemma fexp_24 e : -125 <= e -> fexp 24 128 e = e - 24.
Proof. unfold fexp, emin. lia. Qed.

Lemma iter_xO (m d : positive) : Zpos (Pos.iter xO m d) = Zpos m * 2 ^ Zpos d.
Proof.
  induction d as [|d IH] using Pos.peano_ind; [cbn; lia|].
  rewrite Pos.iter_succ, (Pos2Z.inj_xO (Pos.iter xO m d)), IH, Pos2Z.inj_succ, Z.pow_succ_r by lia. ring.
Qed.

(** Rounding a value whose mantissa has the 24 bits of the format. *)
Lemma round_canonical (m : positive) e :
  Z.log2 (Zpos m) = 23 -> -100 <= e <= 100 ->
  binary_round_aux 24 128 false (Zpos m) e loc_Exact = S754_finite false m e.
Proof.
  intros Hm He.
  assert (shr_fexp 24 128 (Zpos m) e loc_Exact = (Build_shr_record (Zpos m) false false, e)) as Hs.
  { unfold shr_fexp. rewrite Zdigits2_log2, Hm, fexp_24 by lia.
    by replace (23 + 1 + e - 24 - e) with 0 by lia. }
  unfold binary_round_aux. rewrite Hs. cbn [shr_m loc_of_shr_record round_nearest_even].
  rewrite Hs. cbn [shr_m]. by rewrite (proj2 (Z.leb_le e (128 - 24))) by lia.
Qed.

(** ... and one whose mantissa has one more bit, which is zero. *)
Lemma round_one_more (m : positive) e :
  Z.log2 (Zpos m) = 23 -> -100 <= e <= 100 ->
  binary_round_aux 24 128 false (Zpos m~0) (e - 1) loc_Exact = S754_finite false m e.
Proof.
  intros Hm He.
  rewrite <- (round_canonical m e Hm He). unfold binary_round_aux.
  assert (shr_fexp 24 128 (Zpos m) e loc_Exact = (Build_shr_record (Zpos m) false false, e)) as Hs.
  { unfold shr_fexp. rewrite Zdigits2_log2, Hm, fexp_24 by lia.
    by replace (23 + 1 + e - 24 - e) with 0 by lia. }
  assert (shr_fexp 24 128 (Zpos m~0) (e - 1) loc_Exact = (Build_shr_record (Zpos m) false false, e)) as ->.
  { unfold shr_fexp. rewrite Zdigits2_log2, (Pos2Z.inj_xO m), Z.log2_double, Hm, fexp_24 by lia.
    replace (Z.succ 23 + 1 + (e - 1) - 24 - (e - 1)) with 1 by lia.
    rewrite <- (Pos2Z.inj_xO m). cbn. f_equal. lia. }
  by rewrite Hs.
Qed.

(** An integer of at most 24 bits as a [float32]. *)
Lemma float32_of_small z :
  0 < z < 2 ^ 24 ->
  exists m : positive, Z.log2 (Zpos m) = 23 /\ Zpos m = z * 2 ^ (23 - Z.log2 z) /\
            float32_of_Z z = S754_finite false m (Z.log2 z - 23).
Proof.
  intros Hz. destruct z as [|p|p]; [lia| |lia].
  assert (0 <= Z.log2 (Zpos p) <= 23) as Hl.
  { split; [apply Z.log2_nonneg|]. apply (Z.log2_le_mono _ (2 ^ 24 - 1)). lia. }
  unfold float32_of_Z, binary_normalize, binary_round, shl_align.
  rewrite digits2_pos_log2, fexp_24 by lia.
  replace (Z.log2 (Zpos p) + 1 + 0 - 24 - 0) with (Z.log2 (Zpos p) - 23) by lia.
  replace (Z.log2 (Zpos p) + 1 + 0 - 24) with (Z.log2 (Zpos p) - 23) by lia.
  destruct (Z.log2 (Zpos p) - 23) as [|d|d] eqn:Ed; [|lia|].
  - exists p. split_and!; [lia | |].
    + replace (23 - Z.log2 (Zpos p)) with 0 by lia. lia.
    + by apply round_canonical; [lia|].
  - assert (Zpos (Pos.iter xO p d) = Zpos p * 2 ^ (23 - Z.log2 (Zpos p))) as Hm.
    { rewrite iter_xO. f_equal. f_equal. lia. }
    assert (Z.log2 (Zpos (Pos.iter xO p d)) = 23) as Hlog.
    { rewrite Hm, Z.log2_mul_pow2 by lia. lia. }
    exists (Pos.iter xO p d). split_and!; [done..|]. apply round_canonical; [done|lia].
Qed.

Definition float32_one : float32 := S754_finite false 8388608 (-23).

Lemma divideSeconds_one : divideSeconds = float32_one.
Proof. vm_compute. reflexivity. Qed.

Lemma float32_div_one (m : positive) e :
  Z.log2 (Zpos m) = 23 -> -50 <= e <= 50 ->
  float32_div (S754_finite false m e) float32_one = S754_finite false m e.
Proof.
  intros Hm He. unfold float32_div, SFdiv, float32_one, SFdiv_core_binary.
  rewrite Zdigits2_log2, Hm by lia. change (Zdigits2 8388608) with 24.
  rewrite fexp_24 by lia.
  replace (Z.min (23 + 1 + e - (24 + -23) - 24) (e - -23)) with (e - 1) by lia.
  replace (e - -23 - (e - 1)) with 24 by lia. cbn -[Z.shiftl Z.div_eucl binary_round_aux Z.sub].
  rewrite Z.shiftl_mul_pow2 by lia.
  replace (Zpos m * 2 ^ 24) with (Zpos m~0 * 8388608) by lia.
  pose proof (Z.div_mul (Zpos m~0) 8388608 ltac:(lia)) as Hq.
  pose proof (Z.mod_mul (Zpos m~0) 8388608 ltac:(lia)) as Hr.
  unfold Z.div in Hq. unfold Z.modulo in Hr.
  destruct (Z.div_eucl _ _) as [q r]. subst q r. apply round_one_more; [done|lia].
Qed.

Lemma trunc_small (m : positive) e z : 0 < z -> e = Z.log2 z - 23 -> Zpos m = z * 2 ^ (23 - Z.log2 z) -> z < 2 ^ 24 ->
  float32_trunc (S754_finite false m e) = Some z.
Proof.
  intros Hz -> Hm Hlt. cbn [float32_trunc]. f_equal. rewrite Hm.
  assert (Z.log2 z <= 23) by (apply (Z.log2_le_mono _ (2 ^ 24 - 1)); lia).
  replace (Z.log2 z - 23) with (- (23 - Z.log2 z)) by lia.
  rewrite Z.shiftl_opp_r, Z.shiftr_div_pow2 by lia. apply Z.div_mul. lia.
Qed.

Lemma divide_by_one w z :
  24 <= w -> 0 <= z < 2 ^ 24 -> uint_of_float32 w (float32_div (float32_of_Z z) divideSeconds) = z.
Proof.
  intros Hw Hz. rewrite divideSeconds_one.
  assert (2 ^ 24 <= 2 ^ w) by (apply Z.pow_le_mono_r; lia).
  unfold uint_of_float32. assert ((z <? 2 ^ w) = true) as Hlt by (apply Z.ltb_lt; lia).
  destruct (decide (z = 0)) as [->|Hne]; [cbn -[Z.pow]; by rewrite Hlt|].
  destruct (float32_of_small z) as (m & Hm & Ez & ->); [lia|].
  assert (0 <= Z.log2 z <= 23) by
    (split; [apply Z.log2_nonneg | apply (Z.log2_le_mono _ (2 ^ 24 - 1)); lia]).
  rewrite float32_div_one by lia. rewrite (trunc_small m _ z) by lia. by rewrite Hlt.
Qed.

(** ** The counters are sums over the collected messages *)

(** A call of [AddIncomingMessage] or [AddOutgoingMessage], with the answer of
    [shouldProcessDataFn] at that moment. *)
Record event : Type := mkEvent {
  ev_trace : bool;
  ev_incoming : bool;
  ev_topic : string;
  ev_size : Z;
  ev_rejected : bool
}.

Definition step pd (e : event) : p2pDebugger :=
  let pd := mk (selfPeerId pd) (data pd) (ev_trace e) (cancelled pd) in
  if ev_incoming e then AddIncomingMessage pd (ev_topic e) (ev_size e) (ev_rejected e)
  else AddOutgoingMessage pd (ev_topic e) (ev_size e) (ev_rejected e).

Definition run pd (es : list event) : p2pDebugger := foldl step pd es.

Definition collected topic (e : event) : bool := ev_trace e && bool_decide (ev_topic e = topic).

(** The sum of [weight] over the collected messages of [topic] in a direction. *)
Definition total_of (weight : event -> Z) (incoming rejected : bool) topic (es : list event) : Z :=
  foldr (fun e n =>
    if collected topic e && eqb (ev_incoming e) incoming && (negb rejected || ev_rejected e)
    then n + weight e else n) 0 (rev es).

Definition expected topic (es : list event) : metric :=
  let size := total_of ev_size in
  let num := total_of (fun _ => 1) in
  mkMetric topic
    (u64 (size true false topic es)) (u64 (size true true topic es))
    (u32 (num true false topic es)) (u32 (num true true topic es))
    (u64 (size false false topic es)) (u64 (size false true topic es))
    (u32 (num false false topic es)) (u32 (num false true topic es)).

Lemma total_of_snoc weight i r topic es e :
  total_of weight i r topic (es ++ [e]) =
  if collected topic e && eqb (ev_incoming e) i && (negb r || ev_rejected e)
  then total_of weight i r topic es + weight e else total_of weight i r topic es.
Proof. unfold total_of. by rewrite rev_app_distr. Qed.

Lemma u64_add a b : u64 (u64 a + b) = u64 (a + b).
Proof. apply Zplus_mod_idemp_l. Qed.
Lemma u32_add a b : u32 (u32 a + b) = u32 (a + b).
Proof. apply Zplus_mod_idemp_l. Qed.

Lemma expected_snoc topic es e :
  expected topic (es ++ [e]) =
  if collected topic e then
    (if ev_incoming e then add_incoming else add_outgoing) (expected topic es) (ev_size e) (ev_rejected e)
  else expected topic es.
Proof.
  unfold expected, add_incoming, add_outgoing. rewrite !total_of_snoc.
  destruct (collected topic e), (ev_incoming e), (ev_rejected e);
    cbn -[u64 u32]; by rewrite ?u64_add, ?u32_add.
Qed.

Lemma expected_none topic es : existsb (collected topic) es = false -> expected topic es = new_metric topic.
Proof.
  induction es as [|e es IH] using rev_ind; [done|].
  rewrite existsb_app, orb_false_iff. cbn [existsb]. rewrite orb_false_r. intros [H1 H2].
  rewrite expected_snoc, H2. auto.
Qed.

Lemma step_data pd e topic :
  data (step pd e) !! topic =
  if collected topic e then
    Some ((if ev_incoming e then add_incoming else add_outgoing)
            (default (new_metric topic) (data pd !! topic)) (ev_size e) (ev_rejected e))
  else data pd !! topic.
Proof.
  destruct e as [tr inc tp sz rj], pd as [self d sp c]. unfold collected, step. cbn [ev_trace ev_topic ev_incoming ev_size ev_rejected].
  unfold AddIncomingMessage, AddOutgoingMessage, getMetric, store, with_data. cbn [data shouldProcessData].
  destruct tr; [|by destruct inc]. cbn [andb negb].
  destruct (bool_decide_reflect (tp = topic)) as [->|Hne];
    destruct inc, (d !! _) as [m|] eqn:E; cbn [data]; simplify_map_eq; done.
Qed.

Lemma run_snoc pd es e : run pd (es ++ [e]) = step (run pd es) e.
Proof. unfold run. by rewrite foldl_app. Qed.

Lemma run_data self trace es topic :
  data (run (NewP2PDebugger self trace) es) !! topic =
  if existsb (collected topic) es then Some (expected topic es) else None.
Proof.
  induction es as [|e es IH] using rev_ind; [done|].
  rewrite run_snoc, step_data, IH, existsb_app, expected_snoc. cbn [existsb]. rewrite orb_false_r.
  destruct (existsb (collected topic) es) eqn:Ex, (collected topic e); cbn [orb default]; try done.
  by rewrite (expected_none _ _ Ex).
Qed.

(** The collected statistics are exact (up to the wrap-around of the counters):
    after any sequence of [AddIncomingMessage] and [AddOutgoingMessage] calls the
    debugger holds, for each topic with a message collected while the log level
    was trace, the number and the total size of its incoming and outgoing
    messages, all and rejected, and nothing for the other topics. *)
Theorem statistics_are_sums self trace es topic :
  data (run (NewP2PDebugger self trace) es) !! topic =
  if existsb (collected topic) es then Some (expected topic es) else None.
Proof. apply run_data. Qed.

(** ** The printed table *)

(** The values [divideValues] does not round. *)
Definition small (z : Z) : Prop := 0 <= z < 2 ^ 24.
Definition small_metric m : Prop :=
  small (incomingSize m) /\ small (incomingRejectedSize m) /\
  small (incomingNum m) /\ small (incomingRejectedNum m) /\
  small (outgoingSize m) /\ small (outgoingRejectedSize m) /\
  small (outgoingNum m) /\ small (outgoingRejectedNum m).

Lemma divideValues_one m : small_metric m -> divideValues m divideSeconds = m.
Proof.
  destruct m. intros (?&?&?&?&?&?&?&?). cbn in *. unfold divideValues. cbn [m_topic incomingSize incomingRejectedSize
    incomingNum incomingRejectedNum outgoingSize outgoingRejectedSize outgoingNum outgoingRejectedNum].
  by rewrite !divide_by_one by (done || lia).
Qed.

Definition sum_of (f : metric -> Z) (l : list metric) : Z := foldr (fun m n => f m + n) 0 l.

Definition total_metric (l : list metric) : metric :=
  mkMetric "TOTAL"
    (u64 (sum_of incomingSize l)) (u64 (sum_of incomingRejectedSize l))
    (u32 (sum_of incomingNum l)) (u32 (sum_of incomingRejectedNum l))
    (u64 (sum_of outgoingSize l)) (u64 (sum_of outgoingRejectedSize l))
    (u32 (sum_of outgoingNum l)) (u32 (sum_of outgoingRejectedNum l)).

Lemma sum_of_perm f l1 l2 : l1 ≡ₚ l2 -> sum_of f l1 = sum_of f l2.
Proof.
  intros Hp. unfold sum_of. induction Hp as [|m k1 k2 Hp IH|m m' k|k1 k2 k3 Hp1 IH1 Hp2 IH2]; cbn [foldr]; [done| |lia|].
  - by rewrite IH.
  - by rewrite IH1.
Qed.

Lemma sum_of_snoc f l m : sum_of f (l ++ [m]) = sum_of f l + f m.
Proof. induction l as [|x l IH]; unfold sum_of in *; cbn [foldr app]; [lia|]. rewrite IH. lia. Qed.

Lemma total_metric_foldl l : foldl add_total (new_metric "TOTAL") l = total_metric l.
Proof.
  induction l as [|m l IH] using rev_ind; [done|].
  rewrite foldl_app, IH. cbn [foldl]. unfold total_metric, add_total. rewrite !sum_of_snoc.
  cbn [m_topic incomingSize incomingRejectedSize
    incomingNum incomingRejectedNum outgoingSize outgoingRejectedSize outgoingNum outgoingRejectedNum].
  by rewrite !u64_add, !u32_add.
Qed.

Lemma total_metric_perm l1 l2 : l1 ≡ₚ l2 -> total_metric l1 = total_metric l2.
Proof. intros Hp. unfold total_metric. by rewrite !(sum_of_perm _ _ _ Hp). Qed.

#[local] Instance before_trans : Transitive before.
Proof.
  intros a b c [H1|[H1 H1']] [H2|[H2 H2']]; unfold before; try (left; lia).
  right. split; [lia|]. by trans (m_topic b).
Qed.
#[local] Instance before_total : Total before.
Proof.
  intros a b. unfold before. destruct (Z.lt_trichotomy (traffic a) (traffic b)) as [Hl|[He|Hg]].
  - right. left. lia.
  - destruct (total String.le (m_topic a) (m_topic b)); [left | right]; right; split; done.
  - left. left. lia.
Qed.

Lemma sort_metrics_spec l : sort_metrics l ≡ₚ l /\ StronglySorted before (sort_metrics l).
Proof. split; [apply merge_sort_Permutation | apply (StronglySorted_merge_sort before)]. Qed.

Lemma sorted_unique l1 l2 :
  NoDup (m_topic <$> l1) -> l1 ≡ₚ l2 -> StronglySorted before l1 -> StronglySorted before l2 -> l1 = l2.
Proof.
  intros Hnd Hp H1 H2. apply (StronglySorted_unique_strong before); try done.
  intros a b Ha Hb Hab Hba.
  assert (m_topic a = m_topic b) as Et.
  { destruct Hab as [|[? Hab]], Hba as [|[? Hba]]; [lia..|]. apply (anti_symm String.le _ _ Hab Hba). }
  rewrite <- Hp in Hb. apply list_elem_of_lookup in Ha as [i Hi]. apply list_elem_of_lookup in Hb as [j Hj].
  assert (i = j) as ->; [|congruence].
  eapply (NoDup_lookup _ i j (m_topic b)); [done|..]; by rewrite list_lookup_fmap, ?Hi, ?Hj; cbn; rewrite ?Et.
Qed.

Section Table.

Context (ConvertBytes : Z -> string).
Context (CreateTableString : list string -> list LineData -> result string).
Context `{MapRange}.

(** The table of [rows], or the text printed when it cannot be drawn. *)
Definition table (rows : list metric) : string :=
  let lines := metric_lines ConvertBytes rows ++ [(false, stringify ConvertBytes (total_metric rows))] in
  match CreateTableString header lines with
  | Ok tab => tab
  | Err err => "error creating p2p stats table: " +:+ Error err
  end.

(** What is printed every second: when no counter reaches 2^24 the division by
    the print interval is exact, the table has one row per topic, by descending
    traffic and then by topic, and a last row with the totals; it does not depend
    on the order in which the map is visited, and printing starts the collection
    anew. *)
Theorem statsToString_spec pd :
  map_Forall (fun topic m => m_topic m = topic /\ small_metric m) (data pd) ->
  exists rows,
    rows ≡ₚ (map_to_list (data pd)).*2 /\ StronglySorted before rows /\
    (forall rows', rows' ≡ₚ (map_to_list (data pd)).*2 -> StronglySorted before rows' -> rows' = rows) /\
    statsToString ConvertBytes CreateTableString pd divideSeconds = (table rows, with_data pd ∅).
Proof.
  intros Hpd. set (ms := (fun '(_, m) => divideValues m divideSeconds) <$> go_range (data pd)).
  assert (ms = (go_range (data pd)).*2) as Hms.
  { apply list_fmap_ext. intros i [t m] Hi%list_elem_of_lookup_2%elem_of_go_range.
    apply Hpd in Hi as [_ Hi]. by apply divideValues_one. }
  assert (ms ≡ₚ (map_to_list (data pd)).*2) as Hperm by by rewrite Hms, go_range_perm.
  assert (NoDup (m_topic <$> ms)) as Hnd.
  { rewrite Hms, <- list_fmap_compose. pose proof (NoDup_go_range_fst (data pd)) as Hnd.
    erewrite list_fmap_ext; [exact Hnd|].
    intros i [t m] Hi%list_elem_of_lookup_2%elem_of_go_range. by apply Hpd in Hi as [Hi _]. }
  destruct (sort_metrics_spec ms) as [Hsp Hss]. exists (sort_metrics ms).
  split_and!; [by rewrite Hsp | done | |].
  - intros rows' Hp' Hs'. symmetry. apply sorted_unique; [by rewrite Hsp | | done..].
    by rewrite Hsp, Hp', Hperm.
  - unfold statsToString, table. fold ms. rewrite total_metric_foldl, (total_metric_perm _ _ Hsp).
    by destruct (CreateTableString _ _).
Qed.

End Table.

End Debugger.

Module Witness.

(** A debugger that saw two messages on a topic and one on another. *)
Definition events : list event :=
  [ mkEvent true true "blocks" 100 false; mkEvent true true "txs" 300 false;
    mkEvent false true "txs" 1000 false; mkEvent true false "blocks" 50 true ].
Definition pd : p2pDebugger := run (NewP2PDebugger "self" true) events.
Definition ConvertBytes (z : Z) : string := pretty z +:+ " B".
Definition CreateTableString (h : list string) (lines : list LineData) : result string :=
  Ok (strings_Join (h ++ ((fun '(_, cells) => strings_Join cells "|") <$> lines)) "; ").

Lemma statsToString_spec_witness :
  map_Forall (fun topic m => m_topic m = topic /\ small_metric m) (data pd) /\
  exists rows,
    rows ≡ₚ (map_to_list (data pd)).*2 /\ StronglySorted before rows /\
    (forall rows', rows' ≡ₚ (map_to_list (data pd)).*2 -> StronglySorted before rows' -> rows' = rows) /\
    statsToString (fun _ _ => 0) ConvertBytes CreateTableString pd divideSeconds =
      (table ConvertBytes CreateTableString rows, with_data pd ∅).
Proof.
  split; [|apply statsToString_spec].
  all: refine (bool_decide_unpack (map_Forall _ _) _); vm_compute; exact I.
Defined.

Lemma printed :
  (statsToString (fun _ _ => 0) ConvertBytes CreateTableString pd divideSeconds).1 =
  "Topic; Incoming (num / size); Incoming rejected (num / size); Outgoing (num / size); Outgoing rejected (num / size); txs|1 / 300 B/s|0 / 0 B/s|0 / 0 B/s|0 / 0 B/s; blocks|1 / 100 B/s|0 / 0 B/s|1 / 50 B/s|1 / 50 B/s; TOTAL|2 / 400 B/s|0 / 0 B/s|1 / 50 B/s|1 / 50 B/s".
Proof. vm_compute. reflexivity. Qed.

(** Above 2^24 the rounding to [float32] shows: a counter of 2^24 + 1 is printed
    as 2^24. *)
Lemma divideValues_rounds :
  incomingNum (divideValues (fun _ _ => 0) (mkMetric "t" 0 0 16777217 0 0 0 0 0) divideSeconds) = 16777216.
Proof. vm_compute. reflexivity. Qed.

End Witness.
