(* ===== verification/Topics.v ===== *)
(** * Topics: the topics and message processors of the messenger
      ([libp2p/netMessenger.go], the state behind [mutTopics])

    The processors of a topic are shared by reference between the [processors]
    map and the validator registered at pubsub, so they live in a heap.  The
    pubsub library is a class: its operations, the validators it holds, and the
    documented laws (one validator per topic; a stopped instance refuses). *)

From S2P Require Import Prelude Errors Interfaces TopicProcessors LoadBalancer.
From Stdlib Require Import ZArith Lia String.
From stdpp Require Import prelude gmap strings list.

(** ** pubsub *)

(** Topics and subscriptions are handles; a validator is the closure of
    [pubsubCallback], which is determined by the processors it captured. *)
Class PubSub (X : Type) : Type := {
  ps_running : X -> bool;
  ps_validators : X -> gmap string nat;
  ps_Join : X -> string -> result nat * X;
  ps_Subscribe : X -> nat -> result nat * X;
  ps_Cancel : X -> nat -> X;
  ps_CloseTopic : X -> nat -> option error * X;
  ps_RegisterTopicValidator : X -> string -> nat -> option error * X;
  ps_UnregisterTopicValidator : X -> string -> option error * X
}.

Class PubSubLaws (X : Type) `{PubSub X} : Prop := {
  Register_running x topic v :
    ps_running x = true ->
    let '(err, x') := ps_RegisterTopicValidator x topic v in
    ps_running x' = true /\
    match ps_validators x !! topic with
    | None => err = None /\ ps_validators x' = <[topic := v]> (ps_validators x)
    | Some _ => err ≠ None /\ ps_validators x' = ps_validators x
    end;
  Unregister_running x topic :
    ps_running x = true ->
    let '(err, x') := ps_UnregisterTopicValidator x topic in
    ps_running x' = true /\
    match ps_validators x !! topic with
    | Some _ => err = None /\ ps_validators x' = delete topic (ps_validators x)
    | None => err ≠ None /\ ps_validators x' = ps_validators x
    end;
  Join_running x topic :
    let x' := (ps_Join x topic).2 in
    ps_running x' = ps_running x /\ ps_validators x' = ps_validators x;
  Subscribe_running x t :
    let x' := (ps_Subscribe x t).2 in
    ps_running x' = ps_running x /\ ps_validators x' = ps_validators x;
  Cancel_running x s :
    ps_running (ps_Cancel x s) = ps_running x /\ ps_validators (ps_Cancel x s) = ps_validators x;
  CloseTopic_running x t :
    let x' := (ps_CloseTopic x t).2 in
    ps_running x' = ps_running x /\ ps_validators x' = ps_validators x
}.

(** An instance: a map of joined topics, of validators, and a supply of handles. *)
Module MapPubSub.

Record t : Type := mk {
  running : bool;
  validators : gmap string nat;
  joined : gmap nat string;
  next : nat
}.

Definition stopped : error := ErrText "context canceled".

#[global] Instance pubsub : PubSub t := {
  ps_running := running;
  ps_validators := validators;
  ps_Join x topic :=
    if negb (running x) then (Err stopped, x)
    else if existsb (fun e => bool_decide (e.2 = topic)) (map_to_list (joined x)) then
      (Err (ErrText "topic already exists"), x)
    else (Ok (next x), mk (running x) (validators x) (<[next x := topic]> (joined x)) (S (next x)));
  ps_Subscribe x h :=
    if running x then (Ok (next x), mk (running x) (validators x) (joined x) (S (next x)))
    else (Err stopped, x);
  ps_Cancel x _ := x;
  ps_CloseTopic x h :=
    if running x then (None, mk (running x) (validators x) (delete h (joined x)) (next x))
    else (Some stopped, x);
  ps_RegisterTopicValidator x topic v :=
    if negb (running x) then (Some stopped, x)
    else match validators x !! topic with
    | Some _ => (Some (ErrText ("duplicate validator for topic " +:+ topic)), x)
    | None => (None, mk (running x) (<[topic := v]> (validators x)) (joined x) (next x))
    end;
  ps_UnregisterTopicValidator x topic :=
    if negb (running x) then (Some stopped, x)
    else match validators x !! topic with
    | None => (Some (ErrText ("no validator for topic " +:+ topic)), x)
    | Some _ => (None, mk (running x) (delete topic (validators x)) (joined x) (next x))
    end
}.

#[global] Instance laws : PubSubLaws t.
Proof.
  constructor; cbn; intros x *; destruct (running x) eqn:E; cbn; try done.
  - intros _. by destruct (validators x !! topic) eqn:E'.
  - intros _. by destruct (validators x !! topic) eqn:E'.
  - by case_match.
Qed.

Definition empty : t := mk true ∅ ∅ 0.

End MapPubSub.

(** ** The state behind [mutTopics] *)

Section Topics.

Context `{MapRange} {A X SendableData : Type} `{PubSub X}.

(** [processors] maps a topic to a pointer, which may be nil. *)
Record topicsState : Type := mk {
  pb : X;
  processors : gmap string (option nat);
  procs : gmap nat (topicProcessors A);
  next_procs : nat;
  topics : gmap string nat;
  subscriptions : gmap string nat;
  outgoingPLB : world (SendableData := SendableData)
}.

Implicit Types (ts : topicsState) (topic identifier : string).

Definition set_pb v ts := mk v (processors ts) (procs ts) (next_procs ts) (topics ts) (subscriptions ts) (outgoingPLB ts).
Definition set_processors v ts := mk (pb ts) v (procs ts) (next_procs ts) (topics ts) (subscriptions ts) (outgoingPLB ts).
Definition set_procs v ts := mk (pb ts) (processors ts) v (next_procs ts) (topics ts) (subscriptions ts) (outgoingPLB ts).
Definition set_topics v ts := mk (pb ts) (processors ts) (procs ts) (next_procs ts) v (subscriptions ts) (outgoingPLB ts).
Definition set_subscriptions v ts := mk (pb ts) (processors ts) (procs ts) (next_procs ts) (topics ts) v (outgoingPLB ts).
Definition set_outgoingPLB v ts := mk (pb ts) (processors ts) (procs ts) (next_procs ts) (topics ts) (subscriptions ts) v.

(** The part of [addComponentsToNode] that creates the maps. *)
Definition newTopics (pubsub : X) : topicsState :=
  mk pubsub ∅ ∅ 0 ∅ ∅ NewOutgoingChannelLoadBalancer.

Definition for_topic (err : error) (name : string) : error := ErrWrap err (" for topic " +:+ name).

(** The goroutine that consumes the subscription is not part of the state. *)
Definition CreateTopic ts (name : string) (createChannelForTopic : bool) : option error * topicsState :=
  match topics ts !! name with
  | Some _ => (None, ts)
  | None =>
      let '(joined, x) := ps_Join (pb ts) name in
      let ts := set_pb x ts in
      match joined with
      | Err err => (Some (for_topic err name), ts)
      | Ok topic =>
          let ts := set_topics (<[name := topic]> (topics ts)) ts in
          let '(subscribed, x) := ps_Subscribe (pb ts) topic in
          let ts := set_pb x ts in
          match subscribed with
          | Err err => (Some (for_topic err name), ts)
          | Ok subscrRequest =>
              let ts := set_subscriptions (<[name := subscrRequest]> (subscriptions ts)) ts in
              if createChannelForTopic then
                let '(err, lb) := AddChannel (outgoingPLB ts) name in (err, set_outgoingPLB lb ts)
              else (None, ts)
          end
      end
  end.

Definition HasTopic ts (name : string) : bool := bool_decide (is_Some (topics ts !! name)).

(** [new(topicProcessors)] and its entry in the map. *)
Definition newTopicEntry ts topic : nat * topicsState :=
  let loc := next_procs ts in
  (loc, mk (pb ts) (<[topic := Some loc]> (processors ts)) (<[loc := newTopicProcessors]> (procs ts))
           (S loc) (topics ts) (subscriptions ts) (outgoingPLB ts)).

Definition addTopicProcessorAt ts (loc : nat) topic identifier (handler : A) : option error * topicsState :=
  match procs ts !! loc with
  | None => (None, ts)
  | Some tp =>
      match addTopicProcessor tp identifier handler with
      | Err err => (Some (ErrWrap err (", topic " +:+ topic)), ts)
      | Ok tp => (None, set_procs (<[loc := tp]> (procs ts)) ts)
      end
  end.

Definition RegisterMessageProcessor ts topic identifier (handler : option A) : option error * topicsState :=
  match handler with
  | None => (Some (ErrWrap ErrNilValidator
               (" when calling networkMessenger.RegisterMessageProcessor for topic " +:+ topic)), ts)
  | Some handler =>
      match processors ts !! topic with
      | Some (Some loc) => addTopicProcessorAt ts loc topic identifier handler
      | _ =>
          let '(loc, ts) := newTopicEntry ts topic in
          match ps_RegisterTopicValidator (pb ts) topic loc with
          | (Some err, x) => (Some err, set_pb x ts)
          | (None, x) => addTopicProcessorAt (set_pb x ts) loc topic identifier handler
          end
      end
  end.

Definition UnregisterMessageProcessor ts topic identifier : option error * topicsState :=
  match processors ts !! topic with
  | Some (Some loc) =>
      match procs ts !! loc with
      | None => (None, ts)
      | Some tp =>
          match removeTopicProcessor tp identifier with
          | Err err => (Some err, ts)
          | Ok tp =>
              let ts := set_procs (<[loc := tp]> (procs ts)) ts in
              match (getList tp).1 with
              | [] =>
                  let ts := set_processors (<[topic := None]> (processors ts)) ts in
                  let '(err, x) := ps_UnregisterTopicValidator (pb ts) topic in
                  (err, set_pb x ts)
              | _ :: _ => (None, ts)
              end
          end
      end
  | _ => (None, ts)
  end.

(** The loop over the entries of the map; an error stops it. *)
Fixpoint unregisterAll ts (entries : list string) : option error * topicsState :=
  match entries with
  | [] => (None, ts)
  | topic :: entries =>
      match ps_UnregisterTopicValidator (pb ts) topic with
      | (Some err, x) => (Some err, set_pb x ts)
      | (None, x) =>
          unregisterAll (set_processors (delete topic (processors ts)) (set_pb x ts)) entries
      end
  end.

Definition UnregisterAllMessageProcessors ts : option error * topicsState :=
  unregisterAll ts (go_range (processors ts)).*1.

Fixpoint unjoinAll ts (errFound : option error) (entries : list (string * nat)) : option error * topicsState :=
  match entries with
  | [] => (errFound, ts)
  | (topicName, t) :: entries =>
      let ts := match subscriptions ts !! topicName with
                | Some subscr => set_pb (ps_Cancel (pb ts) subscr) ts
                | None => ts
                end in
      let '(err, x) := ps_CloseTopic (pb ts) t in
      let ts := set_topics (delete topicName (topics ts)) (set_pb x ts) in
      unjoinAll ts (match err with Some _ => err | None => errFound end) entries
  end.

Definition UnjoinAllTopics ts : option error * topicsState :=
  unjoinAll ts None (go_range (topics ts)).

(** ** Specification: a map from topics to the processors registered for them *)

Definition registered ts topic : gmap string A :=
  match processors ts !! topic with
  | Some (Some loc) => match procs ts !! loc with Some tp => TopicProcessors.processors tp | None => ∅ end
  | _ => ∅
  end.

(** The processors pubsub calls for a message on [topic]. *)
Definition dispatched ts topic : gmap string A :=
  match ps_validators (pb ts) !! topic with
  | Some loc => match procs ts !! loc with Some tp => TopicProcessors.processors tp | None => ∅ end
  | None => ∅
  end.

Inductive op : Type :=
| OpCreate (name : string) (createChannelForTopic : bool)
| OpRegister (topic identifier : string) (handler : option A)
| OpUnregister (topic identifier : string)
| OpUnjoinAll.

Definition run_op ts (o : op) : option error * topicsState :=
  match o with
  | OpCreate name c => CreateTopic ts name c
  | OpRegister topic identifier handler => RegisterMessageProcessor ts topic identifier handler
  | OpUnregister topic identifier => UnregisterMessageProcessor ts topic identifier
  | OpUnjoinAll => UnjoinAllTopics ts
  end.

Definition run_ops ts (os : list op) : topicsState := foldl (fun ts o => (run_op ts o).2) ts os.

Implicit Types m : string -> gmap string A.

Definition update m topic v : string -> gmap string A :=
  fun t => if decide (t = topic) then v else m t.

Definition spec_op m (o : op) : string -> gmap string A :=
  match o with
  | OpRegister topic identifier (Some handler) =>
      match m topic !! identifier with
      | Some _ => m
      | None => update m topic (<[identifier := handler]> (m topic))
      end
  | OpUnregister topic identifier => update m topic (delete identifier (m topic))
  | _ => m
  end.

Definition spec_fails m (o : op) : Prop :=
  match o with
  | OpRegister topic identifier None => True
  | OpRegister topic identifier (Some _) => is_Some (m topic !! identifier)
  | OpUnregister topic identifier => m topic ≠ ∅ /\ m topic !! identifier = None
  | _ => False
  end.

Definition checked (o : op) : bool :=
  match o with OpRegister _ _ _ | OpUnregister _ _ => true | _ => false end.

(** ** The invariant *)

Record wf ts : Prop := {
  wf_running : ps_running (pb ts) = true;
  wf_validators topic loc :
    ps_validators (pb ts) !! topic = Some loc <-> processors ts !! topic = Some (Some loc);
  wf_heap topic loc :
    processors ts !! topic = Some (Some loc) ->
    exists tp, procs ts !! loc = Some tp /\ TopicProcessors.processors tp ≠ ∅;
  wf_fresh loc : is_Some (procs ts !! loc) -> (loc < next_procs ts)%nat;
  wf_inj t1 t2 loc :
    processors ts !! t1 = Some (Some loc) -> processors ts !! t2 = Some (Some loc) -> t1 = t2
}.

Lemma dispatched_registered ts topic : wf ts -> dispatched ts topic = registered ts topic.
Proof.
  intros W. unfold dispatched, registered.
  destruct (ps_validators (pb ts) !! topic) as [loc|] eqn:E.
  - apply (wf_validators _ W) in E. by rewrite E.
  - destruct (processors ts !! topic) as [[loc|]|] eqn:E'; try done.
    apply (wf_validators _ W) in E'. congruence.
Qed.

Lemma registered_nonempty ts topic :
  wf ts -> registered ts topic ≠ ∅ <-> exists loc, processors ts !! topic = Some (Some loc).
Proof.
  intros W. unfold registered. split.
  - destruct (processors ts !! topic) as [[loc|]|]; eauto; done.
  - intros [loc E]. rewrite E. by destruct (wf_heap _ W _ _ E) as (tp & -> & ?).
Qed.

(** Operations that leave the processors alone. *)
Lemma wf_same ts ts' :
  wf ts -> ps_running (pb ts') = ps_running (pb ts) -> ps_validators (pb ts') = ps_validators (pb ts) ->
  processors ts' = processors ts -> procs ts' = procs ts -> next_procs ts' = next_procs ts ->
  wf ts' /\ registered ts' = registered ts.
Proof.
  intros [] E1 E2 E3 E4 E5. split.
  - constructor; rewrite ?E1, ?E2, ?E3, ?E4, ?E5; done.
  - unfold registered. by rewrite E3, E4.
Qed.

End Topics.
Arguments topicsState : clear implicits.
Arguments op : clear implicits.

Section Correctness.

Context `{MapRange} {A X SendableData : Type} `{PubSubLaws X}.
Implicit Types (ts : topicsState A X SendableData) (topic identifier : string).

Lemma wf_newTopics (x : X) :
  ps_running x = true -> ps_validators x = ∅ -> wf (newTopics (A := A) (SendableData := SendableData) x).
Proof.
  intros Hr Hv. constructor; cbn; try done.
  - intros. by rewrite Hv, !lookup_empty.
  - by intros ? [? ?].
Qed.

(** A change of the processors of one topic. *)
Lemma registered_update ts ts' topic loc tp :
  wf ts -> processors ts !! topic = Some (Some loc) ->
  processors ts' = processors ts -> procs ts' = <[loc := tp]> (procs ts) ->
  forall t, registered ts' t = update (registered ts) topic (TopicProcessors.processors tp) t.
Proof.
  intros W Et Ep Eh t. unfold registered, update. rewrite Ep, Eh.
  destruct (decide (t = topic)) as [->|Hne]; [by rewrite Et, lookup_insert_eq|].
  destruct (processors ts !! t) as [[l|]|] eqn:E; try done.
  rewrite lookup_insert_ne; [done|]. intros ->. by apply Hne, (wf_inj _ W _ _ l).
Qed.

Lemma wf_update ts ts' topic loc tp :
  wf ts -> processors ts !! topic = Some (Some loc) -> TopicProcessors.processors tp ≠ ∅ ->
  pb ts' = pb ts -> processors ts' = processors ts -> procs ts' = <[loc := tp]> (procs ts) ->
  next_procs ts' = next_procs ts -> wf ts'.
Proof.
  intros W Et Hne Eb Ep Eh En. destruct (wf_heap _ W _ _ Et) as (tp0 & Htp0 & _).
  constructor; rewrite ?Eb, ?Ep, ?Eh, ?En; try apply W.
  - intros t l E. destruct (decide (l = loc)) as [->|]; simplify_map_eq; [by eauto|].
    by eapply wf_heap.
  - intros l [tp' Hl]. apply (wf_fresh _ W).
    destruct (decide (l = loc)) as [->|]; simplify_map_eq; eauto.
Qed.

Lemma addTopicProcessor_cases (tp : topicProcessors A) identifier handler :
  match addTopicProcessor tp identifier handler with
  | Ok tp' => TopicProcessors.processors tp !! identifier = None /\
              TopicProcessors.processors tp' = <[identifier := handler]> (TopicProcessors.processors tp)
  | Err _ => is_Some (TopicProcessors.processors tp !! identifier)
  end.
Proof. unfold addTopicProcessor. by destruct (_ !! identifier) eqn:E. Qed.

Lemma update_ext (m m' : string -> gmap string A) topic v t :
  (t ≠ topic -> m t = m' t) -> update m topic v t = update m' topic v t.
Proof. unfold update. intros Hm. by case_decide; [|apply Hm]. Qed.

(** Adding to the processors a topic already has. *)
Lemma add_existing ts topic identifier handler loc :
  wf ts -> processors ts !! topic = Some (Some loc) ->
  let '(err, ts') := addTopicProcessorAt ts loc topic identifier handler in
  wf ts' /\ (err ≠ None <-> spec_fails (registered ts) (OpRegister topic identifier (Some handler))) /\
  forall t, registered ts' t = spec_op (registered ts) (OpRegister topic identifier (Some handler)) t.
Proof.
  intros W Et. destruct (wf_heap _ W _ _ Et) as (tp & Htp & Hne).
  assert (registered ts topic = TopicProcessors.processors tp) as Hreg
    by (unfold registered; by rewrite Et, Htp).
  unfold addTopicProcessorAt. rewrite Htp. cbn [spec_fails spec_op]. rewrite Hreg.
  pose proof (addTopicProcessor_cases tp identifier handler) as Hc.
  destruct (addTopicProcessor tp identifier handler) as [tp'|err].
  - destruct Hc as [Hnone Hp]. split_and!.
    + apply (wf_update ts _ topic loc tp'); try done. rewrite Hp. apply insert_non_empty.
    + rewrite Hnone. split; [done | by intros [? ?]].
    + intros t. rewrite Hnone, <- Hp. by apply (registered_update ts _ topic loc tp').
  - split_and!; [done | by destruct Hc | by intros t; destruct Hc as [? ->]].
Qed.

(** The first processor of a topic. *)
Lemma add_first ts topic identifier handler :
  wf ts -> (forall loc, processors ts !! topic ≠ Some (Some loc)) ->
  let '(loc, ts1) := newTopicEntry ts topic in
  let '(err, x) := ps_RegisterTopicValidator (pb ts1) topic loc in
  let '(err', ts') := addTopicProcessorAt (set_pb x ts1) loc topic identifier handler in
  err = None /\ wf ts' /\ err' = None /\
  forall t, registered ts' t = update (registered ts) topic {[identifier := handler]} t.
Proof.
  intros W Hno. assert (ps_validators (pb ts) !! topic = None) as Hv.
  { destruct (ps_validators (pb ts) !! topic) as [loc|] eqn:E; [|done].
    apply (wf_validators _ W) in E. by destruct (Hno loc). }
  assert (procs ts !! next_procs ts = None) as Hfresh.
  { apply eq_None_not_Some. intros Hs%(wf_fresh _ W). lia. }
  unfold newTopicEntry. cbn [pb set_pb].
  pose proof (Register_running (pb ts) topic (next_procs ts) (wf_running _ W)) as P.
  destruct (ps_RegisterTopicValidator _ _ _) as [err x]. rewrite Hv in P. destruct P as (Hr & -> & Hval).
  unfold addTopicProcessorAt. cbn [procs set_pb set_procs]. rewrite lookup_insert_eq.
  unfold addTopicProcessor, newTopicProcessors. cbn [TopicProcessors.processors]. rewrite lookup_empty.
  split_and!; [done | | done |].
  - constructor; cbn [pb set_procs set_pb processors procs next_procs]; rewrite ?Hval.
    + done.
    + intros t l. map_cases; [naive_solver|]. apply W.
    + intros t l Hl. destruct (decide (t = topic)) as [->|]; simplify_map_eq.
      * eexists. split; [done|]. apply insert_non_empty.
      * destruct (wf_heap _ W _ _ Hl) as (tp & Htp & ?). exists tp.
        rewrite !lookup_insert_ne; [done|congruence..].
    + intros l [tp Hl]. map_cases; [lia|]. enough (l < next_procs ts)%nat by lia. apply (wf_fresh _ W). eauto.
    + assert (forall t, t ≠ topic -> processors ts !! t ≠ Some (Some (next_procs ts))) as Hno'.
      { intros t Ht E. destruct (wf_heap _ W _ _ E) as (tp & Htp & _). congruence. }
      intros t1 t2 l. map_cases; try done; try naive_solver. apply W.
  - intros t. unfold registered, update. cbn [set_procs set_pb processors procs].
    destruct (decide (t = topic)) as [->|Hne]; simplify_map_eq; [done|].
    destruct (processors ts !! t) as [[l|]|] eqn:E; try done.
    destruct (wf_heap _ W _ _ E) as (tp & Htp & _).
    rewrite !lookup_insert_ne by congruence. done.
Qed.

(** What an operation promises: the invariant, the abstract state, and for the
    registrations also when it fails. *)
Definition refines ts (o : op A) (r : option error * topicsState A X SendableData) : Prop :=
  wf r.2 /\ (checked o = true -> r.1 ≠ None <-> spec_fails (registered ts) o) /\
  forall t, registered r.2 t = spec_op (registered ts) o t.

Lemma Register_refines ts topic identifier handler :
  wf ts -> refines ts (OpRegister topic identifier handler) (RegisterMessageProcessor ts topic identifier handler).
Proof.
  intros W. unfold RegisterMessageProcessor. destruct handler as [handler|]; [|by split_and!].
  assert ((exists loc, processors ts !! topic = Some (Some loc)) \/
          forall loc, processors ts !! topic ≠ Some (Some loc)) as [[loc E]|Hno].
  { destruct (processors ts !! topic) as [[loc|]|]; eauto; by right. }
  - rewrite E. pose proof (add_existing ts topic identifier handler loc W E) as P.
    destruct (addTopicProcessorAt _ _ _ _ _) as [err ts']. destruct P as (? & ? & ?). by split_and!.
  - assert (registered ts topic = ∅) as Hreg.
    { unfold registered. destruct (processors ts !! topic) as [[loc|]|] eqn:E; [by destruct (Hno loc)|done..]. }
    pose proof (add_first ts topic identifier handler W Hno) as P.
    assert (exists r, r = (let '(loc, ts1) := newTopicEntry ts topic in
      match ps_RegisterTopicValidator (pb ts1) topic loc with
      | (Some err, x) => (Some err, set_pb x ts1)
      | (None, x) => addTopicProcessorAt (set_pb x ts1) loc topic identifier handler
      end) /\ refines ts (OpRegister topic identifier (Some handler)) r) as (r & Er & Hr).
    { eexists. split; [reflexivity|]. destruct (newTopicEntry ts topic) as [loc ts1].
      destruct (ps_RegisterTopicValidator _ _ _) as [err x].
      destruct (addTopicProcessorAt _ _ _ _ _) as [err' ts'].
      destruct P as (-> & W' & -> & Hreg'). unfold refines. cbn [spec_fails spec_op fst snd].
      rewrite Hreg, lookup_empty. split_and!; [done | | done].
      intros _. split; [done | by intros [? ?]]. }
    destruct (processors ts !! topic) as [[loc|]|] eqn:E; [by destruct (Hno loc)|..]; by rewrite <- Er.
Qed.

(** Removing the last processor of a topic. *)
Lemma unregister_last ts topic loc tp x err :
  wf ts -> processors ts !! topic = Some (Some loc) -> TopicProcessors.processors tp = ∅ ->
  ps_UnregisterTopicValidator (pb ts) topic = (err, x) ->
  let ts' := set_pb x (set_processors (<[topic := None]> (processors ts)) (set_procs (<[loc := tp]> (procs ts)) ts)) in
  err = None /\ wf ts' /\ forall t, registered ts' t = update (registered ts) topic ∅ t.
Proof.
  intros W Et Htp Ex ts'. pose proof (Unregister_running (pb ts) topic (wf_running _ W)) as P.
  rewrite Ex, (proj2 (wf_validators _ W topic loc) Et) in P. destruct P as (Hr & -> & Hv).
  assert (forall t l, t ≠ topic -> processors ts !! t = Some (Some l) -> l ≠ loc) as Hloc.
  { intros t l Ht E ->. by apply Ht, (wf_inj _ W _ _ loc). }
  unfold ts'. split_and!; [done | |].
  - constructor; cbn [pb set_procs set_pb set_processors processors procs next_procs]; rewrite ?Hv.
    + done.
    + intros t l. destruct (decide (t = topic)) as [->|]; simplify_map_eq; [done|]. apply W.
    + intros t l. destruct (decide (t = topic)) as [->|Hne]; simplify_map_eq; [done|]. intros E.
      rewrite lookup_insert_ne by (intros ->; by apply (Hloc _ _ Hne E)). by eapply wf_heap.
    + intros l. destruct (decide (l = loc)) as [->|]; simplify_map_eq; [|apply W].
      intros _. apply (wf_fresh _ W). destruct (wf_heap _ W _ _ Et) as (? & ? & _). eauto.
    + intros t1 t2 l. destruct (decide (t1 = topic)) as [->|], (decide (t2 = topic)) as [->|]; simplify_map_eq; try done.
      apply W.
  - intros t. unfold registered, update. cbn [pb set_procs set_pb set_processors processors procs].
    destruct (decide (t = topic)) as [->|Hne]; simplify_map_eq; [done|].
    destruct (processors ts !! t) as [[l|]|] eqn:E; try done.
    by rewrite lookup_insert_ne by (intros ->; by apply (Hloc _ _ Hne E)).
Qed.

Lemma Unregister_refines ts topic identifier :
  wf ts -> refines ts (OpUnregister topic identifier) (UnregisterMessageProcessor ts topic identifier).
Proof.
  intros W. unfold UnregisterMessageProcessor, refines. cbn [spec_fails spec_op].
  destruct (processors ts !! topic) as [[loc|]|] eqn:Et.
  2,3: assert (registered ts topic = ∅) as Hreg by (unfold registered; by rewrite Et);
       rewrite Hreg, delete_empty; split_and!; [done | by intros _; split; [|intros []] |];
       intros t; unfold update; by case_decide as Ht; [rewrite Ht|].
  destruct (wf_heap _ W _ _ Et) as (tp & Htp & Hne).
  assert (registered ts topic = TopicProcessors.processors tp) as Hreg
    by (unfold registered; by rewrite Et, Htp).
  rewrite Htp, Hreg. unfold removeTopicProcessor.
  destruct (TopicProcessors.processors tp !! identifier) as [h|] eqn:Eid.
  2: { rewrite delete_id by done. split_and!; [done | by intros _ |].
       intros t. unfold update. cbn [snd]. by case_decide as Ht; [rewrite Ht, Hreg|]. }
  set (tp' := TopicProcessors.mk (delete identifier (TopicProcessors.processors tp))).
  pose proof (getList_empty tp') as He.
  destruct (getList tp').1 as [|i ids] eqn:El.
  - destruct (ps_UnregisterTopicValidator _ _) as [err x] eqn:Ex. cbn [pb set_processors set_procs] in Ex.
    destruct (unregister_last ts topic loc tp' x err W Et (proj1 He eq_refl) Ex) as (-> & W' & Hr).
    split_and!; [done | by intros _; split; [|intros [_ [=]]] |].
    intros t. rewrite Hr. by rewrite <- (proj1 He eq_refl).
  - split_and!.
    + apply (wf_update ts _ topic loc tp'); try done. intros E. by apply He in E.
    + by intros _; split; [|intros [_ [=]]].
    + intros t. by apply (registered_update ts _ topic loc tp').
Qed.

Lemma Create_refines ts name c : wf ts -> refines ts (OpCreate name c) (CreateTopic ts name c).
Proof.
  intros W. unfold refines. cbn [checked spec_op].
  assert (wf (CreateTopic ts name c).2 /\ registered (CreateTopic ts name c).2 = registered ts) as [? E];
    [|by rewrite E].
  unfold CreateTopic. destruct (topics ts !! name); [done|].
  pose proof (Join_running (pb ts) name) as P. destruct (ps_Join _ _) as [[t|err] x]; destruct P as [P1 P2].
  - cbn [pb set_pb set_topics]. pose proof (Subscribe_running x t) as Q.
    destruct (ps_Subscribe x t) as [[sub|err] y]; destruct Q as [Q1 Q2].
    + destruct c; [destruct (AddChannel _ _)|]; apply wf_same; cbn in *; congruence || done.
    + apply wf_same; cbn in *; congruence || done.
  - by apply wf_same.
Qed.

Lemma unjoinAll_same ts errFound entries :
  wf ts -> wf (unjoinAll ts errFound entries).2 /\ registered (unjoinAll ts errFound entries).2 = registered ts.
Proof.
  revert ts errFound. induction entries as [|[name t] entries IH]; intros ts errFound W; [done|].
  cbn [unjoinAll].
  set (ts1 := match subscriptions ts !! name with Some subscr => _ | None => ts end).
  assert (wf ts1 /\ registered ts1 = registered ts) as [W1 E1].
  { unfold ts1. destruct (_ !! name) as [sub|]; [|done].
    destruct (Cancel_running (pb ts) sub). by apply wf_same. }
  pose proof (CloseTopic_running (pb ts1) t) as P.
  destruct (ps_CloseTopic (pb ts1) t) as [err x]. destruct P as [P1 P2].
  assert (wf (set_topics (delete name (topics ts1)) (set_pb x ts1)) /\
          registered (set_topics (delete name (topics ts1)) (set_pb x ts1)) = registered ts1) as [W2 E2]
    by by apply wf_same.
  destruct (IH _ (match err with Some _ => err | None => errFound end) W2) as [W3 E3].
  split; [done|]. by rewrite E3, E2.
Qed.

Lemma run_op_refines ts o : wf ts -> refines ts o (run_op ts o).
Proof.
  intros W. destruct o; cbn [run_op].
  - by apply Create_refines.
  - by apply Register_refines.
  - by apply Unregister_refines.
  - destruct (unjoinAll_same ts None (go_range (topics ts)) W) as [W' E].
    unfold refines, UnjoinAllTopics. by rewrite E.
Qed.

Lemma spec_op_ext (m m' : string -> gmap string A) o :
  (forall t, m t = m' t) -> forall t, spec_op m o t = spec_op m' o t.
Proof.
  intros Hm t. destruct o as [|topic ? [|]| |]; cbn [spec_op]; try done;
    rewrite <- !Hm; [|by apply update_ext].
  case_match; [done|]. by apply update_ext.
Qed.

Lemma run_ops_refines ts os :
  wf ts -> wf (run_ops ts os) /\
  forall t, registered (run_ops ts os) t = foldl spec_op (registered ts) os t.
Proof.
  intros W. induction os as [|o os [IW IH]] using rev_ind; [done|].
  unfold run_ops in *. rewrite !foldl_app. cbn [foldl].
  destruct (run_op_refines _ o IW) as (W' & _ & Hr). split; [done|].
  intros t. rewrite Hr. by apply spec_op_ext.
Qed.

(** [C12] The registration of message processors refines a map from topics to
    processors: after any sequence of [CreateTopic], [RegisterMessageProcessor],
    [UnregisterMessageProcessor] and [UnjoinAllTopics] calls on a running node, a
    message on a topic is handed to exactly the processors registered for it and
    not unregistered since, and a (un)registration fails exactly when the
    processor is nil, its identifier is taken, or (for a topic with processors)
    its identifier is unknown. *)
Theorem registration_refines (x : X) os o topic :
  ps_running x = true -> ps_validators x = ∅ ->
  let ts := run_ops (newTopics x : topicsState A X SendableData) os in
  let m := foldl spec_op (fun _ => ∅) os in
  dispatched ts topic = m topic /\
  (checked o = true -> (run_op ts o).1 ≠ None <-> spec_fails m o).
Proof.
  intros Hr Hv ts m. destruct (run_ops_refines _ os (wf_newTopics x Hr Hv)) as [W E].
  fold ts in W, E. change (registered (newTopics x)) with (fun _ : string => (∅ : gmap string A)) in E. fold m in E.
  split; [by rewrite dispatched_registered|].
  destruct (run_op_refines ts o W) as (_ & Hf & _). intros Hc. rewrite (Hf Hc).
  destruct o as [|? ? [|]| |]; cbn [spec_fails]; by rewrite ?E.
Qed.

(** ** UnregisterAllMessageProcessors *)

Definition has_nil ts topic : Prop := processors ts !! topic = Some None.

Lemma unregisterAll_no_nil ts entries :
  wf ts -> NoDup entries -> (forall t, t ∈ entries -> exists loc, processors ts !! t = Some (Some loc)) ->
  exists ts', unregisterAll ts entries = (None, ts') /\ ps_running (pb ts') = true /\
    ps_validators (pb ts') = foldl (fun v t => delete t v) (ps_validators (pb ts)) entries /\
    processors ts' = foldl (fun v t => delete t v) (processors ts) entries.
Proof.
  assert (forall ts, ps_running (pb ts) = true -> NoDup entries ->
    (forall t, t ∈ entries -> is_Some (ps_validators (pb ts) !! t)) ->
    exists ts', unregisterAll ts entries = (None, ts') /\ ps_running (pb ts') = true /\
      ps_validators (pb ts') = foldl (fun v t => delete t v) (ps_validators (pb ts)) entries /\
      processors ts' = foldl (fun v t => delete t v) (processors ts) entries) as Hgen.
  { clear ts. induction entries as [|t entries IH]; intros ts Hr Hnd Hin; [by exists ts|].
    apply NoDup_cons in Hnd as [Hni Hnd]. cbn [unregisterAll foldl].
    pose proof (Unregister_running (pb ts) t Hr) as P.
    destruct (ps_UnregisterTopicValidator _ _) as [err x].
    destruct (Hin t) as [v Hv]; [set_solver|]. rewrite Hv in P. destruct P as (Hr' & -> & Hv').
    destruct (IH (set_processors (delete t (processors ts)) (set_pb x ts))) as (ts' & E1 & E2 & E3 & E4);
      [done..| |].
    - intros t' Ht'. cbn [pb set_processors set_pb]. rewrite Hv', lookup_delete_ne by (intros ->; done).
      apply Hin. set_solver.
    - exists ts'. split_and!; [done..| |done]. rewrite E3. cbn. by rewrite Hv'. }
  intros W Hnd Hin. apply Hgen; [apply W | done|]. intros t [loc Hl]%Hin. exists loc. by apply (wf_validators _ W).
Qed.

Lemma unregisterAll_error ts entries t :
  ps_running (pb ts) = true -> t ∈ entries -> has_nil ts t -> ps_validators (pb ts) !! t = None ->
  exists err ts', unregisterAll ts entries = (Some err, ts').
Proof.
  revert ts. induction entries as [|t0 entries IH]; intros ts Hr Hin Hn Hv; [set_solver|].
  cbn [unregisterAll]. pose proof (Unregister_running (pb ts) t0 Hr) as P.
  destruct (ps_UnregisterTopicValidator _ _) as [[err|] x]; [by eauto|].
  destruct P as [Hr' P]. destruct (decide (t0 = t)) as [->|Hne]; [rewrite Hv in P; by destruct P|].
  apply IH; cbn [pb set_processors set_pb]; [done | set_solver | |].
  - unfold has_nil. cbn. by rewrite lookup_delete_ne.
  - destruct (ps_validators (pb ts) !! t0); destruct P as [_ ->]; by rewrite ?lookup_delete_ne.
Qed.

Lemma foldl_delete_all {B} (m : gmap string B) l :
  (forall k, is_Some (m !! k) -> k ∈ l) -> foldl (fun v t => delete t v) m l = ∅.
Proof.
  revert m. induction l as [|t l IH]; intros m Hm; cbn.
  - apply map_eq. intros k. rewrite lookup_empty. apply eq_None_not_Some. intros Hk%Hm. set_solver.
  - apply IH. intros k Hk. destruct (decide (k = t)) as [->|]; simplify_map_eq; [by destruct Hk|].
    apply Hm in Hk. set_solver.
Qed.

(** [UnregisterAllMessageProcessors] removes every processor and validator
    when no topic lost its last processor before; but a topic whose last
    processor was unregistered keeps a nil entry, for which pubsub has no
    validator, and from then on the call fails. *)
Theorem UnregisterAllMessageProcessors_spec ts :
  wf ts ->
  let '(err, ts') := UnregisterAllMessageProcessors ts in
  ((forall topic, ~ has_nil ts topic) -> err = None /\ processors ts' = ∅ /\ ps_validators (pb ts') = ∅) /\
  (forall topic, has_nil ts topic -> err ≠ None).
Proof.
  intros W. unfold UnregisterAllMessageProcessors.
  destruct (unregisterAll ts _) as [err ts'] eqn:E. split.
  - intros Hno. destruct (unregisterAll_no_nil ts (go_range (processors ts)).*1 W) as (ts2 & E2 & _ & Hv & Hp).
    + apply NoDup_go_range_fst.
    + intros t [[loc|] Hl]%elem_of_go_range_fst; [by exists loc | by destruct (Hno t)].
    + rewrite E in E2. simplify_eq. rewrite Hv, Hp. split_and!; [done|..]; apply foldl_delete_all; intros k Hk;
        apply elem_of_go_range_fst; [done|].
      destruct Hk as [loc Hk%(wf_validators _ W)]. by eexists.
  - intros topic Hn. destruct (unregisterAll_error ts (go_range (processors ts)).*1 topic) as (e & ts2 & E2).
    + apply W.
    + apply elem_of_go_range_fst. rewrite Hn. by eexists.
    + done.
    + apply eq_None_not_Some. intros [loc Hl%(wf_validators _ W)]. unfold has_nil in Hn. congruence.
    + rewrite E in E2. by simplify_eq.
Qed.

(** Unregistering the last processor leaves the nil entry. *)
Lemma Unregister_last_nil ts topic identifier h :
  wf ts -> registered ts topic = {[identifier := h]} ->
  has_nil (UnregisterMessageProcessor ts topic identifier).2 topic.
Proof.
  intros W Hreg. unfold UnregisterMessageProcessor. unfold registered in Hreg.
  destruct (processors ts !! topic) as [[loc|]|] eqn:Et.
  2,3: exfalso; by apply (insert_non_empty (∅ : gmap string A) identifier h).
  destruct (wf_heap _ W _ _ Et) as (tp & Htp & _). rewrite Htp in *. unfold removeTopicProcessor.
  rewrite Hreg, lookup_singleton_eq, delete_singleton_eq.
  rewrite (proj2 (getList_empty (TopicProcessors.mk (∅ : gmap string A))) eq_refl).
  destruct (ps_UnregisterTopicValidator _ _) as [err x]. unfold has_nil. cbn. by simplify_map_eq.
Qed.

End Correctness.

Module Witness.

Definition start : topicsState nat MapPubSub.t unit := newTopics MapPubSub.empty.
Definition script : list (op nat) :=
  [ OpCreate "blocks" true; OpRegister "blocks" "a" (Some 1); OpRegister "blocks" "b" (Some 2);
    OpRegister "txs" "a" (Some 3); OpUnregister "blocks" "a" ].

Lemma registration_refines_witness :
  ps_running MapPubSub.empty = true /\ ps_validators MapPubSub.empty = ∅ /\
  let ts := run_ops start script in
  let m := foldl spec_op (fun _ => ∅) script in
  dispatched ts "blocks" = m "blocks" /\
  (checked (OpRegister "txs" "a" (Some 4)) = true ->
   (run_op ts (OpRegister "txs" "a" (Some 4))).1 ≠ None <-> spec_fails m (OpRegister "txs" "a" (Some 4))).
Proof.
  split; [reflexivity|]. split; [reflexivity|].
  apply (registration_refines MapPubSub.empty script (OpRegister "txs" "a" (Some 4)) "blocks"); reflexivity.
Defined.

Lemma dispatched_blocks : dispatched (run_ops start script) "blocks" = {["b" := 2]}.
Proof. vm_compute. reflexivity. Qed.

(** One topic was left without processors. *)
Definition ts1 : topicsState nat MapPubSub.t unit := run_ops start (script ++ [OpUnregister "txs" "a"]).

Lemma UnregisterAllMessageProcessors_spec_witness :
  wf ts1 /\ has_nil ts1 "txs" /\
  let '(err, ts') := UnregisterAllMessageProcessors ts1 in
  ((forall topic, ~ has_nil ts1 topic) -> err = None /\ processors ts' = ∅ /\ ps_validators (pb ts') = ∅) /\
  (forall topic, has_nil ts1 topic -> err ≠ None).
Proof.
  assert (wf ts1) as W by (apply run_ops_refines, wf_newTopics; reflexivity).
  split; [exact W|]. split; [reflexivity|]. apply (UnregisterAllMessageProcessors_spec ts1 W).
Defined.

End Witness.
