(* ===== verification/Messenger.v ===== *)
(** * Messenger: sending and receiving messages ([libp2p/netMessenger.go])

    The messenger ties the components together: it wraps what is sent into topic
    messages, checks what is received, hands it to the processors of the topic,
    keeps the ratings and the statistics, and blacklists peers it cannot decode.
    The message processors, the throttler, the notifiers and the pubsub library
    are used through classes or parameters; the reading of the sync timer (in
    nanoseconds) is an argument of the operations that take it. *)

From S2P Require Import Prelude Errors Config Interfaces Cacher MutexHolder Wire TopicMessage Message.
From S2P Require Import Rating PeersHolder TopicProcessors LoadBalancer PeersOnChannel DirectSender.
From S2P Require Import Distances Sharding Debugger ConnMonitor Topics.
From Stdlib Require Import ZArith Lia String Strings.Byte.
From stdpp Require Import prelude gmap list strings pretty.

Local Open Scope Z_scope.

(** ** Interfaces *)

(** [throttler.NumGoRoutinesThrottler]. *)
Class Throttler (Th : Type) : Type := {
  th_CanProcess : Th -> bool;
  th_StartProcessing : Th -> Th;
  th_EndProcessing : Th -> Th
}.

(** The evaluator of the connection monitor wrapper is the disabled one until
    another one is set. *)
Inductive evaluator (D : Type) : Type :=
| DisabledEvaluator
| CustomEvaluator (d : D).
Arguments DisabledEvaluator {D}.
Arguments CustomEvaluator {D}.

#[export] Instance evaluator_PeerDenialEvaluator {D} `{PeerDenialEvaluator D} : PeerDenialEvaluator (evaluator D) := {
  pde_IsDenied e pid :=
    match e with DisabledEvaluator => pde_IsDenied tt pid | CustomEvaluator d => pde_IsDenied d pid end;
  pde_UpsertPeerID e pid duration :=
    match e with
    | DisabledEvaluator => (None, DisabledEvaluator)
    | CustomEvaluator d => let '(err, d) := pde_UpsertPeerID d pid duration in (err, CustomEvaluator d)
    end
}.

(** What an evaluator promises: a peer with a name that is put on the list is
    denied, and the others stay as they are. *)
Class PeerDenialLaws (D : Type) `{PeerDenialEvaluator D} : Prop := {
  Upsert_denies d pid duration :
    pid ≠ "" -> 0 < duration -> pde_IsDenied (pde_UpsertPeerID d pid duration).2 pid = true;
  Upsert_keeps d pid duration pid' :
    pde_IsDenied d pid' = true -> pde_IsDenied (pde_UpsertPeerID d pid duration).2 pid' = true
}.

Definition Unix (now : Z) : Z := i64 (now / second).

Definition acceptMessagesInAdvanceDuration : Z := 20 * second.
Definition pubsubTimeCacheDuration : Z := 10 * 60 * second.

Record SendableData {SecretKey : Type} : Type := mkSendable {
  Buff : bytes;
  Topic : string;
  Sk : option SecretKey;
  sendable_ID : PeerID
}.
Arguments SendableData : clear implicits.
Arguments mkSendable {SecretKey}.

Definition checkSendableData (buff : bytes) : option error :=
  if len buff >? maxSendBuffSize then
    Some (ErrWrap ErrMessageTooLarge (", to be sent: " +:+ pretty (len buff)
            +:+ ", maximum: " +:+ pretty maxSendBuffSize))
  else if len buff =? 0 then Some (ErrSentinel ErrEmptyBufferToSend)
  else None.

Section Messenger.

Context `{MapRange} `{SortSort}.
Context {A X SecretKey R P W D G M Th N : Type}.
Context `{PubSub X} `{PeersRatingHandler R} `{PreferredPeersHolderHandler P} `{PeerDenialEvaluator D}.
Context `{Debugger G} `{Marshalizer M} `{Throttler Th}.
(** The answer of a processor; [peer.IDFromBytes]; the secret keys; the peers
    pubsub knows on a topic. *)
Context (ProcessReceivedMessage : A -> Message -> PeerID -> option error).
Context (peer_IDFromBytes : bytes -> result PeerID).
Context (UnmarshalSecp256k1PrivateKey : bytes -> result SecretKey).
Context (ListPeers : X -> string -> list PeerID).
(** The display of identifiers, for the sharder. *)
Context (Pretty : PeerID -> string).

(** A goroutine started by [directMessageHandler]. *)
Record task : Type := mkTask {
  task_handlers : list (string * A);
  task_msg : Message;
  task_from : PeerID
}.

(** The rating handler is the one [poc] holds, the sharder and the preferred
    peers holder the ones of the connection monitor: the objects are shared.
    The maps and the load balancer are in [reg].  The host, the port and the
    signer are in [Node.p2pNode], the direct sender is passed along, and the
    connection counters only feed the log. *)
Record networkMessenger : Type := mk {
  self : PeerID;
  reg : topicsState A X (SendableData SecretKey);
  poc : peersOnChannel R;
  goRoutinesThrottler : Th;
  debugger : G;
  marshalizer : M;
  connMonitor : connectionMonitorWrapper P W (evaluator D);
  peerShardResolver : PeerShardResolver;
  peerTopicNotifiers : list N;
  spawned : list task
}.

Implicit Types (netMes : networkMessenger) (topic : string) (pid : PeerID) (buff : bytes).

Definition set_reg v netMes := mk (self netMes) v (poc netMes) (goRoutinesThrottler netMes) (debugger netMes) (marshalizer netMes) (connMonitor netMes) (peerShardResolver netMes) (peerTopicNotifiers netMes) (spawned netMes).
Definition set_poc v netMes := mk (self netMes) (reg netMes) v (goRoutinesThrottler netMes) (debugger netMes) (marshalizer netMes) (connMonitor netMes) (peerShardResolver netMes) (peerTopicNotifiers netMes) (spawned netMes).
Definition set_throttler v netMes := mk (self netMes) (reg netMes) (poc netMes) v (debugger netMes) (marshalizer netMes) (connMonitor netMes) (peerShardResolver netMes) (peerTopicNotifiers netMes) (spawned netMes).
Definition set_debugger v netMes := mk (self netMes) (reg netMes) (poc netMes) (goRoutinesThrottler netMes) v (marshalizer netMes) (connMonitor netMes) (peerShardResolver netMes) (peerTopicNotifiers netMes) (spawned netMes).
Definition set_connMonitor v netMes := mk (self netMes) (reg netMes) (poc netMes) (goRoutinesThrottler netMes) (debugger netMes) (marshalizer netMes) v (peerShardResolver netMes) (peerTopicNotifiers netMes) (spawned netMes).
Definition set_resolver v netMes := mk (self netMes) (reg netMes) (poc netMes) (goRoutinesThrottler netMes) (debugger netMes) (marshalizer netMes) (connMonitor netMes) v (peerTopicNotifiers netMes) (spawned netMes).
Definition set_notifiers v netMes := mk (self netMes) (reg netMes) (poc netMes) (goRoutinesThrottler netMes) (debugger netMes) (marshalizer netMes) (connMonitor netMes) (peerShardResolver netMes) v (spawned netMes).
Definition set_spawned v netMes := mk (self netMes) (reg netMes) (poc netMes) (goRoutinesThrottler netMes) (debugger netMes) (marshalizer netMes) (connMonitor netMes) (peerShardResolver netMes) (peerTopicNotifiers netMes) v.

(** Calls on the shared rating handler. *)
Definition IncreaseRating netMes pid : networkMessenger :=
  let p := poc netMes in
  set_poc (PeersOnChannel.mk (prh_IncreaseRating (peersRatingHandler p) pid) (peers p) (lastUpdated p)
             (refreshInterval p) (ttlInterval p) (PeersOnChannel.cancelled p)) netMes.

Definition denialEvaluator netMes : evaluator D := peerDenialEvaluator (connMonitor netMes).

(** ** Receiving *)

Definition processDebugMessage netMes topic (fromConnectedPeer : PeerID) (size : Z) (isRejected : bool) :
    networkMessenger :=
  set_debugger
    (if decide (fromConnectedPeer = self netMes)
     then dbg_AddOutgoingMessage (debugger netMes) topic size isRejected
     else dbg_AddIncomingMessage (debugger netMes) topic size isRejected) netMes.

(** An error of [UpsertPeerID] is only logged. *)
Definition blacklistPid netMes pid (banDuration : Z) : networkMessenger :=
  if pde_IsDenied (denialEvaluator netMes) pid then netMes
  else if decide (pid = "") then netMes
  else
    let '(_, e) := pde_UpsertPeerID (denialEvaluator netMes) pid banDuration in
    set_connMonitor (mkWrapper (inner (connMonitor netMes)) e) netMes.

Definition timestamps (now : Z) (msg : Message) : string :=
  ", self timestamp " +:+ pretty (Unix now) +:+ ", message timestamp " +:+ pretty (TimestampField msg).

Definition validMessageByTimestamp (now : Z) (msg : Message) : option error :=
  if Unix (now + acceptMessagesInAdvanceDuration) <? TimestampField msg then
    Some (ErrWrap ErrMessageTooNew (timestamps now msg))
  else if TimestampField msg <? i64 (Unix now - pubsubTimeCacheDuration / second) then
    Some (ErrWrap ErrMessageTooOld (timestamps now msg))
  else None.

Definition transformAndCheckMessage netMes (now : Z) (pbMsg : pb_Message) pid topic :
    result Message * networkMessenger :=
  match NewMessage peer_IDFromBytes (Some pbMsg) (Some (marshalizer netMes)) with
  | Err errUnmarshal =>
      let pidFrom := string_of_bytes (get_bytes (pb_From pbMsg)) in
      let netMes := blacklistPid netMes pid WrongP2PMessageBlacklistDuration in
      let netMes := blacklistPid netMes pidFrom WrongP2PMessageBlacklistDuration in
      (Err errUnmarshal, netMes)
  | Ok msg =>
      match validMessageByTimestamp now msg with
      | Some err => (Err err, processDebugMessage netMes topic pid (u64 (len (DataField msg))) true)
      | None => (Ok msg, netMes)
      end
  end.

(** A call of [ProcessReceivedMessage] of the processor under an identifier. *)
Record call : Type := mkCall {
  call_identifier : string;
  call_handler : A;
  call_msg : Message;
  call_from : PeerID
}.

(** The loop over the handlers: every one is called, [messageOk] is whether none
    of them failed. *)
Definition callHandlers (handlers : list (string * A)) (msg : Message) (fromConnectedPeer : PeerID) :
    bool * list call :=
  fold_left (fun '(messageOk, calls) '(identifier, handler) =>
    let messageOk := match ProcessReceivedMessage handler msg fromConnectedPeer with
                     | Some _ => false
                     | None => messageOk
                     end in
    (messageOk, calls ++ [mkCall identifier handler msg fromConnectedPeer])) handlers (true, []).

Definition handlersOf (tp : topicProcessors A) : list (string * A) :=
  let '(identifiers, handlers) := getList tp in zip identifiers handlers.

(** The closure returned by [pubsubCallback(topicProcs, topic)]. *)
Definition pubsubCallback netMes (now : Z) (topicProcs : topicProcessors A) topic pid (message : pb_Message) :
    bool * list call * networkMessenger :=
  let fromConnectedPeer := pid in
  let '(msg, netMes) := transformAndCheckMessage netMes now message fromConnectedPeer topic in
  match msg with
  | Err _ => (false, [], netMes)
  | Ok msg =>
      let '(messageOk, calls) := callHandlers (handlersOf topicProcs) msg fromConnectedPeer in
      let netMes := processDebugMessage netMes topic fromConnectedPeer
                      (u64 (len (get_bytes (pb_Data message)))) (negb messageOk) in
      (messageOk, calls, if messageOk then IncreaseRating netMes fromConnectedPeer else netMes)
  end.

(** pubsub hands a message on [topic] to the validator it holds for it; a topic
    without validator accepts every message. *)
Definition pubsubValidate netMes (now : Z) topic pid (message : pb_Message) : bool * list call * networkMessenger :=
  match ps_validators (pb (reg netMes)) !! topic with
  | None => (true, [], netMes)
  | Some loc =>
      match procs (reg netMes) !! loc with
      | None => (true, [], netMes)
      | Some topicProcs => pubsubCallback netMes now topicProcs topic pid message
      end
  end.

(** [*message.Topic] panics on a nil topic.  The goroutine is left to run. *)
Definition directMessageHandler netMes (now : Z) (message : pb_Message) (fromConnectedPeer : PeerID) :
    outcome (option error * networkMessenger) :=
  match pb_Topic message with
  | None => Panic
  | Some topic =>
      let '(msg, netMes) := transformAndCheckMessage netMes now message fromConnectedPeer topic in
      match msg with
      | Err err => Ret (Some err, netMes)
      | Ok msg =>
          match processors (reg netMes) !! topic with
          | Some (Some loc) =>
              match procs (reg netMes) !! loc with
              | None => Panic
              | Some topicProcs =>
                  Ret (None, set_spawned (spawned netMes ++ [mkTask (handlersOf topicProcs) msg fromConnectedPeer]) netMes)
              end
          | _ => Ret (Some (ErrWrap ErrNilValidator (" on directMessageHandler for topic " +:+ topic)), netMes)
          end
      end
  end.

(** The body of that goroutine. *)
Definition runTask netMes (t : task) : list call * networkMessenger :=
  let msg := task_msg t in
  let '(messageOk, calls) := callHandlers (task_handlers t) msg (task_from t) in
  let netMes := set_debugger (dbg_AddIncomingMessage (debugger netMes) (TopicField msg)
                                (u64 (len (DataField msg))) (negb messageOk)) netMes in
  (calls, if messageOk then IncreaseRating netMes (task_from t) else netMes).

(** One of the goroutines runs. *)
Definition runSpawned netMes (i : nat) : list call * networkMessenger :=
  match spawned netMes !! i with
  | None => ([], netMes)
  | Some t => runTask (set_spawned (delete i (spawned netMes)) netMes) t
  end.

(** ** Sending *)

(** A nil buffer stands for a marshalling error. *)
Definition createMessageBytes netMes (now : Z) buff : bytes :=
  match mz_Marshal (marshalizer netMes) (plain buff (Unix now)) with
  | Err _ => []
  | Ok buffToSend => buffToSend
  end.

(** What is given to [topic.Publish]. *)
Record publication : Type := mkPublication {
  pub_topic : nat;
  pub_data : bytes;
  pub_key : option (SecretKey * PeerID)
}.

Definition publish (topic : nat) (data : SendableData SecretKey) (packedSendableDataBuff : bytes) : publication :=
  mkPublication topic packedSendableDataBuff
    (match Sk data with Some sk => Some (sk, sendable_ID data) | None => None end).

(** One round of the goroutine of [createPubSub], with what it took from the
    channels. *)
Definition sendRound netMes (now : Z) (sendableData : option (SendableData SecretKey)) : option publication :=
  match sendableData with
  | None => None
  | Some sendableData =>
      match topics (reg netMes) !! Topic sendableData with
      | None => None
      | Some topic =>
          let packedSendableDataBuff := createMessageBytes netMes now (Buff sendableData) in
          if len packedSendableDataBuff =? 0 then None
          else Some (publish topic sendableData packedSendableDataBuff)
      end
  end.

(** [BroadcastOnChannelBlocking] up to the send on the channel: the channel and
    the object, or the error. *)
Definition startBroadcast netMes (channel : string) (sendable : SendableData SecretKey) :
    outcome (result (nat * SendableData SecretKey) * networkMessenger) :=
  match checkSendableData (Buff sendable) with
  | Some err => Ret (Err err, netMes)
  | None =>
      if negb (th_CanProcess (goRoutinesThrottler netMes)) then Ret (Err (ErrSentinel ErrTooManyGoroutines), netMes)
      else
        let netMes := set_throttler (th_StartProcessing (goRoutinesThrottler netMes)) netMes in
        match GetChannelOrDefault (outgoingPLB (reg netMes)) channel with
        | None => Panic
        | Some c => Ret (Ok (c, sendable), netMes)
        end
  end.

(** ... and after the send. *)
Definition endBroadcast netMes : networkMessenger :=
  set_throttler (th_EndProcessing (goRoutinesThrottler netMes)) netMes.

Definition BroadcastOnChannelBlocking netMes (channel topic : string) buff :=
  startBroadcast netMes channel (mkSendable buff topic None (self netMes)).

(** The goroutines that [Broadcast] starts make this call. *)
Definition Broadcast netMes topic buff := BroadcastOnChannelBlocking netMes topic topic buff.

Definition BroadcastOnChannelBlockingUsingPrivateKey netMes (channel topic : string) buff pid (skBytes : bytes) :=
  match UnmarshalSecp256k1PrivateKey skBytes with
  | Err err => Ret (Err err, netMes)
  | Ok sk => startBroadcast netMes channel (mkSendable buff topic (Some sk) pid)
  end.

Definition BroadcastUsingPrivateKey netMes topic buff pid (skBytes : bytes) :=
  BroadcastOnChannelBlockingUsingPrivateKey netMes topic topic buff pid skBytes.

Section Direct.

Context {T C S : Type} `{TimeCache T} `{Cacher C} `{SignerVerifier S}.
Context (pb_Marshal : pb_Message -> result bytes) (SignPrefix : bytes).
Implicit Types ds : directSender T C S.

Definition sendDirectToSelf netMes ds (now : Z) topic buff :
    outcome (option error * directSender T C S * networkMessenger) :=
  let '(seqno, ds) := NextSequenceNumber ds in
  let me := bytes_of_string (self netMes) in
  let msg := mkPb (Some me) (Some buff) (Some seqno) (Some topic) (Some me) None in
  let! (err, netMes) := directMessageHandler netMes now msg (self netMes) in
  Ret (err, ds, netMes).

Definition SendToConnectedPeer netMes ds (now : Z) (net : network) topic buff (peerID : PeerID) :
    outcome (option error * directSender T C S * networkMessenger * list stream_event) :=
  match checkSendableData buff with
  | Some err => Ret (Some err, ds, netMes, [])
  | None =>
      let buffToSend := createMessageBytes netMes now buff in
      if len buffToSend =? 0 then Ret (None, ds, netMes, [])
      else if decide (peerID = self netMes) then
        let! (err, ds, netMes) := sendDirectToSelf netMes ds now topic buffToSend in
        Ret (err, ds, netMes, [])
      else
        let '(err, ds, events) := Send pb_Marshal SignPrefix ds net topic buffToSend peerID in
        let isRejected := match err with Some _ => true | None => false end in
        let netMes := set_debugger (dbg_AddOutgoingMessage (debugger netMes) topic (u64 (len buffToSend)) isRejected) netMes in
        Ret (err, ds, netMes, events)
  end.

End Direct.

(** ** Settings and views *)

Definition newPeerFound netMes pid topic : bool * list (N * PeerID * string) :=
  (true, (fun notifier => (notifier, pid, topic)) <$> peerTopicNotifiers netMes).

Definition AddPeerTopicNotifier netMes (notifier : option N) : option error * networkMessenger :=
  match notifier with
  | None => (Some (ErrSentinel ErrNilPeerTopicNotifier), netMes)
  | Some n => (None, set_notifiers (peerTopicNotifiers netMes ++ [n]) netMes)
  end.

Definition with_monitor (m : connectionMonitor P W) netMes : networkMessenger :=
  set_connMonitor (mkWrapper m (denialEvaluator netMes)) netMes.

Definition SetThresholdMinConnectedPeers netMes (minConnectedPeers : Z) (peers : list PeerID) :
    option error * networkMessenger * list net_event :=
  if minConnectedPeers <? 0 then (Some (ErrSentinel ErrInvalidValue), netMes, [])
  else
    let '(m, events) := ConnMonitor.SetThresholdMinConnectedPeers (inner (connMonitor netMes)) minConnectedPeers (Some peers) in
    (None, with_monitor m netMes, events).

Definition ThresholdMinConnectedPeers netMes : Z :=
  ConnMonitor.ThresholdMinConnectedPeers (inner (connMonitor netMes)).

Definition IsConnectedToTheNetwork netMes (peers : list PeerID) : bool :=
  ConnMonitor.IsConnectedToTheNetwork (inner (connMonitor netMes)) peers.

Definition set_sharder (s : sharder) (m : connectionMonitor P W) : connectionMonitor P W :=
  ConnMonitor.mk (thresholdMinConnectedPeers m) (ConnMonitor.preferredPeersHolder m) (connectionsWatcher m)
    s (loop m) (ConnMonitor.cancelled m).

Definition SetPeerShardResolver netMes (psr : option PeerShardResolver) : option error * networkMessenger :=
  match psr with
  | None => (Some (ErrSentinel ErrNilPeerShardResolver), netMes)
  | Some r =>
      let m := inner (connMonitor netMes) in
      let '(err, s) := shr_SetPeerShardResolver (cm_sharder m) (Some r) in
      match err with
      | Some err => (Some err, with_monitor (set_sharder s m) netMes)
      | None => (None, set_resolver r (with_monitor (set_sharder s m) netMes))
      end
  end.

Definition SetPeerDenialEvaluator netMes (handler : option D) : option error * networkMessenger :=
  let '(err, cmw) := ConnMonitor.SetPeerDenialEvaluator (connMonitor netMes) (CustomEvaluator <$> handler) in
  (err, set_connMonitor cmw netMes).

Definition ConnectedPeersOnTopic netMes (now : Z) topic : list PeerID * networkMessenger :=
  let '(l, p) := ConnectedPeersOnChannel (ListPeers (pb (reg netMes))) now (poc netMes) topic in
  (l, set_poc p netMes).

Definition ConnectedFullHistoryPeersOnTopic netMes (now : Z) topic : list PeerID * networkMessenger :=
  let '(peerList, netMes) := ConnectedPeersOnTopic netMes now topic in
  (filter (fun topicPeer => PeerSubType (peerShardResolver netMes topicPeer) = FullHistoryObserver) peerList, netMes).

End Messenger.
Arguments networkMessenger : clear implicits.
Arguments task : clear implicits.
Arguments call : clear implicits.

(** ** Correctness *)

Section Correctness.

Context `{MapRange} `{SortSort}.
Context {A X SecretKey R P W D G M Th N : Type}.
Context `{PubSub X} `{PeersRatingHandler R} `{PreferredPeersHolderHandler P} `{PeerDenialEvaluator D}.
Context `{Debugger G} `{Marshalizer M} `{Throttler Th}.
Context (ProcessReceivedMessage : A -> Message -> PeerID -> option error).
Context (peer_IDFromBytes : bytes -> result PeerID).

Implicit Types (netMes sender receiver : networkMessenger A X SecretKey R P W D G M Th N).
Implicit Types (topic : string) (pid : PeerID) (buff : bytes) (msg : Message).

Abbreviation NewMessage := (NewMessage peer_IDFromBytes).
Abbreviation transformAndCheckMessage := (transformAndCheckMessage peer_IDFromBytes).
Abbreviation callHandlers := (callHandlers ProcessReceivedMessage).
Abbreviation pubsubValidate := (pubsubValidate ProcessReceivedMessage peer_IDFromBytes).
Abbreviation directMessageHandler := (directMessageHandler peer_IDFromBytes).

(** A clock between 1970 and 2116, in nanoseconds. *)
Definition clock (now : Z) : Prop := 0 <= now < 2 ^ 62.

(** The timestamps a node accepts, in seconds. *)
Definition in_window (now timestamp : Z) : Prop := Unix now - 600 <= timestamp <= Unix now + 20.

Lemma Unix_clock now : clock now -> Unix now = now / second /\ 0 <= now / second < 2 ^ 33.
Proof.
  unfold clock, Unix, second. intros Hc.
  assert (0 <= now / 1000000000 < 2 ^ 33).
  { split; [apply Z.div_pos; lia | apply Z.div_lt_upper_bound; lia]. }
  split; [|done]. apply i64_id. unfold in_i64. lia.
Qed.

Lemma validMessageByTimestamp_spec now msg :
  clock now -> validMessageByTimestamp now msg = None <-> in_window now (TimestampField msg).
Proof.
  intros Hc. destruct (Unix_clock now Hc) as [Hu Hr]. unfold validMessageByTimestamp, in_window.
  assert (Unix (now + acceptMessagesInAdvanceDuration) = Unix now + 20) as ->.
  { rewrite Hu. unfold Unix, acceptMessagesInAdvanceDuration. rewrite Z.div_add by done.
    apply i64_id. unfold in_i64. lia. }
  change (pubsubTimeCacheDuration / second) with 600.
  rewrite (i64_id (Unix now - 600)) by (unfold in_i64; lia).
  destruct (Z.ltb_spec (Unix now + 20) (TimestampField msg)); [split; [done|lia]|].
  destruct (Z.ltb_spec (TimestampField msg) (Unix now - 600)); split; try done; lia.
Qed.

Lemma transformAndCheckMessage_Ok netMes now pbMsg pid topic msg netMes' :
  clock now ->
  transformAndCheckMessage netMes now pbMsg pid topic = (Ok msg, netMes') <->
  NewMessage (Some pbMsg) (Some (marshalizer netMes)) = Ok msg /\ in_window now (TimestampField msg) /\ netMes' = netMes.
Proof.
  intros Hc. unfold Messenger.transformAndCheckMessage.
  destruct (NewMessage (Some pbMsg) (Some (marshalizer netMes))) as [m|err]; [|split; [done | by intros [? _]]].
  pose proof (validMessageByTimestamp_spec now m Hc) as Hv.
  destruct (validMessageByTimestamp now m) as [err|]; split.
  - done.
  - intros ([= ->] & Hw & _). by apply Hv in Hw.
  - intros [= -> ->]. split_and!; [done | by apply Hv | done].
  - by intros ([= ->] & _ & ->).
Qed.

(** What a node accepts. *)
Definition accepts netMes (now : Z) (pbMsg : pb_Message) msg : Prop :=
  NewMessage (Some pbMsg) (Some (marshalizer netMes)) = Ok msg /\ in_window now (TimestampField msg).

Lemma accepts_cases netMes now pbMsg pid topic :
  clock now ->
  (exists msg, transformAndCheckMessage netMes now pbMsg pid topic = (Ok msg, netMes) /\ accepts netMes now pbMsg msg) \/
  (exists err netMes', transformAndCheckMessage netMes now pbMsg pid topic = (Err err, netMes') /\
     reg netMes' = reg netMes /\ poc netMes' = poc netMes /\ spawned netMes' = spawned netMes /\
     forall msg, ~ accepts netMes now pbMsg msg).
Proof.
  intros Hc. destruct (transformAndCheckMessage netMes now pbMsg pid topic) as [[msg|err] netMes'] eqn:E.
  - left. apply transformAndCheckMessage_Ok in E as (? & ? & ->); [|done]. by exists msg.
  - right. exists err, netMes'. split; [done|].
    assert (reg netMes' = reg netMes /\ poc netMes' = poc netMes /\ spawned netMes' = spawned netMes) as (?&?&?).
    { unfold Messenger.transformAndCheckMessage in E.
      destruct (NewMessage _ _) as [m|]; [destruct (validMessageByTimestamp _ _); [|done]|];
        injection E as <- <-; [done|].
      unfold blacklistPid. repeat (case_match; try done). }
    split_and!; [done..|]. intros msg [Hm Hw].
    rewrite (proj2 (transformAndCheckMessage_Ok netMes now pbMsg pid topic msg netMes Hc)) in E by done. done.
Qed.

(** The messages a node accepts, from pubsub or directly, are exactly those
    that [NewMessage] builds and whose timestamp is at most ten minutes old and
    at most twenty seconds in the future; accepting one changes nothing. *)
Theorem message_acceptance netMes now pbMsg pid topic msg netMes' :
  clock now ->
  transformAndCheckMessage netMes now pbMsg pid topic = (Ok msg, netMes') <->
  accepts netMes now pbMsg msg /\ netMes' = netMes.
Proof. intros Hc. rewrite transformAndCheckMessage_Ok by done. unfold accepts. tauto. Qed.

(** ** Calling the processors *)

Lemma callHandlers_acc handlers msg pid ok calls :
  fold_left (fun '(messageOk, calls) '(identifier, handler) =>
    let messageOk := match ProcessReceivedMessage handler msg pid with Some _ => false | None => messageOk end in
    (messageOk, calls ++ [mkCall identifier handler msg pid])) handlers (ok, calls) =
  (ok && forallb (fun '(_, h) => bool_decide (ProcessReceivedMessage h msg pid = None)) handlers,
   calls ++ ((fun '(identifier, h) => mkCall identifier h msg pid) <$> handlers)).
Proof.
  revert ok calls. induction handlers as [|[i h] handlers IH]; intros ok calls.
  - cbn. by rewrite andb_true_r, app_nil_r.
  - cbn [fold_left forallb fmap list_fmap]. rewrite IH, <- app_assoc. f_equal.
    destruct (ProcessReceivedMessage h msg pid); cbn; [by rewrite andb_false_r | done].
Qed.

(** Every processor is called once; [messageOk] is that none fails. *)
Lemma callHandlers_spec handlers msg pid :
  callHandlers handlers msg pid =
  (forallb (fun '(_, h) => bool_decide (ProcessReceivedMessage h msg pid = None)) handlers,
   (fun '(identifier, h) => mkCall identifier h msg pid) <$> handlers).
Proof. unfold Messenger.callHandlers. by rewrite callHandlers_acc. Qed.

Lemma handlersOf_perm (tp : topicProcessors A) : handlersOf tp ≡ₚ map_to_list (TopicProcessors.processors tp).
Proof.
  unfold handlersOf. pose proof (getList_zip tp) as E. destruct (getList tp) as [l1 l2]. cbn in E.
  rewrite E. apply go_range_perm.
Qed.

Lemma forallb_handlers (tp : topicProcessors A) (f : A -> bool) :
  forallb (fun '(_, h) => f h) (handlersOf tp) = true <->
  map_Forall (fun _ h => f h = true) (TopicProcessors.processors tp).
Proof.
  rewrite forallb_forall. split.
  - intros Hf i h Hi. apply (Hf (i, h)). apply list_elem_of_In. rewrite handlersOf_perm.
    by apply elem_of_map_to_list.
  - intros Hf [i h] Hi%list_elem_of_In. rewrite handlersOf_perm in Hi. apply elem_of_map_to_list in Hi.
    by apply Hf in Hi.
Qed.

(** The calls that hand [msg] to the processors of a topic. *)
Definition all_calls (handlers : gmap string A) msg pid : list (call A) :=
  (fun '(identifier, h) => mkCall identifier h msg pid) <$> map_to_list handlers.

(** ** From pubsub to the processors *)

Lemma pubsubValidate_eq netMes now topic pid pbMsg :
  wf (reg netMes) -> registered (reg netMes) topic ≠ ∅ ->
  exists tp, TopicProcessors.processors tp = registered (reg netMes) topic /\
  pubsubValidate netMes now topic pid pbMsg =
    pubsubCallback ProcessReceivedMessage peer_IDFromBytes netMes now tp topic pid pbMsg.
Proof.
  intros Hwf Hne. pose proof (dispatched_registered (reg netMes) topic Hwf) as E.
  unfold dispatched in E. unfold Messenger.pubsubValidate.
  destruct (ps_validators _ !! topic) as [loc|]; [|by rewrite <- E in Hne].
  destruct (procs _ !! loc) as [tp|]; [|by rewrite <- E in Hne]. by exists tp.
Qed.

Definition all_succeed (handlers : gmap string A) msg pid : Prop :=
  map_Forall (fun _ h => ProcessReceivedMessage h msg pid = None) handlers.

Lemma pubsubCallback_accepted netMes now tp topic pid pbMsg msg :
  clock now -> accepts netMes now pbMsg msg ->
  let '(ok, calls, netMes') := pubsubCallback ProcessReceivedMessage peer_IDFromBytes netMes now tp topic pid pbMsg in
  (ok = true <-> all_succeed (TopicProcessors.processors tp) msg pid) /\
  calls ≡ₚ all_calls (TopicProcessors.processors tp) msg pid /\
  peersRatingHandler (poc netMes') =
    (if ok then prh_IncreaseRating (peersRatingHandler (poc netMes)) pid else peersRatingHandler (poc netMes)).
Proof.
  intros Hc [Hm Hw]. unfold pubsubCallback.
  rewrite (proj2 (transformAndCheckMessage_Ok netMes now pbMsg pid topic msg netMes Hc)) by done.
  rewrite callHandlers_spec. cbn zeta iota beta.
  pose proof (forallb_handlers tp (fun h => bool_decide (ProcessReceivedMessage h msg pid = None))) as Hf.
  set (ok := forallb _ _) in *. split_and!.
  - rewrite Hf. unfold all_succeed.
    split; intros Ha i h Hi; apply Ha in Hi; [by apply bool_decide_eq_true in Hi | by apply bool_decide_eq_true].
  - unfold all_calls. by rewrite handlersOf_perm.
  - by destruct ok.
Qed.

Lemma pubsubCallback_refused netMes now tp topic pid pbMsg :
  clock now -> (forall msg, ~ accepts netMes now pbMsg msg) ->
  exists netMes', pubsubCallback ProcessReceivedMessage peer_IDFromBytes netMes now tp topic pid pbMsg = (false, [], netMes').
Proof.
  intros Hc Hno. unfold pubsubCallback.
  destruct (accepts_cases netMes now pbMsg pid topic Hc) as [(msg & _ & Ha)|(err & nm & -> & _)]; [by apply Hno in Ha|].
  by exists nm.
Qed.

(** [C2] Receiving from pubsub.  A message on a topic with processors passes
    exactly when the node accepts it and no processor fails; every registered
    processor is called exactly once with the accepted message, none for a
    message that is not accepted; and the rating of the connected peer is
    increased exactly when the message passes. *)
Theorem pubsub_reception netMes now topic pid pbMsg :
  clock now -> wf (reg netMes) -> registered (reg netMes) topic ≠ ∅ ->
  let handlers := registered (reg netMes) topic in
  let '(ok, calls, netMes') := pubsubValidate netMes now topic pid pbMsg in
  (ok = true <-> exists msg, accepts netMes now pbMsg msg /\ all_succeed handlers msg pid) /\
  (forall msg, accepts netMes now pbMsg msg -> calls ≡ₚ all_calls handlers msg pid) /\
  ((forall msg, ~ accepts netMes now pbMsg msg) -> calls = []) /\
  peersRatingHandler (poc netMes') =
    (if ok then prh_IncreaseRating (peersRatingHandler (poc netMes)) pid else peersRatingHandler (poc netMes)).
Proof.
  intros Hc Hwf Hne handlers. destruct (pubsubValidate_eq netMes now topic pid pbMsg Hwf Hne) as (tp & Etp & ->).
  fold handlers in Etp. rewrite <- Etp.
  destruct (accepts_cases netMes now pbMsg pid topic Hc) as [(msg & E & Ha)|(err & nm & E & _ & Ep & _ & Hno)].
  - pose proof (pubsubCallback_accepted netMes now tp topic pid pbMsg msg Hc Ha) as Hcb.
    destruct (pubsubCallback _ _ _ _ _ _ _ _) as [[ok calls] nm]. destruct Hcb as (P1 & P2 & P3).
    assert (forall m, accepts netMes now pbMsg m -> m = msg) as Hu.
    { intros m [Hm _]. destruct Ha as [Ha _]. congruence. }
    split_and!; [| by intros m ->%Hu | by intros Hn; destruct (Hn msg) | done].
    rewrite P1. split; [by exists msg | by intros (m & ->%Hu & ?)].
  - unfold pubsubCallback. rewrite E. split_and!; [| by intros m ?%Hno | done | by rewrite Ep].
    split; [done | by intros (m & ?%Hno & _)].
Qed.

(** ** What is sent is what is received *)

Section RoundTrip.

Context `{!MarshalizerLaws M}.

Lemma plain_wf now buff : clock now -> checkSendableData buff = None -> TopicMessage.wf (plain buff (Unix now)).
Proof.
  intros Hc Hb. assert (0 <= len buff <= 2 ^ 21) as Hl.
  { unfold checkSendableData in Hb. destruct (Z.gtb_spec (len buff) maxSendBuffSize) as [|Hle]; [done|].
    unfold maxSendBuffSize, messageHeader in Hle. lia. }
  destruct (Unix_clock now Hc) as [Hu Hr].
  assert (forall v, len (varint_field 8 v) <= 100 /\ len (varint_field 24 v) <= 100) as Hv.
  { intros v. pose proof (length_uvarint_le v). unfold varint_field. case_decide; cbn [length]; lia. }
  constructor.
  - done.
  - cbn. unfold in_i64. lia.
  - unfold TopicMessage.encode, plain. cbn [Version Payload Timestamp Pk SignatureOnPid].
    change (bytes_field 34 []) with (@nil byte). change (bytes_field 42 []) with (@nil byte).
    rewrite !length_app.
    pose proof (proj1 (Hv (u64 currentTopicMessageVersion))). pose proof (proj2 (Hv (u64 (Unix now)))).
    enough (len (bytes_field 18 buff) <= len buff + 100) by (cbn [length]; lia).
    pose proof (length_uvarint_le (len buff)). unfold bytes_field. case_decide; cbn [length]; [lia|].
    rewrite length_app. lia.
Qed.

(** The bytes a node makes of a buffer are read back by a node with the same
    marshaller. *)
Lemma createMessageBytes_spec netMes now buff :
  clock now -> checkSendableData buff = None ->
  exists b, createMessageBytes netMes now buff = b /\
            mz_Unmarshal (marshalizer netMes) b = Ok (plain buff (Unix now)).
Proof.
  intros Hc Hb. pose proof (plain_wf now buff Hc Hb) as Hwf.
  destruct (mz_Marshal_ok (marshalizer netMes) _ Hwf) as [b E]. exists b. unfold createMessageBytes. rewrite E.
  split; [done|]. by apply mz_Marshal_Unmarshal.
Qed.

(** A pubsub message that carries [buff], sent at [now]. *)
Definition carries netMes (now : Z) buff topic (pbMsg : pb_Message) : Prop :=
  pb_Topic pbMsg = Some topic /\ pb_Data pbMsg = Some (createMessageBytes netMes now buff).

Definition from_peer (pbMsg : pb_Message) (id : PeerID) : Prop :=
  peer_IDFromBytes (get_bytes (pb_From pbMsg)) = Ok id.

Lemma carried_accepted sender receiver now now' buff topic pbMsg id :
  clock now -> clock now' -> checkSendableData buff = None ->
  marshalizer receiver = marshalizer sender -> carries sender now buff topic pbMsg -> from_peer pbMsg id ->
  in_window now' (Unix now) ->
  exists msg, accepts receiver now' pbMsg msg /\ DataField msg = buff /\ TopicField msg = topic /\
              PeerField msg = id /\ TimestampField msg = Unix now.
Proof.
  intros Hc Hc' Hb Em [Et Ed] Hid Hw.
  destruct (createMessageBytes_spec sender now buff Hc Hb) as (b & Eb & Eu). rewrite Eb in Ed.
  eexists. split_and!; [split; [apply NewMessage_plain|]|..]; try done.
  rewrite Ed, Em. done.
Qed.

(** What the sending goroutine publishes for a broadcast. *)
Lemma sendRound_broadcast sender now channel buff topic c sd sender' pub :
  BroadcastOnChannelBlocking sender channel topic buff = Ret (Ok (c, sd), sender') ->
  sendRound sender' now (Some sd) = Some pub ->
  checkSendableData buff = None /\ topics (reg sender) !! topic = Some (pub_topic pub) /\
  pub_data pub = createMessageBytes sender now buff.
Proof.
  intros Eb Es. unfold BroadcastOnChannelBlocking, startBroadcast in Eb. cbn [Buff] in Eb.
  destruct (checkSendableData buff) eqn:Hb; [done|]. destruct (th_CanProcess _); [|done]. cbn [negb] in Eb.
  destruct (GetChannelOrDefault _ _); [|done]. injection Eb as <- <- <-.
  unfold sendRound in Es. cbn [Topic Buff set_throttler reg] in Es.
  destruct (topics (reg sender) !! topic) as [t|]; [|done].
  change (createMessageBytes _ now buff) with (createMessageBytes sender now buff) in Es.
  destruct (_ =? 0); [done|]. by injection Es as <-.
Qed.

(** [C7] A broadcast reaches the processors.  What a node publishes for a
    broadcast of [buff], received within the accepted time by a node with the
    same marshaller and processors on the topic, is accepted, and every
    processor is called once with a message of the topic whose data is [buff]
    and whose timestamp is the time of sending. *)
Theorem broadcast_delivered sender receiver now now' channel buff topic c sd sender' pub pid pbMsg id :
  clock now -> clock now' ->
  BroadcastOnChannelBlocking sender channel topic buff = Ret (Ok (c, sd), sender') ->
  sendRound sender' now (Some sd) = Some pub ->
  pb_Topic pbMsg = Some topic -> pb_Data pbMsg = Some (pub_data pub) -> from_peer pbMsg id ->
  marshalizer receiver = marshalizer sender -> in_window now' (Unix now) ->
  wf (reg receiver) -> registered (reg receiver) topic ≠ ∅ ->
  topics (reg sender) !! topic = Some (pub_topic pub) /\
  exists msg,
    DataField msg = buff /\ TopicField msg = topic /\ PeerField msg = id /\ TimestampField msg = Unix now /\
    (pubsubValidate receiver now' topic pid pbMsg).1.2 ≡ₚ all_calls (registered (reg receiver) topic) msg pid.
Proof.
  intros Hc Hc' Eb Es Et Ed Hid Em Hw Hwf Hne.
  destruct (sendRound_broadcast sender now channel buff topic c sd sender' pub Eb Es) as (Hb & Ht & Epub).
  rewrite Epub in Ed. split; [done|].
  destruct (carried_accepted sender receiver now now' buff topic pbMsg id) as (msg & Ha & ? & ? & ? & ?); try done.
  exists msg. split_and!; [done..|].
  destruct (pubsubValidate_eq receiver now' topic pid pbMsg Hwf Hne) as (tp & Etp & ->). rewrite <- Etp.
  pose proof (pubsubCallback_accepted receiver now' tp topic pid pbMsg msg Hc' Ha) as Hcb.
  destruct (pubsubCallback _ _ _ _ _ _ _ _) as [[ok calls] nm]. apply Hcb.
Qed.

(** ** Direct messages *)

Lemma runTask_calls netMes t :
  (runTask ProcessReceivedMessage netMes t).1 =
  (fun '(identifier, h) => mkCall identifier h (task_msg t) (task_from t)) <$> task_handlers t.
Proof. unfold runTask. by rewrite callHandlers_spec. Qed.

(** The goroutine [t] hands [msg] to every processor of [topic]. *)
Definition delivers netMes (t : task A) topic msg pid : Prop :=
  forall nm : networkMessenger A X SecretKey R P W D G M Th N,
    (runTask ProcessReceivedMessage nm t).1 ≡ₚ all_calls (registered (reg netMes) topic) msg pid.

Lemma directMessageHandler_accepted netMes now pbMsg topic from msg :
  clock now -> wf (reg netMes) -> registered (reg netMes) topic ≠ ∅ ->
  accepts netMes now pbMsg msg -> TopicField msg = topic ->
  exists t, directMessageHandler netMes now pbMsg from = Ret (None, set_spawned (spawned netMes ++ [t]) netMes) /\
            delivers netMes t topic msg from.
Proof.
  intros Hc Hwf Hne [Hm Hw] <-. unfold Messenger.directMessageHandler.
  destruct (NewMessage_Ok_inv _ _ _ _ Hm) as (-> & _).
  rewrite (proj2 (transformAndCheckMessage_Ok netMes now pbMsg from (TopicField msg) msg netMes Hc)) by done.
  destruct (proj1 (registered_nonempty _ _ Hwf) Hne) as [loc El].
  destruct (wf_heap _ Hwf _ _ El) as (tp & Etp & _). rewrite El, Etp.
  eexists. split; [done|]. intros nm. rewrite runTask_calls. cbn [task_msg task_from task_handlers].
  unfold all_calls, registered. by rewrite El, Etp, handlersOf_perm.
Qed.

Context {T C S : Type} `{TimeCacheLaws T} `{CacherLaws C} `{SignerVerifier S}.
Context (pb_Marshal : pb_Message -> result bytes) (SignPrefix : bytes).
Implicit Types ds : directSender T C S.

(** [directMessageHandler] as the message handler of the direct sender, which
    calls it on messages that have a topic. *)
Definition messageHandler (now : Z) netMes (message : pb_Message) pid : option error * _ :=
  match directMessageHandler netMes now message pid with
  | Ret r => r
  | Panic => (Some (ErrText "panic"), netMes)
  end.

(** A direct message reaches the processors.  What [SendToConnectedPeer] of a
    node writes for [buff] on a connection, read within the accepted time by a
    node with the same marshaller and processors on the topic that did not see
    it before and whose signer verifies the signatures of the sender, is
    accepted; it leaves a goroutine that calls every processor of the topic once
    with a message from the sender whose data is [buff]. *)
Theorem direct_message_processed sender receiver now now' buff topic conn pbMsg ds ds' (rds : directSender T C S) :
  clock now -> clock now' -> checkSendableData buff = None ->
  createMessage pb_Marshal SignPrefix ds topic (createMessageBytes sender now buff) conn = (Ok pbMsg, ds') ->
  (forall b sig, sv_Sign (signer ds) b = Ok sig -> sv_Verify (signer rds) b (LocalPeer conn) sig = None) ->
  tc_Has (seenMessages rds) now' (msgId pbMsg) = false ->
  marshalizer receiver = marshalizer sender -> from_peer pbMsg (LocalPeer conn) -> in_window now' (Unix now) ->
  wf (reg receiver) -> registered (reg receiver) topic ≠ ∅ ->
  exists rds' t msg,
    processReceivedDirectMessage (messageHandler now') pb_Marshal SignPrefix rds receiver now' (Some pbMsg) (LocalPeer conn)
      = (None, rds', set_spawned (spawned receiver ++ [t]) receiver) /\
    DataField msg = buff /\ TopicField msg = topic /\ PeerField msg = LocalPeer conn /\
    delivers receiver t topic msg (LocalPeer conn).
Proof.
  intros Hc Hc' Hb Ec Hsig Hseen Em Hid Hw Hwf Hne.
  destruct (process_created (messageHandler now') pb_Marshal SignPrefix ds topic _ conn pbMsg ds' rds receiver now'
    Hsig Ec Hseen) as (Et & Ed & ->).
  destruct (carried_accepted sender receiver now now' buff topic pbMsg (LocalPeer conn)) as (msg & Ha & E1 & E2 & E3 & _);
    [done..|].
  destruct (directMessageHandler_accepted receiver now' pbMsg topic (LocalPeer conn) msg) as (t & Eh & Hd); [done..|].
  unfold messageHandler. rewrite Eh. eexists _, t, msg. split_and!; done.
Qed.

(** A node delivers the messages it sends to itself: [SendToConnectedPeer] with
    its own identifier succeeds, writes nothing to the network and leaves a
    goroutine that calls every processor of the topic once with the buffer. *)
Theorem message_to_self_processed netMes ds now net topic buff :
  clock now -> checkSendableData buff = None -> createMessageBytes netMes now buff ≠ [] ->
  peer_IDFromBytes (bytes_of_string (self netMes)) = Ok (self netMes) ->
  wf (reg netMes) -> registered (reg netMes) topic ≠ ∅ ->
  exists ds' t msg,
    SendToConnectedPeer peer_IDFromBytes pb_Marshal SignPrefix netMes ds now net topic buff (self netMes)
      = Ret (None, ds', set_spawned (spawned netMes ++ [t]) netMes, []) /\
    DataField msg = buff /\ TopicField msg = topic /\ PeerField msg = self netMes /\
    delivers netMes t topic msg (self netMes).
Proof.
  intros Hc Hb Hnil Hid Hwf Hne. unfold SendToConnectedPeer, sendDirectToSelf. rewrite Hb.
  destruct (Z.eqb_spec (len (createMessageBytes netMes now buff)) 0) as [E0|_].
  { by destruct (createMessageBytes netMes now buff). }
  rewrite decide_True by done. destruct (NextSequenceNumber ds) as [seqno ds'].
  set (pbMsg := mkPb _ _ _ _ _ _).
  destruct (carried_accepted netMes netMes now now buff topic pbMsg (self netMes)) as (msg & Ha & E1 & E2 & E3 & _);
    try done.
  { unfold in_window. lia. }
  destruct (directMessageHandler_accepted netMes now pbMsg topic (self netMes) msg) as (t & Eh & Hd); [done..|].
  rewrite Eh. exists ds', t, msg. by split_and!.
Qed.

End RoundTrip.

(** ** Blacklisting *)

Section Blacklist.

Context `{!PeerDenialLaws D}.

Lemma blacklistPid_custom netMes pid d duration :
  denialEvaluator netMes = CustomEvaluator d -> 0 < duration ->
  exists d', denialEvaluator (blacklistPid netMes pid duration) = CustomEvaluator d' /\
    (pid ≠ "" -> pde_IsDenied d' pid = true) /\
    (forall p, pde_IsDenied d p = true -> pde_IsDenied d' p = true).
Proof.
  intros Ed Hd. unfold blacklistPid. rewrite Ed. cbn [pde_IsDenied evaluator_PeerDenialEvaluator].
  destruct (pde_IsDenied d pid) eqn:Hp; [by exists d|].
  destruct (decide (pid = "")) as [->|Hne]; [by exists d|]. cbn [pde_UpsertPeerID evaluator_PeerDenialEvaluator].
  pose proof (Upsert_denies d pid duration Hne Hd) as Hden.
  pose proof (fun p => Upsert_keeps d pid duration p) as Hk.
  destruct (pde_UpsertPeerID d pid duration) as [err d']. cbn in Hden, Hk. exists d'. split; [reflexivity|]. split; [intros _; exact Hden | exact Hk].
Qed.

(** A peer that sends a message the node cannot decode is cut off, and so is
    the peer named as the origin of the message: once a denial evaluator is set,
    after such a message the connection monitor closes every new connection of
    the two peers and, at its next check, the connections they have. *)
Theorem undecodable_peers_denied netMes now pbMsg topic pid err d Pretty (NewKnownConnection : W -> PeerID -> string -> W) :
  denialEvaluator netMes = CustomEvaluator d ->
  NewMessage (Some pbMsg) (Some (marshalizer netMes)) = Err err ->
  let '(r, netMes') := transformAndCheckMessage netMes now pbMsg pid topic in
  r = Err err /\
  forall p, p ≠ "" -> p = pid \/ bytes_of_string p = get_bytes (pb_From pbMsg) ->
    (forall peers conn, RemotePeer conn = p ->
       wrapper_Connected Pretty NewKnownConnection (connMonitor netMes') peers conn
         = (connMonitor netMes', [CloseConn conn])) /\
    (forall peers, p ∈ peers -> ClosePeer p ∈ CheckConnectionsBlocking (connMonitor netMes') peers).
Proof.
  intros Ed En. unfold Messenger.transformAndCheckMessage. rewrite En. split; [done|].
  destruct (blacklistPid_custom netMes pid d WrongP2PMessageBlacklistDuration Ed eq_refl) as (d1 & E1 & H1' & K1).
  destruct (blacklistPid_custom _ (string_of_bytes (get_bytes (pb_From pbMsg))) d1
    WrongP2PMessageBlacklistDuration E1 eq_refl) as (d2 & E2 & H2' & K2).
  intros p Hne Hp. set (nm := blacklistPid (blacklistPid _ _ _) _ _) in *.
  assert (pde_IsDenied (denialEvaluator nm) p = true) as Hden.
  { rewrite E2. cbn. destruct Hp as [->|Hp]; [by apply K2, H1'|].
    rewrite <- Hp, string_of_bytes_of_string in H2'. by apply H2'. }
  unfold denialEvaluator in Hden. split.
  - intros peers conn <-. unfold wrapper_Connected. by rewrite Hden.
  - intros peers Hin. unfold CheckConnectionsBlocking. apply list_elem_of_fmap. exists p. split; [done|].
    by apply list_elem_of_filter.
Qed.

End Blacklist.

End Correctness.

(** A node built from the components of the repository, with two processors on
    the topic [blocks]; the processor 13 fails. *)
Module Witness.

#[local] Instance rating : PeersRatingHandler (Rating.peersRatingHandler LruCache.t LruCache.t) :=
  Rating.peersRatingHandler_PeersRatingHandler id false.
#[local] Instance holder : PreferredPeersHolderHandler PeersHolder.peersHolder :=
  ConnMonitor.peersHolder_PreferredPeersHolder 4294967280.
#[local] Instance denial : PeerDenialEvaluator (gset string) := {
  pde_IsDenied d pid := bool_decide (pid ∈ d);
  pde_UpsertPeerID d pid _ := (None, {[pid]} ∪ d)
}.
#[local] Instance denial_laws : PeerDenialLaws (gset string).
Proof.
  constructor; cbn.
  - intros. apply bool_decide_eq_true. set_solver.
  - intros d pid _ pid' H%bool_decide_eq_true. apply bool_decide_eq_true. set_solver.
Defined.
#[local] Instance counter : Throttler nat := {
  th_CanProcess n := (n <? 1000)%nat; th_StartProcessing := S; th_EndProcessing := pred
}.

Definition process (h : nat) (m : Message) (p : PeerID) : option error :=
  if decide (h = 13%nat) then Some (ErrText "failed") else None.
Definition ids (b : bytes) : result PeerID := Ok (string_of_bytes b).

Abbreviation node := (networkMessenger nat MapPubSub.t bytes (Rating.peersRatingHandler LruCache.t LruCache.t)
  PeersHolder.peersHolder nat (gset string) Debugger.p2pDebugger unit nat string).

Definition topics0 : topicsState nat MapPubSub.t (SendableData bytes) :=
  run_ops (newTopics MapPubSub.empty)
    [OpCreate "blocks" true; OpRegister "blocks" "first" (Some 1%nat); OpRegister "blocks" "second" (Some 2%nat)].

Definition new_node (me : PeerID) : node :=
  mk me topics0
    (PeersOnChannel.mk (Rating.mk (LruCache.empty 4) (LruCache.empty 4)) ∅ ∅ 3 10 false)
    0%nat (Debugger.NewP2PDebugger me true) tt
    (mkWrapper (ConnMonitor.Witness.lcms0) (CustomEvaluator ∅))
    unknownPeerShardResolver_GetPeerInfo [] [].

Definition alice : node := new_node "alice".
Definition bob : node := new_node "bob".
Definition now : Z := 1700000000 * second.

Lemma topics0_wf : wf topics0.
Proof. apply run_ops_refines, wf_newTopics; reflexivity. Qed.
Lemma now_clock : clock now.
Proof. unfold clock, now, second. lia. Qed.

(** A topic message with payload [a], sent a second before. *)
Definition pb0 : pb_Message :=
  mkPb (Some (bytes_of_string "alice")) (Some (createMessageBytes alice (now - second) [x61])) (Some [x01])
    (Some "blocks") None None.
Definition msg0 : Message :=
  mkMessage (Some (bytes_of_string "alice")) [x61] (pb_Data pb0) (Some [x01]) "blocks" None None "alice" 1699999999.

Lemma accepts0 : accepts ids bob now pb0 msg0.
Proof. split; [vm_compute; reflexivity | unfold in_window; vm_compute; split; discriminate]. Qed.

Lemma message_acceptance_witness :
  transformAndCheckMessage ids bob now pb0 "carol" "blocks" = (Ok msg0, bob).
Proof. apply (message_acceptance ids bob now pb0 "carol" "blocks" msg0 bob now_clock). split; [exact accepts0 | reflexivity]. Defined.

Lemma registered0 : registered (reg bob) "blocks" ≠ ∅.
Proof. intros E. apply (f_equal (fun m => m !! "first")) in E. vm_compute in E. discriminate. Qed.

Lemma pubsub_reception_witness :
  (pubsubValidate process ids bob now "blocks" "carol" pb0).1.2 ≡ₚ
  all_calls (registered (reg bob) "blocks") msg0 "carol".
Proof.
  pose proof (pubsub_reception process ids bob now "blocks" "carol" pb0 now_clock topics0_wf registered0) as P.
  destruct (pubsubValidate process ids bob now "blocks" "carol" pb0) as [[ok calls] nm].
  destruct P as (_ & P & _). exact (P msg0 accepts0).
Defined.

Lemma broadcast : exists c sd alice',
  BroadcastOnChannelBlocking alice "blocks" "blocks" [x61] = Ret (Ok (c, sd), alice') /\
  sendRound alice' (now - second) (Some sd) = Some (mkPublication 0%nat (get_bytes (pb_Data pb0)) None).
Proof. eexists _, _, _. split; [reflexivity | vm_compute; reflexivity]. Qed.

Lemma broadcast_delivered_witness : exists msg,
  DataField msg = [x61] /\
  (pubsubValidate process ids bob now "blocks" "carol" pb0).1.2 ≡ₚ all_calls (registered (reg bob) "blocks") msg "carol".
Proof.
  destruct broadcast as (c & sd & alice' & Eb & Es).
  assert (clock (now - second)) as Hc by (unfold clock, now, second; lia).
  destruct (broadcast_delivered process ids alice bob (now - second) now "blocks" [x61] "blocks" c sd alice' _
    "carol" pb0 "alice" Hc now_clock Eb Es eq_refl eq_refl eq_refl eq_refl ltac:(apply accepts0) topics0_wf registered0)
    as (_ & msg & Ed & _ & _ & _ & P).
  exists msg. split; [exact Ed | exact P].
Defined.

#[local] Instance echo : SignerVerifier unit := DirectSender.Witness.echo_signer.
Abbreviation enc := DirectSender.Witness.enc.
Abbreviation ds0 := DirectSender.Witness.ds0.
Abbreviation conn1 := DirectSender.Witness.conn1.
Definition created := createMessage enc [] ds0 "blocks" (createMessageBytes alice (now - second) [x61]) conn1.
Definition pb1 : pb_Message := match created.1 with Ok m => m | Err _ => pb0 end.

Lemma created_ok : created = (Ok pb1, DirectSender.set_counter 42 ds0).
Proof. vm_compute. reflexivity. Qed.
Lemma pb1_new : tc_Has (seenMessages ds0) now (msgId pb1) = false.
Proof. vm_compute. reflexivity. Qed.
Lemma pb1_from : from_peer ids pb1 (LocalPeer conn1).
Proof. vm_compute. reflexivity. Qed.

Lemma direct_message_processed_witness : exists rds' t msg,
  processReceivedDirectMessage (messageHandler ids now) enc [] ds0 bob now (Some pb1) "alice"
    = (None, rds', set_spawned [t] bob) /\
  DataField msg = [x61] /\ delivers process bob t "blocks" msg "alice".
Proof.
  assert (clock (now - second)) as Hc by (unfold clock, now, second; lia).
  destruct (direct_message_processed process ids enc [] alice bob (now - second) now [x61] "blocks" conn1 pb1
    ds0 (DirectSender.set_counter 42 ds0) ds0 Hc now_clock eq_refl created_ok
    (fun b sig => DirectSender.Witness.echo_ok b sig _) pb1_new eq_refl pb1_from (proj2 accepts0) topics0_wf registered0) as (rds' & t & msg & E & Ed & _ & _ & D).
  exists rds', t, msg. split; [exact E|]. split; [exact Ed | exact D].
Defined.

Lemma bytes_nonempty : createMessageBytes bob now [x61] ≠ [].
Proof. vm_compute. discriminate. Qed.

Lemma message_to_self_processed_witness : exists ds' t msg,
  SendToConnectedPeer ids enc [] bob ds0 now DirectSender.Witness.net "blocks" [x61] "bob"
    = Ret (None, ds', set_spawned [t] bob, []) /\
  DataField msg = [x61] /\ delivers process bob t "blocks" msg "bob".
Proof.
  destruct (message_to_self_processed process ids enc [] bob ds0 now DirectSender.Witness.net "blocks" [x61]
    now_clock eq_refl bytes_nonempty eq_refl topics0_wf registered0) as (ds' & t & msg & E & Ed & _ & _ & D).
  exists ds', t, msg. split; [exact E|]. split; [exact Ed | exact D].
Defined.

(** Data that is no topic message, relayed by carol. *)
Definition pb2 : pb_Message := mkPb (Some (bytes_of_string "mallory")) (Some [xff]) None (Some "blocks") None None.

Lemma pb2_fails : exists err, NewMessage ids (Some pb2) (Some tt) = Err err.
Proof. eexists. vm_compute. reflexivity. Qed.

Lemma undecodable_peers_denied_witness :
  CheckConnectionsBlocking (connMonitor (transformAndCheckMessage ids bob now pb2 "carol" "blocks").2) ["alice"; "carol"]
    = [ClosePeer "carol"] /\
  forall p, p ∈ ["carol"; "mallory"] ->
    ClosePeer p ∈ CheckConnectionsBlocking
      (connMonitor (transformAndCheckMessage ids bob now pb2 "carol" "blocks").2) ["carol"; "mallory"].
Proof.
  split; [vm_compute; reflexivity|].
  destruct pb2_fails as [err Ef].
  pose proof (undecodable_peers_denied ids bob now pb2 "blocks" "carol" err ∅ id ConnMonitor.Witness.watch
    eq_refl Ef) as P.
  destruct (transformAndCheckMessage ids bob now pb2 "carol" "blocks") as [r nm]. destruct P as [_ P].
  intros p Hp. refine (proj2 (P p _ _) _ Hp).
  - intros ->. apply elem_of_cons in Hp as [[=]|[[=]|Hp%elem_of_nil]%elem_of_cons]. done.
  - apply elem_of_cons in Hp as [->|[->|Hp%elem_of_nil]%elem_of_cons]; [by left | by right | done].
Defined.

End Witness.
