(* ===== verification/DirectMessages.v ===== *)
(** * DirectMessages: direct messages from [SendToConnectedPeer] to the processors

    [SendToConnectedPeer] ([libp2p/netMessenger.go]) wraps what a client sends and
    calls [Send] of the direct sender; the direct sender of the peer hands what it
    reads to [directMessageHandler], which calls the processors of the topic in a
    goroutine.  Theorem: with many clients and many streams at once, what a processor
    gets in the name of a node over its streams is what one call of a client of that
    node sent, and one call is processed at most once. *)

From S2P Require Import Prelude Errors Config Interfaces Cacher MutexHolder Wire TopicMessage Message.
From S2P Require Import Rating PeersHolder TopicProcessors LoadBalancer PeersOnChannel DirectSender.
From S2P Require Import DirectSends DirectReceives DirectDelivery.
From S2P Require Import Distances Sharding Debugger ConnMonitor Topics Messenger.
From Stdlib Require Import ZArith Lia String Sorted Strings.Byte.
From stdpp Require Import prelude gmap list strings pretty sorting.

Local Open Scope Z_scope.

Section DirectMessages.

Context `{MapRange} `{SortSort}.
Context {A X SecretKey R P W D G M Th No T C N : Type}.
Context `{PubSub X} `{PeersRatingHandler R} `{PreferredPeersHolderHandler P} `{PeerDenialEvaluator D}.
Context `{Debugger G} `{Marshalizer M} `{!MarshalizerLaws M} `{Throttler Th}.
Context `{TimeCacheLaws T} `{CacherLaws C} `{!CacherRoom C} `{SignerVerifier N}.
Context (ProcessReceivedMessage : A -> Message -> PeerID -> option error).
Context (peer_IDFromBytes : bytes -> result PeerID).
Context (pb_Marshal : pb_Message -> result bytes) (SignPrefix : bytes).
Context (alice bob : PeerID) (out : nat -> stream).

Abbreviation messenger := (networkMessenger A X SecretKey R P W D G M Th No).
Implicit Types (sender receiver : messenger) (dsA dsB : directSender T C N).
Implicit Types (sent : DirectSends.state T C N) (received : DirectReceives.state T C N).

(** What the client of call [k] gave to [SendToConnectedPeer], and when. *)
Context (client : nat -> Z * bytes).

(** Every call for [bob] is made by [SendToConnectedPeer]. *)
Definition from_clients sender sent : Prop :=
  forall k r ph, calls sent !! k = Some (r, ph) -> req_peer r = bob ->
    clock (client k).1 /\ checkSendableData (client k).2 = None /\
    req_buff r = createMessageBytes sender (client k).1 (client k).2.

(** The request that [SendToConnectedPeer] makes of the direct sender. *)
Lemma SendToConnectedPeer_Send sender dsA now net topic buff peer :
  checkSendableData buff = None -> createMessageBytes sender now buff ≠ [] -> peer ≠ self sender ->
  exists sender' : option error -> messenger,
    SendToConnectedPeer peer_IDFromBytes pb_Marshal SignPrefix sender dsA now net topic buff peer =
    (let '(err, ds', events) := Send pb_Marshal SignPrefix dsA net topic (createMessageBytes sender now buff) peer in
     Ret (err, ds', sender' err, events)) /\
    forall err, marshalizer (sender' err) = marshalizer sender.
Proof.
  intros Hb Hne Hp. unfold SendToConnectedPeer. rewrite Hb.
  destruct (Z.eqb_spec (len (createMessageBytes sender now buff)) 0) as [E|_].
  { by destruct (createMessageBytes sender now buff). }
  rewrite decide_False by done. destruct (Send _ _ _ _ _ _ _) as [[err ds'] evs].
  eexists (fun err => set_debugger _ sender). split; [reflexivity|]. done.
Qed.

(** [C5] Direct messages, from client to processors.  However many clients of [alice]
    call [SendToConnectedPeer] for [bob] at once and however many streams [bob] reads at
    once: every message that is handed over in the name of [alice] is that of one call
    of a client, and of no other handed over; and when [bob]'s messenger, with the
    marshaller of [alice] and processors on the topic, handles it within the accepted
    time, it accepts it and leaves a goroutine that calls every processor of the topic
    once with a message from [alice] whose data is what the client gave. *)
Theorem direct_messages_processed dsA dsB t0 sent received sender i g a m :
  delivery pb_Marshal SignPrefix alice bob out dsA dsB t0 sent received -> from_clients sender sent ->
  goroutines received !! i = Some g -> remote g = alice -> handed_of received i !! a = Some m ->
  exists k r, message_of_call alice bob out sent received i a m k r /\
    forall receiver now,
      clock now -> in_window now (Unix (client k).1) -> marshalizer receiver = marshalizer sender ->
      peer_IDFromBytes (bytes_of_string alice) = Ok alice ->
      wf (reg receiver) -> registered (reg receiver) (req_topic r) ≠ ∅ ->
      exists t msg,
        directMessageHandler peer_IDFromBytes receiver now m alice
          = Ret (None, set_spawned (spawned receiver ++ [t]) receiver) /\
        DataField msg = (client k).2 /\ TopicField msg = req_topic r /\ PeerField msg = alice /\
        delivers ProcessReceivedMessage receiver t (req_topic r) msg alice.
Proof.
  intros Dl Hcl Hi Hg Ha. destruct (handed_message _ _ _ _ _ _ _ _ _ _ Dl i g a m Hi Hg Ha) as (k & r & Hm).
  exists k, r. split; [done|]. destruct Hm as ([ph Hk] & Hb & Et & Ed & Ef & _).
  destruct (Hcl k r ph Hk Hb) as (Hc & Hs & Er). intros receiver now Hn Hw Em Hid Hwf Hne.
  destruct (carried_accepted peer_IDFromBytes sender receiver (client k).1 now (client k).2 (req_topic r) m alice)
    as (msg & Hacc & E1 & E2 & E3 & _); [done..| |by unfold from_peer; rewrite Ef|done|].
  { split; [done | by rewrite Ed, Er]. }
  destruct (directMessageHandler_accepted ProcessReceivedMessage peer_IDFromBytes receiver now m (req_topic r) alice msg)
    as (t & Eh & Hd); [done..|].
  exists t, msg. by split_and!.
Qed.

End DirectMessages.

(** A client of alice sends to bob on the topic [blocks]. *)
Module Witness.

#[local] Existing Instance DirectSender.Witness.echo_signer.
#[local] Existing Instance Messenger.Witness.rating.
#[local] Existing Instance Messenger.Witness.holder.
#[local] Existing Instance Messenger.Witness.denial.
#[local] Existing Instance Messenger.Witness.counter.
Abbreviation enc := DirectSender.Witness.enc.
Abbreviation ds0 := DirectSender.Witness.ds0.
Abbreviation net := DirectSender.Witness.net.
Abbreviation open_stream := DirectSender.Witness.open_stream.
Import Messenger.Witness.

Definition sent_at : Z := now - second.
Definition wanted : request := mkRequest "blocks" (createMessageBytes alice sent_at [x61]) "bob".
Definition client1 (k : nat) : Z * bytes := (sent_at, [x61]).

Definition sending1 : list DirectSends.Witness.action :=
  DirectSends.Witness.Begin wanted :: replicate 8 (DirectSends.Witness.Go 0).
Definition sent1 : DirectSends.state SweepCache.t LruCache.t unit :=
  default (DirectSends.start ds0) (DirectSends.Witness.exec (DirectSends.start ds0) sending1).
Definition written1 : list pb_Message := written_on sent1 "bob" open_stream.

Definition reading1 : list DirectReceives.Witness.action :=
  DirectReceives.Witness.Open open_stream "alice" ::
  (written1 ≫= fun m => DirectReceives.Witness.Go 0 (ReadMsg 0 m) :: replicate 3 (DirectReceives.Witness.Go 0 ReadEOF)).
Definition received1 : DirectReceives.state SweepCache.t LruCache.t unit :=
  default (DirectReceives.start ds0 5) (DirectReceives.Witness.exec (DirectReceives.start ds0 5) reading1).

Lemma client_sent : DirectSends.reach enc [] (DirectSends.start ds0) sent1.
Proof.
  eapply DirectSends.Witness.exec_reach; [apply DirectSends.reach_start|]. unfold sent1.
  destruct (DirectSends.Witness.exec (DirectSends.start ds0) sending1) eqn:E; [exact E | vm_compute in E; discriminate E].
Qed.

Lemma client_received : DirectReceives.reach enc [] (DirectReceives.start ds0 5) received1.
Proof.
  eapply DirectReceives.Witness.exec_readers_reach; [apply DirectReceives.reach_start|]. unfold received1.
  destruct (DirectReceives.Witness.exec (DirectReceives.start ds0 5) reading1) eqn:E; [exact E | vm_compute in E; discriminate E].
Qed.

Lemma client_run : DirectDelivery.run enc [] ds0 sent1.
Proof.
  constructor; [vm_compute; discriminate | exact DirectSends.Witness.ds0_fresh | exact client_sent | | vm_compute; reflexivity].
  apply Nat.leb_le. vm_compute. reflexivity.
Qed.

Lemma goroutines1 : goroutines received1 = [mkGoroutine open_stream "alice" Reading].
Proof. vm_compute. reflexivity. Qed.

Lemma client_linked : linked "alice" "bob" (fun _ => open_stream) sent1 received1.
Proof.
  assert (forall i g, goroutines received1 !! i = Some g -> i = 0%nat) as H0.
  { intros i g. rewrite goroutines1. by destruct i. }
  constructor.
  - intros i g Hi _. rewrite (H0 i g Hi). exists []. vm_compute. reflexivity.
  - intros i j gi gj Hi _ Hj _ _. by rewrite (H0 i gi Hi), (H0 j gj Hj).
  - assert (Forall (fun w => pb_From w.2 = Some (bytes_of_string "alice")) (writes (events_to sent1 "bob"))) as F
      by (vm_compute; repeat constructor).
    intros k st msg Hin. rewrite Forall_forall in F. apply (F (st, msg)). apply list_elem_of_omap.
    by exists (k, Written st msg).
Qed.

Lemma client_delivery : delivery enc [] "alice" "bob" (fun _ => open_stream) ds0 ds0 5 sent1 received1.
Proof.
  constructor; [exact client_run | exact (fun k => lookup_empty k) | exact client_received | | exact client_linked
    | exact (fun b sig => DirectSender.Witness.echo_ok b sig _)].
  intros i g. rewrite goroutines1. destruct i; [by intros [= <-] | done].
Qed.

Lemma clients1 : from_clients "bob" client1 alice sent1.
Proof.
  intros k r ph Hk _. assert (calls sent1 = [(wanted, Returned None)]) as E by (vm_compute; reflexivity).
  rewrite E in Hk. apply list_lookup_singleton_Some in Hk as [_ Er]. apply (f_equal fst) in Er. cbn [fst] in Er. subst r. split; [|split; reflexivity].
  change (clock (now - second)). unfold clock, now, second. lia.
Qed.

Lemma direct_messages_processed_witness : exists m t msg,
  handed_of received1 0 = [m] /\
  Messenger.directMessageHandler ids bob now m "alice" = Ret (None, set_spawned [t] bob) /\
  DataField msg = [x61] /\ delivers process bob t "blocks" msg "alice".
Proof.
  assert (exists m, handed_of received1 0 = [m]) as [m Em] by (eexists; vm_compute; reflexivity).
  assert (handed_of received1 0 !! 0%nat = Some m) as Ha by (by rewrite Em).
  destruct (direct_messages_processed process ids enc [] "alice" "bob" (fun _ => open_stream) client1 ds0 ds0 5 sent1 received1
    alice 0 (mkGoroutine open_stream "alice" Reading) 0 m client_delivery clients1 ltac:(vm_compute; reflexivity) eq_refl Ha)
    as (k & r & ([ph Hk] & _) & Hp).
  assert (calls sent1 = [(wanted, Returned None)]) as E by (vm_compute; reflexivity).
  rewrite E in Hk. apply list_lookup_singleton_Some in Hk as [_ Er]. apply (f_equal fst) in Er. cbn [fst] in Er. subst r.
  destruct (Hp bob now now_clock ltac:(unfold in_window; vm_compute; split; discriminate) eq_refl eq_refl topics0_wf registered0)
    as (t & msg & P1 & P2 & _ & _ & P3).
  exists m, t, msg. split_and!; [exact Em | exact P1 | exact P2 | exact P3].
Defined.

End Witness.
