(* ===== verification/SendLoop.v ===== *)
(** * SendLoop: the clients and the goroutine behind a broadcast ([libp2p/netMessenger.go])

    [BroadcastOnChannelBlocking] holds no mutex: asking the throttler, starting,
    sending on the channel and ending are separate steps of each client.  The
    goroutine that [createPubSub] starts waits, collects an object from the load
    balancer and publishes it.  Both run against the step relation of
    [LoadBalancer]. *)

From S2P Require Import Prelude Errors Config Interfaces Cacher Wire TopicMessage Message.
From S2P Require Import Rating PeersHolder TopicProcessors LoadBalancer PeersOnChannel.
From S2P Require Import Distances Sharding ConnMonitor Topics Messenger.
From Stdlib Require Import ZArith Lia String Strings.Byte.
From stdpp Require Import prelude gmap list strings.

Local Open Scope Z_scope.

(** [time.Microsecond * 10], in nanoseconds. *)
Definition durationBetweenSends : Z := 10 * 1000.

(** [throttler.NumGoRoutinesThrottler] counts, up to a maximum. *)
Class ThrottlerLaws (Th : Type) `{Throttler Th} : Type := {
  th_count : Th -> Z;
  th_max : Th -> Z;
  CanProcess_count t : th_CanProcess t = (th_count t <? th_max t);
  StartProcessing_count t : th_count (th_StartProcessing t) = th_count t + 1;
  StartProcessing_max t : th_max (th_StartProcessing t) = th_max t;
  EndProcessing_count t : th_count (th_EndProcessing t) = th_count t - 1;
  EndProcessing_max t : th_max (th_EndProcessing t) = th_max t
}.

Section SendLoop.

Context `{MapRange} `{SortSort}.
Context {A X SecretKey R P W D G M Th N : Type}.
Context `{PubSub X} `{PeersRatingHandler R} `{PreferredPeersHolderHandler P} `{PeerDenialEvaluator D}.
Context `{Debugger G} `{Marshalizer M} `{ThrottlerLaws Th}.

Abbreviation messenger := (networkMessenger A X SecretKey R P W D G M Th N).
Abbreviation sendable := (SendableData SecretKey).
Abbreviation balancer nm := (outgoingPLB (reg nm)).

(** A client of [BroadcastOnChannelBlocking]: [CanProcess] answered true; the
    throttler counts it and it waits for the channel; the channel took the
    object. *)
Inductive client : Type :=
| Entered (channel : string) (sd : sendable)
| Sending (c : nat) (sd : sendable)
| Sent.

(** The goroutine: before [time.After] fires, in [CollectOneElementFromChannels],
    after the end of the context. *)
Inductive goroutine : Type :=
| Waiting (since : Z)
| Collecting
| Ended.

Record state : Type := mk {
  nm : messenger;
  clients : list client;
  loop : goroutine;
  now : Z;
  (* what was published, with the time and the channel *)
  log : list (Z * nat * sendable * publication (SecretKey := SecretKey));
  (* what happened on the channels *)
  trace : list (event (SendableData := sendable))
}.

Implicit Types (s : state) (sd : sendable) (c : nat).

Definition set_balancer (w : world (SendableData := sendable)) (netMes : messenger) : messenger :=
  set_reg (set_outgoingPLB w (reg netMes)) netMes.

Definition internal (e : event (SendableData := sendable)) : bool :=
  match e with Call | Moved => true | _ => false end.

(** Other operations of the messenger. *)
Definition keeps_broadcast (a b : messenger) : Prop :=
  balancer b = balancer a /\ goRoutinesThrottler b = goRoutinesThrottler a.

(** The log after the goroutine took [obj] from channel [c]. *)
Definition publish_log s (t : Z) c (obj : option sendable) :=
  match obj, sendRound (nm s) t obj with
  | Some sd, Some pub => log s ++ [(t, c, sd, pub)]
  | _, _ => log s
  end.

Inductive step s : state -> Prop :=
| client_entered channel sd :
    checkSendableData (Buff sd) = None -> th_CanProcess (goRoutinesThrottler (nm s)) = true ->
    step s (mk (nm s) (clients s ++ [Entered channel sd]) (loop s) (now s) (log s) (trace s))
| client_starts l1 channel sd l2 c :
    clients s = l1 ++ Entered channel sd :: l2 -> GetChannelOrDefault (balancer (nm s)) channel = Some c ->
    step s (mk (set_throttler (th_StartProcessing (goRoutinesThrottler (nm s))) (nm s))
               (l1 ++ Sending c sd :: l2) (loop s) (now s) (log s) (trace s))
| client_sends l1 c sd l2 w :
    clients s = l1 ++ Sending c sd :: l2 -> LoadBalancer.step (balancer (nm s)) (LoadBalancer.Sent c sd) w ->
    step s (mk (set_balancer w (nm s)) (l1 ++ Sent :: l2) (loop s) (now s) (log s)
               (trace s ++ [LoadBalancer.Sent c sd]))
| client_ends l1 l2 :
    clients s = l1 ++ Sent :: l2 ->
    step s (mk (endBroadcast (nm s)) (l1 ++ l2) (loop s) (now s) (log s) (trace s))
| channels_move e w :
    internal e = true -> LoadBalancer.step (balancer (nm s)) e w ->
    step s (mk (set_balancer w (nm s)) (clients s) (loop s) (now s) (log s) (trace s ++ [e]))
| loop_wakes since t :
    loop s = Waiting since -> now s <= t -> since + durationBetweenSends <= t ->
    step s (mk (nm s) (clients s) Collecting t (log s) (trace s))
| loop_collects t c obj w :
    loop s = Collecting -> now s <= t -> LoadBalancer.step (balancer (nm s)) (Collected c obj) w ->
    step s (mk (set_balancer w (nm s)) (clients s) (Waiting t) t (publish_log s t c obj)
               (trace s ++ [Collected c obj]))
| loop_collects_nil t w :
    loop s = Collecting -> now s <= t -> LoadBalancer.step (balancer (nm s)) CollectedDone w ->
    step s (mk (set_balancer w (nm s)) (clients s) (Waiting t) t (log s) (trace s ++ [CollectedDone]))
| loop_ends since :
    loop s = Waiting since -> step s (mk (nm s) (clients s) Ended (now s) (log s) (trace s))
| messenger_changes nm' :
    keeps_broadcast (nm s) nm' -> step s (mk nm' (clients s) (loop s) (now s) (log s) (trace s))
| time_passes t : now s <= t -> step s (mk (nm s) (clients s) (loop s) t (log s) (trace s)).

Inductive reach (s0 : state) : state -> Prop :=
| reach_start : reach s0 s0
| reach_step s s' : reach s0 s -> step s s' -> reach s0 s'.

(** The state [createPubSub] leaves behind: the first wait begins. *)
Definition started s0 : Prop :=
  clients s0 = [] /\ log s0 = [] /\ trace s0 = [] /\ loop s0 = Waiting (now s0) /\
  balancer (nm s0) = NewOutgoingChannelLoadBalancer.

(** ** Order *)

Lemma trace_execution s0 s : started s0 -> reach s0 s -> execution (trace s) (balancer (nm s)).
Proof.
  intros (_ & _ & Et & _ & Eb). induction 1 as [|s s' _ IH Hs].
  - rewrite Et, Eb. constructor.
  - destruct Hs as [| |l1 c sd l2 w _ Hs| |e w _ Hs| |t c obj w _ _ Hs|t w _ _ Hs| |nm' [Hk _]|];
      try exact IH; try (by eapply run_snoc). cbn. by rewrite Hk.
Qed.

(** The objects of channel [c] that were published, in order. *)
Definition published_from c s : list sendable :=
  omap (fun '(_, c', sd, _) => if decide (c' = c) then Some sd else None) (log s).

Lemma published_collected s0 s c :
  started s0 -> reach s0 s -> published_from c s `sublist_of` collected_from c (trace s).
Proof.
  intros (_ & El & Et & _). induction 1 as [|s s' _ IH Hs]; [by rewrite Et; unfold published_from; rewrite El|].
  assert (forall e, internal e = true -> collected_from c (trace s ++ [e]) = collected_from c (trace s)) as Hi.
  { intros e He. unfold collected_from. rewrite omap_app. by destruct e; cbn; rewrite ?app_nil_r. }
  destruct Hs as [| |l1 c' sd l2 w _ Hs| |e w He Hs| |t c' obj w _ _ Hs|t w _ _ Hs| |nm' [Hk _]|];
    unfold published_from in *; cbn [log trace]; try exact IH.
  - unfold collected_from. rewrite omap_app. cbn. by rewrite app_nil_r.
  - by rewrite Hi.
  - unfold collected_from. rewrite omap_app. cbn. fold (collected_from c (trace s)). unfold publish_log.
    destruct obj as [sd|].
    + destruct (sendRound (nm s) t (Some sd)).
      * rewrite omap_app. cbn. case_decide; by apply sublist_app.
      * by apply sublist_inserts_r.
    + case_decide; by apply sublist_inserts_r.
  - unfold collected_from. rewrite omap_app. cbn. by rewrite app_nil_r.
Qed.

(** What is published is what [sendRound] makes of the object. *)
Lemma log_round s0 s t c sd pub :
  started s0 -> reach s0 s -> (t, c, sd, pub) ∈ log s ->
  exists netMes : messenger, sendRound netMes t (Some sd) = Some pub.
Proof.
  intros (_ & El & _). induction 1 as [|s s' _ IH Hs]; [rewrite El; set_solver|].
  destruct Hs as [| | | | | |t' c' obj w _ _ Hs| | | |]; cbn; try exact IH.
  unfold publish_log. destruct obj as [sd'|]; [|exact IH].
  destruct (sendRound (nm s) t' (Some sd')) as [pub'|] eqn:Er; [|exact IH].
  intros [Hin|[= -> -> -> ->]%list_elem_of_singleton]%elem_of_app; [by apply IH | by eexists].
Qed.

(** [C27] Broadcasts keep their order.  In every execution of the clients, the
    channels and the sending goroutine, the objects published from a channel
    are, in order and each at most once, objects that clients sent on that
    channel (some may be missing: those without topic, those not published yet);
    each is published as [sendRound] packs it. *)
Theorem publications_in_order s0 s c :
  started s0 -> reach s0 s ->
  published_from c s `sublist_of` sent_on c (trace s) /\
  forall t sd pub, (t, c, sd, pub) ∈ log s ->
    exists netMes : messenger, sendRound netMes t (Some sd) = Some pub.
Proof.
  intros Hst Hr. split.
  - rewrite <- (channel_fifo_of (trace s) (balancer (nm s)) c) by (by eapply trace_execution).
    apply sublist_inserts_r. by eapply published_collected.
  - intros t sd pub. by eapply log_round.
Qed.

(** ** Rate *)

(** The times of the log are spaced, and the goroutine will not publish too soon. *)
Record spaced s : Prop := {
  spaced_log i t1 t2 c1 c2 sd1 sd2 p1 p2 :
    log s !! i = Some (t1, c1, sd1, p1) -> log s !! S i = Some (t2, c2, sd2, p2) ->
    t1 + durationBetweenSends <= t2;
  spaced_loop t c sd p :
    last (log s) = Some (t, c, sd, p) ->
    match loop s with
    | Waiting since => t <= since
    | Collecting => t + durationBetweenSends <= now s
    | Ended => True
    end
}.

Lemma spaced_same s s' :
  spaced s -> log s' = log s -> loop s' = loop s -> now s <= now s' -> spaced s'.
Proof.
  intros [Hl Hp] E1 E2 E3. constructor; rewrite E1; [exact Hl|]. rewrite E2. intros t c sd p Hlast.
  specialize (Hp t c sd p Hlast). destruct (loop s); [done | lia | done].
Qed.

Lemma spaced_step s s' : spaced s -> step s s' -> spaced s'.
Proof.
  intros Hsp Hs. destruct Hs as [| | | | |since t Hw Hn Ht|t c obj w Hc Hn _|t w Hc Hn _|since Hw| |];
    try (apply (spaced_same s); cbn; done || lia).
  - destruct Hsp as [Hl Hp]. constructor; cbn; [exact Hl|]. intros t' c sd p Hlast.
    specialize (Hp t' c sd p Hlast). rewrite Hw in Hp. lia.
  - destruct Hsp as [Hl Hp]. rewrite Hc in Hp. unfold publish_log.
    assert (forall l, l = log s -> spaced (mk (set_balancer w (nm s)) (clients s) (Waiting t) t l
      (trace s ++ [Collected c obj]))) as Hsame.
    { intros l ->. constructor; cbn; [exact Hl|]. intros t' c' sd p Hlast.
      specialize (Hp t' c' sd p Hlast). unfold durationBetweenSends in Hp. lia. }
    destruct obj as [sd|]; [|by apply Hsame].
    destruct (sendRound (nm s) t (Some sd)) as [pub|]; [|by apply Hsame]. constructor; cbn.
    + intros i t1 t2 c1 c2 sd1 sd2 p1 p2 H1' H2'. apply lookup_app_Some in H2' as [H2'|[Hge H2']].
      * rewrite lookup_app_l in H1' by (apply lookup_lt_Some in H2'; lia). by eapply Hl.
      * apply list_lookup_singleton_Some in H2' as [Ei [= <- <- <- <-]].
        rewrite lookup_app_l in H1' by lia. specialize (Hp t1 c1 sd1 p1). rewrite last_lookup in Hp.
        replace (pred (length (log s))) with i in Hp by lia. specialize (Hp H1'). lia.
    + intros t' c' sd' p' Hlast. rewrite last_snoc in Hlast. injection Hlast as -> -> -> ->. lia.
  - destruct Hsp as [Hl Hp]. rewrite Hc in Hp. constructor; cbn; [exact Hl|]. intros t' c sd p Hlast.
    specialize (Hp t' c sd p Hlast). unfold durationBetweenSends in Hp. lia.
  - destruct Hsp as [Hl Hp]. constructor; cbn; [exact Hl | done].
Qed.

Lemma spaced_reach s0 s : started s0 -> reach s0 s -> spaced s.
Proof.
  intros (_ & El & _). induction 1 as [|s s' _ IH Hs]; [|by eapply spaced_step].
  constructor; rewrite El; done.
Qed.

(** [C15] The rate of publication.  In every execution two publications of a node that
    are [k] apart are at least [k] times ten microseconds apart, however many
    clients broadcast: a node publishes at most a hundred thousand messages in a
    second. *)
Theorem publication_rate s0 s i k t1 t2 c1 c2 sd1 sd2 p1 p2 :
  started s0 -> reach s0 s ->
  log s !! i = Some (t1, c1, sd1, p1) -> log s !! (i + k)%nat = Some (t2, c2, sd2, p2) ->
  t1 + Z.of_nat k * durationBetweenSends <= t2.
Proof.
  intros Hst Hr H1'. pose proof (spaced_reach s0 s Hst Hr) as [Hl _]. revert t2 c2 sd2 p2.
  induction k as [|k IH]; intros t2 c2 sd2 p2 H2'.
  - rewrite Nat.add_0_r in H2'. assert (t1 = t2) by congruence. lia.
  - rewrite Nat.add_succ_r in H2'.
    destruct (lookup_lt_is_Some_2 (log s) (i + k)) as [[[[t c] sd] p] Hm].
    { apply lookup_lt_Some in H2'. lia. }
    pose proof (IH _ _ _ _ Hm). pose proof (Hl _ _ _ _ _ _ _ _ _ Hm H2'). lia.
Qed.

(** ** The throttler *)

Definition counted (cl : client) : bool := match cl with Entered _ _ => false | _ => true end.
Definition in_progress (l : list client) : Z := Z.of_nat (length (filter (fun cl => counted cl) l)).

Lemma in_progress_app l1 l2 : in_progress (l1 ++ l2) = in_progress l1 + in_progress l2.
Proof. unfold in_progress. rewrite filter_app, length_app. lia. Qed.

Lemma in_progress_cons cl l :
  in_progress (cl :: l) = Z.b2z (counted cl) + in_progress l.
Proof.
  unfold in_progress. destruct cl; [rewrite filter_cons_False by (intros []) | rewrite filter_cons_True by done..];
    cbn [length counted Z.b2z]; lia.
Qed.

Ltac count_clients E :=
  match goal with IH : _ = _ + in_progress (clients _) |- _ =>
    rewrite E in IH; rewrite !in_progress_app, ?in_progress_cons in *; cbn [counted Z.b2z] in *; lia end.

Lemma throttler_count s0 s :
  started s0 -> reach s0 s ->
  th_count (goRoutinesThrottler (nm s)) = th_count (goRoutinesThrottler (nm s0)) + in_progress (clients s).
Proof.
  intros (Ec & _). induction 1 as [|s s' _ IH Hs]; [rewrite Ec; change (in_progress []) with 0; lia|].
  destruct Hs as [channel sd _ _|l1 channel sd l2 c E _|l1 c sd l2 w E _|l1 l2 E| | | | | |nm' [_ Hk]|];
    cbn [nm clients]; try exact IH.
  - rewrite in_progress_app, in_progress_cons. change (in_progress []) with 0. cbn [counted Z.b2z]. lia.
  - cbn [goRoutinesThrottler set_throttler]. rewrite StartProcessing_count. count_clients E.
  - cbn [goRoutinesThrottler set_balancer set_reg]. count_clients E.
  - cbn [goRoutinesThrottler set_throttler endBroadcast]. rewrite EndProcessing_count. count_clients E.
  - by rewrite Hk.
Qed.

(** Clients that ask before any of them starts. *)
Lemma enter_many s0 s channel sd n :
  reach s0 s -> checkSendableData (Buff sd) = None -> th_CanProcess (goRoutinesThrottler (nm s)) = true ->
  reach s0 (mk (nm s) (clients s ++ replicate n (Entered channel sd)) (loop s) (now s) (log s) (trace s)).
Proof.
  intros Hr Hb Hc. induction n as [|n IH].
  - cbn. rewrite app_nil_r. by destruct s.
  - rewrite replicate_S_end, app_assoc. eapply reach_step; [exact IH|].
    exact (client_entered (mk (nm s) (clients s ++ replicate n (Entered channel sd)) (loop s) (now s) (log s) (trace s))
      channel sd Hb Hc).
Qed.

Lemma start_many s0 s channel sd c n :
  GetChannelOrDefault (balancer (nm s)) channel = Some c ->
  clients s = replicate n (Entered channel sd) -> reach s0 s ->
  exists s', reach s0 s' /\ clients s' = replicate n (Sending c sd).
Proof.
  intros Hg Ec Hr.
  assert (forall k, (k <= n)%nat -> exists s', reach s0 s' /\ balancer (nm s') = balancer (nm s) /\
    clients s' = replicate k (Sending c sd) ++ replicate (n - k) (Entered channel sd)) as Hk.
  { induction k as [|k IH]; intros Hle; [exists s; by rewrite Nat.sub_0_r|].
    destruct IH as (s1 & Hr1 & Eb & E1); [lia|].
    replace (n - k)%nat with (S (n - S k))%nat in E1 by lia. cbn [replicate] in E1.
    eexists. split; [|split; [|]].
    - eapply reach_step; [exact Hr1|]. apply (client_starts s1 _ channel sd _ c E1). rewrite Eb. exact Hg.
    - cbn. exact Eb.
    - cbn [clients]. by rewrite replicate_S_end, <- app_assoc. }
  destruct (Hk n) as (s' & Hr' & _ & E'); [done|]. exists s'. split; [done|].
  by rewrite E', Nat.sub_diag, app_nil_r.
Qed.

(** [C14] The limit on broadcasts.  The throttler counts exactly the clients that are
    between their start and their end, so every place is given back.  But a
    client asks for a place before it takes one: the limit holds for clients
    that do both without interruption, and any number of clients that ask at the
    same time exceed it. *)
Theorem throttle_limit s0 s :
  started s0 -> reach s0 s -> th_count (goRoutinesThrottler (nm s0)) = 0 ->
  th_count (goRoutinesThrottler (nm s)) = in_progress (clients s) /\
  (forall channel sd o netMes, startBroadcast (nm s) channel sd = Ret (Ok o, netMes) ->
     th_count (goRoutinesThrottler netMes) <= th_max (goRoutinesThrottler netMes)) /\
  (0 < th_max (goRoutinesThrottler (nm s0)) ->
     forall n sd, checkSendableData (Buff sd) = None ->
       exists s', reach s0 s' /\ in_progress (clients s') = Z.of_nat n).
Proof.
  intros Hst Hr E0. split_and!.
  - rewrite (throttler_count s0 s Hst Hr). lia.
  - intros channel sd o netMes. unfold startBroadcast. destruct (checkSendableData (Buff sd)); [done|].
    rewrite CanProcess_count. destruct (Z.ltb_spec (th_count (goRoutinesThrottler (nm s))) (th_max (goRoutinesThrottler (nm s))));
      [|done]. cbn [negb]. destruct (GetChannelOrDefault _ _); [|done]. intros [= <- <-]. cbn.
    rewrite StartProcessing_count, StartProcessing_max. lia.
  - intros Hm n sd Hb. pose proof Hst as (Ec & _ & _ & _ & Eb).
    pose proof (enter_many s0 s0 defaultSendChannel sd n (reach_start s0) Hb) as Hr1.
    rewrite CanProcess_count, E0 in Hr1. specialize (Hr1 (proj2 (Z.ltb_lt _ _) Hm)). rewrite Ec in Hr1.
    match type of Hr1 with reach _ ?s1 => set (s1' := s1) in Hr1 end.
    destruct (start_many s0 s1' defaultSendChannel sd 0%nat n) as (s' & Hr' & E'); [by cbn; rewrite Eb | done | done |].
    exists s'. split; [done|]. rewrite E'. unfold in_progress. f_equal.
    clear. induction n as [|n IH]; [done|]. cbn [replicate]. rewrite filter_cons_True by done. cbn. by rewrite IH.
Qed.

(** ** After the end of the context *)

Lemma loop_reach_trans s1 s2 s3 : reach s1 s2 -> reach s2 s3 -> reach s1 s3.
Proof. intros R1. induction 1; [done | by eapply reach_step]. Qed.

(** Only the collector takes an object from the goroutine of a channel. *)
Lemma forwarding_kept (w w' : world (SendableData := sendable)) e c obj :
  LoadBalancer.wf w -> LoadBalancer.step w e w' -> (forall c' obj', e ≠ Collected c' obj') ->
  goroutines w !! c = Some (Forwarding obj) -> goroutines w' !! c = Some (Forwarding obj).
Proof.
  intros Hwf Hs He Hc.
  assert (forall c' g, goroutines w !! c' = Some Receiving -> goroutines (set_goroutine w c' g) !! c = Some (Forwarding obj)) as Hset.
  { intros c' g Hr. cbn. rewrite lookup_insert_ne; [done|]. intros ->. congruence. }
  destruct Hs as [w channel|w channel|w|w c' obj'|w c'|w c'|w c' obj' Hf|w|w c']; auto.
  - unfold AddChannel. repeat case_match; try done. cbn. rewrite lookup_insert_ne; [done|].
    intros E. pose proof (LoadBalancer.wf_next _ Hwf c (or_intror (or_intror (mk_is_Some _ _ Hc)))). lia.
  - unfold RemoveChannel. by repeat case_match.
  - by destruct (He c' obj').
Qed.

(** [C34] A channel goroutine that [Close] leaves behind.  When the collecting goroutine
    has returned, a goroutine that holds an object for the main channel holds it
    for ever, whatever else happens: its send does not look at the context, so
    it neither publishes the object nor ends.  A goroutine without an object
    can end once the context is done. *)
Theorem forwarder_left s0 s c :
  started s0 -> reach s0 s -> loop s = Ended ->
  (forall obj s', goroutines (balancer (nm s)) !! c = Some (Forwarding obj) -> reach s s' ->
     loop s' = Ended /\ goroutines (balancer (nm s')) !! c = Some (Forwarding obj) /\ log s' = log s) /\
  (goroutines (balancer (nm s)) !! c = Some Receiving -> ctx_done (oplb (balancer (nm s))) = true ->
     exists s', step s s' /\ goroutines (balancer (nm s')) !! c = Some LoadBalancer.Stopped).
Proof.
  intros Hst Hr El. split.
  - intros obj s' Hc. induction 1 as [|s1 s2 Hr1 (El1 & Hc1 & Elog) Hs]; [done|].
    pose proof (LoadBalancer.wf_execution _ _ (trace_execution s0 s1 Hst (loop_reach_trans _ _ _ Hr Hr1))) as Hwf.
    destruct Hs as [| |l1 c' sd l2 w _ Hs| |e w He Hs|? ? E|? ? ? ? E|? ? E|? E|nm' [Hk _]|]; try congruence; try done.
    + split_and!; [done| |done]. eapply forwarding_kept; [done | exact Hs | done | done].
    + split_and!; [done| |done]. eapply forwarding_kept; [done | exact Hs | | done]. intros c' obj' ->. done.
    + split_and!; [done| |done]. cbn [nm]. by rewrite Hk.
  - intros Hc Hd. eexists. split; [eapply (channels_move s Moved); [done | by apply (step_stop _ c)]|].
    cbn. by rewrite lookup_insert_eq.
Qed.

End SendLoop.
Arguments state : clear implicits.

(** A node on the topic [blocks]; two clients broadcast on the default channel. *)
Module Witness.

#[local] Existing Instances Messenger.Witness.rating Messenger.Witness.holder Messenger.Witness.denial.

#[local] Instance counter : Throttler Z := {
  th_CanProcess n := n <? 1000; th_StartProcessing n := n + 1; th_EndProcessing n := n - 1
}.
#[local] Instance counter_laws : ThrottlerLaws Z.
Proof. refine {| th_count := id; th_max _ := 1000 |}; done. Defined.

Abbreviation node := (networkMessenger nat MapPubSub.t bytes (Rating.peersRatingHandler LruCache.t LruCache.t)
  PeersHolder.peersHolder nat (gset string) Debugger.p2pDebugger unit Z string).
Abbreviation state := (state nat MapPubSub.t bytes (Rating.peersRatingHandler LruCache.t LruCache.t)
  PeersHolder.peersHolder nat (gset string) Debugger.p2pDebugger unit Z string).
Abbreviation sent := LoadBalancer.Sent.
Implicit Types s : state.

Definition nm0 : node :=
  Messenger.mk "alice" (run_ops (newTopics MapPubSub.empty) [OpCreate "blocks" false])
    (poc Messenger.Witness.alice) 0 (debugger Messenger.Witness.alice) tt (connMonitor Messenger.Witness.alice)
    unknownPeerShardResolver_GetPeerInfo [] [].

Definition sd (b : byte) : SendableData bytes := mkSendable [b] "blocks" None "alice".
Definition t0 : Z := 1700000000 * second.
Definition s0 : state := mk nm0 [] (Waiting t0) t0 [] [].

(** A client asks, starts, sends; the goroutine wakes at [t] and collects. *)
Definition entered b s : state := mk (nm s) (clients s ++ [Entered "blocks" (sd b)]) (loop s) (now s) (log s) (trace s).
Definition begun b s : state :=
  mk (set_throttler (th_StartProcessing (goRoutinesThrottler (nm s))) (nm s)) ([] ++ [Sending 0%nat (sd b)])
    (loop s) (now s) (log s) (trace s).
Definition sends b s : state :=
  mk (set_balancer (set_goroutine (outgoingPLB (reg (nm s))) 0 (Forwarding (Some (sd b)))) (nm s)) ([] ++ [Sent])
    (loop s) (now s) (log s) (trace s ++ [sent 0%nat (sd b)]).
Definition ends s : state := mk (endBroadcast (nm s)) ([] ++ []) (loop s) (now s) (log s) (trace s).
Definition wakes t s : state := mk (nm s) (clients s) Collecting t (log s) (trace s).
Definition collects t b s : state :=
  mk (set_balancer (set_goroutine (outgoingPLB (reg (nm s))) 0 Receiving) (nm s)) (clients s) (Waiting t) t
    (publish_log s t 0 (Some (sd b))) (trace s ++ [Collected 0%nat (Some (sd b))]).

Definition round t b s := collects t b (wakes t (ends (sends b (begun b (entered b s))))).

(** What the round needs of a state. *)
Definition ready t s : Prop :=
  clients s = [] /\ th_CanProcess (goRoutinesThrottler (nm s)) = true /\
  GetChannelOrDefault (outgoingPLB (reg (nm s))) "blocks" = Some 0%nat /\
  goroutines (outgoingPLB (reg (nm s))) !! 0%nat = Some Receiving /\
  (0%nat ∉ closed (outgoingPLB (reg (nm s)))) /\
  exists since, loop s = Waiting since /\ now s <= t /\ since + durationBetweenSends <= t.

Lemma round_reach st0 s t b : reach st0 s -> ready t s -> reach st0 (round t b s).
Proof.
  intros Hr (Ec & Hth & Hg & Hrec & Hcl & since & El & Hn & Ht).
  assert (reach st0 (entered b s)) as R1 by (eapply reach_step; [exact Hr | by apply client_entered]).
  assert (clients (entered b s) = [] ++ Entered "blocks" (sd b) :: []) as E1 by (cbn; by rewrite Ec).
  assert (reach st0 (begun b (entered b s))) as R2
    by (eapply reach_step; [exact R1 | exact (client_starts _ [] "blocks" (sd b) [] 0%nat E1 Hg)]).
  assert (reach st0 (sends b (begun b (entered b s)))) as R3.
  { eapply reach_step; [exact R2|].
    exact (client_sends (begun b (entered b s)) [] 0%nat (sd b) [] _ eq_refl (step_send _ _ _ Hrec Hcl)). }
  assert (reach st0 (ends (sends b (begun b (entered b s))))) as R4
    by (eapply reach_step; [exact R3 | exact (client_ends (sends b (begun b (entered b s))) [] [] eq_refl)]).
  assert (reach st0 (wakes t (ends (sends b (begun b (entered b s)))))) as R5
    by (eapply reach_step; [exact R4 | exact (loop_wakes (ends (sends b (begun b (entered b s)))) since t El Hn Ht)]).
  eapply reach_step; [exact R5|]. apply (loop_collects (wakes t _) t 0%nat (Some (sd b))); [done | cbn; lia |].
  apply step_collect. cbn. by rewrite lookup_insert_eq.
Qed.

Definition t1 : Z := t0 + 20000.
Definition t2 : Z := t0 + 30000.
Definition s2 := round t2 x62 (round t1 x61 s0).

Lemma started_nm0 : started s0.
Proof. repeat split. Qed.

Lemma ready0 : ready t1 s0.
Proof.
  split_and!; [done..|]. exists t0. unfold t1, durationBetweenSends. cbn. split_and!; [done | lia | lia].
Qed.

Lemma ready1 : ready t2 (round t1 x61 s0).
Proof.
  split_and!; [done..| |]; [by vm_compute|]. exists t1. unfold t1, t2, durationBetweenSends. cbn.
  split_and!; [done | unfold t1; lia | lia].
Qed.

Lemma reach2 : reach s0 s2.
Proof. apply round_reach; [apply round_reach; [apply reach_start | exact ready0] | exact ready1]. Qed.

Lemma publications_in_order_witness : [sd x61; sd x62] `sublist_of` sent_on 0%nat (trace s2).
Proof. exact (proj1 (publications_in_order s0 s2 0%nat started_nm0 reach2)). Defined.

Lemma publication_rate_witness : exists p1 p2,
  log s2 !! 0%nat = Some (t1, 0%nat, sd x61, p1) /\ log s2 !! 1%nat = Some (t2, 0%nat, sd x62, p2) /\
  t1 + 1 * durationBetweenSends <= t2.
Proof.
  assert (exists p, log s2 !! 0%nat = Some (t1, 0%nat, sd x61, p)) as [p1 E1] by (eexists; vm_compute; reflexivity).
  assert (exists p, log s2 !! 1%nat = Some (t2, 0%nat, sd x62, p)) as [p2 E2] by (eexists; vm_compute; reflexivity).
  exists p1, p2. split_and!; [exact E1 | exact E2 |].
  exact (publication_rate s0 s2 0 1 t1 t2 0%nat 0%nat _ _ p1 p2 started_nm0 reach2 E1 E2).
Defined.

Lemma count0 : th_count (goRoutinesThrottler (nm s0)) = 0.
Proof. reflexivity. Qed.

Lemma throttle_limit_witness : exists s', reach s0 s' /\ in_progress (clients s') = 5000.
Proof.
  destruct (throttle_limit s0 s2 started_nm0 reach2 count0) as (_ & _ & Hex).
  exact (Hex eq_refl 5000%nat (sd x61) eq_refl).
Defined.

(** A client has sent an object, the node is closed and the loop ends before it
    collects. *)
Definition sent3 : state := sends x61 (begun x61 (entered x61 s0)).
Definition closed3 : state :=
  mk (set_balancer (LoadBalancer.Close (outgoingPLB (reg (nm sent3)))).2 (nm sent3)) (clients sent3) (loop sent3) (now sent3)
    (log sent3) (trace sent3 ++ [Call]).
Definition ended3 : state := mk (nm closed3) (clients closed3) Ended (now closed3) (log closed3) (trace closed3).

Lemma reach3 : reach s0 ended3.
Proof.
  assert (reach s0 sent3) as R.
  { destruct ready0 as (Ec & Hth & Hg & Hrec & Hcl & _).
    eapply reach_step; [eapply reach_step; [eapply reach_step; [apply reach_start|]|]|].
    - by apply (client_entered s0 "blocks" (sd x61)).
    - exact (client_starts (entered x61 s0) [] "blocks" (sd x61) [] 0%nat eq_refl Hg).
    - exact (client_sends (begun x61 (entered x61 s0)) [] 0%nat (sd x61) [] _ eq_refl (step_send _ _ _ Hrec Hcl)). }
  eapply reach_step; [eapply reach_step; [exact R|]|].
  - apply (channels_move sent3 Call); [reflexivity | apply step_close].
  - by apply (loop_ends closed3 t0).
Qed.

Definition later3 : state :=
  mk (nm ended3) (clients ended3) Ended (now ended3 + second) (log ended3) (trace ended3).

(** A second later the object is still held, and was not published. *)
Lemma forwarder_left_witness :
  goroutines (outgoingPLB (reg (nm later3))) !! 0%nat = Some (Forwarding (Some (sd x61))) /\ log later3 = [].
Proof.
  destruct (forwarder_left s0 ended3 0%nat started_nm0 reach3 eq_refl) as [Hleft _].
  destruct (Hleft (Some (sd x61)) later3 eq_refl) as (_ & Hc & Hl); [|split; [exact Hc | exact Hl]].
  eapply reach_step; [apply reach_start|]. apply (time_passes ended3). vm_compute. discriminate.
Defined.

End Witness.
