(* ===== verification/PeersInfo.v ===== *)
(** * PeersInfo: what the messenger tells about its peers ([libp2p/netMessenger.go])

    Views of the network: the connected peers and their addresses, their
    classification by shard and role, and the loop that waits for connections.
    What the host answers during a call is a record. *)

From S2P Require Import Prelude Errors Interfaces Wire Distances Sharding.
From Stdlib Require Import ZArith Lia String.
From stdpp Require Import prelude gmap strings list sorting pretty.

Local Open Scope Z_scope.

(** A connection as these views use it. *)
Record peerConn : Type := mkPeerConn { conn_peer : PeerID; conn_addr : string }.

Record host : Type := mkHost {
  host_ID : PeerID;
  host_Addrs : list string;
  Conns : list peerConn;
  network_Peers : list PeerID;
  Connectedness : PeerID -> bool;
  peerstore_Peers : list PeerID;
  peerstore_Addrs : PeerID -> list string
}.

Definition ConnsToPeer (h : host) (p : PeerID) : list peerConn :=
  filter (fun c => conn_peer c = p) (Conns h).

Record ConnectedPeersInfo : Type := mkInfo {
  SelfShardID : Z;
  UnknownPeers : list string;
  Seeders : list string;
  IntraShardValidators : gmap Z (list string);
  IntraShardObservers : gmap Z (list string);
  CrossShardValidators : gmap Z (list string);
  CrossShardObservers : gmap Z (list string);
  FullHistoryObservers : gmap Z (list string);
  NumValidatorsOnShard : gmap Z Z;
  NumObserversOnShard : gmap Z Z;
  NumPreferredPeersOnShard : gmap Z Z;
  NumIntraShardValidators : Z;
  NumIntraShardObservers : Z;
  NumCrossShardValidators : Z;
  NumCrossShardObservers : Z;
  NumFullHistoryObservers : Z
}.

(** [m[k] = append(m[k], s)] and [m[k]++]. *)
Definition append_at (m : gmap Z (list string)) (k : Z) (s : string) : gmap Z (list string) :=
  <[k := default [] (m !! k) ++ [s]]> m.
Definition incr_at (m : gmap Z Z) (k : Z) : gmap Z Z := <[k := default 0 (m !! k) + 1]> m.

Section PeersInfo.

Context `{MapRange}.
(** [p.String()] and [pid.Pretty()]. *)
Context (Pretty : PeerID -> string) (MetachainShardId : Z).
Context (h : host).

Definition Peers : list PeerID := peerstore_Peers h.

Definition Addresses : list string :=
  (fun address => address +:+ "/p2p/" +:+ Pretty (host_ID h)) <$> host_Addrs h.

Definition IsConnected (peerID : PeerID) : bool := Connectedness h peerID.

(** The peers are collected in a map. *)
Definition ConnectedPeers : list PeerID :=
  let connectedPeers : gmap PeerID unit :=
    fold_left (fun m conn => if IsConnected (conn_peer conn) then <[conn_peer conn := tt]> m else m) (Conns h) ∅ in
  (go_range connectedPeers).*1.

Definition ConnectedAddresses : list string :=
  (fun c => conn_addr c +:+ "/p2p/" +:+ Pretty (conn_peer c)) <$> Conns h.

Definition PeerAddresses (pid : PeerID) : list string :=
  match ConnsToPeer h pid with
  | c :: _ => [conn_addr c]
  | [] => []
  end ++ peerstore_Addrs h pid.

(** ** GetConnectedPeersInfo *)

Context (peerShardResolver : PeerShardResolver) (IsSeeder : PeerID -> bool) (isPreferred : PeerID -> bool).

Definition connString (p : PeerID) : string :=
  match ConnsToPeer h p with
  | c :: _ => conn_addr c +:+ "/p2p/" +:+ Pretty p
  | [] => "[invalid connection string]"
  end.

Definition emptyInfo (selfShard : Z) : ConnectedPeersInfo :=
  mkInfo selfShard [] [] ∅ ∅ ∅ ∅ ∅ ∅ ∅ ∅ 0 0 0 0 0.

(** The [switch] on the type of the peer. *)
Definition addByType (info : ConnectedPeersInfo) (selfShard : Z) (p : PeerID) : ConnectedPeersInfo :=
  let '(mkInfo self unk seed iv io cv co fh nv no np niv nio ncv nco nfh) := info in
  let peerInfo := peerShardResolver p in
  let s := ShardID peerInfo in
  let c := connString p in
  match PeerType peerInfo with
  | UnknownPeer =>
      if IsSeeder p
      then mkInfo self unk (seed ++ [c]) iv io cv co fh nv no np niv nio ncv nco nfh
      else mkInfo self (unk ++ [c]) seed iv io cv co fh nv no np niv nio ncv nco nfh
  | ValidatorPeer =>
      let nv := incr_at nv s in
      if negb (selfShard =? s)
      then mkInfo self unk seed iv io (append_at cv s c) co fh nv no np niv nio (ncv + 1) nco nfh
      else mkInfo self unk seed (append_at iv s c) io cv co fh nv no np (niv + 1) nio ncv nco nfh
  | ObserverPeer =>
      let no := incr_at no s in
      if decide (PeerSubType peerInfo = FullHistoryObserver)
      then mkInfo self unk seed iv io cv co (append_at fh s c) nv no np niv nio ncv nco (nfh + 1)
      else if negb (selfShard =? s)
      then mkInfo self unk seed iv io cv (append_at co s c) fh nv no np niv nio ncv (nco + 1) nfh
      else mkInfo self unk seed iv (append_at io s c) cv co fh nv no np niv (nio + 1) ncv nco nfh
  | OtherPeerType => info
  end.

Definition addPreferred (info : ConnectedPeersInfo) (p : PeerID) : ConnectedPeersInfo :=
  let '(mkInfo self unk seed iv io cv co fh nv no np niv nio ncv nco nfh) := info in
  if isPreferred p
  then mkInfo self unk seed iv io cv co fh nv no (incr_at np (ShardID (peerShardResolver p))) niv nio ncv nco nfh
  else info.

Definition GetConnectedPeersInfo : ConnectedPeersInfo :=
  let selfShard := ShardID (peerShardResolver (host_ID h)) in
  fold_left (fun info p => addPreferred (addByType info selfShard p) p) (network_Peers h) (emptyInfo selfShard).

(** ** mapHistogram *)

Definition mapHistogram (input : gmap Z Z) : string :=
  let keys := merge_sort Z.le (go_range input).*1 in
  let vals := (fun key =>
    let shard := if key =? MetachainShardId then "meta" else "shard " +:+ pretty key in
    shard +:+ ": " +:+ pretty (default 0 (input !! key))) <$> keys in
  strings_Join vals ", ".

(** ** WaitForConnections *)

(** One wait of [shouldStopWaiting]: the deadline passes, or the second is over
    and the connected peers are counted. *)
Inductive poll : Type := Deadline | Counted (connected : Z).

Definition shouldStopWaiting (p : poll) (minNumOfPeers : Z) : bool :=
  match p with
  | Deadline => true
  | Counted n => minNumOfPeers <=? n
  end.

(** The polls up to the one that ends the loop; [None] when the given ones do
    not end it. *)
Fixpoint waitForConnections (polls : list poll) (minNumOfPeers : Z) : option nat :=
  match polls with
  | [] => None
  | p :: polls =>
      if shouldStopWaiting p minNumOfPeers then Some 1%nat
      else S <$> waitForConnections polls minNumOfPeers
  end.

(** Without a minimum the whole time is waited. *)
Definition WaitForConnections (polls : list poll) (minNumOfPeers : Z) : option nat :=
  if minNumOfPeers =? 0 then Some 0%nat else waitForConnections polls minNumOfPeers.

End PeersInfo.

(** ** Correctness *)

Section Correctness.

Context `{MapRange} (Pretty : PeerID -> string) (h : host).
Context (peerShardResolver : PeerShardResolver) (IsSeeder isPreferred : PeerID -> bool).

(** The places where a peer is listed. *)
Inductive role : Type :=
| AsSeeder | AsUnknown | IntraValidator | CrossValidator | FullHistory | IntraObserver | CrossObserver.
#[export] Instance role_eq_dec : EqDecision role.
Proof. solve_decision. Defined.

Definition selfShard : Z := ShardID (peerShardResolver (host_ID h)).
Definition shard_of (p : PeerID) : Z := ShardID (peerShardResolver p).

Definition role_of (p : PeerID) : option role :=
  let peerInfo := peerShardResolver p in
  match PeerType peerInfo with
  | UnknownPeer => Some (if IsSeeder p then AsSeeder else AsUnknown)
  | ValidatorPeer => Some (if shard_of p =? selfShard then IntraValidator else CrossValidator)
  | ObserverPeer =>
      Some (if decide (PeerSubType peerInfo = FullHistoryObserver) then FullHistory
            else if shard_of p =? selfShard then IntraObserver else CrossObserver)
  | OtherPeerType => None
  end.

Definition is_role (r : role) (p : PeerID) : bool := bool_decide (role_of p = Some r).
Definition on_shard (f : PeerID -> bool) (s : Z) (p : PeerID) : bool := f p && (shard_of p =? s).
Definition is_validator (p : PeerID) : bool := is_role IntraValidator p || is_role CrossValidator p.
Definition is_observer (p : PeerID) : bool :=
  is_role FullHistory p || is_role IntraObserver p || is_role CrossObserver p.

Definition strings_of (f : PeerID -> bool) (peers : list PeerID) : list string :=
  connString Pretty h <$> List.filter f peers.
Definition count (f : PeerID -> bool) (peers : list PeerID) : Z := len (List.filter f peers).

(** The report describes the peers of a list. *)
Record describes (peers : list PeerID) (info : ConnectedPeersInfo) : Prop := {
  d_self : SelfShardID info = selfShard;
  d_unknown : UnknownPeers info = strings_of (is_role AsUnknown) peers;
  d_seeders : Seeders info = strings_of (is_role AsSeeder) peers;
  d_iv s : default [] (IntraShardValidators info !! s) = strings_of (on_shard (is_role IntraValidator) s) peers;
  d_cv s : default [] (CrossShardValidators info !! s) = strings_of (on_shard (is_role CrossValidator) s) peers;
  d_io s : default [] (IntraShardObservers info !! s) = strings_of (on_shard (is_role IntraObserver) s) peers;
  d_co s : default [] (CrossShardObservers info !! s) = strings_of (on_shard (is_role CrossObserver) s) peers;
  d_fh s : default [] (FullHistoryObservers info !! s) = strings_of (on_shard (is_role FullHistory) s) peers;
  d_nv s : default 0 (NumValidatorsOnShard info !! s) = count (on_shard is_validator s) peers;
  d_no s : default 0 (NumObserversOnShard info !! s) = count (on_shard is_observer s) peers;
  d_np s : default 0 (NumPreferredPeersOnShard info !! s) = count (on_shard isPreferred s) peers;
  d_niv : NumIntraShardValidators info = count (is_role IntraValidator) peers;
  d_ncv : NumCrossShardValidators info = count (is_role CrossValidator) peers;
  d_nio : NumIntraShardObservers info = count (is_role IntraObserver) peers;
  d_nco : NumCrossShardObservers info = count (is_role CrossObserver) peers;
  d_nfh : NumFullHistoryObservers info = count (is_role FullHistory) peers
}.

Lemma strings_of_snoc f peers p :
  strings_of f (peers ++ [p]) = strings_of f peers ++ (if f p then [connString Pretty h p] else []).
Proof. unfold strings_of. rewrite List.filter_app, fmap_app. cbn. by destruct (f p). Qed.

Lemma count_snoc f peers p : count f (peers ++ [p]) = count f peers + (if f p then 1 else 0).
Proof. unfold count. rewrite List.filter_app, length_app. cbn. destruct (f p); cbn; lia. Qed.

Lemma append_at_lookup m k c s :
  default [] (append_at m k c !! s) = default [] (m !! s) ++ (if k =? s then [c] else []).
Proof.
  unfold append_at. destruct (Z.eqb_spec k s) as [->|Hne]; [by rewrite lookup_insert_eq|].
  by rewrite lookup_insert_ne, app_nil_r.
Qed.

Lemma incr_at_lookup m k s : default 0 (incr_at m k !! s) = default 0 (m !! s) + (if k =? s then 1 else 0).
Proof.
  unfold incr_at. destruct (Z.eqb_spec k s) as [->|Hne]; [by rewrite lookup_insert_eq|].
  rewrite lookup_insert_ne by done. lia.
Qed.

Definition role_index (r : role) : nat :=
  match r with
  | AsSeeder => 0 | AsUnknown => 1 | IntraValidator => 2 | CrossValidator => 3
  | FullHistory => 4 | IntraObserver => 5 | CrossObserver => 6
  end.

Lemma is_role_at p r0 r : role_of p = r0 -> is_role r p = match r0 with Some r0 => Nat.eqb (role_index r0) (role_index r) | None => false end.
Proof. unfold is_role. intros ->. by destruct r0 as [[]|], r. Qed.
Lemma on_shard_at f s p : on_shard f s p = f p && (shard_of p =? s).
Proof. done. Qed.
Lemma is_validator_at p : is_validator p = is_role IntraValidator p || is_role CrossValidator p.
Proof. done. Qed.
Lemma is_observer_at p : is_observer p = is_role FullHistory p || is_role IntraObserver p || is_role CrossObserver p.
Proof. done. Qed.

(** One field of the report after one more peer [p], whose role [E] tells. *)
Ltac field E p :=
  rewrite ?strings_of_snoc, ?count_snoc, ?append_at_lookup, ?incr_at_lookup,
    ?(on_shard_at _ _ p), ?(is_validator_at p), ?(is_observer_at p), ?(is_role_at p _ _ E);
  try match goal with Hp : isPreferred p = _ |- _ => rewrite ?Hp end;
  unfold shard_of; cbn -[Z.add]; rewrite ?app_nil_r, ?Z.add_0_r; congruence || done.

Ltac all_fields E p :=
  unfold addPreferred; destruct (isPreferred p) eqn:Ep; constructor; intros; cbn [SelfShardID UnknownPeers Seeders
    IntraShardValidators IntraShardObservers CrossShardValidators CrossShardObservers FullHistoryObservers
    NumValidatorsOnShard NumObserversOnShard NumPreferredPeersOnShard NumIntraShardValidators
    NumIntraShardObservers NumCrossShardValidators NumCrossShardObservers NumFullHistoryObservers negb] in *; field E p.

Lemma addByType_describes peers info p :
  describes peers info ->
  forall info', info' = addPreferred peerShardResolver isPreferred (addByType Pretty h peerShardResolver IsSeeder info selfShard p) p ->
  describes (peers ++ [p]) info'.
Proof.
  intros [] info' ->. destruct info. cbn in *.
  unfold addByType. destruct (PeerType (peerShardResolver p)) eqn:Et.
  - destruct (IsSeeder p) eqn:Es.
    + assert (role_of p = Some AsSeeder) as E by (unfold role_of; by rewrite Et, Es).
      all_fields E p.
    + assert (role_of p = Some AsUnknown) as E by (unfold role_of; by rewrite Et, Es).
      all_fields E p.
  - destruct (Z.eqb_spec selfShard (ShardID (peerShardResolver p))) as [Es|Es].
    + assert (role_of p = Some IntraValidator) as E.
      { unfold role_of, shard_of. by rewrite Et, <- Es, Z.eqb_refl. }
      all_fields E p.
    + assert (role_of p = Some CrossValidator) as E.
      { unfold role_of, shard_of. rewrite Et. by rewrite (proj2 (Z.eqb_neq _ _)) by congruence. }
      all_fields E p.
  - destruct (decide (PeerSubType (peerShardResolver p) = FullHistoryObserver)) as [Ef|Ef].
    + assert (role_of p = Some FullHistory) as E by (unfold role_of; by rewrite Et, decide_True).
      all_fields E p.
    + destruct (Z.eqb_spec selfShard (ShardID (peerShardResolver p))) as [Es|Es].
      * assert (role_of p = Some IntraObserver) as E.
        { unfold role_of, shard_of. by rewrite Et, decide_False, <- Es, Z.eqb_refl. }
        all_fields E p.
      * assert (role_of p = Some CrossObserver) as E.
        { unfold role_of, shard_of. rewrite Et, decide_False by done. by rewrite (proj2 (Z.eqb_neq _ _)) by congruence. }
        all_fields E p.
  - assert (role_of p = None) as E by (unfold role_of; by rewrite Et).
    all_fields E p.
Qed.

(** The report on the connected peers: every peer of a known type is listed
    once, under its role (unknown, seeder, full history observer, or validator
    or observer of the node's shard or of another) and, for validators and
    observers, its shard, in the order of the network's list; the numbers are
    the sizes of the lists, and the preferred peers are counted by shard. *)
Theorem GetConnectedPeersInfo_spec :
  describes (network_Peers h) (GetConnectedPeersInfo Pretty h peerShardResolver IsSeeder isPreferred).
Proof.
  unfold GetConnectedPeersInfo. fold selfShard.
  induction (network_Peers h) as [|p peers IH] using rev_ind.
  - by constructor.
  - rewrite fold_left_app. by eapply addByType_describes.
Qed.

(** ** ConnectedPeers *)

Lemma connected_set (conns : list peerConn) (m : gmap PeerID unit) p :
  is_Some (fold_left (fun m conn => if Connectedness h (conn_peer conn) then <[conn_peer conn := tt]> m else m) conns m !! p)
  <-> is_Some (m !! p) \/ (Connectedness h p = true /\ exists c, c ∈ conns /\ conn_peer c = p).
Proof.
  revert m. induction conns as [|c conns IH]; intros m; cbn [fold_left].
  - split; [by left | intros [?|(_ & c & Hc & _)]; [done | set_solver]].
  - rewrite IH. destruct (Connectedness h (conn_peer c)) eqn:E.
    + destruct (decide (conn_peer c = p)) as [<-|Hne]; simplify_map_eq.
      * split; [intros _; right; split; [done|]; exists c; set_solver | by left].
      * set_solver.
    + split; [set_solver|]. intros [?|(Hc & c' & Hin & <-)]; [by left|]. right. split; [done|].
      apply elem_of_cons in Hin as [->|Hin]; [congruence | by exists c'].
Qed.

(** The connected peers are the remote peers of the connections that are still
    connected, each listed once. *)
Lemma ConnectedPeers_spec :
  NoDup (ConnectedPeers h) /\
  forall p, p ∈ ConnectedPeers h <-> Connectedness h p = true /\ exists c, c ∈ Conns h /\ conn_peer c = p.
Proof.
  split; [apply NoDup_go_range_fst|]. intros p. unfold ConnectedPeers, IsConnected.
  rewrite elem_of_go_range_fst, connected_set, lookup_empty. split; [intros [[? ?]|?]; done | by right].
Qed.

End Correctness.
