(* ===== verification/Stats.v ===== *)
(** * Stats: the log output of the messenger ([libp2p/netMessenger.go])

    What a node tells its operators: the addresses it listens on, every twenty
    seconds the connected peers and the number of connections since the last
    time, and the levels of the loggers of external packages.  A log line is its
    text with its pairs of names and values; the two goroutines are step
    relations in which the notifications of the host fall anywhere, also between
    the two resets of a round. *)

From S2P Require Import Prelude Errors Config Interfaces Wire Distances Sharding Watcher PeersInfo.
From Stdlib Require Import ZArith Lia String.
From stdpp Require Import prelude gmap strings list pretty.

Local Open Scope Z_scope.

Definition timeBetweenPeerPrints : Z := second * 20.
Definition timeBetweenExternalLoggersCheck : Z := second * 20.
Definition externalPackages : list string := ["dht"; "nat"; "basichost"; "pubsub"].

(** An argument of a log line. *)
Inductive logValue : Type :=
| Number (z : Z)
| Text (s : string).

Record logLine : Type := mkLine { line_message : string; line_args : list (string * logValue) }.

(** ** External loggers *)

Section Loggers.

(** The levels of the logger of the program, [LogTrace] being the lowest. *)
Context (LogTrace : Z) (GetLoggerLogLevel : string -> Z).

(** The calls of [logging.SetLogLevel]. *)
Definition setupExternalP2PLoggers : list (string * string) :=
  ("*", "PANIC") ::
  flat_map (fun external =>
    let logLevel := GetLoggerLogLevel ("external/" +:+ external) in
    if LogTrace <? logLevel then [] else [(external, "DEBUG")]) externalPackages.

(** The loggers that [init] makes known. *)
Definition initLoggers : list string := (fun external => "external/" +:+ external) <$> externalPackages.

(** The level of a logger after some calls: the last one that names it or all. *)
Definition levelAfter (calls : list (string * string)) (name : string) (level : string) : string :=
  fold_left (fun l c => if decide (c.1 = "*" \/ c.1 = name) then c.2 else l) calls level.

(** External packages say nothing, except those whose logger is set to trace. *)
Lemma setupExternalP2PLoggers_levels name level :
  levelAfter setupExternalP2PLoggers name level =
  if decide (name ∈ externalPackages /\ GetLoggerLogLevel ("external/" +:+ name) <= LogTrace)
  then "DEBUG" else "PANIC".
Proof.
  unfold levelAfter, setupExternalP2PLoggers, externalPackages. cbn [fold_left fst snd].
  rewrite decide_True by auto. generalize "PANIC" as l0. cbn [flat_map].
  assert (forall p l0, p ≠ "*" ->
    fold_left (fun l c => if decide (c.1 = "*" \/ c.1 = name) then c.2 else l)
      (if LogTrace <? GetLoggerLogLevel ("external/" +:+ p) then [] else [(p, "DEBUG")]) l0 =
    if decide (name = p /\ GetLoggerLogLevel ("external/" +:+ p) <= LogTrace) then "DEBUG" else l0) as E.
  { intros p l0 Hp. destruct (Z.ltb_spec LogTrace (GetLoggerLogLevel ("external/" +:+ p))); cbn [fold_left fst snd].
    - rewrite decide_False by lia. done.
    - destruct (decide (name = p)) as [->|Hne].
      + by rewrite !decide_True by auto.
      + rewrite !decide_False; [done | by intros [] | intros [|]; congruence]. }
  intros l0. rewrite !fold_left_app, !E by done. cbn [fold_left].
  repeat case_decide; set_solver.
Qed.

End Loggers.

(** The goroutine [checkExternalLoggers]: every twenty seconds the levels are set
    anew, from the levels of the loggers at that time. *)
Definition checkExternalLoggers (LogTrace : Z) (rounds : list (string -> Z)) : list (string * string) :=
  flat_map (setupExternalP2PLoggers LogTrace) rounds.

(** After a round the external loggers follow the levels of that round. *)
Lemma checkExternalLoggers_levels LogTrace rounds GetLoggerLogLevel name level :
  levelAfter (checkExternalLoggers LogTrace (rounds ++ [GetLoggerLogLevel])) name level =
  if decide (name ∈ externalPackages /\ GetLoggerLogLevel ("external/" +:+ name) <= LogTrace)
  then "DEBUG" else "PANIC".
Proof.
  unfold checkExternalLoggers, levelAfter. rewrite flat_map_app, fold_left_app. cbn [flat_map].
  rewrite app_nil_r. apply setupExternalP2PLoggers_levels.
Qed.

(** ** Lines *)

Section Lines.

Context `{MapRange} (Pretty : PeerID -> string) (MetachainShardId : Z) (h : host).

(** [printLogs], up to the two goroutines. *)
Definition printLogs : logLine :=
  mkLine "listening on addresses"
    (concat (imap (fun i address =>
       [("addr" +:+ pretty (Z.of_nat i), Text (address +:+ "/p2p/" +:+ Pretty (host_ID h)))]) (host_Addrs h))).

Lemma concat_imap_values {B V} (name : nat -> string) (f : B -> V) l :
  (concat (imap (fun i b => [(name i, f b)]) l)).*2 = f <$> l.
Proof.
  revert name. induction l as [|b l IH]; intros name; [done|]. cbn. f_equal. exact (IH (name ∘ S)).
Qed.

Lemma printLogs_addresses : (line_args printLogs).*2 = Text <$> Addresses Pretty h.
Proof.
  unfold printLogs, Addresses. cbn [line_args]. rewrite (concat_imap_values (fun i => "addr" +:+ pretty (Z.of_nat i))).
  by rewrite <- list_fmap_compose.
Qed.

Context (peerShardResolver : PeerShardResolver) (IsSeeder : PeerID -> bool) (isPreferred : PeerID -> bool).

Definition statusLine : logLine :=
  let peersInfo := GetConnectedPeersInfo Pretty h peerShardResolver IsSeeder isPreferred in
  mkLine "network connection status"
    [ ("known peers", Number (len (Peers h)));
      ("connected peers", Number (len (ConnectedPeers h)));
      ("intra shard validators", Number (NumIntraShardValidators peersInfo));
      ("intra shard observers", Number (NumIntraShardObservers peersInfo));
      ("cross shard validators", Number (NumCrossShardValidators peersInfo));
      ("cross shard observers", Number (NumCrossShardObservers peersInfo));
      ("full history observers", Number (NumFullHistoryObservers peersInfo));
      ("unknown", Number (len (UnknownPeers peersInfo)));
      ("seeders", Number (len (Seeders peersInfo)));
      ("current shard", Number (SelfShardID peersInfo));
      ("validators histogram", Text (mapHistogram MetachainShardId (NumValidatorsOnShard peersInfo)));
      ("observers histogram", Text (mapHistogram MetachainShardId (NumObserversOnShard peersInfo)));
      ("preferred peers histogram", Text (mapHistogram MetachainShardId (NumPreferredPeersOnShard peersInfo))) ].

End Lines.

(** [conns / uint32(timeBetweenPeerPrints/time.Second)]. *)
Definition perSecond (conns : Z) : Z := conns / u32 (timeBetweenPeerPrints / second).

Definition metricsLine (conns disconns : Z) : logLine :=
  mkLine "network connection metrics"
    [ ("connections/s", Number (perSecond conns));
      ("disconnections/s", Number (perSecond disconns));
      ("connections", Number conns);
      ("disconnections", Number disconns);
      ("time", Number timeBetweenPeerPrints) ].

(** ** The goroutine printLogsStats *)

Module Printer.

(** Before the timer fires; between the resets of the two counters; after the
    end of the context. *)
Inductive phase : Type :=
| Waiting (since : Z)
| Woken
| Counted (conns : Z)
| Ended.

Record state : Type := mk {
  connectionsMetric : Connections.t;
  ph : phase;
  clock : Z;
  (* the lines of every round with its time, and the two counts *)
  printed : list (Z * (Z * Z) * list logLine);
  (* how often the host told [connectionsMetric] of a connection, of a disconnection *)
  opened : Z;
  closed : Z
}.

Section Printer.

Context `{MapRange} (Pretty : PeerID -> string) (MetachainShardId : Z) (IsSeeder isPreferred : PeerID -> bool).

Implicit Types s : state.

(** [createConnectionsMetric] and [go netMes.printLogsStats()]. *)
Definition createConnectionsMetric (now : Z) : state := mk Connections.NewConnections (Waiting now) now [] 0 0.

(** A round after the resets. *)
Definition round (h : host) (peerShardResolver : PeerShardResolver) (conns disconns : Z) : list logLine :=
  [statusLine Pretty MetachainShardId h peerShardResolver IsSeeder isPreferred; metricsLine conns disconns].

Inductive step s : state -> Prop :=
| connects :
    step s (mk (Connections.Connected (connectionsMetric s)) (ph s) (clock s) (printed s) (opened s + 1) (closed s))
| disconnects :
    step s (mk (Connections.Disconnected (connectionsMetric s)) (ph s) (clock s) (printed s) (opened s) (closed s + 1))
| wakes since t :
    ph s = Waiting since -> clock s <= t -> since + timeBetweenPeerPrints <= t ->
    step s (mk (connectionsMetric s) Woken t (printed s) (opened s) (closed s))
| resets_connections conns metric :
    ph s = Woken -> Connections.ResetNumConnections (connectionsMetric s) = (conns, metric) ->
    step s (mk metric (Counted conns) (clock s) (printed s) (opened s) (closed s))
| prints conns disconns metric h peerShardResolver t :
    ph s = Counted conns -> Connections.ResetNumDisconnections (connectionsMetric s) = (disconns, metric) ->
    clock s <= t ->
    step s (mk metric (Waiting t) t
              (printed s ++ [(t, (conns, disconns), round h peerShardResolver conns disconns)]) (opened s) (closed s))
| ends since : ph s = Waiting since -> step s (mk (connectionsMetric s) Ended (clock s) (printed s) (opened s) (closed s))
| time_passes t : clock s <= t -> step s (mk (connectionsMetric s) (ph s) t (printed s) (opened s) (closed s)).

Inductive reach s0 : state -> Prop :=
| reach_start : reach s0 s0
| reach_step s s' : reach s0 s -> step s s' -> reach s0 s'.

(** ** Every notification is printed once *)

Definition sum (l : list Z) : Z := foldr Z.add 0 l.

Lemma sum_snoc l z : sum (l ++ [z]) = sum l + z.
Proof. unfold sum. induction l as [|y l IH]; cbn in *; lia. Qed.

Definition connsPrinted s : Z := sum ((fun r => r.1.2.1) <$> printed s).
Definition disconnsPrinted s : Z := sum ((fun r => r.1.2.2) <$> printed s).
(** Counted by a reset, not printed yet. *)
Definition counted s : Z := match ph s with Counted conns => conns | _ => 0 end.

(** [n] was counted in an unsigned 32-bit counter that holds [c], [m] taken out. *)
Definition accounts (n m c : Z) : Prop := 0 <= c < 2 ^ 32 /\ 0 <= m /\ exists k, 0 <= k /\ n = m + c + k * 2 ^ 32.

Lemma accounts_incr n m c : accounts n m c -> accounts (n + 1) m (u32 (c + 1)).
Proof.
  intros (Hc & Hm & k & Hk & ->). unfold u32. destruct (decide (c + 1 = 2 ^ 32)) as [E|E].
  - rewrite E, Z_mod_same_full. split_and!; [lia..|]. exists (k + 1). lia.
  - rewrite Z.mod_small by lia. split_and!; [lia..|]. exists k. lia.
Qed.

Lemma accounts_reset n m c : accounts n m c -> accounts n (m + c) 0.
Proof. intros (Hc & Hm & k & Hk & ->). split_and!; [lia..|]. exists k. lia. Qed.

Record counts_ok s : Prop := {
  conns_ok : accounts (opened s) (connsPrinted s + counted s) (Connections.numConnections (connectionsMetric s));
  disconns_ok : accounts (closed s) (disconnsPrinted s) (Connections.numDisconnections (connectionsMetric s))
}.

Lemma counts_ok_step s s' : counts_ok s -> step s s' -> counts_ok s'.
Proof.
  intros [Hc Hd] Hs. unfold connsPrinted, disconnsPrinted, counted in *. destruct Hs as
    [| | since t Hp Ht Hw | conns metric Hp E | conns disconns metric h r t Hp E Ht | since Hp | t Ht];
    constructor; unfold connsPrinted, disconnsPrinted, counted; cbn [ph printed opened closed connectionsMetric];
    rewrite ?Hp in *; try done.
  - by apply accounts_incr.
  - by apply accounts_incr.
  - injection E as <- <-. cbn. rewrite Z.add_0_r in Hc. by apply accounts_reset.
  - injection E as <- <-. done.
  - injection E as <- <-. cbn. rewrite fmap_app. cbn. rewrite sum_snoc. by rewrite Z.add_0_r.
  - injection E as <- <-. cbn. rewrite fmap_app. cbn. rewrite sum_snoc. by apply accounts_reset.
Qed.

(** The rounds are apart. *)
Record rounds_ok s : Prop := {
  rounds_apart : forall i t1 t2 c1 c2 l1 l2,
    printed s !! i = Some (t1, c1, l1) -> printed s !! S i = Some (t2, c2, l2) -> t1 + timeBetweenPeerPrints <= t2;
  rounds_next : forall t c l, last (printed s) = Some (t, c, l) ->
    match ph s with
    | Waiting since => t <= since
    | Woken | Counted _ => t + timeBetweenPeerPrints <= clock s
    | Ended => True
    end;
  rounds_lines : forall t conns disconns l, (t, (conns, disconns), l) ∈ printed s ->
    exists status, l = [status; metricsLine conns disconns]
}.

Lemma rounds_ok_step s s' : rounds_ok s -> step s s' -> rounds_ok s'.
Proof.
  intros [Ha Hn Hl] Hs. destruct Hs as
    [| | since t Hp Ht Hw | conns metric Hp E | conns disconns metric h r t Hp E Ht | since Hp | t Ht];
    constructor; cbn [ph printed clock]; rewrite ?Hp in *; try done.
  - intros t0 c l Hlast. specialize (Hn _ _ _ Hlast). cbn in Hn. lia.
  - intros i t1 t2 c1 c2 l1 l2 H1' H2'.
    assert (S i < length (printed s) \/ S i = length (printed s))%nat as [Hi|Hi].
    { apply lookup_lt_Some in H2'. rewrite length_app in H2'. cbn in H2'. lia. }
    + rewrite lookup_app_l in H1', H2' by lia. by eapply Ha.
    + rewrite lookup_app_l in H1' by lia. rewrite Hi, list_lookup_middle in H2' by done. simplify_eq.
      assert (last (printed s) = Some (t1, c1, l1)) as Hlast by (rewrite last_lookup, <- Hi; done).
      specialize (Hn _ _ _ Hlast). cbn in Hn. lia.
  - intros t0 c l. rewrite last_snoc. intros [= -> <- <-]. lia.
  - intros t0 c1 c2 l [Hin|[= -> -> -> ->]%list_elem_of_singleton]%elem_of_app; [by eapply Hl | by eexists].
  - intros t0 c l Hlast. specialize (Hn _ _ _ Hlast). destruct (ph s); lia || done.
Qed.

Lemma reach_ok now s : reach (createConnectionsMetric now) s -> counts_ok s /\ rounds_ok s.
Proof.
  induction 1 as [|s s' _ [Hc Hr] Hs].
  - split; constructor; cbn; try done; try (intros; set_solver).
    all: split_and!; [done..|]; by exists 0.
  - split; [by eapply counts_ok_step | by eapply rounds_ok_step].
Qed.

Lemma accounts_exact n m c : accounts n m c -> n < 2 ^ 32 -> n = m + c.
Proof. intros (Hc & Hm & k & Hk & ->) Hn. assert (k = 0); lia. Qed.

(** [C39] The statistics account for every connection.  In every execution of the
    printing goroutine, the notifications of the host falling anywhere, the
    connections printed in all rounds, those a reset has just taken and those
    in the counter are together the connections there were, and the same holds
    for the disconnections (as long as they are fewer than 2^32: the counters
    wrap); the printed rates are those counts divided by twenty, and two rounds
    are at least twenty seconds apart. *)
Theorem statistics_account now s :
  reach (createConnectionsMetric now) s ->
  (opened s < 2 ^ 32 ->
     opened s = connsPrinted s + counted s + Connections.numConnections (connectionsMetric s)) /\
  (closed s < 2 ^ 32 ->
     closed s = disconnsPrinted s + Connections.numDisconnections (connectionsMetric s)) /\
  (forall t conns disconns l, (t, (conns, disconns), l) ∈ printed s ->
     exists status, l = [status; metricsLine conns disconns] /\
       conns - 20 < 20 * perSecond conns <= conns) /\
  (forall i t1 t2 c1 c2 l1 l2,
     printed s !! i = Some (t1, c1, l1) -> printed s !! S i = Some (t2, c2, l2) -> t1 + 20 * second <= t2).
Proof.
  intros Hr. destruct (reach_ok now s Hr) as [[Hc Hd] [Ha _ Hl]]. split_and!.
  - by apply accounts_exact.
  - by apply accounts_exact.
  - intros t conns disconns l Hin. destruct (Hl _ _ _ _ Hin) as [status ->]. exists status. split; [done|].
    unfold perSecond. change (u32 (timeBetweenPeerPrints / second)) with 20.
    pose proof (Z.mul_div_le conns 20). pose proof (Z.mul_succ_div_gt conns 20). lia.
  - intros i t1 t2 c1 c2 l1 l2 H1' H2'. specialize (Ha _ _ _ _ _ _ _ H1' H2').
    unfold timeBetweenPeerPrints in Ha. lia.
Qed.

End Printer.
End Printer.

Module Witness.

Import Printer.

Definition h0 : host :=
  mkHost "self" ["/ip4/1.2.3.4/tcp/1"] [mkPeerConn "p" "/ip4/9.9.9.9/tcp/5"] ["p"] (fun _ => true) ["self"; "p"] (fun _ => []).

Abbreviation step0 := (step (fun p => p) 4294967295 (fun _ => false) (fun _ => false)).
Abbreviation reach0 := (reach (fun p => p) 4294967295 (fun _ => false) (fun _ => false)).
Abbreviation round0 := (round (fun p => p) 4294967295 (fun _ => false) (fun _ => false) h0 (fun _ => mkP2PPeerInfo ValidatorPeer RegularPeer 1)).

Definition t1 : Z := 20 * second.

(** A connection, a round in which another one falls between the resets, and a
    disconnection. *)
Definition s1 : state := mk (Connections.mk 1 0) (Waiting 0) 0 [] 1 0.
Definition s2 : state := mk (Connections.mk 1 0) Woken t1 [] 1 0.
Definition s3 : state := mk (Connections.mk 0 0) (Counted 1) t1 [] 1 0.
Definition s4 : state := mk (Connections.mk 1 0) (Counted 1) t1 [] 2 0.
Definition s5 : state := mk (Connections.mk 1 0) (Waiting t1) t1 [(t1, (1, 0), round0 1 0)] 2 0.
Definition s6 : state := mk (Connections.mk 1 1) (Waiting t1) t1 [(t1, (1, 0), round0 1 0)] 2 1.

Lemma stats_reach6 : reach0 (createConnectionsMetric 0) s6.
Proof.
  assert (reach0 (createConnectionsMetric 0) s1) as R1 by (eapply reach_step; [apply reach_start | exact (connects _ _ _ _ (createConnectionsMetric 0))]).
  assert (step0 s1 s2) as S2 by (apply (wakes _ _ _ _ s1 0 t1); [done | unfold t1, second; cbn; lia | done]).
  assert (step0 s2 s3) as S3 by (exact (resets_connections _ _ _ _ s2 1 _ eq_refl eq_refl)).
  assert (step0 s3 s4) as S4 by (exact (connects _ _ _ _ s3)).
  assert (step0 s4 s5) as S5 by (exact (prints _ _ _ _ s4 1 0 _ h0 _ t1 eq_refl eq_refl (Z.le_refl _))).
  assert (step0 s5 s6) as S6 by (exact (disconnects _ _ _ _ s5)).
  repeat (eapply reach_step; [|eassumption]). exact R1.
Qed.

Lemma statistics_account_witness :
  opened s6 = connsPrinted s6 + counted s6 + 1 /\ closed s6 = disconnsPrinted s6 + 1.
Proof.
  destruct (statistics_account _ _ _ _ 0 s6 stats_reach6) as (Ho & Hc & _).
  split; [apply Ho | apply Hc]; reflexivity.
Defined.

(** The text of a round. *)
Lemma status_line : In ("validators histogram", Text "shard 1: 1") (line_args (hd (mkLine "" []) (round0 1 0))).
Proof. vm_compute. intuition auto. Qed.

End Witness.
