(* ===== verification/Node.v ===== *)
(** * Node: construction and shutdown of a node ([libp2p/netMessenger.go])

    [newNetworkMessenger] checks its arguments, opens the libp2p host (trying
    again when the port is taken), creates the components in order and closes
    the host when one of them cannot be created; [Close] closes the components and
    cancels their contexts.  The opening of a host and the constructors of pubsub and the throttler are not in
    the repository: they are parameters, and what a construction attempt meets
    (the TCP stack on which it tries ports, the answer of [libp2p.New]) is a record
    per attempt. *)

From S2P Require Import Prelude Errors Config Interfaces Cacher MutexHolder Wire TopicMessage Message.
From S2P Require Import Rating PeersHolder TopicProcessors LoadBalancer PeersOnChannel DirectSender Distances Sharding.
From S2P Require Import Watcher Debugger ConnMonitor Crypto Discovery Ports Topics Messenger PeersInfo Stats.
From Stdlib Require Import ZArith Lia Ascii String.
From stdpp Require Import prelude gmap strings list pretty.

Local Open Scope Z_scope.

Definition baseErrorSuffix : string := "when creating a new network messenger".
Definition msgBindError : string := "address already in use".
Definition maxRetriesIfBindError : nat := 10.
Definition ttlConnectionsWatcher : Z := 7200 * second.
Definition refreshPeersOnTopic : Z := 3 * second.
Definition ttlPeersOnTopic : Z := 10 * second.
Definition broadcastGoRoutines : Z := 1000.
Definition pubSubMaxMessageSize : Z := Z.shiftl 1 21.
Definition noSignPolicy : Z := 0.

(** The options of [pubsub.NewGossipSub]; the filter is [Messenger.newPeerFound]. *)
Inductive pubsub_option : Type :=
| WithMessageSignaturePolicy (policy : Z)
| WithPeerFilter
| WithMaxMessageSize (size : Z).

(** ** Transports *)

Inductive transport : Type :=
| TCPTransport (disableReuseport : bool)
| QUICTransport
| WSTransport
| WebTransportTransport.

Definition strictCheckStringForIntMarkup (str : string) : bool := strings_Count str "%d" =? 1.

(** [fmt.Sprintf] of a format whose only verbs are [%d], once, and [%%]; other
    formats are left to the parameter. *)
Fixpoint render (format : string) (arg : option string) : option string :=
  match format with
  | EmptyString => match arg with None => Some "" | Some _ => None end
  | String "%" (String "d" rest) =>
      match arg with Some a => s ← render rest None; Some (a +:+ s) | None => None end
  | String "%" (String "%" rest) => s ← render rest arg; Some (String "%" s)
  | String "%" _ => None
  | String c rest => s ← render rest arg; Some (String c s)
  end.

Section Transports.

Context (Sprintf_other : string -> Z -> string).

Definition Sprintf (format : string) (port : Z) : string :=
  match render format (Some (pretty port)) with
  | Some s => s
  | None => Sprintf_other format port
  end.

(** One of the four sections of [parseTransportOptions]. *)
Definition addTransport (address : string) (invalid : sentinel) (t : transport) (port : Z)
    (acc : list transport * list string) : result (list transport * list string) :=
  if Z.of_nat (String.length address) >? 0 then
    if negb (strictCheckStringForIntMarkup address) then Err invalid
    else Ok (acc.1 ++ [t], acc.2 ++ [Sprintf address port])
  else Ok acc.

Definition parseTransportOptions (configs : TransportConfig) (port : Z) : result (list transport * list string) :=
  let? a1 := addTransport (ListenAddress (TCP configs)) ErrInvalidTCPAddress
               (TCPTransport (PreventPortReuse (TCP configs))) port ([], []) in
  let? a2 := addTransport (QUICAddress configs) ErrInvalidQUICAddress QUICTransport port a1 in
  let? a3 := addTransport (WebSocketAddress configs) ErrInvalidWSAddress WSTransport port a2 in
  let? a4 := addTransport (WebTransportAddress configs) ErrInvalidWebTransportAddress WebTransportTransport port a3 in
  if decide (a4.2 = []) then Err ErrNoTransportsDefined else Ok a4.

End Transports.

(** ** Construction *)

Section Node.

Context `{MapRange} `{SortSort}.
Context {A X SecretKey R P D M Th N T C TC : Type}.
Context `{PubSub X} `{PeersRatingHandler R} `{PreferredPeersHolderHandler P} `{PeerDenialEvaluator D}.
Context `{Marshalizer M} `{Throttler Th} `{TimeCache T} `{Cacher C} `{TimeCacher TC}.
Context {Host PrivateKey PrivKey OS : Type} `{TCPStack OS} (Host_ID : Host -> PeerID).
Context (Sprintf_other : string -> Z -> string).
Context (PrivateKey_ToByteArray : PrivateKey -> result bytes).
Context (UnmarshalSecp256k1PrivateKey : bytes -> result PrivKey).
Context (ConvertPeerID : PeerID -> bytes).
Context (NewTimeCacher : Z -> TC) (NewTimeCache : Z -> T) (NewCache : Z -> result C).
Context (NewGossipSub : Host -> list pubsub_option -> result X) (ListPeers : X -> string -> list PeerID).
Context (NewNumGoRoutinesThrottler : Z -> result Th).
Context (LogTrace : Z) (GetLoggerLogLevel : string -> Z).

Record ArgsNetworkMessenger : Type := mkArgs {
  arg_Marshalizer : option M;
  P2pConfig : P2PConfig;
  arg_SyncTimer : option unit;
  arg_PreferredPeersHolder : option P;
  arg_NodeOperationMode : string;
  arg_PeersRatingHandler : option R;
  ConnectionWatcherType : string;
  P2pPrivateKey : option PrivateKey;
  P2pSingleSigner : option unit;
  P2pKeyGenerator : option unit
}.

Implicit Types args : ArgsNetworkMessenger.

(** What one attempt meets. *)
Record attempt : Type := mkAttempt {
  shuffle : list Z -> list Z;
  tcp : OS;
  libp2p_New : list transport -> list string -> PrivKey -> result Host
}.

(** The goroutines of a node, by the code they run: [doSweep] of the print watcher,
    the ones of the channels and of the debugger, the loop of [createPubSub], the
    refreshing of the peers on topics, [processLoop], [doReconnection], the
    periodic [CheckConnectionsBlocking], [printLogsStats], [checkExternalLoggers]. *)
Inductive goroutine : Type :=
| SweepWatcher | ForwardChannel | PrintStatistics | RefreshPeersOnTopics | CollectAndPublish
| DiscovererLoop | DoReconnection | CheckConnections | PrintLogsStats | CheckExternalLoggers.

#[export] Instance goroutine_eq_dec : EqDecision goroutine.
Proof. solve_decision. Defined.

(** The visible effects: a goroutine is started, a host is opened or closed, the
    levels of external loggers are set. *)
Inductive node_event : Type :=
| Started (g : goroutine)
| HostOpened (h : Host)
| HostClosed (h : Host)
| LoggersSet (calls : list (string * string)).

Definition watcher_started (w : watcher TC) : list node_event :=
  match w with PrintWatcher _ => [Started SweepWatcher] | DisabledWatcher => [] end.

(** What a constructor returns, with its effects; an error ends the construction. *)
Definition build (B : Type) : Type := result B * list node_event.

Definition bind {B B' : Type} (m : build B) (k : B -> build B') : build B' :=
  match m with
  | (Ok b, events) => let '(r, events') := k b in (r, events ++ events')
  | (Err err, events) => (Err err, events)
  end.
(** A constructor that starts the goroutines [gs] when it succeeds. *)
Definition starts {B : Type} (gs : list goroutine) (r : result B) : build B :=
  (r, match r with Ok _ => Started <$> gs | Err _ => [] end).

#[local] Notation "'let*' x ':=' m 'in' k" := (bind m (fun x => k))
  (at level 10, x pattern, m at level 200, k at level 200).

Record p2pNode : Type := mkNode {
  node_signer : p2pSignerWrapper PrivateKey;
  p2pHost : Host;
  port : Z;
  printConnectionsWatcher : watcher TC
}.

Definition constructNode args (env : attempt) : outcome (result p2pNode) * list node_event :=
  match getPort (shuffle env) (fun port => (checkFreePort (tcp env) port).2) (Port (Node (P2pConfig args))) with
  | Panic => (Panic, [])
  | Ret (Err err) => (Ret (Err err), [])
  | Ret (Ok port) =>
  match NewConnectionsWatcher NewTimeCacher (ConnectionWatcherType args) ttlConnectionsWatcher with
  | Err err => (Ret (Err err), [])
  | Ok connWatcher =>
  let events := watcher_started connWatcher in
  match ConvertPrivateKeyToLibp2pPrivateKey PrivateKey_ToByteArray UnmarshalSecp256k1PrivateKey (P2pPrivateKey args) with
  | Err err => (Ret (Err err), events)
  | Ok p2pPrivateKey =>
  match parseTransportOptions Sprintf_other (Transports (Node (P2pConfig args))) port with
  | Err err => (Ret (Err err), events)
  | Ok (transportOptions, addresses) =>
  match libp2p_New env transportOptions addresses p2pPrivateKey with
  | Err err => (Ret (Err err), events)
  | Ok h =>
  let events := events ++ [HostOpened h] in
  match NewP2PSignerWrapper (Crypto.mkArgs (P2pPrivateKey args) (P2pSingleSigner args) (P2pKeyGenerator args)) with
  | Err err => (Ret (Err err), events)
  | Ok p2pSignerInstance => (Ret (Ok (mkNode p2pSignerInstance h port connWatcher)), events)
  end end end end end end.

(** The loop; [lastErr] is the error of the previous round. *)
Fixpoint portRetry (rounds : nat) (i : nat) args (env : nat -> attempt) (lastErr : error) :
    outcome (result p2pNode) * list node_event :=
  match rounds with
  | O => (Ret (Err lastErr), [])
  | S rounds =>
      match constructNode args (env i) with
      | (Ret (Err err), events) =>
          if negb (strings_Contains (Error err) msgBindError) then (Ret (Err err), events)
          else
            let '(r, events') := portRetry rounds (S i) args env err in (r, events ++ events')
      | r => r
      end
  end.

Definition constructNodeWithPortRetry args (env : nat -> attempt) : outcome (result p2pNode) * list node_event :=
  portRetry maxRetriesIfBindError 0 args env (ErrText "").

(** ** Components *)

Abbreviation messenger :=
  (networkMessenger A X SecretKey R P (watcher TC) D p2pDebugger M Th N).

Definition createSharder args (self : PeerID) : result sharder :=
  NewSharder ConvertPeerID
    (mkArgListsSharder (Some unknownPeerShardResolver_GetPeerInfo) self (P2pConfig args) (Some tt)
       (arg_NodeOperationMode args)).

Definition createDiscoverer args (s : sharder) : result discoverer :=
  NewPeerDiscoverer (mkArgsPeerDiscoverer (Some tt) (Some tt) (DiscoverySharder s) (P2pConfig args) (Some tt)).

(** The shared sharder after the discoverer set its seeders. *)
Definition sharder_after (d : discoverer) (s : sharder) : sharder :=
  match d with
  | NilDiscoverer => s
  | Continuous ckdd => ck_sharder ckdd
  | Optimized okdd => ok_sharder okdd
  end.

(** Every discoverer reconnects and every sharder computes eviction lists, so
    the type assertions hold. *)
Definition createConnectionMonitor args (s : sharder) (holder : P) (w : watcher TC) :
    result (connectionMonitorWrapper P (watcher TC) (evaluator D)) :=
  let? m := NewLibp2pConnectionMonitorSimple (Some tt) (Config.ThresholdMinConnectedPeers (Node (P2pConfig args)))
              (Some s) (Some holder) (Some w) in
  Ok (newConnectionMonitorWrapper m DisabledEvaluator).

(** [createPubSub]: pubsub and the peers on topics; the loop it starts is
    [SendLoop.step]. *)
Definition pubsub_options (messageSigning : bool) : list pubsub_option :=
  (if messageSigning then [] else [WithMessageSignaturePolicy noSignPolicy]) ++
  [WithPeerFilter; WithMaxMessageSize pubSubMaxMessageSize].

Definition createPubSub (h : Host) (messageSigning : bool) (rating : R) : build (X * peersOnChannel R) :=
  let* x := starts [] (NewGossipSub h (pubsub_options messageSigning)) in
  let* p := starts [RefreshPeersOnTopics]
              (newPeersOnChannel (Some rating) (Some (ListPeers x)) refreshPeersOnTopic ttlPeersOnTopic) in
  starts [CollectAndPublish] (Ok (x, p)).

(** Only the optimized discoverer runs before [Bootstrap]. *)
Definition discoverer_goroutines (d : discoverer) : list goroutine :=
  match d with Optimized _ => [DiscovererLoop] | _ => [] end.

Record components : Type := mkComponents {
  netMes_of : messenger;
  ds_of : directSender T C (p2pSignerWrapper PrivateKey);
  peerDiscoverer_of : discoverer;
  connectionsMetric_of : Connections.t
}.

(** [isLogTrace] is the log level and [now] the clock when the components are
    created. *)
Definition addComponentsToNode args (node : p2pNode) (messageSigning isLogTrace : bool) (now : Z)
    (marshalizer : M) (holder : P) (rating : R) : build components :=
  let self := Host_ID (p2pHost node) in
  let* _ := starts [ForwardChannel] (Ok ()) in
  let* debugger := starts [PrintStatistics] (Ok (NewP2PDebugger self isLogTrace)) in
  let* (x, p) := createPubSub (p2pHost node) messageSigning rating in
  let* s := starts [] (createSharder args self) in
  let r := createDiscoverer args s in
  let* d := starts (match r with Ok d => discoverer_goroutines d | Err _ => [] end) r in
  let* cm := starts [DoReconnection; CheckConnections]
               (createConnectionMonitor args (sharder_after d s) holder (printConnectionsWatcher node)) in
  let connectionsMetric := Connections.NewConnections in
  let* dsp := starts [] (NewDirectSender (Some tt) (Some tt) (Some tt) (Some (node_signer node)) NewCache NewTimeCache now) in
  let* th := starts [] (NewNumGoRoutinesThrottler broadcastGoRoutines) in
  starts [PrintLogsStats; CheckExternalLoggers]
    (Ok (mkComponents
           (Messenger.mk self (newTopics x) p th debugger marshalizer cm unknownPeerShardResolver_GetPeerInfo [] [])
           dsp.1 d connectionsMetric)).

Definition nil_arg (s : sentinel) : error := ErrWrap s (" " +:+ baseErrorSuffix).

(** The checks of the arguments. *)
Definition checkArgs args : result (M * P * R) :=
  match arg_Marshalizer args, arg_SyncTimer args, arg_PreferredPeersHolder args, arg_PeersRatingHandler args,
        P2pPrivateKey args, P2pSingleSigner args, P2pKeyGenerator args with
  | None, _, _, _, _, _, _ => Err (nil_arg ErrNilMarshalizer)
  | _, None, _, _, _, _, _ => Err (nil_arg ErrNilSyncTimer)
  | _, _, None, _, _, _, _ => Err (nil_arg ErrNilPreferredPeersHolder)
  | _, _, _, None, _, _, _ => Err (nil_arg ErrNilPeersRatingHandler)
  | _, _, _, _, None, _, _ => Err (nil_arg ErrNilP2pPrivateKey)
  | _, _, _, _, _, None, _ => Err (nil_arg ErrNilP2pSingleSigner)
  | _, _, _, _, _, _, None => Err (nil_arg ErrNilP2pKeyGenerator)
  | Some m, Some _, Some p, Some r, Some _, Some _, Some _ => Ok (m, p, r)
  end.

Definition newNetworkMessenger args (messageSigning isLogTrace : bool) (now : Z) (env : nat -> attempt) :
    outcome (result (p2pNode * components)) * list node_event :=
  match checkArgs args with
  | Err err => (Ret (Err err), [])
  | Ok (m, p, r) =>
      let events0 := [LoggersSet (setupExternalP2PLoggers LogTrace GetLoggerLogLevel)] in
      match constructNodeWithPortRetry args env with
      | (Panic, events) => (Panic, events0 ++ events)
      | (Ret (Err err), events) => (Ret (Err err), events0 ++ events)
      | (Ret (Ok node), events) =>
          match addComponentsToNode args node messageSigning isLogTrace now m p r with
          | (Err err, events') => (Ret (Err err), events0 ++ events ++ events' ++ [HostClosed (p2pHost node)])
          | (Ok comps, events') => (Ret (Ok (node, comps)), events0 ++ events ++ events')
          end
      end
  end.

Definition NewNetworkMessenger args := newNetworkMessenger args true.

(** ** The mock messenger *)

(** [NewMockMessenger] over a simulated network, given or not, whose [GenPeer]
    answers with a host, for arguments that hold a marshaller [m], a preferred
    peers holder [p] and a rating handler [r].  Messages are not signed and the
    host stays open when a component cannot be created. *)
Definition NewMockMessenger args (mockNet : option (result Host)) (isLogTrace : bool) (now : Z) (m : M) (p : P) (r : R) :
    result (p2pNode * components) * list node_event :=
  match mockNet with
  | None => (Err (ErrSentinel ErrNilMockNet), [])
  | Some (Err err) => (Err err, [])
  | Some (Ok h) =>
  let events := [HostOpened h] in
  match NewP2PSignerWrapper (Crypto.mkArgs (P2pPrivateKey args) (P2pSingleSigner args) (P2pKeyGenerator args)) with
  | Err err => (Err err, events)
  | Ok signer =>
  match NewConnectionsWatcher NewTimeCacher (ConnectionWatcherType args) ttlConnectionsWatcher with
  | Err err => (Err err, events)
  | Ok w =>
  let node := mkNode signer h 0 w in
  match addComponentsToNode args node false isLogTrace now m p r with
  | (Err err, events') => (Err err, events ++ watcher_started w ++ events')
  | (Ok comps, events') => (Ok (node, comps), events ++ watcher_started w ++ events')
  end end end end.

(** ** The test messenger *)

(** [NewTestNetMessenger] embeds a messenger; [ClosePeer] hands the call to the network
    of its host. *)
Definition NewTestNetMessenger args (isLogTrace : bool) (now : Z) (env : nat -> attempt) :
    outcome (result (p2pNode * components)) * list node_event := NewNetworkMessenger args isLogTrace now env.

Definition ClosePeer (Network_ClosePeer : Host -> PeerID -> option error) (node : p2pNode) (pid : PeerID) : option error :=
  Network_ClosePeer (p2pHost node) pid.

(** ** Shutdown *)

(** The answers of the host and the peerstore are arguments; the result is the
    error and what is left of the components. *)
Definition watcher_Close (w : watcher TC) : option error * watcher TC :=
  match w with
  | PrintWatcher pcw => let '(err, pcw) := Watcher.Close pcw in (err, PrintWatcher pcw)
  | DisabledWatcher => (None, DisabledWatcher)
  end.

(** [if e != nil { err = e }]. *)
Definition orElse (e err : option error) : option error := match e with Some _ => e | None => err end.

(** The calls of [Close], in order. *)
Inductive close_event : Type :=
| CloseHost | CloseWatcher | CloseLoadBalancer | ClosePeersOnChannel | CloseConnMonitor
| CancelContext | CloseDebugger | ClosePeerstore.

Definition Close (netMes : messenger) (w : watcher TC) (errHost errPeerStore : option error) :
    option error * messenger * watcher TC * list close_event :=
  let err := orElse errHost None in
  let events := [CloseHost] in
  let '(errConnWatcher, w) := watcher_Close w in
  let err := orElse errConnWatcher err in
  let events := events ++ [CloseWatcher] in
  let '(errOplb, lb) := LoadBalancer.Close (outgoingPLB (reg netMes)) in
  let err := orElse errOplb err in
  let events := events ++ [CloseLoadBalancer] in
  let '(_, p) := PeersOnChannel.Close (poc netMes) in
  let events := events ++ [ClosePeersOnChannel] in
  let '(_, m) := ConnMonitor.Close (inner (connMonitor netMes)) in
  let events := events ++ [CloseConnMonitor; CancelContext] in
  let '(errDebugger, dbg) := Debugger.Close (debugger netMes) in
  let err := orElse errDebugger err in
  let events := events ++ [CloseDebugger] in
  let err := orElse errPeerStore err in
  let events := events ++ [ClosePeerstore] in
  (err, set_debugger dbg (with_monitor m (set_poc p (set_reg (set_outgoingPLB lb (reg netMes)) netMes))), w, events).

(** ** Correctness: the retries *)

Definition attempt_result args (e : attempt) : outcome (result p2pNode) := (constructNode args e).1.

(** A failure after which another attempt is made. *)
Definition bindError (r : outcome (result p2pNode)) : bool :=
  match r with Ret (Err err) => strings_Contains (Error err) msgBindError | _ => false end.

Lemma concat_seq_shift {B} (g : nat -> list B) i n :
  concat ((fun j => g (i + j)%nat) <$> seq 0 (S n)) = g i ++ concat ((fun j => g (S i + j)%nat) <$> seq 0 n).
Proof.
  cbn [seq]. rewrite fmap_cons, Nat.add_0_r. cbn [concat]. f_equal. f_equal.
  rewrite <- seq_shift. change (map S (seq 0 n)) with (S <$> seq 0 n). rewrite <- list_fmap_compose.
  apply list_fmap_ext. intros ? j _. cbn. f_equal. lia.
Qed.

Lemma portRetry_spec rounds i args env lastErr :
  (0 < rounds)%nat ->
  exists k, (k < rounds)%nat /\
    (forall j, (j < k)%nat -> bindError (attempt_result args (env (i + j)%nat)) = true) /\
    (bindError (attempt_result args (env (i + k)%nat)) = true -> S k = rounds) /\
    portRetry rounds i args env lastErr =
      (attempt_result args (env (i + k)%nat),
       concat ((fun j => (constructNode args (env (i + j)%nat)).2) <$> seq 0 (S k))).
Proof.
  revert i lastErr. induction rounds as [|rounds IH]; intros i lastErr Hr; [lia|].
  cbn [portRetry]. destruct (bindError (attempt_result args (env i))) eqn:Eb.
  - destruct (constructNode args (env i)) as [[[nd|err]|] events] eqn:Ec;
      unfold attempt_result in Eb; rewrite Ec in Eb; try done.
    cbn in Eb. rewrite Eb. cbn [negb]. destruct (decide (rounds = 0)%nat) as [->|Hne].
    + exists 0%nat. unfold attempt_result. rewrite Nat.add_0_r, Ec. cbn.
      split_and!; [lia | lia | done | by rewrite Nat.add_0_r, Ec].
    + destruct (IH (S i) err) as (k & Hk & Hj & Hlast & ->); [lia|]. exists (S k).
      replace (i + S k)%nat with (S i + k)%nat by lia. split_and!; [lia | | intros Hb%Hlast; lia |].
      * intros [|j] Hj'; [rewrite Nat.add_0_r; unfold attempt_result; by rewrite Ec|].
        replace (i + S j)%nat with (S i + j)%nat by lia. apply Hj. lia.
      * rewrite (concat_seq_shift (fun j => (constructNode args (env j)).2) i (S k)), Ec. done.
  - exists 0%nat. unfold attempt_result in *. rewrite Nat.add_0_r.
    cbn [seq fmap list_fmap concat]. rewrite Nat.add_0_r, app_nil_r.
    split_and!; [lia | lia | congruence |].
    destruct (constructNode args (env i)) as [[[nd|err]|] events]; cbn in Eb; try done. by rewrite Eb.
Qed.

(** The construction of the host is tried at most ten times: the result is
    the one of the first attempt that does not fail because the address is in
    use, and the error of the tenth when all ten do; the effects are those of
    the attempts made. *)
Theorem constructNodeWithPortRetry_spec args env :
  exists k, (k < 10)%nat /\
    (forall j, (j < k)%nat -> bindError (attempt_result args (env j)) = true) /\
    (bindError (attempt_result args (env k)) = true -> k = 9%nat) /\
    constructNodeWithPortRetry args env =
      (attempt_result args (env k), concat ((fun j => (constructNode args (env j)).2) <$> seq 0 (S k))).
Proof.
  destruct (portRetry_spec maxRetriesIfBindError 0 args env (ErrText "")) as (k & Hk & Hj & Hl & E);
    [unfold maxRetriesIfBindError; lia|].
  exists k. unfold maxRetriesIfBindError in *. split_and!; [done..| |done]. intros Hb%Hl. lia.
Qed.

(** ** Correctness: no host is left open *)

Definition opened (events : list node_event) : list Host :=
  omap (fun e => match e with HostOpened h => Some h | _ => None end) events.
Definition closed (events : list node_event) : list Host :=
  omap (fun e => match e with HostClosed h => Some h | _ => None end) events.

Lemma opened_app e1 e2 : opened (e1 ++ e2) = opened e1 ++ opened e2.
Proof. apply omap_app. Qed.
Lemma closed_app e1 e2 : closed (e1 ++ e2) = closed e1 ++ closed e2.
Proof. apply omap_app. Qed.

Lemma watcher_started_hosts (w : watcher TC) : closed (watcher_started w) = [] /\ opened (watcher_started w) = [].
Proof. by destruct w. Qed.

Lemma starts_hosts {B} gs (r : result B) : closed (starts gs r).2 = [] /\ opened (starts gs r).2 = [].
Proof. destruct r; cbn [starts snd]; [|done]. by induction gs. Qed.

Lemma bind_hosts {B B'} (m : build B) (k : B -> build B') :
  closed m.2 = [] /\ opened m.2 = [] -> (forall b, closed (k b).2 = [] /\ opened (k b).2 = []) ->
  closed (bind m k).2 = [] /\ opened (bind m k).2 = [].
Proof.
  destruct m as [[b|err] events]; intros Hm Hk; [|done]. cbn [bind]. specialize (Hk b).
  destruct (k b) as [r events']. cbn [fst snd] in *. rewrite closed_app, opened_app. by destruct Hm as [-> ->], Hk as [-> ->].
Qed.

Lemma addComponentsToNode_hosts args node messageSigning isLogTrace now m p r :
  let events := (addComponentsToNode args node messageSigning isLogTrace now m p r).2 in
  closed events = [] /\ opened events = [].
Proof. unfold addComponentsToNode, createPubSub. repeat (apply bind_hosts; [|intros ?]; repeat case_match); apply starts_hosts. Qed.

Definition started (events : list node_event) : list goroutine :=
  omap (fun e => match e with Started g => Some g | _ => None end) events.

Lemma started_app e1 e2 : started (e1 ++ e2) = started e1 ++ started e2.
Proof. apply omap_app. Qed.
Lemma started_fmap gs : started (Started <$> gs) = gs.
Proof. unfold started. induction gs as [|g gs IH]; [done|]. cbn. by rewrite <- IH at 2. Qed.

Lemma starts_Ok {B} gs (r : result B) b events :
  starts gs r = (Ok b, events) -> r = Ok b /\ started events = gs.
Proof. intros [= -> <-]. split; [done|]. apply started_fmap. Qed.

Lemma bind_Ok {B B'} (m : build B) (k : B -> build B') b' events :
  bind m k = (Ok b', events) ->
  exists b e1 e2, m = (Ok b, e1) /\ k b = (Ok b', e2) /\ started events = started e1 ++ started e2.
Proof.
  destruct m as [[b|err] e1]; [|done]. cbn [bind]. destruct (k b) as [r e2] eqn:E. intros [= -> <-].
  exists b, e1, e2. by rewrite started_app.
Qed.

(** A created node: its goroutines in the order in which they are started. *)
Lemma addComponentsToNode_Ok args node messageSigning isLogTrace now m p r comps events :
  addComponentsToNode args node messageSigning isLogTrace now m p r = (Ok comps, events) ->
  self (netMes_of comps) = Host_ID (p2pHost node) /\
  exists x, reg (netMes_of comps) = newTopics x /\
    started events =
      [ForwardChannel; PrintStatistics; RefreshPeersOnTopics; CollectAndPublish] ++
      discoverer_goroutines (peerDiscoverer_of comps) ++
      [DoReconnection; CheckConnections; PrintLogsStats; CheckExternalLoggers].
Proof.
  unfold addComponentsToNode. cbn zeta.
  intros (? & e1 & ? & [_ E1]%starts_Ok & H1' & ->)%bind_Ok.
  apply bind_Ok in H1' as (dbg & e2 & ? & [_ E2]%starts_Ok & H2' & ->).
  apply bind_Ok in H2' as ([ps pc] & e3 & ? & Hps & H3' & ->).
  apply bind_Ok in Hps as (x' & ? & ? & [_ Ex]%starts_Ok & Hps & E3).
  apply bind_Ok in Hps as (pc' & ? & ? & [_ Ep]%starts_Ok & [Hx El]%starts_Ok & Ep'). injection Hx as <- <-.
  apply bind_Ok in H3' as (s & ? & ? & [_ E4]%starts_Ok & H4' & ->).
  apply bind_Ok in H4' as (d & ? & ? & [Ed E5]%starts_Ok & H5' & ->).
  apply bind_Ok in H5' as (cm & ? & ? & [_ E6]%starts_Ok & H6' & ->).
  apply bind_Ok in H6' as (dsp & ? & ? & [_ E7]%starts_Ok & H7' & ->).
  apply bind_Ok in H7' as (th & ? & ? & [_ E8]%starts_Ok & [Hcomps E9]%starts_Ok & ->). injection Hcomps as <-.
  rewrite Ed in E5. rewrite E1, E2, E3, Ex, Ep', Ep, El, E4, E5, E6, E7, E8, E9. cbn. split; [done|].
  by exists x'.
Qed.

(** The error with which the construction of the components of [node] ends, and the
    goroutines of those created before: pubsub fails; the sharder or the
    discoverer does; the mutexes of the direct sender or the throttler do.  The
    rest cannot fail. *)
Definition fails_at args (node : p2pNode) (messageSigning : bool) (err : error) (running : list goroutine) : Prop :=
  let pubsub := NewGossipSub (p2pHost node) (pubsub_options messageSigning) in
  let sharder := createSharder args (Host_ID (p2pHost node)) in
  (pubsub = Err err /\ running = [ForwardChannel; PrintStatistics]) \/
  (exists x, pubsub = Ok x /\
     running = [ForwardChannel; PrintStatistics; RefreshPeersOnTopics; CollectAndPublish] /\
     (sharder = Err err \/ exists s, sharder = Ok s /\ createDiscoverer args s = Err err)) \/
  (exists x s d, pubsub = Ok x /\ sharder = Ok s /\ createDiscoverer args s = Ok d /\
     running = [ForwardChannel; PrintStatistics; RefreshPeersOnTopics; CollectAndPublish] ++
               discoverer_goroutines d ++ [DoReconnection; CheckConnections] /\
     (NewMutexHolder NewCache maxMutexes = Err err \/ NewNumGoRoutinesThrottler broadcastGoRoutines = Err err)).

Lemma starts_Err {B} gs (r : result B) err events : starts gs r = (Err err, events) -> r = Err err /\ events = [].
Proof. by intros [= -> <-]. Qed.

Lemma bind_Err {B B'} (m : build B) (k : B -> build B') err events :
  bind m k = (Err err, events) ->
  m = (Err err, events) \/
  exists b e1 e2, m = (Ok b, e1) /\ k b = (Err err, e2) /\ started events = started e1 ++ started e2.
Proof.
  destruct m as [[b|err'] e1]; cbn [bind]; [|by intros [= -> ->]; left].
  destruct (k b) as [r e2] eqn:E. intros [= -> <-]. right. exists b, e1, e2. by rewrite started_app.
Qed.

Lemma createPubSub_Err h messageSigning rating err events :
  createPubSub h messageSigning rating = (Err err, events) ->
  NewGossipSub h (pubsub_options messageSigning) = Err err /\ started events = [].
Proof.
  unfold createPubSub. intros [[-> ->]%starts_Err|(x & e1 & e2 & [_ E1]%starts_Ok & He & _)]%bind_Err; [done|].
  apply bind_Err in He as [He|(? & ? & ? & _ & [? _]%starts_Err & _)]; [|done].
  apply starts_Err in He as [He _]. done.
Qed.

Lemma createPubSub_Ok h messageSigning rating xp events :
  createPubSub h messageSigning rating = (Ok xp, events) ->
  (exists x, NewGossipSub h (pubsub_options messageSigning) = Ok x) /\ started events = [RefreshPeersOnTopics; CollectAndPublish].
Proof.
  unfold createPubSub. intros (x & ? & ? & [Hx Ex]%starts_Ok & Hps & ->)%bind_Ok. split; [by exists x|].
  apply bind_Ok in Hps as (pc & ? & ? & [_ Ep]%starts_Ok & [_ El]%starts_Ok & ->). by rewrite Ex, Ep, El.
Qed.

Lemma addComponentsToNode_Err args node messageSigning isLogTrace now m p r err events :
  addComponentsToNode args node messageSigning isLogTrace now m p r = (Err err, events) ->
  fails_at args node messageSigning err (started events).
Proof.
  unfold addComponentsToNode, fails_at. cbn zeta.
  intros [[? _]%starts_Err|(? & e1 & ? & [_ E1]%starts_Ok & H1' & ->)]%bind_Err; [done|].
  apply bind_Err in H1' as [[? _]%starts_Err|(dbg & e2 & ? & [_ E2]%starts_Ok & H2' & ->)]; [done|]. rewrite E1, E2.
  apply bind_Err in H2' as [[Hp Ep]%createPubSub_Err|([ps pc] & e3 & ? & [[y Hp] E3]%createPubSub_Ok & H3' & ->)];
    [left; by rewrite Ep|]. rewrite E3. right.
  apply bind_Err in H3' as [[Hs ->]%starts_Err|(s & ? & ? & [Hs E4]%starts_Ok & H4' & ->)]; [left; eauto|]. rewrite E4.
  apply bind_Err in H4' as [[Hd ->]%starts_Err|(d & ? & ? & [Hd E5]%starts_Ok & H5' & ->)]; [left; eauto 10|].
  rewrite Hd in E5. rewrite E5. right. exists y, s, d.
  apply bind_Err in H5' as [[? _]%starts_Err|(cm & ? & ? & [_ E6]%starts_Ok & H6' & ->)]; [done|]. rewrite E6.
  split_and!; [done..| |].
  - apply bind_Err in H6' as [[_ ->]%starts_Err|(dsp & ? & ? & [_ E7]%starts_Ok & H7' & ->)]; [done|]. rewrite E7.
    by apply bind_Err in H7' as [[_ ->]%starts_Err|(th & ? & ? & [_ E8]%starts_Ok & [? _]%starts_Err & _)].
  - apply bind_Err in H6' as [[Hm _]%starts_Err|(dsp & ? & ? & _ & H7' & _)]; [left|right].
    + cbn in Hm. destruct (NewMutexHolder NewCache maxMutexes); [done | by injection Hm as ->].
    + by apply bind_Err in H7' as [[? _]%starts_Err|(th & ? & ? & _ & [? _]%starts_Err & _)].
Qed.

(** An attempt opens a host exactly when it succeeds, as the signer can be
    created from the checked arguments. *)
Lemma constructNode_hosts args env m p r :
  checkArgs args = Ok (m, p, r) ->
  let '(res, events) := constructNode args env in
  closed events = [] /\ opened events = match res with Ret (Ok node) => [p2pHost node] | _ => [] end.
Proof.
  intros Ha. unfold constructNode.
  destruct (getPort _ _ _) as [[port|]|]; [|done..].
  destruct (NewConnectionsWatcher _ _ _) as [w|]; [|done]. destruct (watcher_started_hosts w) as [Hc Ho].
  destruct (ConvertPrivateKeyToLibp2pPrivateKey _ _ _); [|done].
  destruct (parseTransportOptions _ _ _) as [[ts addrs]|]; [|done].
  destruct (libp2p_New _ _ _ _) as [h|]; [|done].
  assert (exists s, NewP2PSignerWrapper (Crypto.mkArgs (P2pPrivateKey args) (P2pSingleSigner args) (P2pKeyGenerator args)) = Ok s)
    as [s ->]; [|by rewrite closed_app, opened_app, Hc, Ho].
  unfold checkArgs in Ha. unfold NewP2PSignerWrapper, Crypto.checkArgs. cbn.
  destruct (arg_Marshalizer args), (arg_SyncTimer args), (arg_PreferredPeersHolder args),
    (arg_PeersRatingHandler args), (P2pPrivateKey args), (P2pSingleSigner args), (P2pKeyGenerator args); try done.
  by eexists.
Qed.

Lemma portRetry_hosts rounds i args env lastErr m p r :
  checkArgs args = Ok (m, p, r) ->
  let '(res, events) := portRetry rounds i args env lastErr in
  closed events = [] /\ opened events = match res with Ret (Ok node) => [p2pHost node] | _ => [] end.
Proof.
  intros Ha. revert i lastErr. induction rounds as [|rounds IH]; intros i lastErr; [done|]. cbn [portRetry].
  pose proof (constructNode_hosts args (env i) m p r Ha) as Hc.
  destruct (constructNode args (env i)) as [[[nd|err]|] events]; try done. destruct Hc as [Hc Ho].
  destruct (negb _); [done|]. specialize (IH (S i) err).
  destruct (portRetry rounds (S i) args env err) as [res events']. destruct IH as [IHc IHo].
  by rewrite closed_app, opened_app, Hc, Ho, IHc, IHo.
Qed.

(** ** Correctness: goroutines *)

Definition watcher_goroutines (w : watcher TC) : list goroutine :=
  match w with PrintWatcher _ => [SweepWatcher] | DisabledWatcher => [] end.

Definition node_goroutines (w : watcher TC) (d : discoverer) : list goroutine :=
  watcher_goroutines w ++
  [ForwardChannel; PrintStatistics; RefreshPeersOnTopics; CollectAndPublish] ++ discoverer_goroutines d ++
  [DoReconnection; CheckConnections; PrintLogsStats; CheckExternalLoggers].

(** The goroutines of watchers that no node has. *)
Definition leaked (n : nat) (gs : list goroutine) : Prop :=
  Forall (fun g => g = SweepWatcher) gs /\ (length gs <= n)%nat.

Lemma constructNode_started args env :
  let '(res, events) := constructNode args env in
  match res with
  | Ret (Ok node) => started events = watcher_goroutines (printConnectionsWatcher node)
  | _ => leaked 1 (started events)
  end.
Proof.
  assert (leaked 1 []) as L0 by (split; [constructor | cbn; lia]).
  assert (forall w, leaked 1 (started (watcher_started w))) as L by (intros []; cbn; [split; [by constructor | done] | done]).
  unfold constructNode.
  destruct (getPort _ _ _) as [[port|]|]; [|done..].
  destruct (NewConnectionsWatcher _ _ _) as [w|]; [|done].
  destruct (ConvertPrivateKeyToLibp2pPrivateKey _ _ _); [|apply L].
  destruct (parseTransportOptions _ _ _) as [[ts addrs]|]; [|apply L].
  destruct (libp2p_New _ _ _ _) as [h|]; [|apply L].
  cbn zeta. destruct (NewP2PSignerWrapper _); [by destruct w|].
  rewrite started_app, app_nil_r. apply L.
Qed.

Lemma portRetry_started rounds i args env lastErr :
  let '(res, events) := portRetry rounds i args env lastErr in
  match res with
  | Ret (Ok node) => exists gs, leaked (pred rounds) gs /\
      started events = gs ++ watcher_goroutines (printConnectionsWatcher node)
  | _ => leaked rounds (started events)
  end.
Proof.
  assert (forall n, leaked n []) as L0 by (split; [constructor | cbn; lia]).
  revert i lastErr. induction rounds as [|rounds IH]; intros i lastErr; [apply L0|]. cbn [portRetry].
  pose proof (constructNode_started args (env i)) as Hc.
  destruct (constructNode args (env i)) as [[[nd|err]|] events]; [by exists []| |destruct Hc; split; [done | lia]].
  destruct Hc as [Hf Hn]. destruct (negb _); [split; [done | lia]|].
  specialize (IH (S i) err). destruct (portRetry rounds (S i) args env err) as [res events'] eqn:Er.
  destruct res as [[nd|err']|]; rewrite started_app; [|destruct IH as [Hf' Hn']..].
  - destruct rounds as [|rounds]; [done|]. destruct IH as (gs & [Hf' Hn'] & ->).
    exists (started events ++ gs). rewrite app_assoc. split; [|done].
    split; [by apply Forall_app | rewrite length_app; cbn in *; lia].
  - split; [by apply Forall_app | rewrite length_app; lia].
  - split; [by apply Forall_app | rewrite length_app; lia].
Qed.

(** [C38] What a construction leaves behind.  A created node has opened one host, its own,
    starts without message processors, and has started its goroutines once each,
    in order (the sweep when the watcher prints, the loop of the optimized
    discoverer when that is configured).  When no node can be created every
    host that was opened is closed again, but no goroutine is stopped: when a
    component fails, its error is returned and the goroutines of the components
    before it go on; and every failed attempt at a host leaves the sweep of its
    watcher behind, at most nine of them beside those of a node. *)
Theorem construction_accounts args messageSigning isLogTrace now env :
  let '(res, events) := newNetworkMessenger args messageSigning isLogTrace now env in
  match res with
  | Ret (Ok (node, comps)) =>
      opened events = [p2pHost node] /\ closed events = [] /\
      self (netMes_of comps) = Host_ID (p2pHost node) /\
      (forall topic, registered (reg (netMes_of comps)) topic = ∅) /\
      exists gs, leaked 9 gs /\
        started events = gs ++ node_goroutines (printConnectionsWatcher node) (peerDiscoverer_of comps)
  | Ret (Err err) =>
      (opened events = [] /\ closed events = [] /\ leaked 10 (started events)) \/
      exists node gs running, opened events = [p2pHost node] /\ closed events = [p2pHost node] /\
        leaked 9 gs /\ started events = gs ++ watcher_goroutines (printConnectionsWatcher node) ++ running /\
        fails_at args node messageSigning err running
  | Panic => opened events = [] /\ leaked 10 (started events)
  end.
Proof.
  unfold newNetworkMessenger.
  destruct (checkArgs args) as [[[m p] r]|err] eqn:Ha; [|left; split_and!; [done..|split; [constructor | cbn; lia]]].
  pose proof (portRetry_hosts maxRetriesIfBindError 0 args env (ErrText "") m p r Ha) as Hh.
  pose proof (portRetry_started maxRetriesIfBindError 0 args env (ErrText "")) as Hp.
  unfold constructNodeWithPortRetry. destruct (portRetry _ _ _ _ _) as [[[nd|err]|] events]; destruct Hh as [Hc Ho]; cbn zeta;
    [|left; by rewrite opened_app, closed_app, started_app, Ho, Hc | by rewrite opened_app, started_app, Ho].
  destruct Hp as (gs & Hgs & Hev).
  pose proof (addComponentsToNode_hosts args nd messageSigning isLogTrace now m p r) as Hcomps.
  destruct (addComponentsToNode _ _ _ _ _ _ _ _) as [[comps|err] events'] eqn:Ec; cbn [snd] in Hcomps; destruct Hcomps as [Hc' Ho'].
  - destruct (addComponentsToNode_Ok _ _ _ _ _ _ _ _ _ _ Ec) as (Hself & x & Hreg & Hst).
    rewrite !opened_app, !closed_app, !started_app, Ho, Hc, Ho', Hc', Hself, Hreg, Hev, Hst. split_and!; [done..|].
    exists gs. split; [done|]. unfold node_goroutines. by rewrite <- !app_assoc.
  - right. exists nd, gs, (started events'). apply addComponentsToNode_Err in Ec.
    rewrite !opened_app, !closed_app, !started_app, Ho, Hc, Ho', Hc', Hev. split_and!; [done..| |done].
    change (started [LoggersSet _]) with (@nil goroutine). change (started [HostClosed _]) with (@nil goroutine).
    by rewrite app_nil_r, <- app_assoc.
Qed.

(** ** Correctness: the mock messenger *)

(** A mock messenger is a node like the others: the host of the simulated
    network, the goroutines once each in the same order, no processors.  When it
    cannot be created the host of the simulated network stays open, and what was
    started goes on. *)
Theorem NewMockMessenger_spec args mockNet isLogTrace now m p r :
  let '(res, events) := NewMockMessenger args mockNet isLogTrace now m p r in
  closed events = [] /\
  opened events = match mockNet with Some (Ok h) => [h] | _ => [] end /\
  match res with
  | Ok (node, comps) =>
      mockNet = Some (Ok (p2pHost node)) /\ self (netMes_of comps) = Host_ID (p2pHost node) /\
      started events = node_goroutines (printConnectionsWatcher node) (peerDiscoverer_of comps) /\
      forall topic, registered (reg (netMes_of comps)) topic = ∅
  | Err err => mockNet = None -> errors_Is err ErrNilMockNet = true
  end.
Proof.
  unfold NewMockMessenger. destruct mockNet as [[h|err]|]; [|by split_and!..]. cbn zeta.
  destruct (NewP2PSignerWrapper _) as [signer|]; [|by split_and!].
  destruct (NewConnectionsWatcher _ _ _) as [w|]; [|by split_and!].
  destruct (watcher_started_hosts w) as [Hcw How].
  pose proof (addComponentsToNode_hosts args (mkNode signer h 0 w) false isLogTrace now m p r) as Hcomps.
  destruct (addComponentsToNode _ _ _ _ _ _ _ _) as [[comps|err] events'] eqn:Ec; cbn [snd] in Hcomps; destruct Hcomps as [Hc Ho];
    rewrite !closed_app, !opened_app, Hcw, How, Hc, Ho; (do 2 (split; [done|])); [|done].
  destruct (addComponentsToNode_Ok _ _ _ _ _ _ _ _ _ _ Ec) as (Hself & x & Hreg & Hst). cbn [p2pHost] in Hself.
  split_and!; [done..| |by rewrite Hreg]. rewrite !started_app, Hst. unfold node_goroutines. by destruct w.
Qed.

(** ** Correctness: shutdown *)

(** Closing reaches every component, also when the host or the peerstore fails
    to close: the contexts of the channels, the refreshing of the peers on topics, the
    reconnections, the statistics, the print watcher and the context of the
    goroutines are cancelled, the host and the peerstore closed; the error
    is the one of the peerstore or else the one of the host. *)
Theorem Close_spec (netMes : messenger) w errHost errPeerStore :
  let '(err, netMes', w', events) := Close netMes w errHost errPeerStore in
  CancelContext ∈ events /\ CloseHost ∈ events /\ ClosePeerstore ∈ events /\
  err = match errPeerStore with Some e => Some e | None => errHost end /\
  ctx_done (oplb (outgoingPLB (reg netMes'))) = true /\
  PeersOnChannel.cancelled (poc netMes') = true /\
  ConnMonitor.cancelled (inner (connMonitor netMes')) = true /\
  Debugger.cancelled (debugger netMes') = true /\
  match w' with PrintWatcher pcw => Watcher.cancelled pcw = true | DisabledWatcher => True end /\
  (forall topic, registered (reg netMes') topic = registered (reg netMes) topic).
Proof. unfold Close. destruct w, errHost, errPeerStore; cbn; split_and!; set_solver || done. Qed.

End Node.

(** ** Correctness: transports *)

Section Transports.

Context (Sprintf_other : string -> Z -> string).

(** The addresses of a configuration with their errors and transports. *)
Definition sections (configs : TransportConfig) : list (string * sentinel * transport) :=
  [ (ListenAddress (TCP configs), ErrInvalidTCPAddress, TCPTransport (PreventPortReuse (TCP configs)));
    (QUICAddress configs, ErrInvalidQUICAddress, QUICTransport);
    (WebSocketAddress configs, ErrInvalidWSAddress, WSTransport);
    (WebTransportAddress configs, ErrInvalidWebTransportAddress, WebTransportTransport) ].

Definition configured (s : string * sentinel * transport) : Prop := s.1.1 ≠ "".
#[local] Instance configured_dec s : Decision (configured s).
Proof. unfold configured. apply _. Defined.
Definition bad_section (s : string * sentinel * transport) : Prop :=
  configured s /\ strictCheckStringForIntMarkup s.1.1 = false.
#[local] Instance bad_section_dec s : Decision (bad_section s).
Proof. unfold bad_section. apply _. Defined.

Definition addSections (l : list (string * sentinel * transport)) (port : Z) acc : result (list transport * list string) :=
  fold_left (fun r '(address, invalid, t) => let? a := r in addTransport Sprintf_other address invalid t port a) l (Ok acc).

Lemma addSections_spec l port acc :
  addSections l port acc =
  match list_find bad_section l with
  | Some (_, (_, invalid, _)) => Err (ErrSentinel invalid)
  | None => Ok (acc.1 ++ (filter configured l).*2, acc.2 ++ ((fun s => Sprintf Sprintf_other s.1.1 port) <$> filter configured l))
  end.
Proof.
  revert acc. induction l as [|[[address invalid] t] l IH]; intros acc.
  - cbn. rewrite !app_nil_r. by destruct acc.
  - assert (forall r, fold_left (fun r '(address, invalid, t) => let? a := r in addTransport Sprintf_other address invalid t port a) l (Err r)
              = (Err r : result (list transport * list string))) as Herr.
    { clear. induction l as [|[[address invalid] t] l IH]; [done|]. cbn [fold_left]. done. }
    unfold addSections in *. cbn [fold_left]. unfold addTransport at 2.
    destruct (decide (address = "")) as [->|Hne].
    + cbn [String.length]. change (Z.of_nat 0 >? 0) with false. cbn [fst snd].
      rewrite IH, filter_cons_False by (unfold configured; by intros []).
      cbn [list_find]. rewrite decide_False by (unfold bad_section, configured; by intros [? _]).
      by destruct (list_find bad_section l) as [[? [[? ?] ?]]|].
    + assert ((Z.of_nat (String.length address) >? 0) = true) as ->.
      { destruct address; [done|]. cbn [String.length]. apply Z.gtb_lt. lia. }
      cbn [list_find]. destruct (strictCheckStringForIntMarkup address) eqn:Es; cbn [negb].
      * rewrite decide_False by (unfold bad_section; cbn; intros [_ ?]; congruence).
        rewrite IH, filter_cons_True by done. cbn [fst snd fmap list_fmap].
        destruct (list_find bad_section l) as [[? [[? ?] ?]]|]; [done|]. by rewrite <- !app_assoc.
      * rewrite decide_True by done. apply Herr.
Qed.

(** The transports of a node: the first configured address that does not
    contain exactly one [%d] is refused with the error of its section; otherwise
    every configured section gives its transport and its address with the port
    filled in, in the order TCP, QUIC, WebSocket, WebTransport; a configuration
    without addresses is refused. *)
Theorem parseTransportOptions_spec configs port :
  parseTransportOptions Sprintf_other configs port =
  match list_find bad_section (sections configs) with
  | Some (_, (_, invalid, _)) => Err (ErrSentinel invalid)
  | None =>
      match filter configured (sections configs) with
      | [] => Err (ErrSentinel ErrNoTransportsDefined)
      | l => Ok (l.*2, (fun s => Sprintf Sprintf_other s.1.1 port) <$> l)
      end
  end.
Proof.
  assert (parseTransportOptions Sprintf_other configs port =
    let? a := addSections (sections configs) port ([], []) in
    if decide (a.2 = []) then Err (ErrSentinel ErrNoTransportsDefined) else Ok a) as ->.
  { unfold parseTransportOptions, addSections, sections. cbn [fold_left].
    by repeat (destruct (addTransport _ _ _ _ _ _); [|done]). }
  rewrite addSections_spec. destruct (list_find bad_section (sections configs)) as [[? [[? ?] ?]]|]; [done|].
  cbn [fst snd app]. by destruct (filter configured (sections configs)).
Qed.

End Transports.
