(* ===== verification/Network.v ===== *)
(** * Network: nodes that exchange messages ([libp2p/netMessenger.go],
      [libp2p/directSender.go], [libp2p/outgoingChannelLoadBalancer.go] together)

    A step relation of several nodes, each with its messenger, its direct sender
    and the goroutines of its load balancer, and of the messages between them:
    the clients broadcast and send directly, the goroutines move objects, pubsub
    spreads what was published, streams carry direct messages, and peers that do
    not run this code add messages of their own.  Of the network the model takes
    what libp2p documents: a stream belongs to the peer it says it does, and
    pubsub spreads no message in the name of a peer that did not publish it. *)

From S2P Require Import Prelude Errors Config Interfaces Cacher MutexHolder Wire TopicMessage Message.
From S2P Require Import Rating PeersHolder TopicProcessors LoadBalancer PeersOnChannel DirectSender.
From S2P Require Import Distances Sharding Debugger ConnMonitor Topics Messenger.
From Stdlib Require Import ZArith Lia String Strings.Byte.
From stdpp Require Import prelude gmap list strings pretty.

Local Open Scope Z_scope.

Section Network.

Context `{MapRange} `{SortSort}.
Context {A X SecretKey R P W D G M Th N T C S : Type}.
Context `{PubSub X} `{PeersRatingHandler R} `{PreferredPeersHolderHandler P} `{PeerDenialEvaluator D}.
Context `{Debugger G} `{Marshalizer M} `{Throttler Th} `{TimeCache T} `{Cacher C} `{SignerVerifier S}.
Context (ProcessReceivedMessage : A -> Message -> PeerID -> option error).
Context (peer_IDFromBytes : bytes -> result PeerID).
Context (UnmarshalSecp256k1PrivateKey : bytes -> result SecretKey).
Context (ListPeers : X -> string -> list PeerID).
Context (pb_Marshal : pb_Message -> result bytes) (SignPrefix : bytes).

Abbreviation messenger := (networkMessenger A X SecretKey R P W D G M Th N).
Abbreviation sendable := (SendableData SecretKey).

(** ** One node *)

(** [blocked]: the clients that wait to send an object on a channel. *)
Record node : Type := mkNode {
  mes : messenger;
  ds : directSender T C S;
  blocked : list (nat * sendable)
}.

Implicit Types (n : node) (netMes : messenger) (sd : sendable) (p q : PeerID) (m : pb_Message).

Definition set_mes netMes n : node := mkNode netMes (ds n) (blocked n).
Definition set_lb (lb : world (SendableData := sendable)) netMes : messenger :=
  set_reg (set_outgoingPLB lb (reg netMes)) netMes.
Definition lb n : world (SendableData := sendable) := outgoingPLB (reg (mes n)).

Definition new_blocked (r : result (nat * sendable)) : list (nat * sendable) :=
  match r with Ok o => [o] | Err _ => [] end.

(** What pubsub makes of a publication: the message has the identity the
    publication names or that of the host; the remaining fields are pubsub's. *)
Definition published netMes (topic : string) (pub : publication (SecretKey := SecretKey)) (seqno : bytes)
    (signature key : option bytes) : pb_Message :=
  let from := match pub_key pub with Some (_, id) => id | None => self netMes end in
  mkPb (Some (bytes_of_string from)) (Some (pub_data pub)) (Some seqno) (Some topic) signature key.

(** A round of the sending goroutine, up to the message that pubsub spreads. *)
Definition collected netMes (now : Z) (obj : option sendable) seqno signature key : list pb_Message :=
  match obj, sendRound netMes now obj with
  | Some sd, Some pub => [published netMes (Topic sd) pub seqno signature key]
  | _, _ => []
  end.

(** The messages written on the streams to a peer. *)
Definition written (events : list stream_event) : list pb_Message :=
  omap (fun e => match e with Written _ m => Some m | _ => None end) events.

(** The connections the host has to a peer lead from this node to that peer. *)
Definition host_of p (net : network) : Prop :=
  forall peer c, c ∈ ConnsToPeer net peer -> DirectSender.LocalPeer c = p /\ DirectSender.RemotePeer c = peer.

(** The settings of the messenger. *)
Inductive setting netMes : messenger -> Prop :=
| set_notifier notifier : setting netMes (AddPeerTopicNotifier netMes notifier).2
| set_threshold v peers : setting netMes (SetThresholdMinConnectedPeers netMes v peers).1.2
| set_shards psr : setting netMes (SetPeerShardResolver netMes psr).2
| set_denial handler : setting netMes (SetPeerDenialEvaluator netMes handler).2
| view_peers now topic : setting netMes (ConnectedPeersOnTopic ListPeers netMes now topic).2.

(** ** The network *)

(** What a client asked a node to send: to everybody, or to one peer. *)
Record request : Type := mkRequest {
  req_from : PeerID;
  req_topic : string;
  req_data : bytes;
  req_to : option PeerID
}.

Record netstate : Type := mkNet {
  nodes : gmap PeerID node;
  gossip : list pb_Message;
  streams : list (PeerID * PeerID * pb_Message);
  requests : list request;
  delivered : list (PeerID * call A)
}.

Implicit Types s : netstate.

Definition put p n s : netstate :=
  mkNet (<[p := n]> (nodes s)) (gossip s) (streams s) (requests s) (delivered s).
Definition add_gossip l s : netstate := mkNet (nodes s) (gossip s ++ l) (streams s) (requests s) (delivered s).
Definition add_streams l s : netstate := mkNet (nodes s) (gossip s) (streams s ++ l) (requests s) (delivered s).
Definition add_request r s : netstate := mkNet (nodes s) (gossip s) (streams s) (requests s ++ [r]) (delivered s).
Definition add_calls q (l : list (call A)) s : netstate :=
  mkNet (nodes s) (gossip s) (streams s) (requests s) (delivered s ++ ((q,.) <$> l)).

(** The identities in [honest] are used by the nodes of the network only. *)
Inductive net_step (honest : gset PeerID) : netstate -> netstate -> Prop :=
(* clients *)
| net_broadcast s p n channel topic buff r netMes :
    nodes s !! p = Some n ->
    BroadcastOnChannelBlocking (mes n) channel topic buff = Ret (r, netMes) ->
    net_step honest s (add_request (mkRequest p topic buff None)
      (put p (mkNode netMes (ds n) (blocked n ++ new_blocked r)) s))
| net_broadcast_key s p n channel topic buff pid skBytes r netMes :
    nodes s !! p = Some n ->
    BroadcastOnChannelBlockingUsingPrivateKey UnmarshalSecp256k1PrivateKey (mes n) channel topic buff pid skBytes
      = Ret (r, netMes) ->
    net_step honest s (add_request (mkRequest pid topic buff None)
      (put p (mkNode netMes (ds n) (blocked n ++ new_blocked r)) s))
| net_direct s p n now net topic buff peer err ds' netMes events :
    nodes s !! p = Some n -> clock now -> host_of p net ->
    SendToConnectedPeer peer_IDFromBytes pb_Marshal SignPrefix (mes n) (ds n) now net topic buff peer
      = Ret (err, ds', netMes, events) ->
    net_step honest s (add_request (mkRequest p topic buff (Some peer))
      (add_streams ((fun m => (p, peer, m)) <$> written events) (put p (mkNode netMes ds' (blocked n)) s)))
| net_topics s p n o :
    nodes s !! p = Some n ->
    net_step honest s (put p (set_mes (set_reg (run_op (reg (mes n)) o).2 (mes n)) n) s)
| net_setting s p n netMes :
    nodes s !! p = Some n -> setting (mes n) netMes -> net_step honest s (put p (set_mes netMes n) s)
(* goroutines *)
| net_send s p n l1 c sd l2 lb' :
    nodes s !! p = Some n -> blocked n = l1 ++ (c, sd) :: l2 -> LoadBalancer.step (lb n) (Sent c sd) lb' ->
    net_step honest s (put p (mkNode (endBroadcast (set_lb lb' (mes n))) (ds n) (l1 ++ l2)) s)
| net_balancer s p n lb' :
    nodes s !! p = Some n -> LoadBalancer.step (lb n) Moved lb' ->
    net_step honest s (put p (set_mes (set_lb lb' (mes n)) n) s)
| net_collect s p n now c obj lb' seqno signature key :
    nodes s !! p = Some n -> clock now -> LoadBalancer.step (lb n) (Collected c obj) lb' ->
    net_step honest s (add_gossip (collected (mes n) now obj seqno signature key)
      (put p (set_mes (set_lb lb' (mes n)) n) s))
| net_task s p n i calls netMes :
    nodes s !! p = Some n -> runSpawned ProcessReceivedMessage (mes n) i = (calls, netMes) ->
    net_step honest s (add_calls p calls (put p (set_mes netMes n) s))
(* arrivals *)
| net_gossip s q n now m topic from ok calls netMes :
    nodes s !! q = Some n -> m ∈ gossip s -> pb_Topic m = Some topic ->
    pubsubValidate ProcessReceivedMessage peer_IDFromBytes (mes n) now topic from m = (ok, calls, netMes) ->
    net_step honest s (add_calls q calls (put q (set_mes netMes n) s))
| net_stream s p q n now m err ds' netMes :
    nodes s !! q = Some n -> (p, q, m) ∈ streams s ->
    processReceivedDirectMessage (messageHandler peer_IDFromBytes now) pb_Marshal SignPrefix (ds n) (mes n) now (Some m) p
      = (err, ds', netMes) ->
    net_step honest s (put q (mkNode netMes ds' (blocked n)) s)
(* the other peers *)
| net_foreign_gossip s m :
    (forall h, h ∈ honest -> get_bytes (pb_From m) ≠ bytes_of_string h) -> net_step honest s (add_gossip [m] s)
| net_foreign_stream s p q m : p ∉ honest -> net_step honest s (add_streams [(p, q, m)] s).

Inductive net_reach (honest : gset PeerID) (s0 : netstate) : netstate -> Prop :=
| reach_start : net_reach honest s0 s0
| reach_step s s' : net_reach honest s0 s -> net_step honest s s' -> net_reach honest s0 s'.

(** The nodes use the marshaller [mz] and have nothing under way. *)
Definition started (mz : M) s0 : Prop :=
  gossip s0 = [] /\ streams s0 = [] /\ delivered s0 = [] /\
  forall p n, nodes s0 !! p = Some n ->
    self (mes n) = p /\ marshalizer (mes n) = mz /\ spawned (mes n) = [] /\ blocked n = [] /\
    forall c sd, goroutines (lb n) !! c ≠ Some (Forwarding (Some sd)).

(** ** The operations keep the parts of a messenger *)

Definition same_parts netMes netMes' : Prop :=
  self netMes' = self netMes /\ marshalizer netMes' = marshalizer netMes /\ reg netMes' = reg netMes.

#[local] Instance same_parts_refl : Reflexive same_parts.
Proof. by intros ?. Qed.

#[local] Instance same_parts_trans : Transitive same_parts.
Proof. intros x y z (E1 & E2 & E3) (F1 & F2 & F3). repeat split; congruence. Qed.

Lemma blacklistPid_parts netMes pid d :
  same_parts netMes (blacklistPid netMes pid d) /\ spawned (blacklistPid netMes pid d) = spawned netMes.
Proof. unfold blacklistPid. repeat case_match; done. Qed.

Lemma transform_parts netMes now m pid topic r netMes' :
  transformAndCheckMessage peer_IDFromBytes netMes now m pid topic = (r, netMes') ->
  same_parts netMes netMes' /\ spawned netMes' = spawned netMes /\
  forall msg, r = Ok msg -> NewMessage peer_IDFromBytes (Some m) (Some (marshalizer netMes)) = Ok msg.
Proof.
  unfold transformAndCheckMessage. destruct (NewMessage _ _ _) as [msg|err].
  - destruct (validMessageByTimestamp now msg); intros [= <- <-]; split_and!; done.
  - intros [= <- <-]. destruct (blacklistPid_parts netMes pid WrongP2PMessageBlacklistDuration) as [P1 E1].
    destruct (blacklistPid_parts (blacklistPid netMes pid WrongP2PMessageBlacklistDuration)
      (string_of_bytes (get_bytes (pb_From m))) WrongP2PMessageBlacklistDuration) as [P2 E2].
    split_and!; [by etrans | by rewrite E2, E1 | done].
Qed.

Lemma startBroadcast_parts netMes channel sd r netMes' :
  startBroadcast netMes channel sd = Ret (r, netMes') ->
  same_parts netMes netMes' /\ spawned netMes' = spawned netMes /\
  forall c sd', (c, sd') ∈ new_blocked r -> sd' = sd /\ checkSendableData (Buff sd) = None.
Proof.
  unfold startBroadcast. destruct (checkSendableData (Buff sd)) eqn:Ec.
  { intros [= <- <-]. split_and!; try done. set_solver. }
  destruct (negb _); [intros [= <- <-]; split_and!; try done; set_solver|].
  destruct (GetChannelOrDefault _ _); [|done]. intros [= <- <-]. split_and!; try done.
  intros c sd' Hin. cbn in Hin. apply list_elem_of_singleton in Hin. by injection Hin as -> ->.
Qed.

Lemma callHandlers_msg (handlers : list (string * A)) msg from c :
  c ∈ (callHandlers ProcessReceivedMessage handlers msg from).2 -> call_msg c = msg.
Proof.
  rewrite callHandlers_spec. cbn [snd]. intros ([i h] & -> & _)%list_elem_of_fmap. done.
Qed.

Lemma pubsubValidate_parts netMes now topic from m ok calls netMes' :
  pubsubValidate ProcessReceivedMessage peer_IDFromBytes netMes now topic from m = (ok, calls, netMes') ->
  same_parts netMes netMes' /\ spawned netMes' = spawned netMes /\
  forall c, c ∈ calls -> NewMessage peer_IDFromBytes (Some m) (Some (marshalizer netMes)) = Ok (call_msg c).
Proof.
  unfold pubsubValidate.
  destruct (ps_validators _ !! topic) as [loc|]; [|intros [= <- <- <-]; split_and!; try done; set_solver].
  destruct (procs _ !! loc) as [tp|]; [|intros [= <- <- <-]; split_and!; try done; set_solver].
  unfold pubsubCallback. destruct (transformAndCheckMessage _ _ _ _ _ _) as [[msg|err] nm] eqn:Et.
  - apply transform_parts in Et as (Ep & Es & Em).
    destruct (callHandlers _ _ _ _) as [b l] eqn:Eh. intros [= <- <- <-]. split_and!.
    + by destruct b.
    + by destruct b.
    + intros c Hc. rewrite (Em msg eq_refl). f_equal. symmetry.
      apply (callHandlers_msg (handlersOf tp) msg from). by rewrite Eh.
  - apply transform_parts in Et as (Ep & Es & _). intros [= <- <- <-]. split_and!; try done. set_solver.
Qed.

(** A task that a message left, if any. *)
Definition left_task netMes netMes' m : Prop :=
  spawned netMes' = spawned netMes \/
  exists t, spawned netMes' = spawned netMes ++ [t] /\
    NewMessage peer_IDFromBytes (Some m) (Some (marshalizer netMes)) = Ok (task_msg t).

Lemma directMessageHandler_parts netMes now m from err netMes' :
  directMessageHandler peer_IDFromBytes netMes now m from = Ret (err, netMes') ->
  same_parts netMes netMes' /\ left_task netMes netMes' m.
Proof.
  unfold directMessageHandler. destruct (pb_Topic m) as [topic|]; [|done].
  destruct (transformAndCheckMessage _ _ _ _ _ _) as [[msg|e] nm] eqn:Et;
    apply transform_parts in Et as (Ep & Es & Em).
  - destruct (Topics.processors (reg nm) !! topic) as [[loc|]|];
      [|intros [= <- <-]; split; [done | by left]..].
    destruct (procs (reg nm) !! loc) as [tp|]; [|done]. intros [= <- <-]. split; [done|].
    right. eexists. cbn [spawned set_spawned]. rewrite Es. split; [done|]. by apply Em.
  - intros [= <- <-]. split; [done | by left].
Qed.

Lemma runSpawned_parts netMes i calls netMes' :
  runSpawned ProcessReceivedMessage netMes i = (calls, netMes') ->
  same_parts netMes netMes' /\ (forall t, t ∈ spawned netMes' -> t ∈ spawned netMes) /\
  forall c, c ∈ calls -> exists t, t ∈ spawned netMes /\ call_msg c = task_msg t.
Proof.
  unfold runSpawned. destruct (spawned netMes !! i) as [t|] eqn:Et.
  - unfold runTask. destruct (callHandlers _ _ _ _) as [b l] eqn:Eh. intros [= <- <-]. split_and!.
    + by destruct b.
    + intros t' Ht'. apply (list_elem_of_delete_inv _ i). by destruct b.
    + intros c Hc. exists t. split; [by eapply list_elem_of_lookup_2|].
      apply (callHandlers_msg (task_handlers t) (task_msg t) (task_from t)). by rewrite Eh.
  - intros [= <- <-]. split_and!; [done | done | set_solver].
Qed.

(** Sending to a peer: what is written was made for the connection by the direct
    sender, and nothing else happens; a message to itself is handled at once. *)
Lemma Send_written (d : directSender T C S) net topic buff peer err d' events m :
  Send pb_Marshal SignPrefix d net topic buff peer = (err, d', events) -> m ∈ written events ->
  exists c, c ∈ ConnsToPeer net peer /\ pb_Topic m = Some topic /\ pb_Data m = Some buff /\
    pb_From m = Some (bytes_of_string (DirectSender.LocalPeer c)).
Proof.
  unfold Send. destruct (len buff >=? maxSendBuffSize); [intros [= <- <- <-]; set_solver|].
  destruct (MutexHolder.Get _ _) as [mu mutexes].
  destruct (getConnection net peer) as [c|] eqn:Ec; [|intros [= <- <- <-]; set_solver].
  destruct (getOrCreateStream net c) as [st|]; [|intros [= <- <- <-]; set_solver].
  destruct (createMessage _ _ _ _ _ _) as [[msg|] d1] eqn:Em; [|intros [= <- <- <-]; set_solver].
  intros E Hm. exists c. apply getConnection_Ok in Ec as [Hc _]. split; [done|].
  apply createMessage_Ok in Em as (b & sig & _ & _ & Emsg & _).
  assert (m = msg) as ->; [|by rewrite Emsg].
  destruct (WriteMsg net st msg); [|destruct (Flush net st)]; injection E as <- <- <-; set_solver.
Qed.

Lemma SendToConnectedPeer_parts netMes (d : directSender T C S) now net topic buff peer err d' netMes' events :
  SendToConnectedPeer peer_IDFromBytes pb_Marshal SignPrefix netMes d now net topic buff peer
    = Ret (err, d', netMes', events) ->
  same_parts netMes netMes' /\
  (forall m, m ∈ written events -> checkSendableData buff = None /\
     exists c, c ∈ ConnsToPeer net peer /\ pb_Topic m = Some topic /\
       pb_Data m = Some (createMessageBytes netMes now buff) /\
       pb_From m = Some (bytes_of_string (DirectSender.LocalPeer c))) /\
  (spawned netMes' = spawned netMes \/
   checkSendableData buff = None /\ peer = self netMes /\ exists m, left_task netMes netMes' m /\
     pb_Topic m = Some topic /\ pb_Data m = Some (createMessageBytes netMes now buff) /\
     pb_From m = Some (bytes_of_string (self netMes))).
Proof.
  unfold SendToConnectedPeer.
  destruct (checkSendableData buff) eqn:Ec; [intros [= <- <- <- <-]; split_and!; [done | set_solver | by left]|].
  destruct (len _ =? 0); [intros [= <- <- <- <-]; split_and!; [done | set_solver | by left]|].
  destruct (decide (peer = self netMes)) as [->|Hne].
  - unfold sendDirectToSelf. destruct (NextSequenceNumber d) as [seqno d1].
    destruct (directMessageHandler _ _ _ _ _) as [[e nm]|] eqn:Ed; [|done].
    apply directMessageHandler_parts in Ed as [Ep Ht]. intros [= <- <- <- <-].
    split_and!; [done | set_solver |]. right. split_and!; [done..|]. by eexists.
  - destruct (Send _ _ _ _ _ _ _) as [[e d1] ev] eqn:Es. intros [= <- <- <- <-].
    split_and!; [done | | by left]. intros m Hm. split; [done|]. by eapply Send_written.
Qed.

Lemma setting_parts netMes netMes' :
  setting netMes netMes' -> same_parts netMes netMes' /\ spawned netMes' = spawned netMes.
Proof.
  destruct 1 as [[]| | | |].
  - done.
  - done.
  - unfold SetThresholdMinConnectedPeers. destruct (_ <? 0); [done|]. by destruct (ConnMonitor.SetThresholdMinConnectedPeers _ _ _).
  - unfold SetPeerShardResolver. destruct psr; [|done]. destruct (shr_SetPeerShardResolver _ _) as [[] ?]; done.
  - unfold SetPeerDenialEvaluator. by destruct (ConnMonitor.SetPeerDenialEvaluator _ _).
  - unfold ConnectedPeersOnTopic. by destruct (ConnectedPeersOnChannel _ _ _ _).
Qed.

(** The operations on topics add channels at most. *)
Lemma run_op_balancer (ts : topicsState A X sendable) o :
  outgoingPLB (run_op ts o).2 = outgoingPLB ts \/
  exists channel, outgoingPLB (run_op ts o).2 = (AddChannel (outgoingPLB ts) channel).2.
Proof.
  destruct o as [name c|topic identifier [handler|]|topic identifier|]; cbn [run_op].
  - unfold CreateTopic. destruct (topics ts !! name); [by left|].
    destruct (ps_Join _ _) as [[t|] x]; [|by left]. destruct (ps_Subscribe _ _) as [[u|] x']; [|by left].
    destruct c; [|by left]. right. exists name. cbn.
    by destruct (AddChannel (outgoingPLB ts) name).
  - left. unfold RegisterMessageProcessor, addTopicProcessorAt, newTopicEntry. cbn zeta.
    repeat (case_match; simplify_eq/=; try done).
  - by left.
  - left. unfold UnregisterMessageProcessor. repeat (case_match; simplify_eq/=; try done).
  - left. unfold UnjoinAllTopics. generalize (go_range (topics ts)) as l, (None : option error) as e.
    intros l. revert ts. induction l as [|[t h] l IH]; intros ts e; cbn [unjoinAll]; [done|].
    destruct (ps_CloseTopic _ _) as [err x]. rewrite IH. by destruct (subscriptions ts !! t).
Qed.

(** The objects the goroutines hold were sent on the channels. *)
Lemma step_held (w : world (SendableData := sendable)) e w' c sd :
  LoadBalancer.step w e w' -> goroutines w' !! c = Some (Forwarding (Some sd)) ->
  goroutines w !! c = Some (Forwarding (Some sd)) \/ e = Sent c sd.
Proof.
  destruct 1 as [w channel|w channel|w|w c' o Hc' _|w c' _|w c' Hc' _|w c' o Hc'|w _|w c' Hc' _]; intros Hg; cbn in Hg; auto.
  - destruct (AddChannel_cases w channel) as [Ew|[_ Ew]]; rewrite Ew in Hg; [auto|]. cbn in Hg.
    destruct (decide (next_chan (oplb w) = c)) as [<-|]; simplify_map_eq; auto.
  - revert Hg. unfold RemoveChannel. repeat (case_match; cbn; auto).
  - destruct (decide (c' = c)) as [->|]; simplify_map_eq; auto.
  - destruct (decide (c' = c)) as [->|]; simplify_map_eq; auto.
  - destruct (decide (c' = c)) as [->|]; simplify_map_eq; auto.
  - destruct (decide (c' = c)) as [->|]; simplify_map_eq; auto.
Qed.

(** ** Authenticity *)

Section Authenticity.

Context `{!MarshalizerLaws M} `{!TimeCacheLaws T} `{!CacherLaws C}.

Context (mz : M) (honest : gset PeerID).
(** [peer.IDFromBytes] casts the bytes of an identifier. *)
Hypothesis IDFromBytes_cast : forall b id, peer_IDFromBytes b = Ok id -> b = bytes_of_string id.

Implicit Types (data : bytes) (to : option PeerID) (msg : Message).

Definition asked s p topic data to : Prop := mkRequest p topic data to ∈ requests s.

Definition carries_data m topic data : Prop :=
  pb_Topic m = Some topic /\ exists t, mz_Unmarshal mz (get_bytes (pb_Data m)) = Ok (plain data t).

(** An object on its way through the load balancer of [p]. *)
Definition vouched s p sd : Prop :=
  checkSendableData (Buff sd) = None /\ asked s (sendable_ID sd) (Topic sd) (Buff sd) None /\
  (Sk sd = None -> sendable_ID sd = p).

(** A direct message that [q] accepted. *)
Definition genuine s q msg : Prop :=
  PeerField msg ∈ honest -> asked s (PeerField msg) (TopicField msg) (DataField msg) (Some q).

Record node_ok s p n : Prop := {
  node_self : self (mes n) = p;
  node_mz : marshalizer (mes n) = mz;
  node_blocked c sd : (c, sd) ∈ blocked n -> vouched s p sd;
  node_held c sd : goroutines (lb n) !! c = Some (Forwarding (Some sd)) -> vouched s p sd;
  node_tasks t : t ∈ spawned (mes n) -> genuine s p (task_msg t)
}.

Record net_ok s : Prop := {
  ok_nodes p n : nodes s !! p = Some n -> node_ok s p n;
  ok_gossip m h :
    m ∈ gossip s -> h ∈ honest -> get_bytes (pb_From m) = bytes_of_string h ->
    exists topic data, carries_data m topic data /\ asked s h topic data None;
  ok_streams p q m :
    (p, q, m) ∈ streams s -> p ∈ honest ->
    exists topic data, carries_data m topic data /\ asked s p topic data (Some q);
  ok_delivered q c :
    (q, c) ∈ delivered s -> PeerField (call_msg c) ∈ honest ->
    exists to, asked s (PeerField (call_msg c)) (TopicField (call_msg c)) (DataField (call_msg c)) to /\
      (to = None \/ to = Some q)
}.

Lemma node_ok_more s s' p n : requests s ⊆ requests s' -> node_ok s p n -> node_ok s' p n.
Proof.
  intros Hr [E1 E2 Hb Hh Ht].
  assert (forall sd, vouched s p sd -> vouched s' p sd) as Hv by (intros sd (? & ? & ?); split_and!; [done | by apply Hr | done]).
  constructor; try done; eauto. intros t Hin Hp. by apply Hr, Ht.
Qed.

Lemma ok_add_request s r : net_ok s -> net_ok (add_request r s).
Proof.
  assert (requests s ⊆ requests (add_request r s)) as Hr by (cbn; set_solver).
  intros [Hn Hg Hs Hd]. constructor.
  - intros p n Hp. by eapply node_ok_more, Hn.
  - intros m h Hm Hh Ef. destruct (Hg m h Hm Hh Ef) as (topic & data & ? & ?). exists topic, data. split; [done | by apply Hr].
  - intros p q m Hm Hp. destruct (Hs p q m Hm Hp) as (topic & data & ? & ?). exists topic, data. split; [done | by apply Hr].
  - intros q c Hc Hp. destruct (Hd q c Hc Hp) as (to & ? & ?). exists to. split; [by apply Hr | done].
Qed.

Lemma ok_put s p n : net_ok s -> node_ok s p n -> net_ok (put p n s).
Proof.
  intros [Hn Hg Hs Hd] Hp. constructor; try done.
  intros p' n' Hp'. cbn in Hp'. apply (node_ok_more s); [done|].
  destruct (decide (p = p')) as [->|]; simplify_map_eq; auto.
Qed.

Lemma ok_add_gossip s l :
  net_ok s ->
  (forall m h, m ∈ l -> h ∈ honest -> get_bytes (pb_From m) = bytes_of_string h ->
     exists topic data, carries_data m topic data /\ asked s h topic data None) ->
  net_ok (add_gossip l s).
Proof.
  intros [Hn Hg Hs Hd] Hl. constructor; try done.
  - intros p n Hp. apply (node_ok_more s); [done | by apply Hn].
  - intros m h [Hm|Hm]%elem_of_app; [by apply Hg | by apply Hl].
Qed.

Lemma ok_add_streams s l :
  net_ok s ->
  (forall p q m, (p, q, m) ∈ l -> p ∈ honest ->
     exists topic data, carries_data m topic data /\ asked s p topic data (Some q)) ->
  net_ok (add_streams l s).
Proof.
  intros [Hn Hg Hs Hd] Hl. constructor; try done.
  - intros p n Hp. apply (node_ok_more s); [done | by apply Hn].
  - intros p q m [Hm|Hm]%elem_of_app; [by apply Hs | by apply Hl].
Qed.

Lemma ok_add_calls s q l :
  net_ok s ->
  (forall c, c ∈ l -> PeerField (call_msg c) ∈ honest ->
     exists to, asked s (PeerField (call_msg c)) (TopicField (call_msg c)) (DataField (call_msg c)) to /\
       (to = None \/ to = Some q)) ->
  net_ok (add_calls q l s).
Proof.
  intros [Hn Hg Hs Hd] Hl. constructor; try done.
  - intros p n Hp. apply (node_ok_more s); [done | by apply Hn].
  - intros q' c [Hc|(c' & [= -> ->] & Hc')%list_elem_of_fmap]%elem_of_app; [by apply Hd | by apply Hl].
Qed.

(** A node whose messenger changed apart from its parts. *)
Lemma node_ok_parts s p n netMes d l :
  node_ok s p n -> same_parts (mes n) netMes ->
  (forall c sd, (c, sd) ∈ l -> (c, sd) ∈ blocked n \/ vouched s p sd) ->
  (forall t, t ∈ spawned netMes -> t ∈ spawned (mes n) \/ genuine s p (task_msg t)) ->
  node_ok s p (mkNode netMes d l).
Proof.
  intros [E1 E2 Hb Hh Ht] (F1 & F2 & F3) Hl Hts. constructor; cbn.
  - congruence.
  - congruence.
  - intros c sd Hin. destruct (Hl c sd Hin); eauto.
  - intros c sd. unfold lb. cbn. rewrite F3. apply Hh.
  - intros t Hin. destruct (Hts t Hin); eauto.
Qed.

(** A node whose load balancer made a step or got a channel. *)
Lemma node_ok_balancer s p n w netMes l :
  node_ok s p n ->
  self netMes = self (mes n) -> marshalizer netMes = marshalizer (mes n) ->
  spawned netMes = spawned (mes n) -> outgoingPLB (reg netMes) = w ->
  (forall c sd, goroutines w !! c = Some (Forwarding (Some sd)) ->
     goroutines (lb n) !! c = Some (Forwarding (Some sd)) \/ (c, sd) ∈ blocked n) ->
  (forall o, o ∈ l -> o ∈ blocked n) ->
  node_ok s p (mkNode netMes (ds n) l).
Proof.
  intros [E1 E2 Hb Hh Ht] F1 F2 F3 F4 Hw Hl. constructor; cbn.
  - congruence.
  - congruence.
  - intros c sd Hin. by apply (Hb c), Hl.
  - intros c sd. unfold lb. cbn. rewrite F4. intros [?|?]%Hw; eauto.
  - rewrite F3. exact Ht.
Qed.

(** What a message that carries requested data is turned into. *)
Lemma NewMessage_carried m msg topic data :
  NewMessage peer_IDFromBytes (Some m) (Some mz) = Ok msg -> carries_data m topic data ->
  TopicField msg = topic /\ DataField msg = data.
Proof.
  intros (Et & Eu & _)%NewMessage_Ok_inv (Et' & t & Eu'). split; [congruence|].
  rewrite Eu in Eu'. by injection Eu'.
Qed.

Lemma NewMessage_from m msg :
  NewMessage peer_IDFromBytes (Some m) (Some mz) = Ok msg ->
  get_bytes (pb_From m) = bytes_of_string (PeerField msg).
Proof. by intros (_ & _ & Ei%IDFromBytes_cast & _)%NewMessage_Ok_inv. Qed.

Lemma carries_created netMes now m topic buff :
  marshalizer netMes = mz -> clock now -> checkSendableData buff = None ->
  pb_Topic m = Some topic -> pb_Data m = Some (createMessageBytes netMes now buff) -> carries_data m topic buff.
Proof.
  intros Em Hc Hb Et Ed. destruct (createMessageBytes_spec netMes now buff Hc Hb) as (b & Eb & Eu).
  split; [done|]. exists (Unix now). rewrite Ed, Eb, <- Em. exact Eu.
Qed.

(** A message left by a direct message that carries requested data. *)
Lemma left_task_genuine s q n netMes m p t :
  node_ok s q n -> left_task (mes n) netMes m -> t ∈ spawned netMes ->
  get_bytes (pb_From m) = bytes_of_string p ->
  (p ∈ honest -> exists topic data, carries_data m topic data /\ asked s p topic data (Some q)) ->
  t ∈ spawned (mes n) \/ genuine s q (task_msg t).
Proof.
  intros Hok [E|(t' & E & Em)] Ht Ef Hp; rewrite E in Ht; [by left|].
  apply elem_of_app in Ht as [Ht|Ht%list_elem_of_singleton]; [by left|]. subst t'. right.
  rewrite (node_mz _ _ _ Hok) in Em. pose proof (NewMessage_from _ _ Em) as Ef'.
  rewrite Ef in Ef'. apply bytes_of_string_inj in Ef'. intros Hh. rewrite <- Ef' in *.
  destruct (Hp Hh) as (topic & data & Hc & Ha). by destruct (NewMessage_carried _ _ _ _ Em Hc) as [-> ->].
Qed.

Lemma client_ok s p n channel sd r netMes :
  node_ok s p n -> startBroadcast (mes n) channel sd = Ret (r, netMes) ->
  asked s (sendable_ID sd) (Topic sd) (Buff sd) None -> (Sk sd = None -> sendable_ID sd = p) ->
  node_ok s p (mkNode netMes (ds n) (blocked n ++ new_blocked r)).
Proof.
  intros Hok (Ep & Es & Hr)%startBroadcast_parts Ha Hk.
  apply node_ok_parts with (n := n); [done..| |by rewrite Es; left].
  intros c sd' [Hin|Hin]%elem_of_app; [by left|]. right. by destruct (Hr c sd' Hin) as [-> ?].
Qed.

Lemma collected_ok s p n now c obj lb' seqno sig key m h :
  node_ok s p n -> clock now -> LoadBalancer.step (lb n) (Collected c obj) lb' ->
  m ∈ collected (mes n) now obj seqno sig key -> get_bytes (pb_From m) = bytes_of_string h ->
  exists topic data, carries_data m topic data /\ asked s h topic data None.
Proof.
  intros Hok Hc Hs Hm Ef. unfold collected in Hm. destruct obj as [sd|]; [|set_solver].
  assert (vouched s p sd) as (Hb & Ha & Hk).
  { apply (node_held _ _ _ Hok c). by inversion Hs. }
  unfold sendRound in Hm. destruct (topics (reg (mes n)) !! Topic sd) as [t|]; [|set_solver].
  destruct (len _ =? 0); [set_solver|]. apply list_elem_of_singleton in Hm as ->.
  exists (Topic sd), (Buff sd). split; [by apply (carries_created (mes n) now); first apply Hok|].
  unfold published, publish in Ef. cbn in Ef.
  destruct (Sk sd); apply bytes_of_string_inj in Ef as <-; [done|].
  by rewrite (node_self _ _ _ Hok), <- Hk.
Qed.

Lemma direct_ok s p n now net topic buff peer err d' netMes events :
  net_ok s -> nodes s !! p = Some n -> clock now -> host_of p net ->
  SendToConnectedPeer peer_IDFromBytes pb_Marshal SignPrefix (mes n) (ds n) now net topic buff peer
    = Ret (err, d', netMes, events) ->
  net_ok (add_request (mkRequest p topic buff (Some peer))
    (add_streams ((fun m => (p, peer, m)) <$> written events) (put p (mkNode netMes d' (blocked n)) s))).
Proof.
  intros Hok Hp Hc Hn (Ep & Hw & Ht)%SendToConnectedPeer_parts.
  set (s1 := add_request (mkRequest p topic buff (Some peer)) s).
  assert (node_ok s1 p n) as Hnode.
  { eapply node_ok_more, (ok_nodes _ Hok _ _ Hp). cbn. set_solver. }
  assert (asked s1 p topic buff (Some peer)) as Ha by (unfold asked; cbn; set_solver).
  pose proof (node_self _ _ _ Hnode) as Eself. pose proof (node_mz _ _ _ Hnode) as Emz.
  apply (ok_add_streams (put p (mkNode netMes d' (blocked n)) s1)).
  - apply ok_put; [by apply ok_add_request|]. apply node_ok_parts with (n := n); [done..| by left |].
    intros t Hin. destruct Ht as [Es|(Hb & -> & m & Hl & Et & Ed & Ef)]; [left; by rewrite <- Es|].
    rewrite Eself in *. eapply (left_task_genuine s1 p n netMes m p t); [done..| by rewrite Ef |].
    intros _. exists topic, buff. split; [by apply (carries_created (mes n) now) | done].
  - intros p' q m Hin Hh. apply list_elem_of_fmap in Hin as (m' & [= -> -> ->] & Hin).
    destruct (Hw _ Hin) as (Hb & c & _ & Et & Ed & _). exists topic, buff.
    split; [by apply (carries_created (mes n) now) | done].
Qed.

Lemma stream_ok s p q n now m err d' netMes :
  net_ok s -> nodes s !! q = Some n -> (p, q, m) ∈ streams s ->
  processReceivedDirectMessage (messageHandler peer_IDFromBytes now) pb_Marshal SignPrefix (ds n) (mes n) now (Some m) p
    = (err, d', netMes) ->
  net_ok (put q (mkNode netMes d' (blocked n)) s).
Proof.
  intros Hok Hq Hm E. pose proof (ok_nodes _ Hok _ _ Hq) as Hnode.
  assert (get_bytes (pb_From m) = bytes_of_string p /\ same_parts (mes n) netMes /\ left_task (mes n) netMes m
          \/ netMes = mes n) as Hcases.
  { apply process_cases in E as [(_ & _ & _ & ->)|[(_ & _ & _ & _ & ->)|(Hw & _ & _ & E)]]; [by right.. |].
    destruct (checkSig _ _ _ _); [right; by destruct E|].
    unfold messageHandler in E. destruct (directMessageHandler _ _ _ _ _) as [[e nm]|] eqn:Ed;
      injection E as -> ->; [left | by right].
    apply directMessageHandler_parts in Ed as [Ep Hl]. split; [apply Hw | done]. }
  apply ok_put; [done|]. destruct Hcases as [(Ef & Ep & Hl)| ->].
  - apply node_ok_parts with (n := n); [done..| by left |]. intros t Ht.
    eapply (left_task_genuine s q n netMes m p t); try done. by apply (ok_streams _ Hok).
  - apply node_ok_parts with (n := n); [done | done | by left | by left].
Qed.

Lemma gossip_ok s q n now m topic from ok calls netMes :
  net_ok s -> nodes s !! q = Some n -> m ∈ gossip s ->
  pubsubValidate ProcessReceivedMessage peer_IDFromBytes (mes n) now topic from m = (ok, calls, netMes) ->
  net_ok (add_calls q calls (put q (set_mes netMes n) s)).
Proof.
  intros Hok Hq Hm (Ep & Es & Hcalls)%pubsubValidate_parts. pose proof (ok_nodes _ Hok _ _ Hq) as Hnode.
  apply ok_add_calls.
  - apply ok_put; [done|]. apply node_ok_parts with (n := n); [done | done | by left |]. rewrite Es. by left.
  - intros c Hc Hh. specialize (Hcalls c Hc). rewrite (node_mz _ _ _ Hnode) in Hcalls.
    pose proof (NewMessage_from _ _ Hcalls) as Ef.
    destruct (ok_gossip _ Hok m _ Hm Hh Ef) as (topic' & data & Hcar & Ha).
    destruct (NewMessage_carried _ _ _ _ Hcalls Hcar) as [-> ->]. exists None. auto.
Qed.

Lemma task_ok s p n i calls netMes :
  net_ok s -> nodes s !! p = Some n -> runSpawned ProcessReceivedMessage (mes n) i = (calls, netMes) ->
  net_ok (add_calls p calls (put p (set_mes netMes n) s)).
Proof.
  intros Hok Hp (Ep & Hsub & Hcalls)%runSpawned_parts. pose proof (ok_nodes _ Hok _ _ Hp) as Hnode.
  apply ok_add_calls.
  - apply ok_put; [done|]. apply node_ok_parts with (n := n); [done | done | by left |]. intros t Ht. left. auto.
  - intros c Hc Hh. destruct (Hcalls c Hc) as (t & Ht & Em). rewrite Em in *.
    exists (Some p). split; [by apply (node_tasks _ _ _ Hnode t) | by right].
Qed.

Lemma balancer_ok s p n lb' e netMes l :
  net_ok s -> nodes s !! p = Some n -> LoadBalancer.step (lb n) e lb' ->
  (forall c sd, e = Sent c sd -> (c, sd) ∈ blocked n) -> (forall o, o ∈ l -> o ∈ blocked n) ->
  self netMes = self (mes n) -> marshalizer netMes = marshalizer (mes n) ->
  spawned netMes = spawned (mes n) -> outgoingPLB (reg netMes) = lb' ->
  net_ok (put p (mkNode netMes (ds n) l) s).
Proof.
  intros Hok Hp Hs He Hl E1 E2 E3 E4. apply ok_put; [done|].
  eapply node_ok_balancer; [by apply (ok_nodes _ Hok)|done|done|done|exact E4| |exact Hl].
  intros c sd Hg. destruct (step_held _ _ _ _ _ Hs Hg) as [?|Ee]; [by left | right; by apply He].
Qed.

Lemma net_ok_step s s' : net_ok s -> net_step honest s s' -> net_ok s'.
Proof.
  intros Hok Hs. destruct Hs as
    [s p n channel topic buff r netMes Hp E | s p n channel topic buff pid skBytes r netMes Hp E
    |s p n now net topic buff peer err d' netMes events Hp Hc Hn E | s p n o Hp | s p n netMes Hp E
    |s p n l1 c sd l2 lb' Hp El E | s p n lb' Hp E | s p n now c obj lb' seqno sig key Hp Hc E
    |s p n i calls netMes Hp E | s q n now m topic from ok calls netMes Hq Hm Et E
    |s p q n now m err d' netMes Hq Hm E | s m Hf | s p q m Hp];
    try (pose proof (ok_nodes _ Hok _ _ Hp) as Hnode).
  - apply (ok_put (add_request _ s)); [by apply ok_add_request|].
    eapply client_ok; [eapply node_ok_more, Hnode; cbn; set_solver | exact E | | ]; cbn.
    + rewrite (node_self _ _ _ Hnode). unfold asked. cbn. set_solver.
    + intros _. apply Hnode.
  - apply (ok_put (add_request _ s)); [by apply ok_add_request|].
    unfold BroadcastOnChannelBlockingUsingPrivateKey in E.
    destruct (UnmarshalSecp256k1PrivateKey skBytes) as [sk|].
    + eapply client_ok; [eapply node_ok_more, Hnode; cbn; set_solver | exact E | | done].
      unfold asked. cbn. set_solver.
    + injection E as <- <-. cbn. rewrite app_nil_r. destruct n. eapply node_ok_more, Hnode. cbn. set_solver.
  - by eapply direct_ok.
  - destruct (run_op_balancer (reg (mes n)) o) as [Eb|[channel Eb]].
    + apply ok_put; [done|]. apply node_ok_balancer with (w := lb n); try done. by left.
    + apply (balancer_ok s p n (AddChannel (lb n) channel).2 Call); try done. apply step_add.
  - apply setting_parts in E as [Ep Es]. apply ok_put; [done|].
    apply node_ok_parts with (n := n); [done | done | by left |]. rewrite Es. by left.
  - eapply balancer_ok; try done.
    + intros c' sd' [= <- <-]. rewrite El. set_solver.
    + rewrite El. set_solver.
  - by eapply balancer_ok.
  - apply ok_add_gossip; [by eapply balancer_ok|]. intros m h Hm Hh Ef. by eapply (collected_ok s).
  - by eapply task_ok.
  - by eapply gossip_ok.
  - by eapply stream_ok.
  - apply ok_add_gossip; [done|]. intros m' h ->%list_elem_of_singleton Hh Ef. by destruct (Hf h Hh).
  - apply ok_add_streams; [done|]. intros p' q' m' [= -> -> ->]%list_elem_of_singleton Hh. done.
Qed.

Lemma net_ok_started s0 : started mz s0 -> net_ok s0.
Proof.
  intros (Eg & Es & Ed & Hn). constructor.
  - intros p n Hp. destruct (Hn p n Hp) as (E1 & E2 & E3 & E4 & E5). constructor; try done.
    + rewrite E4. set_solver.
    + intros c sd Hg. by destruct (E5 c sd).
    + rewrite E3. set_solver.
  - rewrite Eg. set_solver.
  - rewrite Es. set_solver.
  - rewrite Ed. set_solver.
Qed.

(** [C3] Only what was sent is delivered.  In every execution of a network of nodes,
    among peers that send what they like in their own names, whenever a
    processor of a node is called with a message from an identity that only the
    nodes use, a client asked for exactly that to be sent: the same topic and
    the same data, in the name of that identity, and, when it was a direct
    message, to the node that got it. *)
Theorem authentic_delivery s0 s q c :
  started mz s0 -> net_reach honest s0 s -> (q, c) ∈ delivered s -> PeerField (call_msg c) ∈ honest ->
  exists to, mkRequest (PeerField (call_msg c)) (TopicField (call_msg c)) (DataField (call_msg c)) to ∈ requests s /\
    (to = None \/ to = Some q).
Proof.
  intros Hs Hr Hd Hh. assert (net_ok s) as Hok; [|by apply (ok_delivered _ Hok)].
  clear Hd. induction Hr; [by apply net_ok_started | by eapply net_ok_step].
Qed.

End Authenticity.

End Network.

(** Alice broadcasts to bob: the client hands the object to the load balancer, the
    sending goroutine collects it, pubsub brings it to bob. *)
Module Witness.

#[local] Existing Instances Messenger.Witness.rating Messenger.Witness.holder Messenger.Witness.denial
  Messenger.Witness.counter Messenger.Witness.echo.

Abbreviation node := (node (A := nat) (X := MapPubSub.t) (SecretKey := bytes)
  (R := Rating.peersRatingHandler LruCache.t LruCache.t) (P := PeersHolder.peersHolder) (W := nat)
  (D := gset string) (G := Debugger.p2pDebugger) (M := unit) (Th := nat) (N := string)
  (T := SweepCache.t) (C := LruCache.t) (S := unit)).

Definition alice : node := mkNode Messenger.Witness.alice Messenger.Witness.ds0 [].
Definition bob : node := mkNode Messenger.Witness.bob Messenger.Witness.ds0 [].
Definition s0 := mkNet (<["alice" := alice]> {["bob" := bob]}) [] [] [] [].

Definition unmarshal_sk (b : bytes) : result bytes := Ok b.
Definition list_peers (x : MapPubSub.t) (topic : string) : list PeerID := [].

Abbreviation net_step := (net_step Messenger.Witness.process Messenger.Witness.ids unmarshal_sk list_peers
  Messenger.Witness.enc []).
Abbreviation net_reach := (net_reach Messenger.Witness.process Messenger.Witness.ids unmarshal_sk list_peers
  Messenger.Witness.enc []).

Definition honest : gset PeerID := {["alice"; "bob"]}.

Lemma receiving :
  map_Forall (fun _ g => match g with Receiving => true | _ => false end = true) (goroutines (lb alice)).
Proof. apply (bool_decide_unpack _). vm_compute. exact I. Qed.

Lemma started0 : started tt s0.
Proof.
  split_and!; [done..|]. intros p n Hp. unfold s0 in Hp. cbn [nodes] in Hp.
  apply lookup_insert_Some in Hp as [[<- <-]|[_ Hp]]; [|apply lookup_singleton_Some in Hp as [<- <-]];
    (split_and!; [done..|]; intros c sd Hg; by apply receiving in Hg).
Qed.

(** The states on the way. *)
Definition sd0 : SendableData bytes := mkSendable [x61] "blocks" None "alice".
Definition broadcast := BroadcastOnChannelBlocking (mes alice) "blocks" "blocks" [x61].
Definition m1 := match broadcast with Ret (_, netMes) => netMes | Panic => mes alice end.
Definition a1 : node := mkNode m1 (ds alice) (blocked alice ++ [(1%nat, sd0)]).
Definition s1 := add_request (mkRequest "alice" "blocks" [x61] None) (put "alice" a1 s0).
Definition lb2 := set_goroutine (lb a1) 1%nat (Forwarding (Some sd0)).
Definition a2 : node := mkNode (endBroadcast (set_lb lb2 (mes a1))) (ds a1) ([] ++ []).
Definition s2 := put "alice" a2 s1.
Definition lb3 := set_goroutine (lb a2) 1%nat Receiving.
Definition a3 : node := set_mes (set_lb lb3 (mes a2)) a2.
Definition s3 :=
  add_gossip (collected (mes a2) (Messenger.Witness.now - second) (Some sd0) [x01] None None) (put "alice" a3 s2).
Definition validated := pubsubValidate Messenger.Witness.process Messenger.Witness.ids (mes bob) Messenger.Witness.now
  "blocks" "carol" Messenger.Witness.pb0.
Definition s4 := add_calls "bob" validated.1.2 (put "bob" (set_mes validated.2 bob) s3).

Lemma broadcast_ok : broadcast = Ret (Ok (1%nat, sd0), m1).
Proof. reflexivity. Qed.
Lemma validated_ok : validated = (validated.1.1, validated.1.2, validated.2).
Proof. by destruct validated as [[??]?]. Qed.
Lemma gossip3 : Messenger.Witness.pb0 ∈ gossip s3.
Proof. assert (gossip s3 = [Messenger.Witness.pb0]) as -> by (vm_compute; reflexivity). apply list_elem_of_here. Qed.

Lemma bob3 : nodes s3 !! "bob" = Some bob.
Proof.
  change (nodes s3) with (<["alice" := a3]> (<["alice" := a2]> (<["alice" := a1]> (nodes s0)))).
  by rewrite !lookup_insert_ne.
Qed.

Lemma send_ok : LoadBalancer.step (lb a1) (Sent 1%nat sd0) lb2.
Proof. apply step_send; [reflexivity | set_solver]. Qed.
Lemma collect_ok : LoadBalancer.step (lb a2) (Collected 1%nat (Some sd0)) lb3.
Proof. apply step_collect. reflexivity. Qed.
Lemma at_alice1 : nodes s1 !! "alice" = Some a1.
Proof. apply lookup_insert_eq. Qed.
Lemma at_alice2 : nodes s2 !! "alice" = Some a2.
Proof. apply lookup_insert_eq. Qed.
Lemma sent_at : clock (Messenger.Witness.now - second).
Proof. unfold clock, Messenger.Witness.now, second. lia. Qed.

Lemma step1 : net_step honest s0 s1.
Proof. exact (net_broadcast _ _ _ _ _ _ honest s0 "alice" alice "blocks" "blocks" [x61] _ m1 eq_refl broadcast_ok). Qed.
Lemma step2 : net_step honest s1 s2.
Proof.
  pose proof (net_send Messenger.Witness.process Messenger.Witness.ids unmarshal_sk list_peers
    Messenger.Witness.enc [] honest s1 "alice" a1 [] 1%nat sd0 [] lb2 at_alice1 eq_refl send_ok) as Hs.
  exact Hs.
Qed.
Lemma step3 : net_step honest s2 s3.
Proof.
  pose proof (net_collect Messenger.Witness.process Messenger.Witness.ids unmarshal_sk list_peers
    Messenger.Witness.enc [] honest s2 "alice" a2 _ 1%nat (Some sd0) lb3 [x01] None None at_alice2
    sent_at collect_ok) as Hs.
  exact Hs.
Qed.
Lemma step4 : net_step honest s3 s4.
Proof.
  exact (net_gossip _ _ _ _ _ _ honest s3 "bob" bob _ _ "blocks" "carol" _ _ _ bob3 gossip3 eq_refl validated_ok).
Qed.

Lemma reach4 : net_reach honest s0 s4.
Proof.
  apply reach_step with (s := s3); [|exact step4]. apply reach_step with (s := s2); [|exact step3].
  apply reach_step with (s := s1); [|exact step2]. apply reach_step with (s := s0); [apply reach_start | exact step1].
Qed.

Lemma delivered4 : ("bob", mkCall "second" 2%nat Messenger.Witness.msg0 "carol") ∈ delivered s4.
Proof.
  assert (delivered s4 = ("bob", mkCall "second" 2%nat Messenger.Witness.msg0 "carol") :: tl (delivered s4)) as ->;
    [vm_compute; reflexivity | apply list_elem_of_here].
Qed.

Lemma ids_cast b id : Messenger.Witness.ids b = Ok id -> b = bytes_of_string id.
Proof. intros [= <-]. by rewrite bytes_of_string_of_bytes. Qed.

Lemma authentic_delivery_witness : exists to, mkRequest "alice" "blocks" [x61] to ∈ requests s4.
Proof.
  destruct (authentic_delivery Messenger.Witness.process Messenger.Witness.ids unmarshal_sk list_peers
    Messenger.Witness.enc [] tt honest ids_cast s0 s4 "bob" _ started0 reach4 delivered4) as (to & Ht & _).
  - set_solver.
  - exists to. exact Ht.
Defined.

End Witness.
