(* ===== verification/Api.v ===== *)
(** * Api: a whole node and what is asked of it ([interface.go], [libp2p/netMessenger.go])

    The state of a node, the calls of the [Messenger] interface, and everything
    else that moves the node: messages that arrive, notifications of the host,
    goroutines.  One step is one of these; what the rest of the world answers
    during it is a record.  Theorem: whatever is asked and whatever arrives, no
    step of a node panics, but for the removal of a preferred peer.

    The goroutines of a node that change its state are steps: the refreshing of
    the peers on topics, the printing and emptying of the message statistics,
    the two resets of the connection counters, the sweep of the watcher, the
    reconnections, the channels, the broadcasts and the messages to self.  The
    others ([processLoop] of the discoverer, [CheckConnectionsBlocking],
    [checkExternalLoggers]) change the host or the loggers only; the loop of
    the discoverer is in [DiscoveryLoop]. *)

From S2P Require Import Prelude Errors Config Interfaces Cacher MutexHolder Wire TopicMessage Message.
From S2P Require Import Rating PeersHolder TopicProcessors LoadBalancer PeersOnChannel DirectSender Distances Sharding.
From S2P Require Import Watcher Debugger ConnMonitor Crypto Discovery Ports Topics Messenger PeersInfo Stats Node Network.
From Stdlib Require Import ZArith Lia String Strings.Byte.
From stdpp Require Import prelude gmap strings list pretty.

Local Open Scope Z_scope.

Section Api.

Context `{MapRange} `{SortSort}.
Context {A X SecretKey R P D M Th N T C TC S : Type}.
Context `{PubSub X} `{PeersRatingHandler R} `{PreferredPeersHolderHandler P} `{PeerDenialEvaluator D}.
Context `{Marshalizer M} `{Throttler Th} `{TimeCache T} `{Cacher C} `{TimeCacher TC} `{SignerVerifier S}.
Context (ProcessReceivedMessage : A -> Message -> PeerID -> option error).
Context (peer_IDFromBytes : bytes -> result PeerID).
Context (UnmarshalSecp256k1PrivateKey : bytes -> result SecretKey).
Context (ListPeers : X -> string -> list PeerID) (Pretty : PeerID -> string).
Context (pb_Marshal : pb_Message -> result bytes) (SignPrefix : bytes).
Context (signer_SignUsingPrivateKey : S -> bytes -> bytes -> result bytes).
(** What the table of the statistics is printed with. *)
Context (float_to_uint : Z -> float32 -> Z) (ConvertBytes : Z -> string).
Context (CreateTableString : list string -> list LineData -> result string).

Abbreviation messenger := (networkMessenger A X SecretKey R P (watcher TC) D p2pDebugger M Th N).
Abbreviation sendable := (SendableData SecretKey).

(** A goroutine of [BroadcastOnChannel] or [BroadcastOnChannelUsingPrivateKey]. *)
Inductive broadcast : Type :=
| OnChannel (channel topic : string) (buff : bytes)
| OnChannelUsingPrivateKey (channel topic : string) (buff : bytes) (pid : PeerID) (skBytes : bytes).

(** [blocked]: the goroutines that wait to send an object on a channel;
    [notified]: what the notifiers were told. *)
Record node : Type := mkNode {
  netMes : messenger;
  ds : directSender T C S;
  port : Z;
  peerDiscoverer : discoverer;
  connectionsMetric : Connections.t;
  going : list broadcast;
  blocked : list (nat * sendable);
  notified : list (N * PeerID * string)
}.

Implicit Types n : node.

Definition set_netMes m n := mkNode m (ds n) (port n) (peerDiscoverer n) (connectionsMetric n) (going n) (blocked n) (notified n).
Definition set_ds d n := mkNode (netMes n) d (port n) (peerDiscoverer n) (connectionsMetric n) (going n) (blocked n) (notified n).
Definition set_discoverer d n := mkNode (netMes n) (ds n) (port n) d (connectionsMetric n) (going n) (blocked n) (notified n).
Definition set_metric c n := mkNode (netMes n) (ds n) (port n) (peerDiscoverer n) c (going n) (blocked n) (notified n).
Definition set_going g n := mkNode (netMes n) (ds n) (port n) (peerDiscoverer n) (connectionsMetric n) g (blocked n) (notified n).
Definition set_blocked b n := mkNode (netMes n) (ds n) (port n) (peerDiscoverer n) (connectionsMetric n) (going n) b (notified n).
Definition set_notified l n := mkNode (netMes n) (ds n) (port n) (peerDiscoverer n) (connectionsMetric n) (going n) (blocked n) l.
Definition set_ts ts n := set_netMes (set_reg ts (netMes n)) n.

Abbreviation monitor n := (inner (connMonitor (netMes n))).

(** What the host, the network and the clock answer during a step. *)
Record env : Type := mkEnv {
  now : Z;
  host : PeersInfo.host;
  net : DirectSender.network;
  newDHT : option error;
  hostConnect : string -> option error;
  errHost : option error;
  errPeerStore : option error;
  polls : list poll
}.

Implicit Types e : env.

(** ** The methods that are not in another file *)

Definition ID n : PeerID := self (netMes n).
Definition Port n : Z := port n.
Definition ConnectToPeer e (address : string) : option error := hostConnect e address.

(** What [Bootstrap] answers when it does.  The optimized discoverer answers through
    its loop; once that has ended with the context, a call waits for ever
    ([DiscoveryLoop.OptimizedLoop.Bootstrap_answers]): such a call is no step. *)
Definition Bootstrap n e : option error * node :=
  match peerDiscoverer n with
  | NilDiscoverer => (nilDiscoverer_Bootstrap, n)
  | Continuous ckdd =>
      let '(err, ckdd, _) := Discovery.Bootstrap ckdd (newDHT e) in (err, set_discoverer (Continuous ckdd) n)
  | Optimized okdd =>
      let '(err, okdd, _) := Discovery.init okdd (newDHT e) in (err, set_discoverer (Optimized okdd) n)
  end.

Definition BroadcastOnChannel n (channel topic : string) (buff : bytes) : node :=
  set_going (going n ++ [OnChannel channel topic buff]) n.
Definition BroadcastOnChannelUsingPrivateKey n (channel topic : string) (buff : bytes) pid (skBytes : bytes) : node :=
  set_going (going n ++ [OnChannelUsingPrivateKey channel topic buff pid skBytes]) n.

(** A broadcast up to the send on the channel. *)
Definition begin n (r : outcome (result (nat * sendable) * messenger)) : outcome (option error * node) :=
  let! (res, m) := r in
  Ret (match res with Ok _ => None | Err err => Some err end,
       set_blocked (blocked n ++ match res with Ok o => [o] | Err _ => [] end) (set_netMes m n)).

Definition runBroadcast n (b : broadcast) : outcome (option error * node) :=
  begin n
    match b with
    | OnChannel channel topic buff => BroadcastOnChannelBlocking (netMes n) channel topic buff
    | OnChannelUsingPrivateKey channel topic buff pid skBytes =>
        BroadcastOnChannelBlockingUsingPrivateKey UnmarshalSecp256k1PrivateKey (netMes n) channel topic buff pid skBytes
    end.

(** The goroutine [i] of those that have not run. *)
Definition runGoing n (i : nat) : outcome node :=
  match going n !! i with
  | None => Ret n
  | Some b => let! (_, n) := runBroadcast (set_going (delete i (going n)) n) b in Ret n
  end.

(** ** The interface *)

Inductive request : Type :=
| Close
| GetID | GetPort
| GetPeers | GetAddresses | GetConnectedPeers | GetConnectedAddresses
| GetPeerAddresses (pid : PeerID)
| IsConnectedTo (pid : PeerID)
| GetConnectedPeersOnTopic (topic : string)
| GetConnectedFullHistoryPeersOnTopic (topic : string)
| GetPeersInfo
| DoConnectToPeer (address : string)
| DoBootstrap
| CreateTopicReq (name : string) (createChannelForTopic : bool)
| HasTopicReq (name : string)
| RegisterProcessor (topic identifier : string) (handler : option A)
| UnregisterProcessor (topic identifier : string)
| UnregisterAllProcessors
| UnjoinAll
| BroadcastBlocking (channel topic : string) (buff : bytes)
| BroadcastReq (b : broadcast)
| SendTo (topic : string) (buff : bytes) (peerID : PeerID)
| IsConnectedToNetwork
| GetThreshold
| SetThreshold (minConnectedPeers : Z)
| SetResolver (psr : option PeerShardResolver)
| SetDenialEvaluator (handler : option D)
| WaitFor (minNumOfPeers : Z)
| SignReq (payload : bytes)
| VerifyReq (payload : bytes) (pid : PeerID) (signature : bytes)
| SignWithKey (skBytes payload : bytes)
| AddNotifier (notifier : option N).

Inductive response : Type :=
| RNone
| RError (err : option error)
| RBool (b : bool)
| RInt (z : Z)
| RPeer (p : PeerID)
| RPeers (l : list PeerID)
| RStrings (l : list string)
| RInfo (i : ConnectedPeersInfo)
| RBytes (r : result bytes)
| RPolls (k : option nat).

(** [Close] closes the watcher that the monitor uses. *)
Definition close n e : option error * node :=
  let '(err, m, w, _) := Node.Close (netMes n) (connectionsWatcher (monitor n)) (errHost e) (errPeerStore e) in
  (err, set_netMes (with_monitor (set_watcher w (inner (connMonitor m))) m) n).

Definition isPreferred n : PeerID -> bool := pph_Contains (preferredPeersHolder (monitor n)).

(** The events on the network and the lines that are printed are left to the
    theorems on the methods. *)
Definition call n e (req : request) : outcome (response * node) :=
  let h := host e in
  let reg_op r := Ret (RError r.1, set_ts r.2 n) in
  match req with
  | Close => let '(err, n) := close n e in Ret (RError err, n)
  | GetID => Ret (RPeer (ID n), n)
  | GetPort => Ret (RInt (Port n), n)
  | GetPeers => Ret (RPeers (Peers h), n)
  | GetAddresses => Ret (RStrings (Addresses Pretty h), n)
  | GetConnectedPeers => Ret (RPeers (ConnectedPeers h), n)
  | GetConnectedAddresses => Ret (RStrings (ConnectedAddresses Pretty h), n)
  | GetPeerAddresses pid => Ret (RStrings (PeerAddresses h pid), n)
  | IsConnectedTo pid => Ret (RBool (IsConnected h pid), n)
  | GetConnectedPeersOnTopic topic =>
      let '(l, m) := ConnectedPeersOnTopic ListPeers (netMes n) (now e) topic in Ret (RPeers l, set_netMes m n)
  | GetConnectedFullHistoryPeersOnTopic topic =>
      let '(l, m) := ConnectedFullHistoryPeersOnTopic ListPeers (netMes n) (now e) topic in
      Ret (RPeers l, set_netMes m n)
  | GetPeersInfo =>
      Ret (RInfo (GetConnectedPeersInfo Pretty h (peerShardResolver (netMes n))
                    (shr_IsSeeder Pretty (cm_sharder (monitor n))) (isPreferred n)), n)
  | DoConnectToPeer address => Ret (RError (ConnectToPeer e address), n)
  | DoBootstrap => let '(err, n) := Bootstrap n e in Ret (RError err, n)
  | CreateTopicReq name c => reg_op (CreateTopic (reg (netMes n)) name c)
  | HasTopicReq name => Ret (RBool (HasTopic (reg (netMes n)) name), n)
  | RegisterProcessor topic identifier handler => reg_op (RegisterMessageProcessor (reg (netMes n)) topic identifier handler)
  | UnregisterProcessor topic identifier => reg_op (UnregisterMessageProcessor (reg (netMes n)) topic identifier)
  | UnregisterAllProcessors => reg_op (UnregisterAllMessageProcessors (reg (netMes n)))
  | UnjoinAll => reg_op (UnjoinAllTopics (reg (netMes n)))
  | BroadcastBlocking channel topic buff =>
      let! (err, n) := runBroadcast n (OnChannel channel topic buff) in Ret (RError err, n)
  | BroadcastReq (OnChannel channel topic buff) => Ret (RNone, BroadcastOnChannel n channel topic buff)
  | BroadcastReq (OnChannelUsingPrivateKey channel topic buff pid skBytes) =>
      Ret (RNone, BroadcastOnChannelUsingPrivateKey n channel topic buff pid skBytes)
  | SendTo topic buff peerID =>
      let! (err, d, m, _) := SendToConnectedPeer peer_IDFromBytes pb_Marshal SignPrefix (netMes n) (ds n) (now e) (net e)
                               topic buff peerID in
      Ret (RError err, set_ds d (set_netMes m n))
  | IsConnectedToNetwork => Ret (RBool (IsConnectedToTheNetwork (netMes n) (network_Peers h)), n)
  | GetThreshold => Ret (RInt (ThresholdMinConnectedPeers (netMes n)), n)
  | SetThreshold minConnectedPeers =>
      let '(err, m, _) := SetThresholdMinConnectedPeers (netMes n) minConnectedPeers (network_Peers h) in
      Ret (RError err, set_netMes m n)
  | SetResolver psr => let '(err, m) := SetPeerShardResolver (netMes n) psr in Ret (RError err, set_netMes m n)
  | SetDenialEvaluator handler => let '(err, m) := SetPeerDenialEvaluator (netMes n) handler in Ret (RError err, set_netMes m n)
  | WaitFor minNumOfPeers => Ret (RPolls (WaitForConnections (polls e) minNumOfPeers), n)
  | SignReq payload => Ret (RBytes (sv_Sign (signer (ds n)) payload), n)
  | VerifyReq payload pid signature => Ret (RError (sv_Verify (signer (ds n)) payload pid signature), n)
  | SignWithKey skBytes payload => Ret (RBytes (signer_SignUsingPrivateKey (signer (ds n)) skBytes payload), n)
  | AddNotifier notifier => let '(err, m) := AddPeerTopicNotifier (netMes n) notifier in Ret (RError err, set_netMes m n)
  end.

(** ** Everything that happens to a node *)

Inductive input : Type :=
| Call (req : request)
(* pubsub validates a message, finds a peer on a topic *)
| PubsubMessage (topic : string) (from : PeerID) (m : pb_Message)
| PeerFound (pid : PeerID) (topic : string)
(* a message is read from a stream *)
| DirectMessage (m : option pb_Message) (from : PeerID)
(* notifications of the host *)
| HostConnected (conn : netConn)
| HostDisconnected (conn : option netConn)
(* goroutines *)
| RunGoing (i : nat)
| RunSpawned (i : nat)
| MonitorTick (t : tick)
| RefreshPeers (later : string -> Z)
| PrintStatistics
| ResetConnections
| ResetDisconnections
| SweepWatcher.

(** The message handler of the direct sender; a panic ends the program. *)
Definition handleDirect e (h : outcome messenger) (m : pb_Message) (from : PeerID) :
    option error * outcome messenger :=
  match h with
  | Panic => (None, Panic)
  | Ret netMes =>
      match directMessageHandler peer_IDFromBytes netMes (now e) m from with
      | Panic => (None, Panic)
      | Ret (err, netMes) => (err, Ret netMes)
      end
  end.

(** A round of [doSweep] of the print watcher. *)
Definition sweepWatcher n e : node :=
  match connectionsWatcher (monitor n) with
  | PrintWatcher pcw =>
      match doSweep pcw (now e) with
      | Some pcw => set_netMes (with_monitor (set_watcher (PrintWatcher pcw) (monitor n)) (netMes n)) n
      | None => n
      end
  | DisabledWatcher => n
  end.

Definition handle n e (i : input) : outcome (response * node) :=
  match i with
  | Call req => call n e req
  | PubsubMessage topic from m =>
      let '(ok, _, netMes) := pubsubValidate ProcessReceivedMessage peer_IDFromBytes (netMes n) (now e) topic from m in
      Ret (RBool ok, set_netMes netMes n)
  | PeerFound pid topic =>
      let '(ok, l) := newPeerFound (netMes n) pid topic in Ret (RBool ok, set_notified (notified n ++ l) n)
  | DirectMessage m from =>
      let '(err, d, h) := processReceivedDirectMessage (handleDirect e) pb_Marshal SignPrefix (ds n) (Ret (netMes n))
                            (now e) m from in
      let! netMes := h in Ret (RError err, set_ds d (set_netMes netMes n))
  | HostConnected conn =>
      let known w pid connection := (watcher_NewKnownConnection Pretty w (now e) pid connection).2 in
      let '(cmw, _) := wrapper_Connected Pretty known (connMonitor (netMes n)) (network_Peers (host e)) conn in
      Ret (RNone, set_metric (Connections.Connected (connectionsMetric n)) (set_netMes (set_connMonitor cmw (netMes n)) n))
  | HostDisconnected conn =>
      let! (cmw, _) := wrapper_Disconnected (connMonitor (netMes n)) (network_Peers (host e)) conn in
      Ret (RNone, set_metric (Connections.Disconnected (connectionsMetric n)) (set_netMes (set_connMonitor cmw (netMes n)) n))
  | RunGoing i => let! nd := runGoing n i in Ret (RNone, nd)
  | RunSpawned i => let '(_, m) := runSpawned ProcessReceivedMessage (netMes n) i in Ret (RNone, set_netMes m n)
  | MonitorTick t =>
      match doReconnection (monitor n) t with
      | Some m => Ret (RNone, set_netMes (with_monitor m (netMes n)) n)
      | None => Ret (RNone, n)
      end
  | RefreshPeers later =>
      match refreshPeersOnAllKnownTopics (ListPeers (pb (reg (netMes n)))) (fun _ => now e) later (poc (netMes n)) with
      | Some p => Ret (RNone, set_netMes (set_poc p (netMes n)) n)
      | None => Ret (RNone, n)
      end
  | PrintStatistics =>
      match continuouslyPrintStatistics float_to_uint ConvertBytes CreateTableString (debugger (netMes n)) with
      | Some (_, pd) => Ret (RNone, set_netMes (set_debugger pd (netMes n)) n)
      | None => Ret (RNone, n)
      end
  | ResetConnections => Ret (RNone, set_metric (Connections.ResetNumConnections (connectionsMetric n)).2 n)
  | ResetDisconnections => Ret (RNone, set_metric (Connections.ResetNumDisconnections (connectionsMetric n)).2 n)
  | SweepWatcher => Ret (RNone, sweepWatcher n e)
  end.

(** The channels move by themselves; a goroutine that waits sends its object. *)
Inductive step n : node -> Prop :=
| step_handle e i r n' : handle n e i = Ret (r, n') -> step n n'
| step_channels ev w :
    ev = Moved \/ ev = CollectedDone \/ (exists c obj, ev = Collected c obj) ->
    LoadBalancer.step (outgoingPLB (reg (netMes n))) ev w ->
    step n (set_ts (set_outgoingPLB w (reg (netMes n))) n)
| step_sends l1 c sd l2 w :
    blocked n = l1 ++ (c, sd) :: l2 -> LoadBalancer.step (outgoingPLB (reg (netMes n))) (Sent c sd) w ->
    step n (set_blocked (l1 ++ l2)
              (set_netMes (endBroadcast (set_reg (set_outgoingPLB w (reg (netMes n))) (netMes n))) n)).

Inductive reach n0 : node -> Prop :=
| reach_start : reach n0 n0
| reach_step n n' : reach n0 n -> step n n' -> reach n0 n'.

(** A node as [newNetworkMessenger] leaves it. *)
Definition created n : Prop :=
  (exists x, reg (netMes n) = newTopics x) /\ going n = [] /\ blocked n = [].

(** ** What keeps a node from panicking *)

(** The default channel is there, no channel is closed, and the processors of a
    topic that has an entry are in the heap. *)
Record reg_ok (ts : topicsState A X sendable) : Prop := {
  ok_wf : LoadBalancer.wf (outgoingPLB ts);
  ok_open : LoadBalancer.closed (outgoingPLB ts) = ∅;
  ok_heap : forall topic loc, processors ts !! topic = Some (Some loc) -> is_Some (procs ts !! loc)
}.

Abbreviation heap_ok ts := (forall topic loc, processors ts !! topic = Some (Some loc) -> is_Some (procs ts !! loc)).

Lemma heap_add (ts : topicsState A X sendable) loc topic identifier (handler : A) :
  heap_ok ts -> heap_ok (addTopicProcessorAt ts loc topic identifier handler).2.
Proof.
  intros Hh. unfold addTopicProcessorAt. destruct (procs ts !! loc); [|done].
  destruct (addTopicProcessor _ _ _); [|done]. cbn. intros t0 l Hl. apply Hh in Hl.
  destruct (decide (loc = l)) as [->|]; by simplify_map_eq.
Qed.

Lemma heap_new_entry (ts : topicsState A X sendable) topic :
  heap_ok ts -> heap_ok (newTopicEntry ts topic).2.
Proof.
  intros Hh t l. cbn. destruct (decide (topic = t)) as [->|]; simplify_map_eq.
  - intros [= <-]. by simplify_map_eq.
  - intros Hl%Hh. destruct (decide (next_procs ts = l)) as [->|]; by simplify_map_eq.
Qed.

Lemma unregisterAll_heap (ts : topicsState A X sendable) entries :
  heap_ok ts -> heap_ok (unregisterAll ts entries).2 /\ outgoingPLB (unregisterAll ts entries).2 = outgoingPLB ts.
Proof.
  revert ts. induction entries as [|topic entries IH]; intros ts Hh; cbn [unregisterAll]; [done|].
  destruct (ps_UnregisterTopicValidator (pb ts) topic) as [[err|] x]; [done|].
  edestruct IH as [Ha Hb]; [|split; [exact Ha | exact Hb]]. cbn. intros t l. by intros [_ Hl%Hh]%lookup_delete_Some.
Qed.

Lemma unjoinAll_heap (ts : topicsState A X sendable) errFound entries :
  heap_ok ts -> heap_ok (unjoinAll ts errFound entries).2.
Proof.
  revert ts errFound. induction entries as [|[topic t] entries IH]; intros ts errFound Hh; cbn [unjoinAll]; [done|].
  destruct (ps_CloseTopic _ _) as [err x]. apply IH. by destruct (subscriptions ts !! topic).
Qed.

Lemma run_op_heap (ts : topicsState A X sendable) o : heap_ok ts -> heap_ok (run_op ts o).2.
Proof.
  intros Hh. destruct o as [name c|topic identifier [handler|]|topic identifier|]; cbn [run_op]; [| |done| |].
  - unfold CreateTopic. repeat (case_match; simplify_eq/=; try done).
  - unfold RegisterMessageProcessor. pose proof (heap_new_entry ts topic Hh) as Hn.
    destruct (processors ts !! topic) as [[loc|]|]; [by apply heap_add| |];
      destruct (newTopicEntry ts topic) as [loc ts'];
      destruct (ps_RegisterTopicValidator _ _ _) as [[err|] x]; first [done | by apply heap_add].
  - unfold UnregisterMessageProcessor. destruct (processors ts !! topic) as [[loc|]|] eqn:E; [|done..].
    destruct (procs ts !! loc); [|done]. destruct (removeTopicProcessor _ _) as [tp|]; [|done].
    assert (heap_ok (set_procs (<[loc := tp]> (procs ts)) ts)) as Hs.
    { cbn. intros t0 l Hl%Hh. destruct (decide (loc = l)) as [->|]; by simplify_map_eq. }
    destruct (getList tp).1; [|done]. destruct (ps_UnregisterTopicValidator _ _) as [err x]. cbn in *.
    intros t0 l Hl. destruct (decide (topic = t0)) as [->|]; simplify_map_eq. by eapply Hs.
  - by apply unjoinAll_heap.
Qed.

Lemma reg_ok_op ts o : reg_ok ts -> reg_ok (run_op ts o).2.
Proof.
  intros [Hw Ho Hh]. destruct (run_op_balancer ts o) as [E|[channel E]]; constructor; rewrite ?E; try done.
  - by apply run_op_heap.
  - eapply wf_step; [exact Hw | apply step_add].
  - by destruct (AddChannel_cases (outgoingPLB ts) channel) as [->|[_ ->]].
  - by apply run_op_heap.
Qed.

Lemma reg_ok_unregisterAll ts : reg_ok ts -> reg_ok (UnregisterAllMessageProcessors ts).2.
Proof.
  intros [Hw Ho Hh]. unfold UnregisterAllMessageProcessors.
  destruct (unregisterAll_heap ts (go_range (processors ts)).*1 Hh) as [Hh' E].
  constructor; by rewrite ?E.
Qed.

Definition kept n n' : Prop :=
  reg_ok (reg (netMes n')) /\ self (netMes n') = self (netMes n) /\ port n' = port n.

Lemma kept_parts n m : reg_ok (reg (netMes n)) -> same_parts (netMes n) m -> kept n (set_netMes m n).
Proof. intros Hok (E1 & _ & E2). split_and!; [by cbn; rewrite E2 | done..]. Qed.

Lemma directMessageHandler_returns netMes now m from :
  heap_ok (reg netMes) -> is_Some (pb_Topic m) ->
  exists err nm, directMessageHandler peer_IDFromBytes (netMes : messenger) now m from = Ret (err, nm).
Proof.
  intros Hh [topic Et]. unfold directMessageHandler. rewrite Et.
  destruct (transformAndCheckMessage _ _ _ _ _ _) as [[msg|err] nm] eqn:E; [|by eexists _, _].
  apply transform_parts in E as [(_ & _ & Er) _]. rewrite Er.
  destruct (processors (reg netMes) !! topic) as [[loc|]|] eqn:El; [|by eexists _, _..].
  destruct (Hh _ _ El) as [tp ->]. by eexists _, _.
Qed.

Lemma startBroadcast_returns netMes channel sd :
  LoadBalancer.wf (outgoingPLB (reg netMes)) ->
  exists r nm, startBroadcast (netMes : messenger) channel sd = Ret (r, nm).
Proof.
  intros W. unfold startBroadcast. destruct (checkSendableData _); [by eexists _, _|].
  destruct (negb _); [by eexists _, _|]. unfold GetChannelOrDefault.
  destruct (GetChannel_default _ W) as (d & rest & E & _). cbn [reg set_throttler].
  destruct (namesChans _ !! channel); [by eexists _, _|]. rewrite E. by eexists _, _.
Qed.

Lemma SendToConnectedPeer_returns netMes (d : directSender T C S) now net topic buff peer :
  heap_ok (reg netMes) ->
  exists r, SendToConnectedPeer peer_IDFromBytes pb_Marshal SignPrefix (netMes : messenger) d now net topic buff peer = Ret r.
Proof.
  intros Hh. unfold SendToConnectedPeer. destruct (checkSendableData buff); [by eexists|].
  destruct (len _ =? 0); [by eexists|]. destruct (decide _).
  - unfold sendDirectToSelf. destruct (NextSequenceNumber d) as [seqno d'].
    edestruct (directMessageHandler_returns netMes now) as (err & nm & ->); [done | by eexists | by eexists].
  - destruct (Send _ _ _ _ _ _ _) as [[err d'] ev]. by eexists.
Qed.

Lemma runBroadcast_ok n b :
  reg_ok (reg (netMes n)) -> exists err n', runBroadcast n b = Ret (err, n') /\ kept n n'.
Proof.
  intros Hok. unfold runBroadcast, begin. destruct b as [channel topic buff|channel topic buff pid skBytes].
  - unfold BroadcastOnChannelBlocking.
    edestruct (startBroadcast_returns (netMes n) channel) as (r & nm & E); [apply Hok|]. rewrite E.
    apply startBroadcast_parts in E as [Ep _]. eexists _, _. split; [done|]. by apply kept_parts.
  - unfold BroadcastOnChannelBlockingUsingPrivateKey. destruct (UnmarshalSecp256k1PrivateKey skBytes) as [sk|err].
    + edestruct (startBroadcast_returns (netMes n) channel) as (r & nm & E); [apply Hok|]. rewrite E.
      apply startBroadcast_parts in E as [Ep _]. eexists _, _. split; [done|]. by apply kept_parts.
    + by eexists _, _.
Qed.

Lemma close_kept n e : reg_ok (reg (netMes n)) -> kept n (close n e).2.
Proof.
  intros [Hw Ho Hh]. unfold close, Node.Close.
  destruct (watcher_Close _) as [errW w]. cbn. split_and!; [|done..].
  constructor; cbn; [|done..]. eapply wf_step; [exact Hw | apply step_close].
Qed.

(** No call panics. *)
Lemma call_ok n e req :
  reg_ok (reg (netMes n)) -> exists r n', call n e req = Ret (r, n') /\ kept n n'.
Proof.
  intros Hok. assert (kept n n) as Hn by (by split_and!).
  assert (forall o, kept n (set_ts (run_op (reg (netMes n)) o).2 n)) as Hop.
  { intros o. split_and!; [by apply reg_ok_op | done..]. }
  assert (forall m, setting ListPeers (netMes n) m -> kept n (set_netMes m n)) as Hset.
  { intros m [Ep _]%setting_parts. by apply kept_parts. }
  assert (forall o, exists r n', Ret (RError (run_op (reg (netMes n)) o).1, set_ts (run_op (reg (netMes n)) o).2 n) = Ret (r, n')
            /\ kept n n') as Hreg by (intros o; by eexists _, _).
  destruct req as [| | | | | | |pid|pid|topic|topic| |address| |name c|name|topic identifier handler|topic identifier| |
    |channel topic buff|b|topic buff peerID| | |minConnectedPeers|psr|handler|minNumOfPeers|payload|payload pid signature
    |skBytes payload|notifier]; cbn [call]; try (by eexists _, _).
  - pose proof (close_kept n e Hok) as Hc. destruct (close n e) as [err n']. by eexists _, _.
  - pose proof (Hset _ (view_peers _ (netMes n) (now e) topic)) as Hv.
    destruct (ConnectedPeersOnTopic _ _ _ _) as [l m]. by eexists _, _.
  - unfold ConnectedFullHistoryPeersOnTopic. pose proof (Hset _ (view_peers _ (netMes n) (now e) topic)) as Hv.
    destruct (ConnectedPeersOnTopic _ _ _ _) as [l m]. by eexists _, _.
  - unfold Bootstrap. destruct (peerDiscoverer n) as [|ckdd|okdd]; [by eexists _, _| |].
    + destruct (Discovery.Bootstrap _ _) as [[err d] ev]. eexists _, _. split; [done | exact Hn].
    + destruct (Discovery.init _ _) as [[err d] ev]. eexists _, _. split; [done | exact Hn].
  - exact (Hreg (OpCreate name c)).
  - exact (Hreg (OpRegister topic identifier handler)).
  - exact (Hreg (OpUnregister topic identifier)).
  - eexists _, _. split; [done|]. split_and!; [by apply reg_ok_unregisterAll | done..].
  - exact (Hreg OpUnjoinAll).
  - destruct (runBroadcast_ok n (OnChannel channel topic buff) Hok) as (err & n' & -> & Hk). by eexists _, _.
  - destruct b; eexists _, _; (split; [done | exact Hn]).
  - destruct (SendToConnectedPeer_returns (netMes n) (ds n) (now e) (net e) topic buff peerID) as [[[[err d] m] ev] E];
      [apply Hok|].
    rewrite E. apply (SendToConnectedPeer_parts _ UnmarshalSecp256k1PrivateKey) in E as [Ep _].
    eexists _, _. split; [done|]. by apply kept_parts.
  - pose proof (Hset _ (set_threshold ListPeers (netMes n) minConnectedPeers (network_Peers (host e)))) as Hv.
    destruct (SetThresholdMinConnectedPeers _ _ _) as [[err m] ev]. by eexists _, _.
  - pose proof (Hset _ (set_shards ListPeers (netMes n) psr)) as Hv.
    destruct (SetPeerShardResolver _ _) as [err m]. by eexists _, _.
  - pose proof (Hset _ (set_denial ListPeers (netMes n) handler)) as Hv.
    destruct (Messenger.SetPeerDenialEvaluator _ _) as [err m]. by eexists _, _.
  - pose proof (Hset _ (set_notifier ListPeers (netMes n) notifier)) as Hv.
    destruct (AddPeerTopicNotifier _ _) as [err m]. by eexists _, _.
Qed.

(** The handler of direct messages is called on messages with a topic only. *)
Lemma direct_returns n e m from :
  reg_ok (reg (netMes n)) ->
  exists err d nm,
    processReceivedDirectMessage (handleDirect e) pb_Marshal SignPrefix (ds n) (Ret (netMes n)) (now e) m from
      = (err, d, Ret nm) /\ same_parts (netMes n) nm.
Proof.
  intros Hok. assert (same_parts (netMes n) (netMes n)) as Hrefl by done.
  destruct (processReceivedDirectMessage _ _ _ _ _ _ _ _) as [[err d] h] eqn:E.
  destruct m as [m|]; [|injection E as <- <- <-; by eexists _, _, _].
  apply process_cases in E as [(_ & _ & _ & ->)|[(_ & _ & _ & _ & ->)|(Hw & _ & _ & E)]]; [by eexists _, _, _..|].
  destruct (checkSig _ _ _ _); [destruct E as [_ ->]; by eexists _, _, _|].
  unfold handleDirect in E.
  destruct (directMessageHandler_returns (netMes n) (now e) m from) as (err' & nm & Ed); [apply Hok | apply Hw|].
  rewrite Ed in E. injection E as -> ->. apply directMessageHandler_parts in Ed as [Ep _]. by eexists _, _, _.
Qed.

(** The one panic left: the removal of a preferred peer by its connection. *)
Definition removal_panics n (i : input) : Prop :=
  exists conn, i = HostDisconnected (Some conn) /\
    pph_Remove (preferredPeersHolder (monitor n)) (conn_ID conn) = Panic.

Lemma disconnected_ok n e conn :
  reg_ok (reg (netMes n)) ->
  match handle n e (HostDisconnected conn) with
  | Ret (_, n') => kept n n'
  | Panic => removal_panics n (HostDisconnected conn)
  end.
Proof.
  intros Hok. cbn [handle]. unfold wrapper_Disconnected, ConnMonitor.Disconnected.
  destruct conn as [conn|].
  - destruct (pph_Remove _ _) as [holder|] eqn:E; [|by exists conn].
    destruct (doReconnectionIfNeeded _ _) as [m ev]. by split_and!.
  - destruct (doReconnectionIfNeeded _ _) as [m ev]. by split_and!.
Qed.

Lemma handle_ok n e i :
  reg_ok (reg (netMes n)) ->
  match handle n e i with Ret (_, n') => kept n n' | Panic => removal_panics n i end.
Proof.
  intros Hok. assert (kept n n) as Hn by (by split_and!).
  destruct i as [req|topic from m|pid topic|m from|conn|conn|i|i|t|later| | | |]; [..|by apply disconnected_ok| | | | | | | |];
    cbn [handle].
  - destruct (call_ok n e req Hok) as (r & n' & -> & Hk). done.
  - destruct (pubsubValidate _ _ _ _ _ _ _) as [[ok l] m'] eqn:E.
    apply pubsubValidate_parts in E as [Ep _]. by apply kept_parts.
  - done.
  - destruct (direct_returns n e m from Hok) as (err & d & nm & -> & Ep). by apply (kept_parts n nm).
  - destruct (wrapper_Connected _ _ _ _ _) as [cmw ev]. by split_and!.
  - unfold runGoing. destruct (going n !! i) as [b|]; [|done].
    destruct (runBroadcast_ok (set_going (delete i (going n)) n) b Hok) as (err & n' & -> & Hk). done.
  - destruct (runSpawned _ _ _) as [l m] eqn:E. apply runSpawned_parts in E as [Ep _]. by apply kept_parts.
  - destruct (doReconnection _ _) as [m|]; [|done]. by split_and!.
  - destruct (refreshPeersOnAllKnownTopics _ _ _ _); [by apply kept_parts | done].
  - destruct (continuouslyPrintStatistics _ _ _ _) as [[? pd]|]; [by apply kept_parts | done].
  - done.
  - done.
  - unfold sweepWatcher. destruct (connectionsWatcher _) as [pcw|]; [|done]. destruct (doSweep pcw _); [by apply kept_parts | done].
Qed.

Lemma step_kept n n' : reg_ok (reg (netMes n)) -> step n n' -> kept n n'.
Proof.
  intros Hok Hs. pose proof Hok as [Hw Ho Hh]. destruct Hs as [e i r n' E|ev w Hev Hs|l1 c sd l2 w E Hs].
  - pose proof (handle_ok n e i Hok) as Hk. by rewrite E in Hk.
  - split_and!; [|done..]. constructor; cbn; [by eapply wf_step| |done].
    destruct Hev as [->|[->|(c & obj & ->)]]; inversion Hs; subst; cbn; done.
  - split_and!; [|done..]. constructor; cbn; [by eapply wf_step| |done].
    inversion Hs; subst; cbn; done.
Qed.

Lemma created_reg_ok n : created n -> reg_ok (reg (netMes n)).
Proof.
  intros ([x E] & _). rewrite E. constructor; cbn; [apply wf_new | done |].
  intros topic loc. by rewrite lookup_empty.
Qed.

Lemma reach_kept n0 n : created n0 -> reach n0 n -> kept n0 n.
Proof.
  intros Hc. induction 1 as [|n n' _ IH Hs]; [split_and!; [by apply created_reg_ok | done..]|].
  destruct IH as (Hok & E1 & E2). destruct (step_kept n n' Hok Hs) as (Hok' & E1' & E2').
  split_and!; [done | congruence | congruence].
Qed.

(** [C9] A node does not panic.  Start from a node as it is created and let
    anything happen: calls of the interface in any order and with any
    arguments, also after [Close]; messages of any form from pubsub and on
    streams, from anybody; notifications of the host; the goroutines, in any
    interleaving.  Then no call, no arrival and no round of a goroutine panics,
    with one exception: a notification of a disconnection does when the holder
    of preferred peers does on the removal.  No goroutine ever sends on a closed
    channel, and the identity and the port of the node never change. *)
Theorem node_never_panics n0 n :
  created n0 -> reach n0 n ->
  (forall e i, handle n e i = Panic -> removal_panics n i) /\
  (forall c w, ~ LoadBalancer.step (outgoingPLB (reg (netMes n))) (SendPanic c) w) /\
  ID n = ID n0 /\ Port n = Port n0.
Proof.
  intros Hc Hr. destruct (reach_kept n0 n Hc Hr) as (Hok & E1 & E2). split_and!; [| |done..].
  - intros e i E. pose proof (handle_ok n e i Hok) as Hk. by rewrite E in Hk.
  - intros c w Hs. inversion Hs as [| | | |? ? Hcl| | | |]; subst. rewrite (ok_open _ Hok) in Hcl. set_solver.
Qed.

End Api.
Arguments node : clear implicits.

(** ** The node that a construction leaves *)

Section Construction.

Context `{MapRange} `{SortSort}.
Context {A X SecretKey R P D M Th N T C TC : Type}.
Context `{PubSub X} `{PeersRatingHandler R} `{PreferredPeersHolderHandler P} `{PeerDenialEvaluator D}.
Context `{Marshalizer M} `{Throttler Th} `{TimeCache T} `{Cacher C} `{TimeCacher TC}.
Context {Host PrivateKey PrivKey OS : Type} `{TCPStack OS} (Host_ID : Host -> PeerID).

Abbreviation signing_node := (node A X SecretKey R P D M Th N T C TC (p2pSignerWrapper PrivateKey)).

Definition node_of (nd : p2pNode (TC := TC) (Host := Host) (PrivateKey := PrivateKey))
    (comps : components (A := A) (X := X) (SecretKey := SecretKey) (R := R) (P := P) (D := D) (M := M) (Th := Th)
               (N := N) (T := T) (C := C) (TC := TC) (PrivateKey := PrivateKey)) : signing_node :=
  mkNode (netMes_of comps) (ds_of comps) (Node.port nd) (peerDiscoverer_of comps) (connectionsMetric_of comps) [] [] [].

Context (Sprintf_other : string -> Z -> string) (PrivateKey_ToByteArray : PrivateKey -> result bytes).
Context (UnmarshalSecp256k1PrivateKey : bytes -> result PrivKey) (ConvertPeerID : PeerID -> bytes).
Context (NewTimeCacher : Z -> TC) (NewTimeCache : Z -> T) (NewCache : Z -> result C).
Context (NewGossipSub : Host -> list pubsub_option -> result X) (ListPeers : X -> string -> list PeerID).
Context (NewNumGoRoutinesThrottler : Z -> result Th) (LogTrace : Z) (GetLoggerLogLevel : string -> Z).

Lemma newNetworkMessenger_created args messageSigning isLogTrace now env nd comps events :
  newNetworkMessenger Host_ID Sprintf_other PrivateKey_ToByteArray UnmarshalSecp256k1PrivateKey ConvertPeerID NewTimeCacher
    NewTimeCache NewCache NewGossipSub ListPeers NewNumGoRoutinesThrottler LogTrace GetLoggerLogLevel args messageSigning
    isLogTrace now env = (Ret (Ok (nd, comps)), events) ->
  created (node_of nd comps) /\ ID (node_of nd comps) = Host_ID (p2pHost nd).
Proof.
  unfold newNetworkMessenger. destruct (Node.checkArgs args) as [[[m p] r]|]; [|done].
  destruct (constructNodeWithPortRetry _ _ _ _ _ _) as [[[nd'|]|] ev]; [|done..].
  destruct (addComponentsToNode _ _ _ _ _ _ _ _ _ _ _ _ _ _) as [[comps'|] ev'] eqn:E; [|done].
  intros [= -> -> _]. apply addComponentsToNode_Ok in E as (E & x & Ex & _).
  split; [|done]. split_and!; [by exists x | done..].
Qed.

End Construction.

Module Witness.

#[local] Existing Instances Messenger.Witness.rating Messenger.Witness.holder Messenger.Witness.denial
  Messenger.Witness.counter DirectSender.Witness.echo_signer Watcher.Witness.cacher.

Abbreviation node0 := (node nat MapPubSub.t bytes (Rating.peersRatingHandler LruCache.t LruCache.t)
  PeersHolder.peersHolder (gset string) unit nat string SweepCache.t LruCache.t (gmap string Z) unit).

Definition n0 : node0 :=
  mkNode
    (Messenger.mk "alice" (newTopics MapPubSub.empty)
       (PeersOnChannel.mk (Rating.mk (LruCache.empty 4) (LruCache.empty 4)) ∅ ∅ 3 10 false)
       0%nat (Debugger.NewP2PDebugger "alice" true) tt
       (mkWrapper (ConnMonitor.mk 3 PeersHolder.Witness.ph2 DisabledWatcher NilListShr Idle false) DisabledEvaluator)
       unknownPeerShardResolver_GetPeerInfo [] [])
    DirectSender.Witness.ds0 4000 NilDiscoverer Connections.NewConnections [] [] [].

Definition e0 : env :=
  mkEnv Messenger.Witness.now Stats.Witness.h0 DirectSender.Witness.net None (fun _ => None) None None [].

Definition list_peers (x : MapPubSub.t) (topic : string) : list PeerID := [].
Definition to_uint (w : Z) (f : float32) : Z := 0.
Definition show_bytes (z : Z) : string := pretty z.
Definition show_table (h : list string) (lines : list LineData) : result string := Ok "".
Definition sign_with (s : unit) (sk b : bytes) : result bytes := Ok (sk ++ b).

Abbreviation handle0 := (handle Messenger.Witness.process Messenger.Witness.ids (fun b => Ok b) list_peers
  (fun p => p) DirectSender.Witness.enc [] sign_with to_uint show_bytes show_table).

(** A topic, a broadcast after [Close]. *)
Definition run (n : node0) (i : input) : node0 := match handle0 n e0 i with Ret (_, n') => n' | Panic => n end.
Definition n1 : node0 := run n0 (Call (CreateTopicReq "blocks" true)).
Definition n2 : node0 := run n1 (Call Close).

Lemma api_reach2 : reach Messenger.Witness.process Messenger.Witness.ids (fun b => Ok b) list_peers
  (fun p => p) DirectSender.Witness.enc [] sign_with to_uint show_bytes show_table n0 n2.
Proof.
  eapply reach_step; [eapply reach_step; [apply reach_start|]|].
  - apply (step_handle _ _ _ _ _ _ _ _ _ _ _ n0 e0 (Call (CreateTopicReq "blocks" true)) (RError None)). vm_compute. reflexivity.
  - apply (step_handle _ _ _ _ _ _ _ _ _ _ _ n1 e0 (Call Close) (RError None)). vm_compute. reflexivity.
Qed.

Lemma created_n0 : created n0.
Proof. split_and!; [by exists MapPubSub.empty | done..]. Qed.

Lemma node_never_panics_witness :
  handle0 n2 e0 (Call (BroadcastBlocking "blocks" "blocks" [x61])) ≠ Panic /\ ID n2 = "alice".
Proof.
  destruct (node_never_panics Messenger.Witness.process Messenger.Witness.ids (fun b => Ok b) list_peers
    (fun p => p) DirectSender.Witness.enc [] sign_with to_uint show_bytes show_table n0 n2 created_n0 api_reach2) as (Hp & _ & Hid & _).
  split; [|exact Hid]. intros E. destruct (Hp _ _ E) as (conn & Ei & _). discriminate.
Defined.

End Witness.
