(* ===== verification/Gossip.v ===== *)
(** * Gossip: how a message spreads over the nodes of a topic ([libp2p/netMessenger.go])

    A node tells pubsub through the answer of its validator whether a message is
    passed on: "if the function returns a non nil value, the received message
    will not be propagated to its connected peers" ([interface.go]).  Here one
    message spreads over nodes that validate it with
    [Messenger.pubsubValidate].  What is pubsub's own is what it documents and
    what the repository sets: a node hands a copy that comes to it to the
    validator unless its cache of seen messages has the message, the publisher
    first; it remembers the message for at least [pubsub.TimeCacheDuration],
    which [init] sets to [pubsubTimeCacheDuration], and may forget it from then
    on; it sends a copy to the peers it forwards to when the validator accepted
    the message.  To whom pubsub forwards and how far the clock of a node is
    from the true time are parameters; the copies under way arrive in any order
    and after any time.

    A message is acceptable for longer (from 20 s before its timestamp to 600 s
    after it) than a node remembers it (600 s): a node can process it twice. *)

From S2P Require Import Prelude Errors Config Interfaces Cacher Wire TopicMessage Message.
From S2P Require Import TopicProcessors LoadBalancer Rating PeersHolder PeersOnChannel Distances Sharding ConnMonitor Debugger Topics Messenger Network.
From Stdlib Require Import ZArith Lia String Sorted.
From stdpp Require Import prelude gmap list strings relations sorting.

Section Gossip.

Context `{MapRange} `{SortSort}.
Context {A X SecretKey R P W D G M Th N : Type}.
Context `{PubSub X} `{PeersRatingHandler R} `{PreferredPeersHolderHandler P} `{PeerDenialEvaluator D}.
Context `{Debugger G} `{Marshalizer M} `{Throttler Th}.
Context (ProcessReceivedMessage : A -> Message -> PeerID -> option error).
Context (peer_IDFromBytes : bytes -> result PeerID).

Abbreviation messenger := (networkMessenger A X SecretKey R P W D G M Th N).

(** The peers to which pubsub forwards at a node, and what the clock of a node shows
    at a true time; the message, its topic, what it decodes to and who publishes
    it. *)
Context (mesh : PeerID -> list PeerID) (local : PeerID -> Z -> Z).
Context (m : pb_Message) (topic : string) (msg : Message) (src : PeerID).

(** In the life span of the cache a clock does not fall behind. *)
Definition keeps_pace : Prop :=
  forall v t t', (t + pubsubTimeCacheDuration <= t' -> local v t + pubsubTimeCacheDuration <= local v t')%Z.

(** A validation: where, of a copy from whom, when, and what the validator did. *)
Record validation : Type := mkValidation {
  at_node : PeerID;
  from : PeerID;
  at_time : Z;
  answer : bool;
  made : list (call A)
}.

(** [time]: the true time; [cache]: the nodes that remember the message, and since
    when; [copies]: under way, from and to; [validations]: all so far. *)
Record state : Type := mk {
  members : gmap PeerID messenger;
  time : Z;
  cache : gmap PeerID Z;
  copies : list (PeerID * PeerID);
  validations : list validation
}.

Implicit Types (s : state) (u v w : PeerID) (netMes : messenger) (x y : validation).

Definition set_copies l s : state := mk (members s) (time s) (cache s) l (validations s).
Definition set_cache c s : state := mk (members s) (time s) c (copies s) (validations s).
Definition set_time t s : state := mk (members s) t (cache s) (copies s) (validations s).

(** The validation at [v] of the copy that came from [u]: the message is remembered
    whatever the answer. *)
Definition validated s v u netMes (rest : list (PeerID * PeerID)) : state :=
  let '(ok, calls, netMes) :=
    pubsubValidate ProcessReceivedMessage peer_IDFromBytes netMes (local v (time s)) topic u m in
  mk (<[v := netMes]> (members s)) (time s) (<[v := time s]> (cache s))
     (rest ++ if ok then (v,.) <$> mesh v else [])
     (validations s ++ [mkValidation v u (time s) ok calls]).

(** A copy arrives. *)
Inductive arrives s : state -> Prop :=
| validates l1 u v l2 netMes :
    copies s = l1 ++ (u, v) :: l2 -> cache s !! v = None -> members s !! v = Some netMes ->
    clock (local v (time s)) -> arrives s (validated s v u netMes (l1 ++ l2))
| knows l1 u v l2 :
    copies s = l1 ++ (u, v) :: l2 -> is_Some (cache s !! v) -> arrives s (set_copies (l1 ++ l2) s)
| leaves l1 u v l2 :
    copies s = l1 ++ (u, v) :: l2 -> members s !! v = None -> arrives s (set_copies (l1 ++ l2) s).

(** None does: time passes, and caches are swept. *)
Inductive idles s : state -> Prop :=
| passes t : (time s <= t)%Z -> idles s (set_time t s)
| forgets v t :
    cache s !! v = Some t -> (t + pubsubTimeCacheDuration <= time s)%Z -> idles s (set_cache (delete v (cache s)) s).

(** [k] copies have arrived. *)
Inductive reach s0 : nat -> state -> Prop :=
| reach_start : reach s0 0 s0
| reach_arrives k s s' : reach s0 k s -> arrives s s' -> reach s0 (S k) s'
| reach_idles k s s' : reach s0 k s -> idles s s' -> reach s0 k s'.

Definition receives (mz : M) netMes : Prop :=
  wf (reg netMes) /\ registered (reg netMes) topic ≠ ∅ /\ marshalizer netMes = mz.

(** Nodes with processors on the topic and one marshaller; the publisher is about
    to validate its own message. *)
Definition published_by s : Prop :=
  cache s = ∅ /\ copies s = [(src, src)] /\ validations s = [] /\
  is_Some (members s !! src) /\
  exists mz, NewMessage peer_IDFromBytes (Some m) (Some mz) = Ok msg /\
    forall v netMes, members s !! v = Some netMes -> receives mz netMes.

(** The validations of a node, those in the window of the message, the calls made. *)
Definition timely x : Prop := in_window (local (at_node x) (at_time x)) (TimestampField msg).
#[local] Instance timely_dec x : Decision (timely x).
Proof. unfold timely, in_window. apply _. Defined.

Definition visits s v : list validation := filter (fun x => at_node x = v) (validations s).
Definition timely_visits s v : list validation := filter timely (visits s v).
Definition calls_at s v : list (call A) := visits s v ≫= made.
Definition passed s u : Prop := exists x, x ∈ visits s u /\ answer x = true.

Definition handlers_at s v : gmap string A :=
  match members s !! v with Some netMes => registered (reg netMes) topic | None => ∅ end.
Definition all_calls_at s v u : list (call A) := all_calls (handlers_at s v) msg u.

(** Where a copy may come from. *)
Definition relay s u v : Prop := (u = src /\ v = src) \/ (passed s u /\ v ∈ mesh u).

(** What the validator of a node makes of the message. *)
Definition judged s0 x : Prop :=
  (timely x -> made x ≡ₚ all_calls_at s0 (at_node x) (from x) /\
     (answer x = true <-> all_succeed ProcessReceivedMessage (handlers_at s0 (at_node x)) msg (from x))) /\
  (~ timely x -> made x = [] /\ answer x = false).

(** Two validations at one node are the life span of the cache apart. *)
Definition apart x y : Prop := at_node x = at_node y -> (at_time x + pubsubTimeCacheDuration <= at_time y)%Z.

(** The cache has the last validation of a node, or forgot it. *)
Definition remembered s x : Prop :=
  match cache s !! at_node x with
  | Some t => at_time x = t \/ (at_time x + pubsubTimeCacheDuration <= t)%Z
  | None => (at_time x + pubsubTimeCacheDuration <= time s)%Z
  end.

Definition copies_made (l : list validation) : nat :=
  sum_list_with (fun v => length (mesh v)) (at_node <$> filter (fun x => answer x = true) l).

Record spread s0 (k : nat) s : Prop := {
  sp_members v : match members s0 !! v, members s !! v with
                 | Some n0, Some n => same_parts n0 n
                 | None, None => True
                 | _, _ => False
                 end;
  sp_visit x : x ∈ validations s ->
                 is_Some (members s0 !! at_node x) /\ relay s (from x) (at_node x) /\ judged s0 x /\
                 clock (local (at_node x) (at_time x)) /\ (time s0 <= at_time x <= time s)%Z /\ remembered s x;
  sp_cached v : is_Some (cache s !! v) -> visits s v ≠ [];
  sp_since v t : cache s !! v = Some t -> (time s0 <= t <= time s)%Z;
  sp_copies u v : (u, v) ∈ copies s -> relay s u v;
  sp_source : visits s src ≠ [] \/ (src, src) ∈ copies s;
  sp_forward u v : passed s u -> v ∈ mesh u -> is_Some (members s0 !! v) -> visits s v ≠ [] \/ (u, v) ∈ copies s;
  sp_apart : StronglySorted apart (validations s);
  sp_count : k + length (copies s) = S (copies_made (validations s));
  sp_time : (time s0 <= time s)%Z
}.

(** What the validator of a node makes of the message, when it comes. *)
Lemma validation_outcome mz s0 k s v u netMes :
  NewMessage peer_IDFromBytes (Some m) (Some mz) = Ok msg ->
  (forall v netMes, members s0 !! v = Some netMes -> receives mz netMes) ->
  spread s0 k s -> members s !! v = Some netMes -> clock (local v (time s)) ->
  let '(ok, calls, netMes') :=
    pubsubValidate ProcessReceivedMessage peer_IDFromBytes netMes (local v (time s)) topic u m in
  same_parts netMes netMes' /\ judged s0 (mkValidation v u (time s) ok calls).
Proof.
  intros Hm Hrec Hsp Hv Hc. pose proof (sp_members _ _ _ Hsp v) as Hp. rewrite Hv in Hp.
  destruct (members s0 !! v) as [n0|] eqn:E0; [|done]. destruct Hp as (_ & Em & Er).
  destruct (Hrec _ _ E0) as (Hwf & Hne & Emz).
  assert (handlers_at s0 v = registered (reg netMes) topic) as Eh by (unfold handlers_at; by rewrite E0, Er).
  unfold judged, timely, all_calls_at. cbn [at_node from at_time answer made]. rewrite Eh. rewrite <- Er in Hwf, Hne.
  destruct (pubsubValidate _ _ _ _ _ _ _) as [[ok calls] netMes'] eqn:E.
  split; [by apply pubsubValidate_parts in E as [Ep _]|].
  destruct (pubsubValidate_eq ProcessReceivedMessage peer_IDFromBytes netMes (local v (time s)) topic u m Hwf Hne)
    as (tp & Etp & E').
  rewrite E' in E. rewrite <- Etp.
  assert (NewMessage peer_IDFromBytes (Some m) (Some (marshalizer netMes)) = Ok msg) as Hm' by (by rewrite Em, Emz).
  split; intros Hw.
  - pose proof (pubsubCallback_accepted ProcessReceivedMessage peer_IDFromBytes netMes _ tp topic u m msg Hc (conj Hm' Hw)) as Hcb.
    rewrite E in Hcb. by destruct Hcb as (? & ? & _).
  - destruct (pubsubCallback_refused ProcessReceivedMessage peer_IDFromBytes netMes (local v (time s)) tp topic u m Hc) as [nm En].
    { intros msg' [E'' ?]. rewrite Hm' in E''. congruence. }
    rewrite E in En. by injection En as -> -> _.
Qed.

Lemma copies_split l1 u v (l2 : list (PeerID * PeerID)) a b :
  (a, b) ∈ l1 ++ (u, v) :: l2 <-> (a, b) ∈ l1 ++ l2 \/ (a = u /\ b = v).
Proof.
  rewrite !elem_of_app, elem_of_cons. split; [|intuition (subst; auto)].
  intros [?|[[= -> ->]|?]]; auto.
Qed.

(** A copy that changes nothing: the node knows the message, or is not there. *)
Lemma spread_drop s0 k s l1 u v l2 :
  is_Some (members s0 !! src) -> spread s0 k s -> copies s = l1 ++ (u, v) :: l2 ->
  visits s v ≠ [] \/ members s0 !! v = None -> spread s0 (S k) (set_copies (l1 ++ l2) s).
Proof.
  intros Hsrc Hsp E Hv. destruct Hsp as [Hm Hx Hca Hsi Hc Hs Hf Ha Hn Ht].
  assert (forall a b, is_Some (members s0 !! b) -> visits s b ≠ [] \/ (a, b) ∈ copies s ->
            visits s b ≠ [] \/ (a, b) ∈ l1 ++ l2) as Hdrop.
  { intros a b Hb [?|Hin]; [by left|]. rewrite E in Hin. apply copies_split in Hin as [?|[-> ->]]; [by right|].
    left. destruct Hv as [?|Hv]; [done|]. rewrite Hv in Hb. by destruct Hb. }
  constructor; try done.
  - intros a b Hin. apply Hc. rewrite E. apply copies_split. by left.
  - by apply Hdrop.
  - intros a b Ha' Hb Hi. apply Hdrop; [done|]. by apply Hf.
  - cbn [copies set_copies validations]. rewrite <- Hn, E, !length_app. cbn. lia.
Qed.

Lemma members_none s0 k s v : spread s0 k s -> members s !! v = None <-> members s0 !! v = None.
Proof. intros Hsp. pose proof (sp_members _ _ _ Hsp v). by destruct (members s0 !! v), (members s !! v). Qed.

Lemma visits_snoc ms t ca cp l x v :
  visits (mk ms t ca cp (l ++ [x])) v = filter (fun x => at_node x = v) l ++ if decide (at_node x = v) then [x] else [].
Proof. unfold visits. cbn [validations]. rewrite filter_app. by rewrite filter_cons. Qed.

Lemma elem_of_visits s v x : x ∈ visits s v <-> at_node x = v /\ x ∈ validations s.
Proof. unfold visits. by rewrite list_elem_of_filter. Qed.

Lemma relay_more s s' u v : (forall w, passed s w -> passed s' w) -> relay s u v -> relay s' u v.
Proof. intros Hp [[-> ->]|[? ?]]; [by left | right; auto]. Qed.

(** One more validation. *)
Lemma spread_validated mz s0 k s l1 u v l2 netMes :
  NewMessage peer_IDFromBytes (Some m) (Some mz) = Ok msg ->
  (forall v netMes, members s0 !! v = Some netMes -> receives mz netMes) ->
  spread s0 k s -> copies s = l1 ++ (u, v) :: l2 -> cache s !! v = None -> members s !! v = Some netMes ->
  clock (local v (time s)) -> spread s0 (S k) (validated s v u netMes (l1 ++ l2)).
Proof.
  intros Hmsg Hrec Hsp E Hns Hv Hc.
  pose proof (validation_outcome mz s0 k s v u netMes Hmsg Hrec Hsp Hv Hc) as Hval.
  unfold validated. destruct (pubsubValidate _ _ _ _ _ _ _) as [[ok calls] netMes'].
  destruct Hval as (Hparts & Hout). destruct Hsp as [Hm Hx Hca Hsi Hcp Hs Hf Ha Hn Ht].
  set (x := mkValidation v u (time s) ok calls) in *. set (s' := mk _ _ _ _ _).
  assert (forall w, visits s' w = visits s w ++ if decide (v = w) then [x] else []) as Hvis.
  { intros w. unfold s'. rewrite visits_snoc. done. }
  assert (forall w, passed s' w <-> passed s w \/ (w = v /\ ok = true)) as Hpass.
  { intros w. unfold passed. rewrite Hvis. destruct (decide (v = w)) as [<-|Hne].
    - setoid_rewrite elem_of_app. setoid_rewrite list_elem_of_singleton. split.
      + intros (y & [?| ->] & ?); [left; by exists y | by right].
      + intros [(y & ? & ?)|[_ ->]]; [exists y; auto | exists x; auto].
    - rewrite app_nil_r. naive_solver. }
  assert (forall a b, relay s a b -> relay s' a b) as Hrel.
  { intros a b. apply relay_more. intros z. rewrite Hpass. by left. }
  assert (relay s u v) as Huv by (apply Hcp; rewrite E; apply copies_split; by right).
  assert (forall a b, (a, b) ∈ copies s' <-> (a, b) ∈ l1 ++ l2 \/ (a = v /\ ok = true /\ b ∈ mesh v)) as Hcop.
  { intros a b. cbn. rewrite elem_of_app. destruct ok; [|set_solver].
    rewrite list_elem_of_fmap. split; [intros [?|(z & [= -> ->] & ?)]; auto|].
    intros [?|(-> & _ & ?)]; [by left | right; by exists b]. }
  assert (forall b, visits s b ≠ [] -> visits s' b ≠ []) as Hmore.
  { intros b Hb. rewrite Hvis. by destruct (visits s b). }
  assert (visits s' v ≠ []) as Hhere by (rewrite Hvis, decide_True by done; by destruct (visits s v)).
  assert (forall a b, visits s b ≠ [] \/ (a, b) ∈ copies s -> visits s' b ≠ [] \/ (a, b) ∈ copies s') as Hstay.
  { intros a b [?|Hin]; [left; auto|]. rewrite E in Hin.
    apply copies_split in Hin as [?|[-> ->]]; [right; apply Hcop; by left | by left]. }
  assert (forall y, y ∈ validations s -> at_node y = v -> (at_time y + pubsubTimeCacheDuration <= time s)%Z) as Hlong.
  { intros y Hy Ey. destruct (Hx y Hy) as (_ & _ & _ & _ & _ & Hr). unfold remembered in Hr. by rewrite Ey, Hns in Hr. }
  constructor.
  - intros w. cbn. specialize (Hm w). destruct (decide (v = w)) as [<-|Hne]; [|by rewrite lookup_insert_ne].
    rewrite lookup_insert_eq. rewrite Hv in Hm. destruct (members s0 !! v); [|done].
    destruct Hm as (? & ? & ?), Hparts as (? & ? & ?). repeat split; congruence.
  - intros y [Hy| ->%list_elem_of_singleton]%elem_of_app.
    + destruct (Hx y Hy) as (? & ? & ? & ? & [Hlo Hhi] & Hr). split_and!; [done | by apply Hrel | done | done | exact Hlo | exact Hhi |].
      unfold remembered. cbn [cache s' time]. destruct (decide (v = at_node y)) as [Ey|Hne].
      * rewrite Ey, lookup_insert_eq. right. by apply Hlong.
      * by rewrite lookup_insert_ne.
    + split_and!; [|by apply Hrel | done | done | cbn; lia | cbn; lia |].
      * specialize (Hm v). rewrite Hv in Hm. cbn. by destruct (members s0 !! v).
      * unfold remembered. cbn. rewrite lookup_insert_eq. by left.
  - intros w. cbn [cache s']. destruct (decide (v = w)) as [<-|Hne]; [done|]. rewrite lookup_insert_ne by done.
    intros Hw. by apply Hmore, Hca.
  - intros w t. cbn [cache s' time]. rewrite lookup_insert_Some. intros [[_ <-]|[_ ?]]; [lia | by apply Hsi with w].
  - intros a b [Hin|(-> & -> & Hy)]%Hcop.
    + apply Hrel, Hcp. rewrite E. apply copies_split. by left.
    + right. split; [apply Hpass; by right | done].
  - by apply Hstay.
  - intros a b [Hx'|[-> ->]]%Hpass Hy Hi; [by apply Hstay, Hf|]. right. apply Hcop. by right.
  - apply StronglySorted_app_2; [|done | repeat constructor]. intros y z Hy ->%list_elem_of_singleton Ey. by apply Hlong.
  - cbn [copies validations s']. unfold copies_made in *. rewrite filter_app, fmap_app, sum_list_with_app.
    rewrite E, length_app in Hn. cbn [length] in Hn. rewrite !length_app. unfold x.
    destruct ok; [rewrite filter_cons_True by done | rewrite filter_cons_False by done];
      cbn [fmap list_fmap at_node sum_list_with filter list_filter length]; rewrite ?length_fmap; lia.
  - done.
Qed.

(** Time passes; a cache is swept. *)
Lemma spread_idles s0 k s s' : spread s0 k s -> idles s s' -> spread s0 k s'.
Proof.
  intros [Hm Hx Hca Hsi Hc Hs Hf Ha Hn Ht] [t Hle|v t Ev Hold]; constructor; try done.
  - intros x Hin. destruct (Hx x Hin) as (? & ? & ? & ? & [? ?] & Hr). split_and!; [done..|cbn; lia|].
    unfold remembered in *. cbn. destruct (cache s !! at_node x); [done | lia].
  - intros v t' Hv. cbn in *. apply Hsi in Hv. lia.
  - cbn. lia.
  - intros x Hin. destruct (Hx x Hin) as (? & ? & ? & ? & [? ?] & Hr). split_and!; [done..|].
    unfold remembered in *. cbn. destruct (decide (v = at_node x)) as [->|]; [|by rewrite lookup_delete_ne].
    rewrite lookup_delete_eq. rewrite Ev in Hr. lia.
  - intros w. cbn. intros [? [_ Hw]%lookup_delete_Some]. apply Hca. by eexists.
  - intros w t'. cbn. intros [_ Hw]%lookup_delete_Some. by apply Hsi with w.
Qed.

Lemma spread_start s0 : published_by s0 -> spread s0 0 s0.
Proof.
  intros (En & Ec & Ev & Hsrc & _).
  constructor; unfold passed, visits; rewrite ?En, ?Ec, ?Ev; try done.
  - intros v. by destruct (members s0 !! v).
  - intros x Hx%list_elem_of_In. done.
  - intros v. rewrite lookup_empty. by intros [? ?].
  - intros u v [= -> ->]%list_elem_of_singleton. by left.
  - right. by apply list_elem_of_singleton.
  - intros u v (x & Hx%list_elem_of_In & _). done.
  - constructor.
Qed.

Lemma spread_reach s0 k s : published_by s0 -> reach s0 k s -> spread s0 k s.
Proof.
  intros Hs0. pose proof Hs0 as (_ & _ & _ & Hsrc & mz & Hm & Hrec).
  induction 1 as [|k s s' _ Hsp Hs|k s s' _ Hsp Hs]; [by apply spread_start| |by eapply spread_idles].
  destruct Hs as [l1 u v l2 netMes E Hn Hv Hc| |].
  - by eapply spread_validated.
  - eapply spread_drop; [done..|]. left. by apply (sp_cached _ _ _ Hsp).
  - eapply spread_drop; [done..|]. right. by apply (members_none s0 k s).
Qed.

(** ** How often a node validates *)

Lemma sorted_filter (Q : validation -> Prop) `{!forall x, Decision (Q x)} l :
  StronglySorted apart l -> StronglySorted apart (filter Q l).
Proof.
  induction 1 as [|x l Hs IH Hf]; [constructor|]. rewrite filter_cons. destruct (decide (Q x)); [|done].
  constructor; [done|]. apply Forall_forall. intros y [_ Hy]%list_elem_of_filter. by eapply Forall_forall in Hf.
Qed.

(** Two timely validations of a node: the first was not after the timestamp. *)
Lemma timely_apart x y :
  keeps_pace ->
  clock (local (at_node x) (at_time x)) -> clock (local (at_node y) (at_time y)) ->
  at_node x = at_node y -> timely x -> timely y -> apart x y ->
  (at_time x + pubsubTimeCacheDuration <= at_time y /\ Unix (local (at_node x) (at_time x)) <= TimestampField msg)%Z.
Proof.
  intros Hpace Cx Cy E Hx Hy Ha. specialize (Ha E). split; [done|]. apply (Hpace (at_node x)) in Ha. revert Hx Hy. unfold timely, in_window.
  destruct (Unix_clock _ Cx) as [-> _], (Unix_clock _ Cy) as [-> _]. rewrite <- E. unfold pubsubTimeCacheDuration, second in *.
  intros _ [Hy _]. set (a := local (at_node x) (at_time x)) in *. set (b := local (at_node x) (at_time y)) in *.
  pose proof (Z.div_le_mono (a + 600 * 1000000000) b 1000000000) as Hd.
  rewrite Z.div_add in Hd by done. lia.
Qed.

(** At most two, and then the message was stamped in advance. *)
Definition rarely (l : list validation) : Prop :=
  l = [] \/ (exists x, l = [x]) \/
  exists x y, l = [x; y] /\ (at_time x + pubsubTimeCacheDuration <= at_time y)%Z /\
              (Unix (local (at_node x) (at_time x)) <= TimestampField msg)%Z.

Lemma timely_visits_rarely s0 k s v : keeps_pace -> spread s0 k s -> rarely (timely_visits s v).
Proof.
  intros Hpace Hsp.
  assert (StronglySorted apart (timely_visits s v)) as Hs by apply sorted_filter, sorted_filter, (sp_apart _ _ _ Hsp).
  assert (forall x, x ∈ timely_visits s v -> at_node x = v /\ timely x /\ clock (local (at_node x) (at_time x))) as Hall.
  { intros x [Ht [? Hin]%elem_of_visits]%list_elem_of_filter. by destruct (sp_visit _ _ _ Hsp x Hin) as (_ & _ & _ & ? & _). }
  assert (forall x y l, timely_visits s v = x :: y :: l ->
            (at_time x + pubsubTimeCacheDuration <= at_time y /\ Unix (local (at_node x) (at_time x)) <= TimestampField msg)%Z) as Htwo.
  { intros x y l E. rewrite E in Hs, Hall. apply StronglySorted_inv in Hs as [_ Hxy]. destruct (Hall x) as (? & ? & ?), (Hall y) as (? & ? & ?); [set_solver..|].
    apply timely_apart; try done; [congruence|]. by eapply Forall_inv. }
  destruct (timely_visits s v) as [|x [|y [|z l]]] eqn:E; [by left | right; left; by exists x | right; right; by exists x, y; eauto|].
  exfalso. destruct (Htwo x y (z :: l) eq_refl) as [Hxy _]. apply StronglySorted_inv in Hs as [Hs _]. apply StronglySorted_inv in Hs as [_ Hyz'].
  destruct (Hall x) as (Nx & Tx & Cx), (Hall z) as (Nz & Tz & Cz); [set_solver..|].
  destruct (Hall y) as (Ny & Ty & Cy); [set_solver|].
  assert (apart y z) as Hyz by by eapply Forall_inv. specialize (Hyz ltac:(congruence)).
  revert Tx Tz. unfold timely, in_window. destruct (Unix_clock _ Cx) as [-> _], (Unix_clock _ Cz) as [-> _].
  apply (Hpace v) in Hxy, Hyz. rewrite Nx, Nz. unfold pubsubTimeCacheDuration, second in *. intros [_ Tx] [Tz _].
  pose proof (Z.div_le_mono (local v (at_time x) + 1200 * 1000000000) (local v (at_time z)) 1000000000) as Hd.
  rewrite Z.div_add in Hd by done. lia.
Qed.

(** Every timely validation calls every processor, no other one calls any. *)
Lemma calls_at_timely s0 k s v :
  spread s0 k s -> calls_at s v ≡ₚ timely_visits s v ≫= (fun x => all_calls_at s0 v (from x)).
Proof.
  intros Hsp. unfold calls_at, timely_visits.
  assert (forall x, x ∈ visits s v -> at_node x = v /\ judged s0 x) as Hall.
  { intros x [? Hx]%elem_of_visits. by destruct (sp_visit _ _ _ Hsp x Hx) as (_ & _ & ? & _). }
  induction (visits s v) as [|x l IH]; [done|]. destruct (Hall x) as [En [Hyes Hno]]; [by left|]. rewrite filter_cons.
  cbn [mbind list_bind]. rewrite IH by (intros y Hy; apply Hall; by right).
  destruct (decide (timely x)) as [Hx|Hx]; cbn [mbind list_bind].
  - f_equiv. rewrite <- En. by apply Hyes.
  - by destruct (Hno Hx) as [-> _].
Qed.

(** While the cache has not expired a node validates once. *)
Lemma visits_once s0 k s v :
  spread s0 k s -> (time s < time s0 + pubsubTimeCacheDuration)%Z -> visits s v = [] \/ exists x, visits s v = [x].
Proof.
  intros Hsp Hlt. assert (StronglySorted apart (visits s v)) as Hs by apply sorted_filter, (sp_apart _ _ _ Hsp).
  assert (forall x, x ∈ visits s v -> at_node x = v /\ (time s0 <= at_time x <= time s)%Z) as Hall.
  { intros x [? Hx]%elem_of_visits. by destruct (sp_visit _ _ _ Hsp x Hx) as (_ & _ & _ & _ & ? & _). }
  destruct (visits s v) as [|x [|y l]]; [by left | right; by exists x|]. exfalso.
  destruct (Hall x) as [Ex ?], (Hall y) as [Ey ?]; [set_solver..|].
  apply StronglySorted_inv in Hs as [_ Hxy]. apply Forall_inv in Hxy. specialize (Hxy ltac:(congruence)). lia.
Qed.

(** ** How many copies are made *)

(** The copies that nodes that all accept once make, and the publisher's. *)
Definition total s0 : nat := S (sum_list_with (fun v => length (mesh v)) (map_to_list (members s0)).*1).

Lemma sum_list_partition (f : PeerID -> nat) u l :
  sum_list_with f l = length (filter (fun v => v = u) l) * f u + sum_list_with f (filter (fun v => v ≠ u) l).
Proof.
  induction l as [|v l IH]; [done|]. rewrite !filter_cons. cbn [sum_list_with].
  destruct (decide (v = u)) as [->|Hne]; [rewrite decide_False by auto; cbn; lia | rewrite decide_True by done; cbn; lia].
Qed.

Lemma sum_list_bounded (f : PeerID -> nat) n d l :
  (forall v, v ∈ l -> v ∈ d) -> (forall v, length (filter (fun w => w = v) l) <= n) ->
  sum_list_with f l <= n * sum_list_with f d.
Proof.
  revert l. induction d as [|u d IH]; intros l Hd Hn.
  - destruct l as [|v l]; [cbn; lia|]. specialize (Hd v). set_solver.
  - rewrite (sum_list_partition f u l). cbn [sum_list_with].
    assert (sum_list_with f (filter (fun v => v ≠ u) l) <= n * sum_list_with f d) as Hrest.
    { apply IH.
      - intros v [Hv Hin]%list_elem_of_filter. apply Hd in Hin. set_solver.
      - intros v. etrans; [|apply (Hn v)]. rewrite list_filter_filter. apply length_filter_impl. by intros w _ [? _]. }
    specialize (Hn u). nia.
Qed.

Lemma copies_made_le s0 k s n :
  spread s0 k s -> (forall v, length (filter (fun x => answer x = true) (visits s v)) <= n) ->
  k + length (copies s) <= S (n * pred (total s0)).
Proof.
  intros Hsp Hn. rewrite (sp_count _ _ _ Hsp). apply le_n_S, sum_list_bounded.
  - intros v (x & -> & [_ Hx]%list_elem_of_filter)%list_elem_of_fmap.
    destruct (sp_visit _ _ _ Hsp x Hx) as ([netMes E] & _). apply list_elem_of_fmap.
    exists (at_node x, netMes). split; [done | by apply elem_of_map_to_list].
  - intros v. etrans; [|apply (Hn v)]. unfold visits. generalize (validations s) as l.
    induction l as [|x l IH]; [done|]. rewrite !filter_cons. destruct (decide (answer x = true)) as [Ha|Ha]; cbn [fmap list_fmap];
      rewrite ?filter_cons; destruct (decide (at_node x = v)); rewrite ?filter_cons_True, ?filter_cons_False by done; cbn [length]; lia.
Qed.

(** Only timely validations pass the message on. *)
Lemma arrivals_le s0 k s : keeps_pace -> spread s0 k s -> k <= 2 * total s0.
Proof.
  intros Hpace Hsp. cut (k + length (copies s) <= S (2 * pred (total s0))); [unfold total; cbn [pred]; lia|].
  apply copies_made_le; [done|]. intros v.
  assert (length (filter (fun x => answer x = true) (visits s v)) <= length (timely_visits s v)) as Hsub.
  { apply length_filter_impl. intros x [_ Hx]%elem_of_visits Ha. destruct (sp_visit _ _ _ Hsp x Hx) as (_ & _ & [_ Hno] & _).
    destruct (decide (timely x)) as [?|Hx']; [done|]. destruct (Hno Hx'). congruence. }
  destruct (timely_visits_rarely s0 k s v Hpace Hsp) as [E|[[x E]|(x & y & E & _)]]; rewrite E in Hsub; cbn in Hsub; lia.
Qed.

Lemma arrivals_once s0 k s : spread s0 k s -> (time s < time s0 + pubsubTimeCacheDuration)%Z -> k + length (copies s) <= total s0.
Proof.
  intros Hsp Hlt. etrans; [apply (copies_made_le s0 k s 1 Hsp)|unfold total; lia]. intros v.
  destruct (visits_once s0 k s v Hsp Hlt) as [->|[x ->]]; [cbn; lia|]. rewrite filter_cons. destruct (decide _); cbn; lia.
Qed.

Lemma at_rest s0 k s :
  spread s0 k s -> copies s = [] ->
  visits s src ≠ [] /\ forall u v, passed s u -> v ∈ mesh u -> is_Some (members s0 !! v) -> visits s v ≠ [].
Proof.
  intros Hsp E. pose proof (sp_source _ _ _ Hsp) as Hs. pose proof (sp_forward _ _ _ Hsp) as Hf. rewrite E in Hs, Hf.
  split; [destruct Hs; set_solver|]. intros u v Hu Hv Hi. destruct (Hf u v Hu Hv Hi); set_solver.
Qed.

(** [C4] A message goes where nodes pass it on, and no node processes it more than
    twice.  While a message spreads, from its publisher on, in any order of the
    copies and over any time, with clocks that do not fall behind: every validation is of a copy that the publisher,
    or a node that accepted the message, sent to the node; in the window of the
    timestamp it calls each of the processors once with the decoded message and
    answers true exactly when none fails, so that a node where one fails passes
    it to nobody; outside the window it calls none and refuses.  A node
    validates the message in its window at most twice, and twice only when ten
    minutes have passed in between and its clock had not passed the timestamp
    the first time: nothing else is processed.  At most twice as many copies
    arrive as all nodes send once, and when none are left, the publisher and
    all the nodes to which an accepting node forwards have validated it. *)
Theorem message_spreads s0 k s :
  keeps_pace -> published_by s0 -> reach s0 k s ->
  (forall v x, x ∈ visits s v -> relay s (from x) v /\ judged s0 x) /\
  (forall v, rarely (timely_visits s v) /\
     calls_at s v ≡ₚ timely_visits s v ≫= (fun x => all_calls_at s0 v (from x))) /\
  k <= 2 * total s0 /\
  (copies s = [] ->
     visits s src ≠ [] /\
     forall u v, passed s u -> v ∈ mesh u -> is_Some (members s0 !! v) -> visits s v ≠ []).
Proof.
  intros Hpace Hs0 Hr. pose proof (spread_reach s0 k s Hs0 Hr) as Hsp. split_and!.
  - intros v x [<- Hx]%elem_of_visits. by destruct (sp_visit _ _ _ Hsp x Hx) as (_ & ? & ? & _).
  - intros v. split; [by eapply timely_visits_rarely | by eapply calls_at_timely].
  - by apply (arrivals_le s0 k s).
  - by apply (at_rest s0 k s).
Qed.

(** ** It comes to rest, everywhere *)

(** The copies delivered in the order in which they were sent, at once. *)
Definition deliver s : state :=
  match copies s with
  | [] => s
  | (u, v) :: l =>
      match cache s !! v, members s !! v with
      | None, Some netMes => validated s v u netMes l
      | _, _ => set_copies l s
      end
  end.

Fixpoint deliver_all (fuel : nat) s : state :=
  match fuel, copies s with
  | O, _ | _, [] => s
  | S fuel, _ :: _ => deliver_all fuel (deliver s)
  end.

Lemma validated_eq s v u netMes (rest : list (PeerID * PeerID)) : exists (ok : bool) calls netMes',
  validated s v u netMes rest =
    mk (<[v := netMes']> (members s)) (time s) (<[v := time s]> (cache s))
       (rest ++ if ok then (v,.) <$> mesh v else []) (validations s ++ [mkValidation v u (time s) ok calls]).
Proof.
  unfold validated. destruct (pubsubValidate _ _ _ _ _ _ _) as [[ok calls] netMes']. by exists ok, calls, netMes'.
Qed.

Lemma deliver_arrives s :
  copies s ≠ [] -> (forall v, is_Some (members s !! v) -> clock (local v (time s))) -> arrives s (deliver s).
Proof.
  intros Hne Hc. unfold deliver. destruct (copies s) as [|[u v] l] eqn:E; [done|].
  destruct (cache s !! v) as [t|] eqn:Ec; [apply (knows s [] u v l); [done | by exists t]|].
  destruct (members s !! v) as [netMes|] eqn:Em; [|by apply (leaves s [] u v l)].
  apply (validates s [] u v l); [done..|]. apply Hc. by exists netMes.
Qed.

(** All validations so far were in the window. *)
Definition all_timely s : Prop := forall x, x ∈ validations s -> timely x.

Lemma deliver_timely s :
  (forall v, is_Some (members s !! v) -> in_window (local v (time s)) (TimestampField msg)) ->
  all_timely s -> all_timely (deliver s) /\ time (deliver s) = time s.
Proof.
  intros Hw Ht. unfold deliver. destruct (copies s) as [|[u v] l]; [done|].
  destruct (cache s !! v); [done|]. destruct (members s !! v) as [netMes|] eqn:Em; [|done].
  destruct (validated_eq s v u netMes l) as (ok & calls & nm & ->). cbn [time]. split; [|done].
  intros x [?| ->%list_elem_of_singleton]%elem_of_app; [by apply Ht|]. apply (Hw v). by exists netMes.
Qed.

Lemma members_some s0 k s v : spread s0 k s -> is_Some (members s !! v) <-> is_Some (members s0 !! v).
Proof. intros Hsp. rewrite <- !not_eq_None_Some. by rewrite (members_none s0 k s v Hsp). Qed.

(** The clocks of all nodes are in the window at [t]. *)
Definition window_at s0 (t : Z) : Prop :=
  forall v, is_Some (members s0 !! v) -> clock (local v t) /\ in_window (local v t) (TimestampField msg).

Lemma deliver_all_reach s0 k s fuel :
  published_by s0 -> window_at s0 (time s0) -> reach s0 k s -> time s = time s0 -> all_timely s ->
  let s' := deliver_all fuel s in
  exists k', reach s0 k' s' /\ time s' = time s0 /\ all_timely s' /\ (copies s' = [] \/ k' = k + fuel).
Proof.
  intros Hs0 Hw. revert k s. induction fuel as [|fuel IH]; intros k s Hr Et Ha; cbn [deliver_all].
  - exists k. split_and!; [done..|]. right. lia.
  - destruct (copies s) eqn:E; [exists k; auto|].
    assert (forall v, is_Some (members s !! v) -> clock (local v (time s)) /\ in_window (local v (time s)) (TimestampField msg)) as Hw'.
    { intros v Hv. rewrite Et. apply Hw. by apply (members_some s0 k s v (spread_reach s0 k s Hs0 Hr)). }
    destruct (deliver_timely s) as [Ha' Et']; [intros; by apply Hw' | done|].
    destruct (IH (S k) (deliver s)) as (k' & Hr' & ? & ? & Hend); [|congruence|done|].
    + eapply reach_arrives; [done|]. apply deliver_arrives; [by rewrite E | intros; by apply Hw'].
    + exists k'. split_and!; [done..|]. destruct Hend as [?| ->]; [by left | right; lia].
Qed.

Lemma deliver_all_rests s0 :
  published_by s0 -> window_at s0 (time s0) ->
  let s := deliver_all (S (total s0)) s0 in
  exists k, reach s0 k s /\ time s = time s0 /\ all_timely s /\ copies s = [].
Proof.
  intros Hs0 Hw. pose proof Hs0 as (_ & _ & Ev & _).
  destruct (deliver_all_reach s0 0 s0 (S (total s0)) Hs0 Hw (reach_start s0)) as (k & Hr & Et & Ha & [E|E]); [done| |by exists k|].
  { intros x. rewrite Ev. by intros ?%list_elem_of_In. }
  pose proof (arrivals_once s0 k _ (spread_reach s0 k _ Hs0 Hr)) as Hle.
  cbn [Nat.add] in E. unfold pubsubTimeCacheDuration, second in Hle. lia.
Qed.

(** When nobody refuses the message and everybody is connected, everybody has it
    at rest. *)
Lemma spread_complete s0 k s v :
  published_by s0 -> reach s0 k s -> all_timely s ->
  (forall v u, all_succeed ProcessReceivedMessage (handlers_at s0 v) msg u) ->
  rtc (fun u w => w ∈ mesh u /\ is_Some (members s0 !! w)) src v ->
  copies s = [] -> exists x, x ∈ timely_visits s v.
Proof.
  intros Hs0 Hr Ht Hok Hv E. pose proof (spread_reach s0 k s Hs0 Hr) as Hsp.
  destruct (at_rest s0 k s Hsp E) as [Hsrc Hf].
  assert (forall v, visits s v ≠ [] -> exists x, x ∈ visits s v /\ timely x) as Hvt.
  { intros w Hw. destruct (visits s w) as [|x l] eqn:Ew; [done|]. exists x. split; [by left|].
    apply Ht. assert (x ∈ visits s w) as [_ ?]%elem_of_visits by (rewrite Ew; by left). done. }
  assert (forall v, visits s v ≠ [] -> passed s v) as Hpass.
  { intros w (x & Hx & Hxt)%Hvt. exists x. split; [done|]. apply elem_of_visits in Hx as [<- Hx].
    destruct (sp_visit _ _ _ Hsp x Hx) as (_ & _ & [Hyes _] & _). by apply Hyes. }
  assert (visits s v ≠ []) as (x & Hx & Hxt)%Hvt.
  { revert v Hv. apply rtc_ind_r; [done|]. intros u w _ [Hm Hi] IH. by apply (Hf u w); [apply Hpass| |]. }
  exists x. by apply list_elem_of_filter.
Qed.

(** [C1] Everybody gets the message, once, when it spreads in time.  Let no processor
    fail and every node of the topic be reachable from the publisher along the
    peers to which pubsub forwards.  While less than ten minutes (the life span
    of the caches) have passed since the publication and the nodes validated the
    message in the window of its timestamp: at most as many copies have arrived
    as all nodes send once, another can arrive as long as some are under way,
    and when none is left every node has called each of its processors exactly
    once with the decoded message, whatever the order of the arrivals.  When
    the clocks of the nodes are in the window at the publication, delivering
    the copies in their order comes to such an end. *)
Theorem message_reaches_everyone s0 :
  published_by s0 ->
  (forall v u, all_succeed ProcessReceivedMessage (handlers_at s0 v) msg u) ->
  (forall v, is_Some (members s0 !! v) -> rtc (fun u w => w ∈ mesh u /\ is_Some (members s0 !! w)) src v) ->
  (forall k s, reach s0 k s -> (time s < time s0 + pubsubTimeCacheDuration)%Z -> all_timely s ->
     k <= total s0 /\
     (copies s ≠ [] -> (forall v, is_Some (members s0 !! v) -> clock (local v (time s))) -> exists s', arrives s s') /\
     (copies s = [] -> forall v, is_Some (members s0 !! v) -> exists u, calls_at s v ≡ₚ all_calls_at s0 v u)) /\
  (window_at s0 (time s0) ->
     let s := deliver_all (S (total s0)) s0 in
     exists k, reach s0 k s /\ time s = time s0 /\ all_timely s /\ copies s = []).
Proof.
  intros Hs0 Hok Hconn. split; [|by apply deliver_all_rests].
  intros k s Hr Hlt Ht. pose proof (spread_reach s0 k s Hs0 Hr) as Hsp. split_and!.
  - pose proof (arrivals_once s0 k s Hsp Hlt). lia.
  - intros Hne Hc. exists (deliver s). apply deliver_arrives; [done|]. intros v Hv. apply Hc. by apply (members_some s0 k s v).
  - intros E v Hv. destruct (spread_complete s0 k s v Hs0 Hr Ht Hok (Hconn v Hv) E) as [x Hx].
    exists (from x). rewrite (calls_at_timely s0 k s v Hsp).
    destruct (visits_once s0 k s v Hsp Hlt) as [Ev|[y Ev]]; unfold timely_visits in *; rewrite Ev in *; [by apply list_elem_of_In in Hx|].
    rewrite filter_cons in *. destruct (decide (timely y)); [|by apply list_elem_of_In in Hx].
    apply list_elem_of_singleton in Hx as ->. cbn. by rewrite app_nil_r.
Qed.

(** ** A message stamped in advance is processed twice *)



End Gossip.
Arguments state : clear implicits.

(** Three nodes in a line with true clocks; a processor of the second one fails, or
    none does. *)
Module Witness.

#[local] Existing Instances Messenger.Witness.rating Messenger.Witness.holder Messenger.Witness.denial
  Messenger.Witness.counter.

Definition line (p : PeerID) : list PeerID :=
  if decide (p = "bob") then ["alice"; "carol"] else ["bob"].
Definition true_clock (_ : PeerID) (t : Z) : Z := t.

Lemma true_pace : keeps_pace true_clock.
Proof. intros v t t' Ht. exact Ht. Qed.

Definition refusing (me : PeerID) : Messenger.Witness.node :=
  set_reg (run_ops (newTopics MapPubSub.empty) [OpCreate "blocks" true; OpRegister "blocks" "strict" (Some 13%nat)])
    (Messenger.Witness.new_node me).

Lemma refusing_wf : wf (reg (refusing "bob")).
Proof. apply run_ops_refines, wf_newTopics; reflexivity. Qed.

Definition begin_with (bob : Messenger.Witness.node) (t : Z) := mk
  (<["alice" := Messenger.Witness.alice]> (<["bob" := bob]> {["carol" := Messenger.Witness.new_node "carol"]}))
  t ∅ [("alice", "alice")] [].

Abbreviation start bob := (begin_with bob Messenger.Witness.now).
Abbreviation run bob := (deliver_all Messenger.Witness.process Messenger.Witness.ids line true_clock Messenger.Witness.pb0 "blocks"
  (S (Gossip.total line (start bob))) (start bob)).

Lemma published bob t :
  wf (reg bob) -> registered (reg bob) "blocks" ≠ ∅ ->
  published_by Messenger.Witness.ids Messenger.Witness.pb0 "blocks" Messenger.Witness.msg0 "alice" (begin_with bob t).
Proof.
  intros Hwf Hne. split_and!; [reflexivity..| |].
  - exists Messenger.Witness.alice. reflexivity.
  - exists tt. split; [apply Messenger.Witness.accepts0|]. intros v netMes. unfold begin_with. cbn [members].
    rewrite !lookup_insert_Some, lookup_singleton_Some.
    intros [[_ <-]|[_ [[_ <-]|[_ [_ <-]]]]]; (split_and!; [| |by destruct (marshalizer _)]); first
      [exact Hwf | exact Hne | exact Messenger.Witness.topics0_wf | exact Messenger.Witness.registered0].
Qed.

Lemma window bob : window_at true_clock Messenger.Witness.msg0 (start bob) Messenger.Witness.now.
Proof.
  intros v _. unfold true_clock.
  split; [exact Messenger.Witness.now_clock | apply Messenger.Witness.accepts0].
Qed.

Lemma refusing_registered : registered (reg (refusing "bob")) "blocks" ≠ ∅.
Proof. intros E. apply (f_equal (fun m => m !! "strict")) in E. vm_compute in E. discriminate. Qed.

(** Bob, whose processor fails, validates the message at most twice, alice once. *)
Lemma message_spreads_witness :
  visits (run (refusing "bob")) "alice" ≠ [] /\
  rarely true_clock Messenger.Witness.msg0 (timely_visits true_clock Messenger.Witness.msg0 (run (refusing "bob")) "bob").
Proof.
  pose proof (published (refusing "bob") Messenger.Witness.now refusing_wf refusing_registered) as Hp.
  destruct (deliver_all_rests Messenger.Witness.process Messenger.Witness.ids line true_clock Messenger.Witness.pb0 "blocks"
    Messenger.Witness.msg0 "alice" _ Hp (window _)) as (k & Hr & _ & _ & E).
  destruct (message_spreads _ _ _ _ _ _ _ _ _ k _ true_pace Hp Hr) as (_ & Hrare & _ & Hrest).
  split; [exact (proj1 (Hrest E)) | exact (proj1 (Hrare "bob"))].
Defined.

Lemma line_connected t v :
  is_Some (members (begin_with Messenger.Witness.bob t) !! v) ->
  rtc (fun u w => w ∈ line u /\ is_Some (members (begin_with Messenger.Witness.bob t) !! w)) "alice" v.
Proof.
  intros [n Hn]. unfold begin_with in Hn. cbn [members] in Hn.
  rewrite !lookup_insert_Some, lookup_singleton_Some in Hn.
  assert (rtc (fun u w => w ∈ line u /\ is_Some (members (begin_with Messenger.Witness.bob t) !! w)) "alice" "bob") as Hb.
  { apply rtc_once. split; [by left | by exists Messenger.Witness.bob]. }
  destruct Hn as [[<- _]|[_ [[<- _]|[_ [<- _]]]]]; [apply rtc_refl | exact Hb |].
  eapply rtc_r; [exact Hb|]. split; [by right; left | by eexists].
Qed.

Lemma all_accept t v u :
  all_succeed Messenger.Witness.process (handlers_at "blocks" (begin_with Messenger.Witness.bob t) v) Messenger.Witness.msg0 u.
Proof.
  unfold handlers_at, begin_with. cbn [members].
  assert (all_succeed Messenger.Witness.process (registered Messenger.Witness.topics0 "blocks") Messenger.Witness.msg0 u) as Ha.
  { apply map_Forall_to_list. vm_compute. repeat constructor. }
  destruct (decide (v = "alice")) as [->|]; [rewrite lookup_insert_eq; exact Ha|].
  rewrite lookup_insert_ne by done. destruct (decide (v = "bob")) as [->|]; [rewrite lookup_insert_eq; exact Ha|].
  rewrite lookup_insert_ne by done. destruct (decide (v = "carol")) as [->|]; [rewrite lookup_singleton_eq; exact Ha|].
  rewrite lookup_singleton_ne by done. apply map_Forall_empty.
Qed.

Lemma bob_wf : wf (reg Messenger.Witness.bob).
Proof. exact Messenger.Witness.topics0_wf. Qed.

Lemma bob_published t :
  published_by Messenger.Witness.ids Messenger.Witness.pb0 "blocks" Messenger.Witness.msg0 "alice" (begin_with Messenger.Witness.bob t).
Proof. exact (published Messenger.Witness.bob t bob_wf Messenger.Witness.registered0). Qed.

(** Carol, two hops away, has called her processors once. *)
Lemma message_reaches_everyone_witness :
  copies (run Messenger.Witness.bob) = [] /\
  exists u, calls_at (run Messenger.Witness.bob) "carol"
    ≡ₚ all_calls_at "blocks" Messenger.Witness.msg0 (start Messenger.Witness.bob) "carol" u.
Proof.
  destruct (message_reaches_everyone Messenger.Witness.process Messenger.Witness.ids line true_clock Messenger.Witness.pb0 "blocks"
    Messenger.Witness.msg0 "alice" (start Messenger.Witness.bob) (bob_published _) (all_accept _) (line_connected _))
    as [Hall Hend].
  destruct (Hend (window _)) as (k & Hr & Et & Ha & E). split; [exact E|].
  destruct (Hall k _ Hr) as (_ & _ & Honce); [rewrite Et; reflexivity | exact Ha |].
  apply (Honce E). eexists. reflexivity.
Defined.



End Witness.
