(* ===== verification/TestNetwork.v ===== *)
(** * TestNetwork: the networks of the integration tests ([integrationTests/], [issues/])

    The configurations with which the tests create messengers, the network of
    eight peers they connect, the message processors they register, and
    [RunTest], which broadcasts a message and waits until every peer has it.
    Theorem: in every connected network the test succeeds once the message has
    come to rest, whatever the order in which its copies arrive. *)

From S2P Require Import Prelude Errors Config Interfaces Wire TopicMessage Message.
From S2P Require Import TopicProcessors LoadBalancer Rating PeersHolder PeersOnChannel Distances Sharding ConnMonitor Debugger Discovery Topics.
From S2P Require Import Messenger Node Gossip.
From Stdlib Require Import ZArith Lia String.
From stdpp Require Import prelude gmap list strings relations pretty.

Local Open Scope Z_scope.

(** ** Configurations *)

Definition LocalHostListenAddrWithIp4AndTcp : string := "/ip4/127.0.0.1/tcp/%d".

Definition localNode : NodeConfig :=
  mkNodeConfig "0" 0 0 0 (mkTransportConfig (mkTCPProtocolConfig LocalHostListenAddrWithIp4AndTcp false) "" "" "").
Definition nilSharding : ShardingConfig :=
  mkShardingConfig 0 0 0 0 0 0 NilListSharder (mkAdditionalConnectionsConfig 0).

Definition createP2PConfig (initialPeerList : list string) : P2PConfig :=
  mkP2PConfig localNode (mkKadDhtPeerDiscoveryConfig true "optimized" 2 "/drt/kad/1.0.0" initialPeerList 100 100)
    nilSharding.

Definition createP2PConfigWithNoDiscovery : P2PConfig :=
  mkP2PConfig localNode (mkKadDhtPeerDiscoveryConfig false "" 0 "" [] 0 0) nilSharding.

(** The configuration of [CreateMessengerWithKadDht]. *)
Definition kadDhtConfig (initialAddr : string) : P2PConfig :=
  createP2PConfig (if 0 <? Z.of_nat (String.length initialAddr) then [initialAddr] else []).

(** ... and of [CreateMessengerWithKadDhtAndProtocolID]. *)
Definition kadDhtConfigWithProtocolID (initialAddr protocolID : string) : P2PConfig :=
  let cfg := kadDhtConfig initialAddr in
  let kad := KadDhtPeerDiscovery cfg in
  mkP2PConfig (Config.Node cfg)
    (mkKadDhtPeerDiscoveryConfig (Enabled kad) (kad_Type kad) (RefreshIntervalInSec kad) protocolID
       (InitialPeerList kad) (BucketSize kad) (RoutingTableRefreshIntervalInSec kad))
    (Config.Sharding cfg).

Section Config.

Context {M R P PrivateKey : Type} (TestMarshaller : M) (peersHolderStub : P) (ratingStub : R) (NewPrivateKeyMock : PrivateKey).

(** The arguments of [CreateMessengerFromConfig]. *)
Definition messengerArgs (p2pConfig : P2PConfig) : ArgsNetworkMessenger (M := M) (P := P) (R := R) (PrivateKey := PrivateKey) :=
  Node.mkArgs (Some TestMarshaller) p2pConfig (Some tt) (Some peersHolderStub)
    (if 0 <? MaxFullHistoryObservers (AdditionalConnections (Config.Sharding p2pConfig)) then FullArchiveMode else NormalOperation)
    (Some ratingStub) ConnectionWatcherTypePrint (Some NewPrivateKeyMock) (Some tt) (Some tt).

(** [CreateMessengerFromConfig]: an error is only logged, and the messenger is nil. *)
Definition CreateMessengerFromConfig {B : Type}
    (NewNetworkMessenger : ArgsNetworkMessenger (M := M) (P := P) (R := R) (PrivateKey := PrivateKey) -> outcome (result B))
    (p2pConfig : P2PConfig) : outcome (option B) :=
  let! r := NewNetworkMessenger (messengerArgs p2pConfig) in
  Ret (match r with Ok libP2PMes => Some libP2PMes | Err _ => None end).

Definition CreateMessengerWithNoDiscovery {B : Type}
    (NewNetworkMessenger : ArgsNetworkMessenger (M := M) (P := P) (R := R) (PrivateKey := PrivateKey) -> outcome (result B)) :
    outcome (option B) := CreateMessengerFromConfig NewNetworkMessenger createP2PConfigWithNoDiscovery.

(** [new i] is what the construction of the messenger at place [i] meets. *)
Fixpoint createMessengersWithNoDiscovery {B : Type}
    (new : nat -> ArgsNetworkMessenger (M := M) (P := P) (R := R) (PrivateKey := PrivateKey) -> outcome (result B))
    (i numPeers : nat) : outcome (list (option B)) :=
  match numPeers with
  | O => Ret []
  | S numPeers =>
      let! peer := CreateMessengerWithNoDiscovery (new i) in
      let! peers := createMessengersWithNoDiscovery new (S i) numPeers in
      Ret (peer :: peers)
  end.

(** The sharder and the discoverer of the test messengers. *)
Lemma kadDht_components conv self initialAddr :
  createSharder conv (messengerArgs (kadDhtConfig initialAddr)) self = Ok NilListShr /\
  exists okdd, createDiscoverer (messengerArgs (kadDhtConfig initialAddr)) NilListShr = Ok (Optimized okdd) /\
    ok_status okdd = statNotInitialized /\ ok_initialPeersList okdd = InitialPeerList (KadDhtPeerDiscovery (kadDhtConfig initialAddr)).
Proof. split; [done|]. eexists. split; [vm_compute; reflexivity | done]. Qed.

Lemma noDiscovery_components conv self :
  createSharder conv (messengerArgs createP2PConfigWithNoDiscovery) self = Ok NilListShr /\
  createDiscoverer (messengerArgs createP2PConfigWithNoDiscovery) NilListShr = Ok NilDiscoverer.
Proof. done. Qed.

End Config.

(** The first address that is neither a circuit nor a link-local one. *)
Definition GetConnectableAddress (addresses : list string) : string :=
  match list_find (fun addr => ~ (strings_Contains addr "circuit" || strings_Contains addr "169.254")) addresses with
  | Some (_, addr) => addr
  | None => ""
  end.

(** The line [WaitForBootstrapAndShowConnected] logs after its wait: the peers with the
    number of their connections. *)
Definition connectedLine (Pretty : PeerID -> string) (peers : list (PeerID * list PeerID)) : string :=
  String.concat (String (Ascii.ascii_of_nat 10) "") ("Connected peers:" ::
    ((fun '(id, connected) => "Peer " +:+ Pretty id +:+ " is connected to " +:+ pretty (length connected) +:+ " peers") <$> peers)).

(** Every messenger is closed, whatever the others answer. *)
Definition ClosePeers {B : Type} (Close : B -> option error * B) (peers : list B) : list B := (fun p => (Close p).2) <$> peers.

Definition IsIntInSlice (idx : Z) (slice : list Z) : bool := existsb (Z.eqb idx) slice.

Lemma IsIntInSlice_spec idx slice : IsIntInSlice idx slice = true <-> idx ∈ slice.
Proof.
  unfold IsIntInSlice. rewrite existsb_exists. split.
  - intros (x & Hx%list_elem_of_In & ->%Z.eqb_eq). done.
  - intros Hx. exists idx. split; [by apply list_elem_of_In | apply Z.eqb_refl].
Qed.

(** ** The eight peers *)

Section Topology.

Context `{MapRange}.

(** The answer of [ConnectToPeer] at a peer for the address of another one. *)
Context (ConnectToPeer : nat -> nat -> option error).

(** The dials made, and the error that ended them. *)
Fixpoint connectPeerToOthers (idx : nat) (connectToIdxes : list nat) : option error * list (nat * nat) :=
  match connectToIdxes with
  | [] => (None, [])
  | connectToIdx :: rest =>
      match ConnectToPeer idx connectToIdx with
      | Some err => (Some err, [(idx, connectToIdx)])
      | None => let '(err, dials) := connectPeerToOthers idx rest in (err, (idx, connectToIdx) :: dials)
      end
  end.

Fixpoint connectAll (entries : list (nat * list nat)) : option error * list (nat * nat) :=
  match entries with
  | [] => (None, [])
  | (pid, connectTo) :: entries =>
      match connectPeerToOthers pid connectTo with
      | (Some err, dials) => (Some err, dials)
      | (None, dials) => let '(err, dials') := connectAll entries in (err, dials ++ dials')
      end
  end.

Definition createConnections (connections : gmap nat (list nat)) : option error * list (nat * nat) :=
  connectAll (go_range connections).

Definition connections8 : gmap nat (list nat) :=
  list_to_map [(0, [1; 3]); (1, [4]); (2, [5; 3]); (3, [4; 6]); (4, [7])]%nat.

Definition CreateFixedNetworkOf8Peers : option error * list (nat * nat) := createConnections connections8.

Definition edges (entries : list (nat * list nat)) : list (nat * nat) :=
  entries ≫= fun '(pid, connectTo) => (pid,.) <$> connectTo.

Lemma connectPeerToOthers_ok idx l :
  (forall i j, ConnectToPeer i j = None) -> connectPeerToOthers idx l = (None, (idx,.) <$> l).
Proof. intros Hok. induction l as [|j l IH]; [done|]. cbn. by rewrite Hok, IH. Qed.

(** Without errors all pairs are dialled, in the order of the map. *)
Lemma createConnections_ok connections :
  (forall i j, ConnectToPeer i j = None) ->
  exists dials, createConnections connections = (None, dials) /\ dials ≡ₚ edges (map_to_list connections).
Proof.
  intros Hok. exists (edges (go_range connections)). split.
  - unfold createConnections. induction (go_range connections) as [|[i l] entries IH]; [done|].
    cbn [connectAll]. by rewrite connectPeerToOthers_ok, IH.
  - unfold edges. by rewrite go_range_perm.
Qed.

(** Connections lead both ways. *)
Definition linked (dials : list (nat * nat)) (i j : nat) : Prop := (i, j) ∈ dials \/ (j, i) ∈ dials.
#[export] Instance linked_dec dials i j : Decision (linked dials i j).
Proof. unfold linked. apply _. Defined.

Lemma edges8 : edges (map_to_list connections8) ≡ₚ [(0, 1); (0, 3); (1, 4); (2, 5); (2, 3); (3, 4); (3, 6); (4, 7)]%nat.
Proof. apply (bool_decide_unpack _). vm_compute. exact I. Qed.

(** Everybody is connected to the first peer, in whatever order they dialled. *)
Lemma network8_connected dials i :
  dials ≡ₚ edges (map_to_list connections8) -> (i < 8)%nat -> rtc (linked dials) 0%nat i.
Proof.
  rewrite edges8. intros Hd Hi.
  assert (forall a b, linked [(0, 1); (0, 3); (1, 4); (2, 5); (2, 3); (3, 4); (3, 6); (4, 7)]%nat a b -> linked dials a b) as Hl.
  { intros a b. unfold linked. by rewrite Hd. }
  assert (forall a b, bool_decide (linked [(0, 1); (0, 3); (1, 4); (2, 5); (2, 3); (3, 4); (3, 6); (4, 7)]%nat a b) = true ->
            rtc (linked dials) 0%nat a -> rtc (linked dials) 0%nat b) as Hstep.
  { intros a b Hab Hr. apply bool_decide_eq_true in Hab. eapply rtc_r; [exact Hr | by apply Hl]. }
  pose proof (rtc_refl (linked dials) 0%nat) as R0.
  pose proof (Hstep 0 1 eq_refl R0)%nat as R1. pose proof (Hstep 0 3 eq_refl R0)%nat as R3.
  pose proof (Hstep 3 2 eq_refl R3)%nat as R2. pose proof (Hstep 3 4 eq_refl R3)%nat as R4.
  pose proof (Hstep 2 5 eq_refl R2)%nat as R5. pose proof (Hstep 3 6 eq_refl R3)%nat as R6.
  pose proof (Hstep 4 7 eq_refl R4)%nat as R7.
  do 8 (destruct i as [|i]; [assumption|]). lia.
Qed.

End Topology.

(** ** Message processors *)

(** [MessageProcesssor] of [peerDiscovery]; [chanDone]: the signals it sent. *)
Record MessageProcesssor : Type := mkProcessor {
  RequiredValue : bytes;
  chanDone : nat;
  wasDataReceived : bool
}.

Definition NewMessageProcessor (requiredVal : bytes) : MessageProcesssor := mkProcessor requiredVal 0 false.

Definition ProcessReceivedMessage (mp : MessageProcesssor) (message : Message) : option error * MessageProcesssor :=
  (None, if bool_decide (RequiredValue mp = DataField message)
         then mkProcessor (RequiredValue mp) (S (chanDone mp)) true else mp).

Definition WasDataReceived (mp : MessageProcesssor) : bool := wasDataReceived mp.

(** [SimpleMessageProcessor]: the data of the last message. *)
Definition SimpleMessageProcessor : Type := bytes.
Definition simple_ProcessReceivedMessage (smp : SimpleMessageProcessor) (message : Message) :
    option error * SimpleMessageProcessor := (None, DataField message).
Definition GetLastMessage (smp : SimpleMessageProcessor) : bytes := smp.

(** [messageProcessor] of the pubsub tests: the messages by connected peer. *)
Definition messageProcessor : Type := gmap PeerID (list Message).
Definition newMessageProcessor : messageProcessor := ∅.
Definition recording_ProcessReceivedMessage (mp : messageProcessor) (message : Message) (fromConnectedPeer : PeerID) :
    option error * messageProcessor :=
  (None, <[fromConnectedPeer := default [] (mp !! fromConnectedPeer) ++ [message]]> mp).
Definition Messages (mp : messageProcessor) (pid : PeerID) : list Message := default [] (mp !! pid).
Definition AllMessages `{MapRange} (mp : messageProcessor) : list Message := go_range mp ≫= snd.

(** What a processor is after some calls. *)
Definition after_calls {B : Type} (process : B -> Message -> option error * B) (mp : B) (calls : list Message) : B :=
  fold_left (fun mp message => (process mp message).2) calls mp.

Lemma after_calls_received mp messages :
  WasDataReceived (after_calls ProcessReceivedMessage mp messages) = true <->
    WasDataReceived mp = true \/ exists message, message ∈ messages /\ DataField message = RequiredValue mp.
Proof.
  revert mp. induction messages as [|message messages IH]; intros mp.
  - split; [by left | intros [?|(? & ? & _)]; [done | set_solver]].
  - cbn [after_calls fold_left]. fold (after_calls ProcessReceivedMessage (ProcessReceivedMessage mp message).2 messages).
    rewrite IH. cbn [ProcessReceivedMessage snd].
    destruct (bool_decide_reflect (RequiredValue mp = DataField message)) as [E|E]; cbn [WasDataReceived wasDataReceived RequiredValue].
    + split; [intros _; right; exists message; set_solver | by left].
    + set_solver.
Qed.

(** ** RunTest *)

Section RunTest.

Context `{MapRange} `{SortSort}.
Context {X SecretKey R P W D G M Th N : Type}.
Context `{PubSubLaws X} `{PeersRatingHandler R} `{PreferredPeersHolderHandler P} `{PeerDenialEvaluator D}.
Context `{Debugger G} `{MarshalizerLaws M} `{Throttler Th}.
Context (peer_IDFromBytes : bytes -> result PeerID) (mesh : PeerID -> list PeerID) (local : PeerID -> Z -> Z).

(** A processor is its place in [messageProcessors]; it never fails. *)
Abbreviation messenger := (networkMessenger nat X SecretKey R P W D G M Th N).
Definition test_processor (_ : nat) (_ : Message) (_ : PeerID) : option error := None.

Implicit Types (peers : list (PeerID * messenger)) (topic : string).

Definition testMessage (testIndex : Z) : bytes := bytes_of_string ("test " +:+ pretty testIndex).

(** The loop that registers a processor at every peer. *)
Fixpoint registerProcessors (i : nat) peers topic : result (list (PeerID * messenger)) :=
  match peers with
  | [] => Ok []
  | (pid, peer) :: rest =>
      match RegisterMessageProcessor (reg peer) topic "test" (Some i) with
      | (Some err, _) => Err err
      | (None, ts) => let? rest := registerProcessors (S i) rest topic in Ok ((pid, set_reg ts peer) :: rest)
      end
  end.

(** The message is at the publisher, at the true time [t0]. *)
Definition broadcasting peers (p0 : PeerID) (t0 : Z) : state nat X SecretKey R P W D G M Th N :=
  Gossip.mk (list_to_map peers) t0 ∅ [(p0, p0)] [].

(** What the processor of the peer at place [i] has become. *)
Definition processorAt (required : bytes) (s : state nat X SecretKey R P W D G M Th N) (i : nat) (pid : PeerID) :
    MessageProcesssor :=
  after_calls ProcessReceivedMessage (NewMessageProcessor required)
    (call_msg <$> filter (fun c => call_handler c = i) (calls_at s pid)).

(** The check that ends the test. *)
Definition completelyRecv (required : bytes) s (pids : list PeerID) : bool :=
  forallb (fun '(i, pid) => WasDataReceived (processorAt required s i pid)) (imap pair pids).

(** [RunTest]: [arrived] is what has become of the broadcast at the registered
    peers when [durationMsgReceived] ends, unless all have the message before:
    the goroutine that looks at the processors does so after every signal of
    one of them, so that it has seen the last. *)
Definition durationMsgReceived : Z := 2 * second.
Definition RunTest peers (testIndex : Z) topic
    (arrived : list (PeerID * messenger) -> state nat X SecretKey R P W D G M Th N) : bool :=
  match registerProcessors 0 peers topic with
  | Err _ => false
  | Ok peers' => completelyRecv (testMessage testIndex) (arrived peers') peers.*1
  end.

Lemma registerProcessors_ok i peers topic mz :
  (forall pid peer, (pid, peer) ∈ peers -> wf (reg peer) /\ registered (reg peer) topic = ∅ /\ marshalizer peer = mz) ->
  exists peers', registerProcessors i peers topic = Ok peers' /\ peers'.*1 = peers.*1 /\
    forall j pid peer, peers' !! j = Some (pid, peer) ->
      wf (reg peer) /\ registered (reg peer) topic = {["test" := (i + j)%nat]} /\ marshalizer peer = mz.
Proof.
  revert i. induction peers as [|[pid peer] peers IH]; intros i Hp; [by exists []|].
  cbn [registerProcessors]. destruct (Hp pid peer) as (Hwf & Hreg & Em); [by left|].
  destruct (Register_refines (reg peer) topic "test" (Some i) Hwf) as (Hwf' & Hf & Hs).
  destruct (RegisterMessageProcessor _ _ _ _) as [err ts]. cbn [fst snd] in *.
  assert (err = None) as ->.
  { destruct err as [err|]; [|done]. destruct (proj1 (Hf eq_refl)) as [? E]; [done|]. by rewrite Hreg, lookup_empty in E. }
  destruct (IH (S i)) as (peers' & -> & E1 & Hall); [intros; apply (Hp pid0); by right|].
  eexists. split; [reflexivity|]. split; [cbn; by rewrite E1|]. intros [|j] pid' peer'; cbn [lookup list_lookup].
  - intros [= <- <-]. cbn [reg set_reg marshalizer]. split_and!; [done| |done]. rewrite Hs. cbn [spec_op].
    rewrite Hreg, lookup_empty. unfold update. by rewrite decide_True, insert_empty, Nat.add_0_r by done.
  - intros Hj. destruct (Hall j pid' peer' Hj) as (? & -> & ?). by rewrite Nat.add_succ_r.
Qed.

Lemma members_lookup peers p0 t0 pid peer :
  NoDup peers.*1 -> members (broadcasting peers p0 t0) !! pid = Some peer <-> (pid, peer) ∈ peers.
Proof. intros Hnd. symmetry. by apply elem_of_list_to_map. Qed.

Lemma members_dom peers p0 t0 pid : NoDup peers.*1 -> is_Some (members (broadcasting peers p0 t0) !! pid) <-> pid ∈ peers.*1.
Proof.
  intros Hnd. rewrite list_elem_of_fmap. split.
  - intros [peer Hp%members_lookup]; [by exists (pid, peer) | done].
  - intros ([? peer] & -> & Hp). exists peer. by apply members_lookup.
Qed.

(** The registered peers, with the message at the first, are a start of the spreading. *)
Lemma broadcasting_published peers p0 t0 sender topic m msg mz :
  NoDup peers.*1 -> (p0, sender) ∈ peers -> NewMessage peer_IDFromBytes (Some m) (Some mz) = Ok msg ->
  (forall pid peer, (pid, peer) ∈ peers ->
     wf (reg peer) /\ registered (reg peer) topic ≠ ∅ /\ marshalizer peer = mz) ->
  published_by peer_IDFromBytes m topic msg p0 (broadcasting peers p0 t0).
Proof.
  intros Hnd H0' Hm Hp. split_and!; [done..| |].
  - exists sender. by apply members_lookup.
  - exists mz. split; [done|]. intros v peer Hv. apply (Hp v). by apply (members_lookup peers p0 t0).
Qed.

(** A processor whose place is [j] has the data of a message it was called with. *)
Lemma processorAt_received required (s : state nat X SecretKey R P W D G M Th N) j pid identifier msg u :
  mkCall identifier j msg u ∈ calls_at s pid -> DataField msg = required ->
  WasDataReceived (processorAt required s j pid) = true.
Proof.
  intros Hc Hd. apply after_calls_received. right. exists msg. split; [|done].
  apply list_elem_of_fmap. exists (mkCall identifier j msg u). split; [done|]. by apply list_elem_of_filter.
Qed.

(** [C40] Every peer gets the test message.  Take peers without processors on the topic
    and with one marshaller, connected in any way in which everybody can be
    reached from the first.  Registering the processors succeeds; after the
    first peer broadcast the test message, once no copies are left, and no peer
    has refused the message for its timestamp, every processor has received it,
    so that [RunTest] answers true, whatever the order of the arrivals and the
    time they took; and it does come to that when the clocks of the peers are in
    the window of the timestamp. *)
Theorem RunTest_succeeds peers topic testIndex mz :
  NoDup peers.*1 ->
  (forall pid peer, (pid, peer) ∈ peers -> wf (reg peer) /\ registered (reg peer) topic = ∅ /\ marshalizer peer = mz) ->
  exists peers', registerProcessors 0 peers topic = Ok peers' /\
    forall p0 t0 sender sent c sd sender' pub m msg,
      peers' !! 0%nat = Some (p0, sender) ->
      (forall v, v ∈ peers.*1 -> rtc (fun u w => w ∈ mesh u /\ w ∈ peers.*1) p0 v) ->
      clock sent -> Broadcast sender topic (testMessage testIndex) = Ret (Ok (c, sd), sender') ->
      sendRound sender' sent (Some sd) = Some pub ->
      pb_Topic m = Some topic -> pb_Data m = Some (pub_data pub) -> from_peer peer_IDFromBytes m p0 ->
      NewMessage peer_IDFromBytes (Some m) (Some mz) = Ok msg ->
      let s0 := broadcasting peers' p0 t0 in
      (forall k s, reach test_processor peer_IDFromBytes mesh local m topic s0 k s -> all_timely local msg s -> copies s = [] ->
         RunTest peers testIndex topic (fun _ => s) = true) /\
      (window_at local msg s0 t0 ->
         let s := deliver_all test_processor peer_IDFromBytes mesh local m topic (S (Gossip.total mesh s0)) s0 in
         exists k, reach test_processor peer_IDFromBytes mesh local m topic s0 k s /\ all_timely local msg s /\ copies s = []).
Proof.
  intros Hnd Hp. destruct (registerProcessors_ok 0 peers topic mz Hp) as (peers' & E & E1 & Hall).
  exists peers'. split; [done|].
  intros p0 t0 sender sent c sd sender' pub m msg E0 Hconn Hc Eb Es Et Ed Hid Hm s0. rewrite <- E1 in Hnd.
  assert (published_by peer_IDFromBytes m topic msg p0 s0) as Hpub.
  { eapply broadcasting_published; [done | by eapply list_elem_of_lookup_2 | done |].
    intros pid peer [j Hj]%list_elem_of_lookup. destruct (Hall j pid peer Hj) as (? & Hr & ?).
    split_and!; [done| |done]. rewrite Hr. apply insert_non_empty. }
  split; [|intros Hw; destruct (deliver_all_rests test_processor peer_IDFromBytes mesh local m topic msg p0 _ Hpub Hw)
             as (k & ? & _ & ? & ?); by exists k].
  intros k s Hr Ht Er. destruct (Hall 0%nat p0 sender E0) as (_ & _ & Emz).
  destruct (sendRound_broadcast sender sent topic _ topic c sd sender' pub Eb Es) as (Hb & _ & Epub).
  destruct (carried_accepted peer_IDFromBytes sender sender sent sent (testMessage testIndex) topic m p0)
    as (msg' & [Hm' _] & Edata & _);
    [done | done | done | done | split; [done | by rewrite <- Epub] | done | unfold in_window; lia |].
  assert (msg' = msg) as -> by (rewrite Emz in Hm'; congruence).
  unfold RunTest. rewrite E. unfold completelyRecv. apply forallb_forall. intros [i pid] Hi%list_elem_of_In.
  apply list_elem_of_lookup in Hi as [j Hj]. rewrite list_lookup_imap in Hj.
  destruct (peers.*1 !! j) as [pid'|] eqn:Ej; [|done]. injection Hj as <- ->.
  assert (exists peer, peers' !! j = Some (pid, peer)) as [peer Hpeer].
  { rewrite <- E1, list_lookup_fmap in Ej. destruct (peers' !! j) as [[? peer]|]; [|done]. injection Ej as ->. by exists peer. }
  destruct (Hall j pid peer Hpeer) as (_ & Hreg & _).
  destruct (spread_complete test_processor peer_IDFromBytes mesh local m topic msg p0 s0 k s pid Hpub Hr Ht) as [x Hx]; [done| |done|].
  { eapply rtc_subrel; [|apply Hconn; by eapply list_elem_of_lookup_2].
    intros a b [Hab Hb']. split; [done|]. apply members_dom; [done | by rewrite E1]. }
  apply (processorAt_received _ s j pid "test" msg (from x)); [|done].
  rewrite (calls_at_timely test_processor mesh local topic msg p0 s0 k s pid) by (by eapply spread_reach).
  apply list_elem_of_bind. exists x. split; [|done]. unfold s0, all_calls_at, handlers_at, all_calls.
  rewrite (proj2 (members_lookup peers' p0 t0 pid peer Hnd)) by (by eapply list_elem_of_lookup_2).
  rewrite Hreg. apply list_elem_of_fmap. exists ("test", j). split; [done|].
  apply elem_of_map_to_list. by rewrite lookup_singleton_eq.
Qed.

End RunTest.

(** Eight peers, named by their places, connected as the tests connect them. *)
Module Witness.

#[local] Existing Instances Messenger.Witness.rating Messenger.Witness.holder Messenger.Witness.denial
  Messenger.Witness.counter.

Definition fresh : topicsState nat MapPubSub.t (SendableData bytes) := run_ops (newTopics MapPubSub.empty) [OpCreate "test" true].

Definition peer (i : nat) : PeerID * Messenger.Witness.node := (pretty i, set_reg fresh (Messenger.Witness.new_node (pretty i))).
Definition peers8 : list (PeerID * Messenger.Witness.node) := peer <$> seq 0 8.

Definition true_clock (_ : PeerID) (t : Z) : Z := t.

(** Pubsub forwards along the connections. *)
Definition mesh8 (u : PeerID) : list PeerID :=
  seq 0 8 ≫= fun i => if decide (pretty i = u)
                      then pretty <$> filter (linked (edges (map_to_list connections8)) i) (seq 0 8) else [].

Lemma peers8_fresh pid peer :
  (pid, peer) ∈ peers8 -> wf (reg peer) /\ registered (reg peer) "test" = ∅ /\ marshalizer peer = tt.
Proof.
  intros (i & [= -> ->] & _)%list_elem_of_fmap. cbn [reg set_reg]. split_and!; [| |reflexivity].
  - apply run_ops_refines, wf_newTopics; reflexivity.
  - apply (bool_decide_unpack _). vm_compute. exact I.
Qed.

Lemma peers8_NoDup : NoDup peers8.*1.
Proof. apply (bool_decide_unpack _). vm_compute. exact I. Qed.

Lemma mesh8_linked i j :
  (i < 8)%nat -> (j < 8)%nat -> linked (edges (map_to_list connections8)) i j -> pretty j ∈ mesh8 (pretty i).
Proof.
  intros Hi Hj Hl. unfold mesh8. apply list_elem_of_bind. exists i. split; [|apply elem_of_seq; lia].
  rewrite decide_True by done. apply list_elem_of_fmap. exists j. split; [done|].
  apply list_elem_of_filter. split; [done | apply elem_of_seq; lia].
Qed.

Lemma peers8_names v : v ∈ peers8.*1 <-> exists i : nat, v = pretty i /\ (i < 8)%nat.
Proof.
  unfold peers8. rewrite <- list_fmap_compose, list_elem_of_fmap. unfold compose, peer; cbn [fst].
  split; intros (i & -> & Hi); exists i; rewrite elem_of_seq in *; split; done || lia.
Qed.

Lemma linked8_bound i j : linked (edges (map_to_list connections8)) i j -> (i < 8 /\ j < 8)%nat.
Proof.
  unfold linked. rewrite edges8, !list_elem_of_In. cbn [In].
  intros [Hl|Hl]; repeat (destruct Hl as [[= <- <-]|Hl]; [lia|]); destruct Hl.
Qed.

Lemma mesh8_connected v :
  v ∈ peers8.*1 -> rtc (fun u w => w ∈ mesh8 u /\ w ∈ peers8.*1) (pretty 0%nat) v.
Proof.
  intros (i & -> & Hi)%peers8_names.
  apply (rtc_congruence pretty (R := linked (edges (map_to_list connections8)))); [|by apply network8_connected].
  intros a b Hl. destruct (linked8_bound a b Hl). split; [by apply mesh8_linked | apply peers8_names; by exists b].
Qed.

Definition registered8 : list (PeerID * Messenger.Witness.node) :=
  match registerProcessors 0 peers8 "test" with Ok peers => peers | Err _ => [] end.
Definition sender8 : Messenger.Witness.node :=
  match registered8 with (_, sender) :: _ => sender | [] => Messenger.Witness.alice end.

Lemma registerProcessors8 : registerProcessors 0 peers8 "test" = Ok registered8.
Proof.
  destruct (registerProcessors_ok 0 peers8 "test" tt peers8_fresh) as (peers' & E & _). unfold registered8. by rewrite E.
Qed.
Lemma first8 : registered8 !! 0%nat = Some (pretty 0%nat, sender8).
Proof.
  destruct (registerProcessors_ok 0 peers8 "test" tt peers8_fresh) as (peers' & E & E1 & _).
  unfold sender8, registered8. rewrite E. destruct peers' as [|[pid sender] peers']; [done|].
  cbn [fmap list_fmap peers8 seq fst peer] in E1. injection E1 as ->. done.
Qed.

Definition sent8 : Z := Messenger.Witness.now - second.
Definition data8 : bytes := createMessageBytes sender8 sent8 (testMessage 1).
Definition m8 : pb_Message :=
  mkPb (Some (bytes_of_string "0")) (Some data8) (Some [Byte.x01]) (Some "test") None None.
Definition msg8 : Message :=
  mkMessage (Some (bytes_of_string "0")) (testMessage 1) (Some data8) (Some [Byte.x01]) "test" None None "0" 1699999999.

Lemma decoded8 : NewMessage Messenger.Witness.ids (Some m8) (Some tt) = Ok msg8.
Proof. vm_compute. reflexivity. Qed.
Lemma broadcast8 : exists c sd sender',
  Broadcast sender8 "test" (testMessage 1) = Ret (Ok (c, sd), sender') /\
  sendRound sender' sent8 (Some sd) = Some (mkPublication 0%nat data8 None).
Proof. eexists _, _, _. split; [reflexivity | vm_compute; reflexivity]. Qed.

Abbreviation start8 := (broadcasting registered8 (pretty 0%nat) Messenger.Witness.now).

Lemma RunTest_succeeds_witness :
  RunTest peers8 1 "test" (fun _ => deliver_all test_processor Messenger.Witness.ids mesh8 true_clock m8 "test"
    (S (Gossip.total mesh8 start8)) start8) = true.
Proof.
  destruct (RunTest_succeeds Messenger.Witness.ids mesh8 true_clock peers8 "test" 1 tt peers8_NoDup peers8_fresh) as (peers' & E & Hrun).
  rewrite registerProcessors8 in E. injection E as <-.
  destruct broadcast8 as (c & sd & sender' & Eb & Es).
  destruct (Hrun _ Messenger.Witness.now _ sent8 c sd sender' (mkPublication 0%nat data8 None) m8 msg8 first8 mesh8_connected) as [Htrue Hend];
    [|exact Eb | exact Es | exact eq_refl | exact eq_refl | exact eq_refl | exact decoded8 |].
  - unfold clock, sent8, Messenger.Witness.now, second. lia.
  - destruct Hend as (k & Hr & Ha & Er); [|exact (Htrue k _ Hr Ha Er)].
    intros v _. split; [exact Messenger.Witness.now_clock|].
    unfold in_window. split; vm_compute; discriminate.
Defined.

End Witness.
