(* ===== verification/Issue349.v ===== *)
(** * Issue349: the program that reproduces a pubsub issue ([issues/pubsub_349/main.go])

    Eight raw libp2p hosts with pubsub, connected as in [TestNetwork] but without
    stopping at a dial that fails: the error is printed and the next peer is dialled.
    The network of the hosts is the class [HostNetwork], with the documented effect of
    a connection as its law.  Theorem: all dials are made, in whatever order the map is
    visited, the peers are linked by exactly those that succeeded, and when all do the
    program prints the number of neighbours each peer has in the drawing. *)

From S2P Require Import Prelude Errors Interfaces TestNetwork.
From Stdlib Require Import ZArith Lia String.
From stdpp Require Import prelude gmap list strings pretty.

Local Open Scope Z_scope.

(** [host.Connect], the peers [host.Network()] is connected to, and [host.Close]. *)
Class HostNetwork (Net : Type) : Type := {
  host_Connect : Net -> PeerID -> PeerID * list string -> Net * option error;
  network_Peers : Net -> PeerID -> list PeerID;
  host_Close : Net -> PeerID -> Net
}.

(** A connection leads both ways; a dial that fails changes nothing. *)
Class HostNetworkLaws (Net : Type) `{HostNetwork Net} : Prop := {
  Peers_NoDup net x : NoDup (network_Peers net x);
  Connect_links net a b addrs x y :
    (host_Connect net a (b, addrs)).2 = None -> a ≠ b ->
    y ∈ network_Peers (host_Connect net a (b, addrs)).1 x <->
      y ∈ network_Peers net x \/ (x = a /\ y = b) \/ (x = b /\ y = a);
  Connect_fails net a target x err :
    (host_Connect net a target).2 = Some err -> network_Peers (host_Connect net a target).1 x = network_Peers net x
}.

Record messenger : Type := mkMessenger {
  host_ID : PeerID;
  host_Addrs : list string;
  topic : option string
}.

Section Program.

Context `{MapRange} {Net : Type} `{HostNetwork Net}.
Implicit Types (net : Net) (m target : messenger) (peers : list messenger).

(** The dial and the line that is printed when it fails. *)
Definition connectTo net m target : Net * option error * list string :=
  let '(net, err) := host_Connect net (host_ID m) (host_ID target, host_Addrs target) in
  (net, err, match err with Some err => ["error connecting to peer: " +:+ Error err] | None => [] end).

(** The goroutine of [joinTopic] prints every message until [Next] fails. *)
Definition joinTopic (name : string) m : messenger := mkMessenger (host_ID m) (host_Addrs m) (Some name).
Definition gotMessage m (data : string) : string := host_ID m +:+ ": got message " +:+ data.
Fixpoint printMessages m (next : list (result string)) : list string :=
  match next with
  | Ok data :: next => gotMessage m data :: printMessages m next
  | _ => []
  end.

(** What a dial was and how it ended. *)
Abbreviation dial := (nat * nat * option error)%type.

Fixpoint connectPeerToOthers net peers (idx : nat) (connectToIdxes : list nat) : outcome (Net * list dial * list string) :=
  match connectToIdxes with
  | [] => Ret (net, [], [])
  | connectToIdx :: rest =>
      match peers !! idx, peers !! connectToIdx with
      | Some m, Some target =>
          let '(net, err, out) := connectTo net m target in
          let! r := connectPeerToOthers net peers idx rest in
          let '(net, dials, out') := r in Ret (net, (idx, connectToIdx, err) :: dials, out ++ out')
      | _, _ => Panic
      end
  end.

Fixpoint connectEntries net peers (entries : list (nat * list nat)) : outcome (Net * list dial * list string) :=
  match entries with
  | [] => Ret (net, [], [])
  | (pid, connectTo) :: entries =>
      let! r := connectPeerToOthers net peers pid connectTo in
      let '(net, dials, out) := r in
      let! r := connectEntries net peers entries in
      let '(net, dials', out') := r in Ret (net, dials ++ dials', out ++ out')
  end.

Definition createConnections net peers (connections : gmap nat (list nat)) : outcome (Net * list dial * list string) :=
  connectEntries net peers (go_range connections).

(** The hosts are given; [newMessenger] ignores the errors of its constructors. *)
Definition create8ConnectedPeers net peers : outcome (Net * list dial * list string) :=
  let created := imap (fun i m => pretty i +:+ " - created peer " +:+ host_ID m) peers in
  let! r := createConnections net peers connections8 in
  let '(net, dials, out) := r in Ret (net, dials, created ++ out).

Definition printConnections net peers : list string :=
  (fun m => " " +:+ host_ID m +:+ " is connected to " +:+ pretty (length (network_Peers net (host_ID m))) +:+ " peers") <$> peers.

(** [main], [nets] being what becomes of the network until the connections are printed; at
    the end the hosts are closed. *)
Definition main net peers (nets : Net -> nat -> Net) : outcome (list messenger * list string * (Net -> Net)) :=
  let! r := create8ConnectedPeers net peers in
  let '(net, _, out) := r in
  let peers := joinTopic "test" <$> peers in
  Ret (peers,
       ["creating 8 host connected statically..."] ++ out ++ [""] ++
         (seq 0 10 ≫= fun i => printConnections (nets net i) peers ++ [""]),
       fun net => fold_left host_Close (host_ID <$> peers) net).

End Program.

Section Correctness.

Context `{MapRange} {Net : Type} `{HostNetworkLaws Net}.
Implicit Types (net : Net) (peers : list messenger).

(** The dials that succeeded link their ends. *)
Definition linked_by peers (dials : list (nat * nat * option error)) (x y : PeerID) : Prop :=
  exists i j mi mj, (i, j, None) ∈ dials /\ peers !! i = Some mi /\ peers !! j = Some mj /\
    ((x = host_ID mi /\ y = host_ID mj) \/ (x = host_ID mj /\ y = host_ID mi)).

Lemma linked_by_app peers d1 d2 x y : linked_by peers (d1 ++ d2) x y <-> linked_by peers d1 x y \/ linked_by peers d2 x y.
Proof. unfold linked_by. setoid_rewrite elem_of_app. naive_solver. Qed.

(** What a sequence of dials does. *)
Definition connected net peers (r : outcome (Net * list (nat * nat * option error) * list string)) (pairs : list (nat * nat)) : Prop :=
  exists net' dials out, r = Ret (net', dials, out) /\ dials.*1 = pairs /\
    forall x y, y ∈ network_Peers net' x <-> y ∈ network_Peers net x \/ linked_by peers dials x y.

Definition dialable peers (ij : nat * nat) : Prop :=
  exists mi mj, peers !! ij.1 = Some mi /\ peers !! ij.2 = Some mj /\ host_ID mi ≠ host_ID mj.

Lemma connectTo_links net peers i j mi mj :
  peers !! i = Some mi -> peers !! j = Some mj -> host_ID mi ≠ host_ID mj ->
  forall x y, y ∈ network_Peers (connectTo net mi mj).1.1 x <->
    y ∈ network_Peers net x \/ linked_by peers [(i, j, (connectTo net mi mj).1.2)] x y.
Proof.
  intros Hi Hj Hne x y. unfold connectTo.
  pose proof (Connect_links net (host_ID mi) (host_ID mj) (host_Addrs mj) x y) as Hok.
  pose proof (Connect_fails net (host_ID mi) (host_ID mj, host_Addrs mj) x) as Hno.
  destruct (host_Connect _ _ _) as [net' [err|]]; cbn [fst snd] in *.
  - rewrite (Hno err) by done. split; [by left | intros [?|(? & ? & ? & ? & [=]%list_elem_of_singleton & _)]; done].
  - rewrite Hok by done. split.
    + intros [?|Hl]; [by left | right]. exists i, j, mi, mj. split_and!; [by apply list_elem_of_singleton | done..|].
      naive_solver.
    + intros [?|(? & ? & mi' & mj' & [= -> ->]%list_elem_of_singleton & Hi' & Hj' & Hl)]; [by left | right].
      simplify_eq. naive_solver.
Qed.

Lemma connectPeerToOthers_connected net peers idx l :
  Forall (fun j => dialable peers (idx, j)) l -> connected net peers (connectPeerToOthers net peers idx l) ((idx,.) <$> l).
Proof.
  intros Hl. revert net. induction Hl as [|j l (mi & mj & Hi & Hj & Hne) _ IH]; intros net.
  - exists net, [], []. split_and!; [done..|]. intros x y. split; [by left | intros [?|(? & ? & ? & ? & ?%elem_of_nil & _)]; done].
  - cbn [connectPeerToOthers fst snd] in *. rewrite Hi, Hj. pose proof (connectTo_links net peers idx j mi mj Hi Hj Hne) as Hc.
    destruct (connectTo net mi mj) as [[net1 err] out]; cbn [fst snd] in Hc.
    destruct (IH net1) as (net' & dials & out' & E & Ed & Hp). rewrite E. eexists _, _, _. split; [reflexivity|].
    split; [cbn; by rewrite Ed|]. intros x y.
    rewrite Hp, Hc, (linked_by_app peers [(idx, j, err)] dials). tauto.
Qed.

Lemma connectEntries_connected net peers entries :
  Forall (dialable peers) (edges entries) -> connected net peers (connectEntries net peers entries) (edges entries).
Proof.
  revert net. induction entries as [|[i l] entries IH]; intros net Hall.
  - exists net, [], []. split_and!; [done..|]. intros x y. split; [by left | intros [?|(? & ? & ? & ? & ?%elem_of_nil & _)]; done].
  - change (edges ((i, l) :: entries)) with (((i,.) <$> l) ++ edges entries) in *. apply Forall_app in Hall as [Hl Hall].
    rewrite Forall_fmap in Hl. cbn [connectEntries].
    destruct (connectPeerToOthers_connected net peers i l Hl) as (net1 & d1 & o1 & E1 & Ed1 & Hp1). rewrite E1.
    destruct (IH net1 Hall) as (net2 & d2 & o2 & E2 & Ed2 & Hp2). rewrite E2. eexists _, _, _. split; [reflexivity|].
    split; [by rewrite fmap_app, Ed1, Ed2|]. intros x y. rewrite Hp2, Hp1, linked_by_app. tauto.
Qed.

Lemma dialable8 peers ij :
  NoDup (host_ID <$> peers) -> length peers = 8%nat -> ij ∈ edges (map_to_list connections8) -> dialable peers ij.
Proof.
  intros Hnd Hl. rewrite edges8. intros Hin.
  assert ((ij.1 < 8 /\ ij.2 < 8 /\ ij.1 ≠ ij.2)%nat) as (H1' & H2' & Hne).
  { apply list_elem_of_In in Hin. cbn [In] in Hin. repeat (destruct Hin as [<-|Hin]; [cbn; lia|]). destruct Hin. }
  destruct (lookup_lt_is_Some_2 peers ij.1 ltac:(lia)) as [mi Hi], (lookup_lt_is_Some_2 peers ij.2 ltac:(lia)) as [mj Hj].
  exists mi, mj. split_and!; [done..|]. intros E. apply Hne. eapply NoDup_lookup; [exact Hnd| |];
    rewrite list_lookup_fmap; [by rewrite Hi | by rewrite Hj, E].
Qed.

(** The number of neighbours of each peer in the drawing. *)
Definition neighbours8 : list nat := [2; 2; 2; 4; 3; 1; 1; 1]%nat.

Lemma neighbours8_ok dials i :
  dials ≡ₚ edges (map_to_list connections8) -> (i < 8)%nat ->
  neighbours8 !! i = Some (length (filter (linked dials i) (seq 0 8))).
Proof.
  intros Hd Hi. assert (filter (linked dials i) (seq 0 8) = filter (linked (edges (map_to_list connections8)) i) (seq 0 8)) as ->.
  { apply list_filter_iff. intros j. unfold linked. by rewrite Hd. }
  do 8 (destruct i as [|i]; [vm_compute; reflexivity|]). lia.
Qed.

(** When all dials succeed, from no connections. *)
Lemma all_connected net' peers dials i mi :
  NoDup (host_ID <$> peers) -> length peers = 8%nat -> dials.*1 ≡ₚ edges (map_to_list connections8) ->
  (forall d, d ∈ dials -> d.2 = None) -> (forall x y, y ∈ network_Peers net' x <-> linked_by peers dials x y) ->
  peers !! i = Some mi -> neighbours8 !! i = Some (length (network_Peers net' (host_ID mi))).
Proof.
  intros Hnd Hl Hperm Hok Hp Hi. assert (i < 8)%nat as Hi8 by (rewrite <- Hl; by eapply lookup_lt_Some).
  rewrite (neighbours8_ok dials.*1 i Hperm Hi8). f_equal.
  set (name := fun j => default "" (host_ID <$> peers !! j)).
  assert (forall a b m, peers !! a = Some m -> name b = host_ID m -> (b < 8)%nat -> a = b) as Hinj.
  { intros a b m Ha Hb Hb8. destruct (lookup_lt_is_Some_2 peers b ltac:(lia)) as [m' Hm'].
    unfold name in Hb. rewrite Hm' in Hb. cbn in Hb. eapply NoDup_lookup; [exact Hnd| |]; rewrite list_lookup_fmap;
      [by rewrite Ha | by rewrite Hm', <- Hb]. }
  assert (forall a b, (a, b) ∈ dials.*1 -> (a, b, None) ∈ dials) as Hnone.
  { intros a b ([[a' b'] e] & [= -> ->] & Hin)%list_elem_of_fmap. by rewrite <- (Hok _ Hin). }
  transitivity (length (name <$> filter (linked dials.*1 i) (seq 0 8))); [by rewrite length_fmap|].
  apply Permutation_length, NoDup_Permutation; [|apply Peers_NoDup|].
  - apply NoDup_fmap_2_strong; [|apply NoDup_filter, NoDup_seq].
    intros a b [_ Ha%elem_of_seq]%list_elem_of_filter [_ Hb%elem_of_seq]%list_elem_of_filter E.
    destruct (lookup_lt_is_Some_2 peers a ltac:(lia)) as [m Hm]. eapply Hinj; [exact Hm | | lia].
    rewrite <- E. unfold name. by rewrite Hm.
  - intros y. rewrite Hp, list_elem_of_fmap. split.
    + intros (j & -> & [Hlk Hj%elem_of_seq]%list_elem_of_filter).
      destruct (lookup_lt_is_Some_2 peers j ltac:(lia)) as [mj Hmj]. unfold name. rewrite Hmj. cbn.
      destruct Hlk as [Hin|Hin]; [exists i, j, mi, mj | exists j, i, mj, mi]; (split_and!; [by apply Hnone | done | done|]); tauto.
    + intros (a & b & ma & mb & Hin & Ha & Hb & Hxy).
      assert ((a, b) ∈ dials.*1) as Hab by (apply list_elem_of_fmap; by exists (a, b, None)).
      assert (a < 8 /\ b < 8)%nat as [] by (split; rewrite <- Hl; by eapply lookup_lt_Some).
      assert (forall c mc, peers !! c = Some mc -> name c = host_ID mc) as Hname by (intros c mc Hc; unfold name; by rewrite Hc).
      destruct Hxy as [[E ->]|[E ->]].
      * assert (i = a) as -> by (eapply Hinj; [exact Hi | by rewrite E, (Hname a ma) | done]).
        exists b. split; [by rewrite (Hname b mb)|]. apply list_elem_of_filter. split; [by left | apply elem_of_seq; lia].
      * assert (i = b) as -> by (eapply Hinj; [exact Hi | by rewrite E, (Hname b mb) | done]).
        exists a. split; [by rewrite (Hname a ma)|]. apply list_elem_of_filter. split; [by right | apply elem_of_seq; lia].
Qed.

(** The eight hosts.  With eight different hosts all eight dials of the drawing are
    made, in whatever order the map is visited and whichever of them fail; afterwards two
    hosts are connected exactly if they were before or a dial between them succeeded.  When
    all succeed and there were no connections, the program prints for every peer the number
    of its neighbours in the drawing. *)
Theorem create8_links net peers :
  NoDup (host_ID <$> peers) -> length peers = 8%nat ->
  exists net' dials out, create8ConnectedPeers net peers = Ret (net', dials, out) /\
    dials.*1 ≡ₚ edges (map_to_list connections8) /\
    (forall x y, y ∈ network_Peers net' x <-> y ∈ network_Peers net x \/ linked_by peers dials x y) /\
    ((forall d, d ∈ dials -> d.2 = None) -> (forall x, network_Peers net x = []) ->
     printConnections net' peers =
       zip_with (fun m n => " " +:+ host_ID m +:+ " is connected to " +:+ pretty n +:+ " peers") peers neighbours8).
Proof.
  intros Hnd Hl. assert (edges (go_range connections8) ≡ₚ edges (map_to_list connections8)) as Hperm
    by (unfold edges; by rewrite go_range_perm).
  destruct (connectEntries_connected net peers (go_range connections8)) as (net' & dials & out & E & Ed & Hp).
  { apply Forall_forall. intros ij Hij. apply dialable8; [done..|]. by rewrite <- Hperm. }
  unfold create8ConnectedPeers, createConnections. rewrite E. eexists _, _, _. split; [reflexivity|].
  split_and!; [by rewrite Ed | exact Hp|]. intros Hok Hnone. apply list_eq. intros i. unfold printConnections.
  rewrite list_lookup_fmap, lookup_zip_with. destruct (peers !! i) as [mi|] eqn:Hi; [|done].
  rewrite (all_connected net' peers dials i mi); [done|done|done|by rewrite Ed|done| |done].
  intros x y. rewrite Hp, Hnone. set_solver.
Qed.

End Correctness.

Module Witness.

(** The connections, as pairs; a host never dials [carol]. *)
#[export] Instance pairs : HostNetwork (list (PeerID * PeerID)) := {
  host_Connect net a target :=
    if decide (target.1 = "carol") then (net, Some (ErrText "refused")) else ((a, target.1) :: (target.1, a) :: net, None);
  network_Peers net x := remove_dups (snd <$> filter (fun e => e.1 = x) net);
  host_Close net x := filter (fun e => e.1 ≠ x /\ e.2 ≠ x) net
}.

#[export] Instance pairs_laws : HostNetworkLaws (list (PeerID * PeerID)).
Proof.
  constructor.
  - intros. apply NoDup_remove_dups.
  - intros net a b addrs x y. cbn [host_Connect network_Peers pairs fst]. case_decide; [done|]. intros _ _. cbn [fst].
    rewrite !elem_of_remove_dups, !list_elem_of_fmap. setoid_rewrite list_elem_of_filter. split.
    + intros ([u v] & -> & <- & [[= -> ->]|[[= -> ->]|Hin]%elem_of_cons]%elem_of_cons); cbn [fst snd] in *.
      * right; left. done.
      * right; right. done.
      * left. by exists (u, v).
    + intros [([u v] & -> & <- & Hin)|[[-> ->]|[-> ->]]]; [exists (u, v) | exists (a, b) | exists (b, a)]; set_solver.
  - intros net a target x err. cbn [host_Connect pairs]. by case_decide.
Qed.

Definition peers8 : list messenger :=
  (fun id => mkMessenger id ["/ip4/0.0.0.0/tcp/0"] None) <$> ["p0"; "p1"; "p2"; "p3"; "p4"; "p5"; "p6"; "p7"].

Lemma create8_links_witness : exists net' dials out,
  create8ConnectedPeers (Net := list (PeerID * PeerID)) [] peers8 = Ret (net', dials, out) /\ length dials = 8%nat /\
  nth 3 (printConnections net' peers8) "" = " p3 is connected to 4 peers".
Proof.
  destruct (create8_links (Net := list (PeerID * PeerID)) [] peers8) as (net' & dials & out & E & Hd & _ & Hp).
  - apply (bool_decide_unpack _). vm_compute. exact I.
  - reflexivity.
  - exists net', dials, out. split; [exact E|]. vm_compute in E. injection E as <- <- <-. split; [reflexivity|].
    rewrite Hp; [vm_compute; reflexivity | | intros x; reflexivity].
    apply Forall_forall. repeat constructor.
Defined.

End Witness.
